(* ===== verification/_CoqProject ===== *)
-Q . S2P
Prelude.v
Mem.v
MathLib.v
Bitmap.v
Frames.v
PMemory.v
VMemory.v
Heap.v
HeapBoot.v
Vector.v
Str.v
Printf.v
PciDesc.v
PortIO.v
Mmio.v
Cpu.v
Pci.v
Acpi.v
Lock.v
Pit.v
Terminal.v
Serial.v
Keyboard.v
Framebuffer.v
Ssfn.v
Mouse.v
Clock.v
Datetime.v
Apic.v
Gdt.v
Scheduler.v
Cores.v
Exit.v
Idt.v
Smp.v
Vfs.v
Shell.v
Boot.v
Kernel.v
Main.v
Typed.v
Diagnostics.v
Threads.v
Handoff.v
