(* ===== verification/Prelude.v ===== *)
(** * Turb-OS: a verification library for the kernel

    Turb-OS is a small 64-bit kernel that a stivale2 loader starts.  This
    library models its code under [src/src] as Rocq functions and proves what
    the functions do.  The build passes [-fsanitize=undefined] with handlers
    that log and go on, so signed arithmetic wraps, here as there.

    ** Parts and how they interact

    [kernel.cpp] finds the loader's tags and calls [main], which initialises
    everything below and runs the shell.  Everything shares one memory: page
    frames come from [pMemory], whose bitmap is in memory; [vMemory] builds page
    tables in them; the heap asks [pMemory] for regions; the vector, the
    scheduler, the file system and the drivers get their blocks from the heap.
    Interrupts go through [idt] to handlers; the timer's runs the scheduler,
    the keyboard's and the mouse's fill buffers that [getLine] and the
    framebuffer use.  Devices are reached through ports, mapped registers and
    model-specific registers.

    ** Files

    Each file has one Module of its own name (others are named here) and keeps
    the names of the source.  Paths are below [src/src].

    - [Prelude]: machine integers ([wrap], [swrap]), the result monad, loops,
      tactics and hints.  [Mem]: byte memory, [lib/memory].  [MathLib]:
      [lib/math].  [Str]: [lib/string].  [Vector]: [lib/TurboVector].  [Lock]:
      [lib/lock].  [Printf]: [drivers/display/terminal/printf.c].
    - Memory: [Bitmap], [PMemory], [VMemory], [Heap] for the directories of
      [system/memory]; [Frames] is the class of what an allocator of frames
      promises, which [PMemory] implements and [VMemory] is proved against;
      [HeapBoot] is the heap over the allocator: requests that must succeed.
    - Devices: [PortIO] (ports: [lib/portIO.cpp]), [Mmio] (registers:
      [lib/memory/mmio.cpp]), [Cpu] (control registers, [lib/cpu]); on them
      [Pci] and [PciDesc] ([system/PCI]), [Acpi] ([system/ACPI]), [Serial] and
      [Terminal] ([drivers/display]), [Keyboard] and [Mouse]
      ([drivers/devices]), [Framebuffer] and [Ssfn] (text: [ssfn.cpp] and
      [ssfn_putc] of [ssfn.h]).
    - Time: [Pit], [Clock] (Modules [Rtc], [Hpet], [Omtime]) and [Datetime]
      ([getTime]) for [system/CPU/scheduling].
    - Processors: [Gdt], [Apic], [Idt] (Modules [Pic], [Idt], [Power]), [Smp]
      and [Scheduler] for the directories of [system/CPU]; [Cores] is the
      scheduler on several processors, [Exit] what an exit does to it.
    - [Vfs] ([drivers/fs/vfs]), [Shell] ([apps/turboShell.cpp] and
      [lib/panic.cpp]) and [Boot] ([kernel/kernel.cpp]).
    - The whole: [Kernel] is one state for all parts, with [getmemsize]
      ([lib/memory/memory.cpp]); [Main] is [kernel/main.cpp] over it; [Typed] is
      the types of that state; [Diagnostics] (Modules [Ubsan], [Exception]) is
      [system/ubsan] and the exceptions of [idt.cpp]; [Threads] is the threads
      [myTime] and [nano]; [Handoff] is the program from [_start] on, over the
      loader's structure in memory, and the header that asks the loader for it.

    ** Conventions

    An operation is a function of the state it changes.  It returns a [result]:
    [Ret], [Fault] where the code dereferences null, leaves an array that the
    model bounds, divides by zero or reads a missing object, and [Diverge] where
    it never returns: a spin lock that is held by the only running code, or a
    loop that is out of fuel.  State that the code shares (memory, the heap's
    objects, buffers between a handler and the code it interrupts) is explicit
    and aliases as it does in the code.  A device is an arbitrary function of
    the history of accesses, so the theorems hold for every device, or for those
    that a hypothesis describes.  Interleavings are step relations ([Lock],
    [Smp], [Cores]) or lists of events ([Keyboard]).

    ** Fuel

    Loops to a terminator, waits and chains of links take fuel.  The theorems
    say how much is enough: the length of the string, list or table ([Str],
    [Acpi], [Boot]), the number of threads ([Scheduler.enough]), twice the
    radius of a circle ([Framebuffer]), the number of codes of a font ([Ssfn]),
    the number of polls that a device takes ([Serial], [Clock]).  Where no fuel
    is enough ([Boot] on a cyclic list, locks that are held) the theorem says
    so.  Loops whose bound is a byte or a constant of the source have it as
    fuel.

    ** What the theorems show

    - Memory: [alloc] is next-fit and claims exactly free frames, [init] frees
      exactly the usable ones, [free] undoes [alloc]; every page-table operation
      changes the entry of its page alone; [malloc] and [free] keep the heap
      tiled and the blocks in use intact; errors of expansion and search.
    - Text: [snprintf] is its format's text cut to the buffer, integers print as
      their numerals within their buffer; the string functions; [getTime] fits
      its array; [ssfn_putc] sets exactly a glyph's visible pixels, and its
      table search ends.
    - Processors: mutual exclusion of the lock under every interleaving; all
      processors are up when [smp::init] says so; the timer interrupt resumes
      the thread that the scheduler picks, with its registers, and is
      acknowledged once; no thread runs on two processors, whenever and wherever
      the timer interrupts and threads are blocked, unless one is unblocked
      before its processor has left it; the first process starves; an
      exit lets the scheduler read a freed process; [createProc]; routing of
      an interrupt through the I/O APICs.
    - Drivers: [getLine] returns the typed line; the mouse keeps its cursor on
      the screen and the picture under it; lines and circles are the ideal ones
      and end; the serial line's protocol; PCI enumeration and ACPI tables; the
      clock's epoch is off by known days.
    - The whole: from the loader's structure in memory, with room in its memory
      map, the entry always sets up memory, segments and interrupts, in blocks
      and frames that do not meet; the start says of
      every part what became of it; it keeps the state in C's types; an
      exception is reported and halts, unless it hits a log line.
    - Files and shell: [create] then [getChild]; [mkdir] then [ls]; how a line
      becomes a command, and how [cd] loses the tree.

    ** Not modelled

    The floating-point half of [printf.c] and the vector renderer of [ssfn.h]
    are not compiled. Log lines on the serial port are left out of the
    components below [Main] and [Diagnostics]. The assembly stubs of [idt.asm]
    and the page faults of the processor are below the model: addresses are
    always mapped. [Cores] interleaves switches, creations, blocking and
    unblocking, each one step - the race of a creation with a switch on another
    processor is a finding, not a behaviour of the model - and leaves out
    exiting. [TurboVector::insert] is never instantiated. In [Main] the blocks
    of the vectors of [Vfs], [Pci] and [Acpi] are not charged to the heap, the
    object of a page map is a value, and the framebuffer has a memory of its
    own; the steps of the processors are an order that is given. [myTime] of
    [main.cpp] is compiled but never called. The loader's files are not part of
    the kernel. *)

From stdpp Require Export base numbers list option gmap strings fin_maps.

#[local] Open Scope Z_scope.

(** ** Machine integers

    An unsigned integer of [w] bits is a [Z] in [[0, 2^w)]; the conversion of
    C and C++ to such a type is [wrap w].  [swrap w] is the conversion to the
    two's complement signed type of the same width. *)

Definition wrap (w z : Z) : Z := z mod 2 ^ w.

Definition swrap (w z : Z) : Z :=
  let r := z mod 2 ^ w in if r <? 2 ^ (w - 1) then r else r - 2 ^ w.

Declare Scope machine_scope.
Delimit Scope machine_scope with M.
Abbreviation u8 := (wrap 8).
Abbreviation u16 := (wrap 16).
Abbreviation u32 := (wrap 32).
Abbreviation u64 := (wrap 64).
Abbreviation s8 := (swrap 8).
Abbreviation s16 := (swrap 16).
Abbreviation s32 := (swrap 32).
Abbreviation s64 := (swrap 64).
Notation "a +64 b" := (wrap 64 (a + b)) (at level 50, left associativity) : machine_scope.
Notation "a -64 b" := (wrap 64 (a - b)) (at level 50, left associativity) : machine_scope.
Notation "a *64 b" := (wrap 64 (a * b)) (at level 40, left associativity) : machine_scope.

#[local] Open Scope machine_scope.

Create HintDb machine.
Create Rewrite HintDb wrap.

Lemma wrap_small w z : 0 <= z < 2 ^ w -> wrap w z = z.
Proof. apply Z.mod_small. Qed.

(** Values in range are left alone by both conversions. *)
Lemma swrap_small w z : 1 <= w -> - 2 ^ (w - 1) <= z < 2 ^ (w - 1) -> swrap w z = z.
Proof.
  intros Hw Hz. assert (Hp : 2 ^ w = 2 * 2 ^ (w - 1)) by (rewrite <- Z.pow_succ_r by lia; f_equal; lia).
  unfold swrap. rewrite Hp. set (h := 2 ^ (w - 1)) in *. destruct (Z_lt_ge_dec z 0).
  - rewrite <- (Z.mod_unique z (2 * h) (-1) (z + 2 * h)) by lia. cbv zeta. destruct (Z.ltb_spec (z + 2 * h) h); lia.
  - rewrite Z.mod_small by lia. cbv zeta. destruct (Z.ltb_spec z h); lia.
Qed.

Lemma wrap_range w z : 0 <= w -> 0 <= wrap w z < 2 ^ w.
Proof. intros ?. apply Z.mod_pos_bound. by apply Z.pow_pos_nonneg. Qed.

Lemma wrap_idemp w z : wrap w (wrap w z) = wrap w z.
Proof. apply Zmod_mod. Qed.

Lemma wrap_add_l w a b : wrap w (wrap w a + b) = wrap w (a + b).
Proof. apply Zplus_mod_idemp_l. Qed.

Lemma wrap_add_r w a b : wrap w (a + wrap w b) = wrap w (a + b).
Proof. apply Zplus_mod_idemp_r. Qed.

Lemma wrap_sub_l w a b : wrap w (wrap w a - b) = wrap w (a - b).
Proof. apply Zminus_mod_idemp_l. Qed.

Lemma wrap_sub_r w a b : wrap w (a - wrap w b) = wrap w (a - b).
Proof. apply Zminus_mod_idemp_r. Qed.

#[export] Hint Rewrite wrap_idemp wrap_add_l wrap_add_r wrap_sub_l wrap_sub_r : wrap.

Lemma testbit_wrap w z i :
  0 <= w -> 0 <= i -> Z.testbit (wrap w z) i = (i <? w) && Z.testbit z i.
Proof.
  intros. unfold wrap. destruct (Z.ltb_spec i w).
  - by rewrite Z.mod_pow2_bits_low.
  - by rewrite Z.mod_pow2_bits_high by lia.
Qed.

(** [testbit_above n p i]: a value below [2^p] has no bit at or above [p]. *)
Lemma testbit_above n p i : 0 <= n < 2 ^ p -> p <= i -> Z.testbit n i = false.
Proof.
  intros Hn Hi. destruct (decide (p < 0)) as [Hp|Hp].
  - rewrite Z.pow_neg_r in Hn by lia. lia.
  - rewrite <- (Z.mod_small n (2 ^ p)) by done.
    by apply Z.mod_pow2_bits_high; lia.
Qed.

(** A nonnegative number without bits at or above [p] is below [2^p]. *)
Lemma below_of_testbit n p :
  0 <= p -> 0 <= n -> (forall i, p <= i -> Z.testbit n i = false) -> n < 2 ^ p.
Proof.
  intros Hp Hn Hb. enough (n = n mod 2 ^ p) as ->
    by (apply Z.mod_pos_bound; by apply Z.pow_pos_nonneg).
  apply Z.bits_inj'. intros i Hi. destruct (decide (i < p)).
  - by rewrite Z.mod_pow2_bits_low by lia.
  - rewrite Z.mod_pow2_bits_high by lia. apply Hb; lia.
Qed.

Lemma land_below a b p : 0 <= p -> 0 <= a < 2 ^ p -> 0 <= Z.land a b < 2 ^ p.
Proof.
  intros Hp Ha. split.
  - apply Z.land_nonneg; lia.
  - apply below_of_testbit; [done|apply Z.land_nonneg; lia|].
    intros i Hi. by rewrite Z.land_spec, (testbit_above a p) by done.
Qed.

Lemma lor_below a b p :
  0 <= p -> 0 <= a < 2 ^ p -> 0 <= b < 2 ^ p -> 0 <= Z.lor a b < 2 ^ p.
Proof.
  intros Hp Ha Hb. split.
  - apply Z.lor_nonneg; lia.
  - apply below_of_testbit; [done|apply Z.lor_nonneg; lia|].
    intros i Hi. by rewrite Z.lor_spec, !(testbit_above _ p) by done.
Qed.

(** [solve_bits] proves an equality of [Z]s bit by bit. *)
Ltac bits_simpl :=
  repeat first
    [ rewrite Z.land_spec | rewrite Z.lor_spec | rewrite Z.lxor_spec
    | rewrite Z.lnot_spec by lia
    | rewrite Z.shiftr_spec by lia | rewrite Z.shiftl_spec by lia
    | rewrite testbit_wrap by lia ].

(** Case analysis on a [Z] test that occurs in the goal. *)
Ltac case_Zb :=
  match goal with
  | |- context [?a =? ?b] => destruct (Z.eqb_spec a b)
  | |- context [?a <? ?b] => destruct (Z.ltb_spec a b)
  | |- context [?a <=? ?b] => destruct (Z.leb_spec a b)
  end.

(** Enumerate a [Z] variable that is in [[0, 8)]. *)
Ltac enum8 k :=
  let H := fresh in
  assert (k = 0 \/ k = 1 \/ k = 2 \/ k = 3 \/ k = 4 \/ k = 5 \/ k = 6 \/ k = 7)
    as H by lia;
  destruct H as [->|[->|[->|[->|[->|[->|[->| ->]]]]]]].

(** ** Results of fallible and looping code

    [Fault] is an execution the language leaves undefined (a null or
    out-of-bounds access).  [Diverge] is a loop that goes on: a spin on a lock
    that is held, or a loop whose fuel ran out, which is proved unreachable
    for the loops that terminate. *)

Inductive result (A : Type) : Type :=
| Ret (a : A)
| Fault
| Diverge.
Arguments Ret {A} a.
Arguments Fault {A}.
Arguments Diverge {A}.

#[export] Instance result_ret : MRet result := fun A a => Ret a.
#[export] Instance result_bind : MBind result := fun A B f m =>
  match m with Ret a => f a | Fault => Fault | Diverge => Diverge end.

Lemma bind_Ret {A B} (m : result A) (f : A -> result B) b :
  m ≫= f = Ret b <-> exists a, m = Ret a /\ f a = Ret b.
Proof.
  split; [destruct m; simpl; [eauto|discriminate..]|].
  by intros (x & -> & ?).
Qed.

(** [while fuel step x] runs [step] until it exits with [inr]; a [step] is one
    evaluation of a loop's condition and body. *)
Fixpoint while {A B} (fuel : nat) (step : A -> A + B) (x : A) : result B :=
  match fuel with
  | O => Diverge
  | S fuel => match step x with inl y => while fuel step y | inr r => Ret r end
  end.

(** [for (i = from; i < from + n; ++i) body(i)] *)
Fixpoint for_loop {A} (n : nat) (from : Z) (body : Z -> A -> result A) (s : A) : result A :=
  match n with
  | O => Ret s
  | S n => s ← body from s; for_loop n (from + 1) body s
  end.

(** What every iteration keeps, a loop that returns keeps. *)
Lemma for_loop_keeps {A} (P : A -> Prop) n from body s s' :
  (forall i a b, P a -> body i a = Ret b -> P b) -> P s -> for_loop n from body s = Ret s' -> P s'.
Proof.
  intros Hb. revert from s. induction n as [|n IH]; intros from s Hs H; cbn [for_loop] in H; [by injection H as <-|].
  apply bind_Ret in H as (x & Hx & H). apply (IH (from + 1) x); [by eapply Hb|done].
Qed.

Lemma Ret_pair {A B} (a c : A) (b d : B) : Ret (a, b) = Ret (c, d) -> a = c /\ b = d.
Proof. by intros [= -> ->]. Qed.

(** An invariant of the iterations. *)
Lemma for_loop_inv {A} (Q : Z -> A -> Prop) n from body s :
  Q from s ->
  (forall i s, from <= i < from + Z.of_nat n -> Q i s -> exists s', body i s = Ret s' /\ Q (i + 1) s') ->
  exists s', for_loop n from body s = Ret s' /\ Q (from + Z.of_nat n) s'.
Proof.
  revert from s. induction n as [|n IH]; intros from s Hs Hstep.
  - exists s. by rewrite Z.add_0_r.
  - destruct (Hstep from s) as (s' & Hb & Hq); [lia|done|]. cbn [for_loop]. rewrite Hb. cbn.
    destruct (IH (from + 1) s') as (r & Hr & Hq'); [done|intros; apply Hstep; lia || done|].
    exists r. split; [done|]. by replace (from + Z.of_nat (S n)) with (from + 1 + Z.of_nat n) by lia.
Qed.

(** The same loop when its body cannot fail. *)
Fixpoint for_each {A} (n : nat) (from : Z) (body : Z -> A -> A) (s : A) : A :=
  match n with
  | O => s
  | S n => for_each n (from + 1) body (body from s)
  end.

Lemma for_each_inv {A} (Q : Z -> A -> Prop) n from body s :
  Q from s ->
  (forall i s, from <= i < from + Z.of_nat n -> Q i s -> Q (i + 1) (body i s)) ->
  Q (from + Z.of_nat n) (for_each n from body s).
Proof.
  revert from s. induction n as [|n IH]; intros from s Hs Hstep; [by rewrite Z.add_0_r|].
  cbn [for_each]. replace (from + Z.of_nat (S n)) with (from + 1 + Z.of_nat n) by lia.
  apply IH; [apply Hstep; [lia|done]|]. intros i s' Hi. apply Hstep. lia.
Qed.

Lemma for_each_foldl {A} n from (body : Z -> A -> A) s :
  for_each n from body s = foldl (fun s i => body i s) s (seqZ from (Z.of_nat n)).
Proof.
  revert from s. induction n as [|n IH]; intros from s; [done|]. cbn [for_each]. rewrite IH.
  rewrite (seqZ_cons from) by lia. cbn [foldl]. f_equal. f_equal; lia.
Qed.

Lemma foldl_bind {A B C} (g : C -> B -> C) (h : A -> list B) (l : list A) s :
  foldl g s (l ≫= h) = foldl (fun s y => foldl g s (h y)) s l.
Proof. revert s. induction l as [|y l IH]; intros s; [done|]. csimpl. by rewrite foldl_app, IH. Qed.

(** Taking a spin lock from the only running context: a held lock is never
    released, so the spin does not end. *)
Definition spin_lock (locked : bool) : result bool :=
  if locked then Diverge else Ret true.

(** [inv_ret] turns hypotheses about a monadic computation that returned into
    the facts about its steps. *)
Ltac inv_ret :=
  repeat match goal with
  | H : _ ≫= _ = Ret _ |- _ => apply bind_Ret in H as (? & ? & ?)
  | H : Ret _ = Ret _ |- _ => injection H as H
  | H : Fault = Ret _ |- _ => discriminate H
  | H : Diverge = Ret _ |- _ => discriminate H
  | H : mret _ = Ret _ |- _ => injection H as H
  end; simplify_eq/=.
