(* ===== verification/Mem.v ===== *)
(** * Byte memory, and the routines of [lib/memory/memory.asm] and
    [lib/memory/memory.cpp]

    Memory is a total map from addresses to bytes: reading or writing through
    a raw pointer never fails in the kernel, it only reaches other memory.
    The x86 string instructions are loops over [rcx]; the pointer registers
    wrap at 64 bits. *)

From S2P Require Import Prelude.
#[local] Open Scope Z_scope.
#[local] Open Scope machine_scope.

Definition mem : Type := Z -> Z.

Definition mem_wf (m : mem) : Prop := forall a, 0 <= m a < 256.

(** [a] is in the [n] bytes that start at [p]. *)
Definition in_range (p n a : Z) : Prop := p <= a < p + n.

#[export] Instance in_range_dec p n a : Decision (in_range p n a).
Proof. unfold in_range. apply _. Defined.

(** The byte store [*(uint8_t * )a = v]. *)
Definition store8 (m : mem) (a v : Z) : mem := fun x => if x =? a then v else m x.

(** ** The string instructions *)

(** [rep movsb] with the direction flag clear: [n] is [rcx]. *)
Fixpoint rep_movsb (n : nat) (m : mem) (rdi rsi : Z) : mem :=
  match n with
  | O => m
  | S n => rep_movsb n (store8 m rdi (m rsi)) (rdi +64 1) (rsi +64 1)
  end.

(** [rep movsb] after [std]. *)
Fixpoint rep_movsb_std (n : nat) (m : mem) (rdi rsi : Z) : mem :=
  match n with
  | O => m
  | S n => rep_movsb_std n (store8 m rdi (m rsi)) (rdi -64 1) (rsi -64 1)
  end.

Fixpoint rep_stosb (n : nat) (m : mem) (rdi al : Z) : mem :=
  match n with
  | O => m
  | S n => rep_stosb n (store8 m rdi al) (rdi +64 1) al
  end.

(** [repe cmpsb]: the final [(rcx, rdi, rsi)]. *)
Fixpoint repe_cmpsb (n : nat) (m : mem) (rdi rsi : Z) : nat * Z * Z :=
  match n with
  | O => (0%nat, rdi, rsi)
  | S n => if m rsi =? m rdi then repe_cmpsb n m (rdi +64 1) (rsi +64 1)
           else (n, rdi +64 1, rsi +64 1)
  end.

(** ** [memory.asm] *)

Definition memcpy (m : mem) (dest src len : Z) : mem * Z :=
  (rep_movsb (Z.to_nat len) m dest src, dest).

Definition memset (m : mem) (dest ch n : Z) : mem * Z :=
  (rep_stosb (Z.to_nat n) m dest (u8 ch), dest).

Definition memmove (m : mem) (dest src len : Z) : mem * Z :=
  if src <? dest then
    (rep_movsb_std (Z.to_nat len) m (dest +64 len -64 1) (src +64 len -64 1), dest)
  else (rep_movsb (Z.to_nat len) m dest src, dest).

(** [jecxz] tests the low half of [rcx]. *)
Definition memcmp (m : mem) (ptr1 ptr2 len : Z) : Z :=
  let '(rcx, rdi, rsi) := repe_cmpsb (Z.to_nat len) m ptr1 ptr2 in
  if u32 (Z.of_nat rcx) =? 0 then 0
  else s8 (m (rdi -64 1) - m (rsi -64 1)).

(** ** [memory.cpp] *)

Fixpoint arraycmp (n : nat) (m : mem) (a1 a2 : Z) : bool :=
  match n with
  | O => true
  | S n => if m a1 =? m a2 then arraycmp n m (a1 +64 1) (a2 +64 1) else false
  end.

(** ** Multi-byte little-endian accesses *)

Fixpoint load (n : nat) (m : mem) (a : Z) : Z :=
  match n with
  | O => 0
  | S n => m a + 256 * load n m (a + 1)
  end.

Fixpoint store (n : nat) (m : mem) (a v : Z) : mem :=
  match n with
  | O => m
  | S n => store n (store8 m a (v mod 256)) (a + 1) (v / 256)
  end.

Abbreviation load64 := (load 8).
Abbreviation store64 := (store 8).
Abbreviation load32 := (load 4).
Abbreviation store32 := (store 4).

(** * Lemmas *)

Lemma store8_eq m a v : store8 m a v a = v.
Proof. unfold store8. by rewrite Z.eqb_refl. Qed.

Lemma store8_ne m a v x : x <> a -> store8 m a v x = m x.
Proof. intros. unfold store8. by destruct (Z.eqb_spec x a). Qed.

Lemma store8_wf m a v : mem_wf m -> 0 <= v < 256 -> mem_wf (store8 m a v).
Proof. intros Hm Hv x. unfold store8. by case_match. Qed.

#[export] Hint Resolve store8_wf : machine.

(** Adding one to an address that is not the last of the address space. *)
Lemma succ64 a n : 0 <= a -> a + Z.of_nat (S n) <= 2 ^ 64 -> n <> 0%nat -> a +64 1 = a + 1.
Proof. intros. apply wrap_small. lia. Qed.

(** Compare two memories read at one address, by cases on the address. *)
Ltac mem_cases :=
  simpl; unfold store8; repeat case_decide; repeat case_Zb; try lia;
  try reflexivity; f_equal; lia.

Lemma rep_stosb_spec n m d v a :
  0 <= d -> d + Z.of_nat n <= 2 ^ 64 ->
  rep_stosb n m d v a = if decide (in_range d (Z.of_nat n) a) then v else m a.
Proof.
  unfold in_range. revert m d. induction n as [|n IH]; intros m d Hd Hn; simpl.
  - case_decide; [lia|done].
  - destruct (decide (n = 0%nat)) as [->|Hn0].
    { clear IH. mem_cases. }
    rewrite succ64 with (n := n), IH by lia.
    mem_cases.
Qed.

Lemma rep_movsb_spec n m d s a :
  0 <= d -> d + Z.of_nat n <= 2 ^ 64 -> 0 <= s -> s + Z.of_nat n <= 2 ^ 64 ->
  d <= s \/ s + Z.of_nat n <= d ->
  rep_movsb n m d s a =
    if decide (in_range d (Z.of_nat n) a) then m (s + (a - d)) else m a.
Proof.
  unfold in_range.
  revert m d s. induction n as [|n IH]; intros m d s Hd Hdn Hs Hsn Ho; simpl.
  - case_decide; [lia|done].
  - destruct (decide (n = 0%nat)) as [->|Hn0].
    { clear IH. mem_cases. }
    rewrite !succ64 with (n := n), IH by lia.
    mem_cases.
Qed.

Lemma rep_movsb_std_spec n m d s a :
  0 <= s -> s < d -> d + Z.of_nat n <= 2 ^ 64 ->
  rep_movsb_std n m (d + Z.of_nat n - 1) (s + Z.of_nat n - 1) a =
    if decide (in_range d (Z.of_nat n) a) then m (s + (a - d)) else m a.
Proof.
  unfold in_range.
  revert m. induction n as [|n IH]; intros m Hs Hd Hdn; cbn [rep_movsb_std].
  - case_decide; [lia|done].
  - destruct (decide (n = 0%nat)) as [->|Hn0].
    { clear IH. mem_cases. }
    rewrite !wrap_small by lia.
    replace (d + Z.of_nat (S n) - 1 - 1) with (d + Z.of_nat n - 1) by lia.
    replace (s + Z.of_nat (S n) - 1 - 1) with (s + Z.of_nat n - 1) by lia.
    rewrite IH by lia.
    mem_cases.
Qed.

Lemma memset_lookup m d v n a :
  0 <= d -> 0 <= n -> d + n <= 2 ^ 64 ->
  (memset m d v n).1 a = if decide (in_range d n a) then u8 v else m a.
Proof. intros. unfold memset. cbn. rewrite rep_stosb_spec; rewrite ?Z2Nat.id; lia || done. Qed.

Lemma memcpy_lookup m d s n a :
  0 <= d -> 0 <= n -> d + n <= 2 ^ 64 -> 0 <= s -> s + n <= 2 ^ 64 ->
  d <= s \/ s + n <= d ->
  (memcpy m d s n).1 a = if decide (in_range d n a) then m (s + (a - d)) else m a.
Proof. intros. unfold memcpy. cbn. rewrite rep_movsb_spec; rewrite ?Z2Nat.id; lia || done. Qed.

Lemma rep_stosb_wf n m d v : mem_wf m -> 0 <= v < 256 -> mem_wf (rep_stosb n m d v).
Proof. revert m d. induction n; simpl; eauto with machine. Qed.

Lemma rep_movsb_wf n m d s : mem_wf m -> mem_wf (rep_movsb n m d s).
Proof. revert m d s. induction n; simpl; eauto with machine. Qed.

Lemma memset_wf m d v n : mem_wf m -> mem_wf (memset m d v n).1.
Proof. intros. apply rep_stosb_wf; [done|]. apply (wrap_range 8). lia. Qed.

Lemma memcpy_wf m d s n : mem_wf m -> mem_wf (memcpy m d s n).1.
Proof. intros. by apply rep_movsb_wf. Qed.

#[export] Hint Resolve rep_stosb_wf rep_movsb_wf memset_wf memcpy_wf : machine.

Lemma repe_cmpsb_spec n m p q :
  0 <= p -> p + Z.of_nat n <= 2 ^ 64 -> 0 <= q -> q + Z.of_nat n <= 2 ^ 64 ->
  (forall i, 0 <= i < Z.of_nat n -> m (p + i) = m (q + i)) /\ (repe_cmpsb n m p q).1.1 = 0%nat \/
  exists k, 0 <= k < Z.of_nat n /\ (forall i, 0 <= i < k -> m (p + i) = m (q + i)) /\
    m (p + k) <> m (q + k) /\
    repe_cmpsb n m p q =
      (Z.to_nat (Z.of_nat n - 1 - k), (p + k) +64 1, (q + k) +64 1).
Proof.
  revert p q. induction n as [|n IH]; intros p q Hp Hpn Hq Hqn; simpl.
  { left. split; [lia|done]. }
  destruct (Z.eqb_spec (m q) (m p)) as [He|He].
  - destruct (decide (n = 0%nat)) as [->|Hn0].
    { left. simpl. split; [|done]. intros i Hi. by replace i with 0 by lia; rewrite !Z.add_0_r. }
    rewrite (succ64 p n), (succ64 q n) by lia.
    destruct (IH (p + 1) (q + 1)) as [[Hall ->]|(k & Hk & Hall & Hne & ->)]; [lia..| |].
    + left. split; [|done]. intros i Hi. destruct (decide (i = 0)) as [->|].
      * by rewrite !Z.add_0_r.
      * replace (p + i) with (p + 1 + (i - 1)) by lia.
        replace (q + i) with (q + 1 + (i - 1)) by lia. apply Hall; lia.
    + right. exists (k + 1). split; [lia|]. split; [|split].
      * intros i Hi. destruct (decide (i = 0)) as [->|]; [by rewrite !Z.add_0_r|].
        replace (p + i) with (p + 1 + (i - 1)) by lia.
        replace (q + i) with (q + 1 + (i - 1)) by lia. apply Hall; lia.
      * by replace (p + (k + 1)) with (p + 1 + k) by lia;
          replace (q + (k + 1)) with (q + 1 + k) by lia.
      * replace (Z.to_nat (Z.of_nat (S n) - 1 - (k + 1)))
          with (Z.to_nat (Z.of_nat n - 1 - k)) by lia.
        by rewrite !(Z.add_comm k), !Z.add_assoc.
  - right. exists 0. split; [lia|]. split; [lia|]. rewrite !Z.add_0_r.
    split; [congruence|].
    by replace (Z.to_nat (Z.of_nat (S n) - 1 - 0)) with n by lia.
Qed.

(** Two different bytes have a nonzero 8-bit difference. *)
Lemma s8_sub_nonzero x y : 0 <= x < 256 -> 0 <= y < 256 -> x <> y -> s8 (x - y) <> 0.
Proof.
  intros Hx Hy Hne. unfold swrap. change (2 ^ 8) with 256. change (2 ^ (8 - 1)) with 128.
  pose proof (Z.mod_pos_bound (x - y) 256).
  assert ((x - y) mod 256 <> 0) by (intros [c Hc]%Z.mod_divide; lia).
  case_match; lia.
Qed.

Lemma store_ne n m a v x : ~ in_range a (Z.of_nat n) x -> store n m a v x = m x.
Proof.
  unfold in_range. revert m a v. induction n as [|n IH]; intros m a v Hx; simpl; [done|].
  rewrite IH by lia. apply store8_ne. lia.
Qed.

Lemma load_ext n m m' a :
  (forall i, in_range a (Z.of_nat n) i -> m i = m' i) -> load n m a = load n m' a.
Proof.
  unfold in_range. revert a. induction n as [|n IH]; intros a H; simpl; [done|].
  f_equal; [apply H; lia|]. f_equal. apply IH. intros. apply H. lia.
Qed.

Lemma load_store_eq n m a v :
  0 <= v < 2 ^ (8 * Z.of_nat n) -> load n (store n m a v) a = v.
Proof.
  revert m a v. induction n as [|n IH]; intros m a v Hv.
  { simpl in *. lia. }
  cbn [load store]. rewrite store_ne, store8_eq by (unfold in_range; lia).
  rewrite IH.
  - pose proof (Z.div_mod v 256). lia.
  - replace (8 * Z.of_nat (S n)) with (8 + 8 * Z.of_nat n) in Hv by lia.
    rewrite Z.pow_add_r in Hv by lia. change (2 ^ 8) with 256 in Hv.
    split; [apply Z.div_pos; lia|]. apply Z.div_lt_upper_bound; lia.
Qed.

Lemma load_store_ne n m a v k b :
  b + Z.of_nat k <= a \/ a + Z.of_nat n <= b -> load k (store n m a v) b = load k m b.
Proof. intros H. apply load_ext. unfold in_range. intros i Hi. apply store_ne. unfold in_range. lia. Qed.

Lemma load_range n m a : mem_wf m -> 0 <= load n m a < 2 ^ (8 * Z.of_nat n).
Proof.
  intros Hm. revert a. induction n as [|n IH]; intros a; cbn [load]; [simpl; lia|].
  specialize (Hm a). specialize (IH (a + 1)).
  replace (8 * Z.of_nat (S n)) with (8 + 8 * Z.of_nat n) by lia.
  rewrite Z.pow_add_r by lia. change (2 ^ 8) with 256. nia.
Qed.

Lemma store_wf n m a v : mem_wf m -> mem_wf (store n m a v).
Proof.
  revert m a v. induction n as [|n IH]; intros m a v Hm; simpl; [done|].
  apply IH, store8_wf; [done|]. apply Z.mod_pos_bound. lia.
Qed.

(** Storing what was read there restores the bytes. *)
Lemma store_load n m m' a x : mem_wf m -> in_range a (Z.of_nat n) x -> store n m' a (load n m a) x = m x.
Proof.
  intros Hm. unfold in_range. revert m' a. induction n as [|n IH]; intros m' a Hx; [lia|]. cbn [load store].
  rewrite Z.mul_comm, Z.div_add, Z.div_small, Z.mod_add, Z.mod_small by (lia || apply Hm). rewrite Z.add_0_l.
  destruct (decide (x = a)) as [->|].
  - rewrite store_ne by (unfold in_range; lia). apply store8_eq.
  - apply IH. lia.
Qed.

Lemma load_zero n m a :
  (forall i, in_range a (Z.of_nat n) i -> m i = 0) -> load n m a = 0.
Proof.
  unfold in_range. revert a. induction n as [|n IH]; intros a H; cbn [load]; [done|].
  rewrite IH by (intros; apply H; lia). rewrite H by lia. lia.
Qed.

#[export] Hint Resolve store_wf load_range : machine.

#[global] Arguments load : simpl never.
#[global] Arguments store : simpl never.

(** * Properties *)

(** C38: [memmove] copies [len] bytes correctly for overlapping regions too, in
    whichever direction they overlap, leaves every other byte alone, and
    returns the destination. *)
Theorem memmove_correct m dest src len a
    (Hd : 0 <= dest) (Hdl : dest + len <= 2 ^ 64)
    (Hs : 0 <= src) (Hsl : src + len <= 2 ^ 64) (Hl : 0 <= len) :
  (memmove m dest src len).1 a =
    (if decide (in_range dest len a) then m (src + (a - dest)) else m a) /\
  (memmove m dest src len).2 = dest.
Proof.
  unfold memmove. destruct (Z.ltb_spec src dest); (split; [cbn|done]).
  - destruct (decide (len = 0)) as [->|].
    { simpl. unfold in_range. case_decide; [lia|done]. }
    rewrite (wrap_small 64 (dest + len - 1)), (wrap_small 64 (src + len - 1))
      || (rewrite !wrap_sub_l, !wrap_small by lia).
    replace (dest + len - 1) with (dest + Z.of_nat (Z.to_nat len) - 1) by lia.
    replace (src + len - 1) with (src + Z.of_nat (Z.to_nat len) - 1) by lia.
    rewrite rep_movsb_std_spec by lia. by rewrite Z2Nat.id by lia.
  - rewrite rep_movsb_spec by lia. by rewrite Z2Nat.id by lia.
Qed.

Lemma memmove_correct_witness :
  (memmove (fun a => a mod 256) 12 10 5).1 13 = 11 /\
  (memmove (fun a => a mod 256) 12 10 5).2 = 12.
Proof. apply (memmove_correct (fun a => a mod 256) 12 10 5 13); lia. Defined.

(** [memcmp] never looks at the last byte: the [jecxz] after [repe cmpsb]
    sends a mismatch found in the last position to the "equal" exit, so the
    result is zero exactly when the first [len - 1] bytes agree. *)
Theorem memcmp_zero_iff m p q len
    (Hm : mem_wf m) (Hl : 0 < len <= 2 ^ 32)
    (Hp : 0 <= p) (Hpl : p + len <= 2 ^ 64) (Hq : 0 <= q) (Hql : q + len <= 2 ^ 64) :
  memcmp m p q len = 0 <-> forall i, 0 <= i < len - 1 -> m (p + i) = m (q + i).
Proof.
  unfold memcmp.
  destruct (repe_cmpsb_spec (Z.to_nat len) m p q) as [[Hall Hr]|(k & Hk & Hall & Hne & ->)]; [lia..| |].
  - destruct (repe_cmpsb _ _ _ _) as [[rcx rdi] rsi]. simpl in Hr. subst rcx. simpl.
    split; [intros _ i Hi; apply Hall; lia|done].
  - rewrite wrap_small by lia. destruct (Z.eqb_spec (Z.of_nat (Z.to_nat (Z.of_nat (Z.to_nat len) - 1 - k))) 0).
    + split; [intros _ i Hi; apply Hall; lia|done].
    + rewrite !wrap_sub_l, !Z.add_simpl_r, !wrap_small by lia.
      split; intros H; exfalso; [|apply Hne, H; lia].
      eapply s8_sub_nonzero; [apply Hm..|exact Hne|exact H].
Qed.

Lemma memcmp_zero_iff_witness :
  memcmp (fun a => if a =? 13 then 7 else 0) 10 20 4 = 0 /\
  (fun a : Z => if a =? 13 then 7 else 0) 13 <> (fun a : Z => if a =? 13 then 7 else 0) 23.
Proof.
  split; [|done].
  apply (memcmp_zero_iff (fun a => if a =? 13 then 7 else 0) 10 20 4); [|lia..|].
  - intros a. case_match; lia.
  - intros i Hi. destruct (Z.eqb_spec (10 + i) 13), (Z.eqb_spec (20 + i) 13); lia.
Defined.
