(* ===== verification/MathLib.v ===== *)
(** * Alignment macros and integer helpers: [lib/math.hpp] and [lib/math.cpp]

    The macros are used on [size_t] values, so their arithmetic is modulo
    [2^64]; the functions take [int]s. *)

From S2P Require Import Prelude.
#[local] Open Scope Z_scope.
#[local] Open Scope machine_scope.

Definition DIV_ROUNDUP (A B : Z) : Z := (A +64 (B -64 1)) / B.

Definition ALIGN_UP (A B : Z) : Z := DIV_ROUNDUP A B *64 B.

Definition ALIGN_DOWN (A B : Z) : Z := (A / B) *64 B.

Definition POWER_OF_2 (var : Z) : bool := Z.land var (var -64 1) =? 0.

(** [while (i & i - 1) i = i & i - 1; i <<= 1;] *)
Fixpoint to_power_of_2_loop (fuel : nat) (i : Z) : result Z :=
  match fuel with
  | O => Diverge
  | S fuel =>
      if Z.land i (i -64 1) =? 0 then Ret (u64 (Z.shiftl i 1))
      else to_power_of_2_loop fuel (Z.land i (i -64 1))
  end.

(** At most 64 bits can be cleared. *)
Definition TO_POWER_OF_2 (var : Z) : result Z := to_power_of_2_loop 65 (var -64 1).

Fixpoint align_up_2_loop (fuel : nat) (align a : Z) : result Z :=
  match fuel with
  | O => Diverge
  | S fuel =>
      if negb (a mod align =? 0) || negb (POWER_OF_2 a) then
        a' ← TO_POWER_OF_2 (a +64 1); align_up_2_loop fuel align a'
      else Ret a
  end.

Definition ALIGN_UP_2 (align var : Z) : result Z := align_up_2_loop 66 align var.

(** ** [math.cpp] *)

Fixpoint pow_loop (n : nat) (base result : Z) : Z :=
  match n with
  | O => result
  | S n => pow_loop n base (s32 (result * base))
  end.

Definition pow (base exp : Z) : Z := pow_loop (Z.to_nat exp) base 1.

Definition abs (num : Z) : Z := if num <? 0 then s32 (- num) else num.

Definition sign (num : Z) : Z := if 0 <? num then 1 else if num <? 0 then -1 else 0.

(** [rand] and [srand] over the static variable [next]. *)
Definition srand (seed : Z) : Z := seed.
Definition rand (next : Z) : Z * Z :=
  let next := u64 (u64 (next * 1103515245) + 12345) in
  (next, (next / 65536) mod 32768).

(** ** Lemmas *)

Lemma ALIGN_UP_spec a b :
  0 < b -> 0 <= a -> a + b <= 2 ^ 64 ->
  a <= ALIGN_UP a b < a + b /\ ALIGN_UP a b mod b = 0.
Proof.
  intros Hb Ha Hs. unfold ALIGN_UP, DIV_ROUNDUP.
  rewrite (wrap_small 64 (b - 1)), (wrap_small 64 (a + (b - 1))) by lia.
  assert (H : a <= (a + (b - 1)) / b * b < a + b).
  { pose proof (Z.div_mod (a + (b - 1)) b). pose proof (Z.mod_pos_bound (a + (b - 1)) b). lia. }
  rewrite wrap_small by lia. split; [done|]. apply Z.mod_mul. lia.
Qed.

(** ** The power-of-two macros *)

Lemma land_pred_bit i j : 0 <= j -> (2 ^ j | i) -> Z.testbit (Z.land i (i - 1)) j = false.
Proof.
  intros Hj [q ->]. rewrite Z.land_spec. assert (0 < 2 ^ j) by (apply Z.pow_pos_nonneg; lia).
  rewrite !Z.testbit_odd, !Z.shiftr_div_pow2, Z.div_mul by lia.
  replace ((q * 2 ^ j - 1) / 2 ^ j) with (q - 1).
  { rewrite Z.odd_sub. by destruct (Z.odd q). }
  apply (Z.div_unique _ _ _ (2 ^ j - 1)); lia.
Qed.

Lemma divide_pow2_bits n j :
  0 <= j -> (2 ^ j | n) <-> forall i, 0 <= i < j -> Z.testbit n i = false.
Proof.
  intros Hj. split.
  - intros [q ->] i Hi. rewrite Z.mul_pow2_bits by lia. apply Z.testbit_neg_r. lia.
  - intros H. apply Z.mod_divide; [apply Z.pow_nonzero; lia|].
    apply Z.bits_inj'. intros i Hi. rewrite Z.bits_0. destruct (decide (i < j)).
    + rewrite Z.mod_pow2_bits_low by lia. apply H. lia.
    + by rewrite Z.mod_pow2_bits_high by lia.
Qed.

(** [i & i - 1] is 0 for powers of two only. *)
Lemma land_pred_zero i : 0 < i -> Z.land i (i - 1) = 0 <-> i = 2 ^ Z.log2 i.
Proof.
  intros Hi. pose proof (Z.log2_spec i Hi) as Hl. pose proof (Z.log2_nonneg i). split; intros H'.
  - destruct (decide (i = 2 ^ Z.log2 i)) as [|Hne]; [done|]. exfalso.
    assert (Hb : Z.testbit (Z.land i (i - 1)) (Z.log2 i) = true); [|by rewrite H', Z.bits_0 in Hb].
    rewrite Z.land_spec, Z.bit_log2 by lia. cbn [andb].
    rewrite <- (Z.log2_unique (i - 1) (Z.log2 i)) by lia. apply Z.bit_log2.
    assert (0 < 2 ^ Z.log2 i) by (apply Z.pow_pos_nonneg; lia). lia.
  - rewrite H' at 1 2. set (k := Z.log2 i) in *. apply Z.bits_inj'. intros n Hn.
    rewrite Z.land_spec, Z.bits_0, Z.pow2_bits_eqb by lia.
    destruct (Z.eqb_spec k n) as [<-|]; [|done]. cbn [andb].
    apply (testbit_above _ k); [|lia]. assert (0 < 2 ^ k) by (apply Z.pow_pos_nonneg; lia). lia.
Qed.

(** Clearing the lowest set bit of any other number keeps the highest one. *)
Lemma land_pred_step i j :
  0 <= j -> 0 < i -> (2 ^ j | i) -> Z.land i (i - 1) <> 0 ->
  let i' := Z.land i (i - 1) in
  (2 ^ (j + 1) | i') /\ 0 < i' /\ Z.log2 i' = Z.log2 i.
Proof.
  intros Hj Hi Hd Hne i'. split.
  { apply divide_pow2_bits; [lia|]. intros n Hn. destruct (decide (n = j)) as [->|].
    - by apply land_pred_bit.
    - unfold i'. rewrite Z.land_spec.
      apply (divide_pow2_bits i j) with (i := n) in Hd as ->; [done|lia|lia]. }
  assert (H0 : 0 < i').
  { pose proof (proj2 (Z.land_nonneg i (i - 1)) ltac:(lia)). unfold i' in *. lia. }
  split; [done|]. pose proof (Z.log2_spec i Hi) as Hl. pose proof (Z.log2_nonneg i).
  set (L := Z.log2 i) in *. apply Z.log2_unique; [done|]. rewrite <- Z.add_1_r.
  pose proof (land_below i (i - 1) (L + 1) ltac:(lia)) as Hb. fold i' in Hb.
  rewrite Z.add_1_r in *. split; [|lia].
  assert (HbL : Z.testbit i' L = true).
  { unfold i'. rewrite Z.land_spec. unfold L at 1. rewrite Z.bit_log2 by lia. cbn [andb].
    rewrite <- (Z.log2_unique (i - 1) L); [apply Z.bit_log2|lia|split; [|lia]].
    - assert (0 < 2 ^ L) by (apply Z.pow_pos_nonneg; lia).
      destruct (decide (i = 1)) as [->|]; [done|lia].
    - destruct (decide (i = 2 ^ L)) as [Heq|]; [|lia].
      exfalso. apply Hne, land_pred_zero; done. }
  destruct (decide (2 ^ L <= i')) as [|Hlt]; [done|].
  by rewrite (testbit_above i' L) in HbL by lia.
Qed.

Lemma to_power_of_2_loop_spec fuel i j :
  0 <= j -> 0 < i < 2 ^ 63 -> (2 ^ j | i) -> 64 - j < Z.of_nat fuel ->
  to_power_of_2_loop fuel i = Ret (2 ^ (Z.log2 i + 1)).
Proof.
  revert i j. induction fuel as [|fuel IH]; intros i j Hj Hi Hd Hf.
  { apply Z.divide_pos_le in Hd; [|lia]. pose proof (Z.pow_lt_mono_r 2 63 j). lia. }
  cbn [to_power_of_2_loop]. rewrite wrap_small by lia.
  destruct (Z.eqb_spec (Z.land i (i - 1)) 0) as [Hz|Hnz].
  - apply land_pred_zero in Hz; [|lia]. rewrite Z.shiftl_mul_pow2 by lia.
    rewrite Z.pow_add_r by (pose proof (Z.log2_nonneg i); lia). rewrite <- Hz. by rewrite wrap_small by lia.
  - destruct (land_pred_step i j Hj ltac:(lia) Hd Hnz) as (Hd' & H0 & Hl).
    rewrite (IH _ (j + 1)); [by rewrite Hl|lia| |done|lia]. split; [done|].
    apply Z.log2_lt_pow2; [done|]. rewrite Hl. apply Z.log2_lt_pow2; lia.
Qed.

Lemma TO_POWER_OF_2_spec v : 0 < v < 2 ^ 63 -> TO_POWER_OF_2 (v + 1) = Ret (2 ^ (Z.log2 v + 1)).
Proof.
  intros Hv. unfold TO_POWER_OF_2. rewrite wrap_small by lia.
  replace (v + 1 - 1) with v by lia. apply (to_power_of_2_loop_spec 65 v 0); [lia|lia|apply Z.divide_1_l|lia].
Qed.

Lemma POWER_OF_2_spec v : 0 < v < 2 ^ 64 -> POWER_OF_2 v = true <-> v = 2 ^ Z.log2 v.
Proof.
  intros Hv. unfold POWER_OF_2. rewrite wrap_small, Z.eqb_eq by lia. apply land_pred_zero. lia.
Qed.

Lemma align_up_2_loop_done fuel k :
  12 <= k <= 63 -> align_up_2_loop (S fuel) 4096 (2 ^ k) = Ret (2 ^ k).
Proof.
  intros Hk. cbn [align_up_2_loop].
  assert (Hm : 2 ^ k mod 4096 = 0).
  { replace k with (k - 12 + 12) by lia. rewrite Z.pow_add_r by lia. by apply Z.mod_mul. }
  rewrite Hm. cbn [Z.eqb negb orb].
  assert (0 < 2 ^ k) by (apply Z.pow_pos_nonneg; lia).
  assert (2 ^ k < 2 ^ 64) by (apply Z.pow_lt_mono_r; lia).
  rewrite (proj2 (POWER_OF_2_spec (2 ^ k) ltac:(lia))); [done|]. by rewrite Z.log2_pow2 by lia.
Qed.

(** [ALIGN_UP_2] of a page size: a power of two of at least a page, not below
    the argument and less than twice its size or one page. *)
Lemma align_up_2_loop_spec fuel a :
  0 < a <= 2 ^ 62 -> Z.max 1 (13 - Z.log2 a) < Z.of_nat fuel ->
  exists k, align_up_2_loop fuel 4096 a = Ret (2 ^ k) /\ 12 <= k /\ a <= 2 ^ k <= Z.max (2 * a) 4096.
Proof.
  revert a. induction fuel as [|fuel IH]; intros a Ha Hf; [lia|].
  pose proof (Z.log2_nonneg a) as Hl0. pose proof (Z.log2_spec a ltac:(lia)) as Hl.
  cbn [align_up_2_loop].
  destruct (negb (a mod 4096 =? 0) || negb (POWER_OF_2 a)) eqn:Hc.
  - rewrite wrap_small by lia. rewrite TO_POWER_OF_2_spec by lia. cbn [mbind result_bind].
    assert (HL : Z.log2 a < 62).
    { apply Z.log2_lt_pow2; [lia|]. destruct (decide (a = 2 ^ 62)) as [->|]; [|lia].
      vm_compute in Hc. discriminate. }
    assert (Hp : 2 ^ (Z.log2 a + 1) = 2 * 2 ^ Z.log2 a) by (rewrite Z.pow_add_r by lia; lia).
    destruct (decide (12 <= Z.log2 a + 1)) as [H12|H12].
    + destruct fuel as [|fuel]; [lia|]. exists (Z.log2 a + 1).
      rewrite align_up_2_loop_done by lia. split; [done|]. split; [lia|].
      rewrite <- Z.add_1_r in Hl. lia.
    + destruct (IH (2 ^ (Z.log2 a + 1))) as (k & Hrun & Hk & Hb).
      * pose proof (Z.pow_le_mono_r 2 (Z.log2 a + 1) 62). split; [apply Z.pow_pos_nonneg|]; lia.
      * rewrite Z.log2_pow2 by lia. lia.
      * exists k. split; [done|]. split; [done|]. rewrite <- Z.add_1_r in Hl.
        pose proof (Z.pow_le_mono_r 2 (Z.log2 a + 1) 11). change (2 ^ 11) with 2048 in *. lia.
  - apply orb_false_iff in Hc as [Hm%negb_false_iff%Z.eqb_eq Hp%negb_false_iff].
    apply POWER_OF_2_spec in Hp; [|lia]. exists (Z.log2 a). rewrite <- Hp. split; [done|].
    split; [|lia]. destruct (decide (12 <= Z.log2 a)) as [|Hlt]; [done|].
    pose proof (Z.pow_le_mono_r 2 (Z.log2 a) 11). change (2 ^ 11) with 2048 in *.
    rewrite Z.mod_small in Hm by lia. lia.
Qed.

Lemma ALIGN_UP_2_spec a :
  0 < a <= 2 ^ 62 ->
  exists k, ALIGN_UP_2 4096 a = Ret (2 ^ k) /\ 12 <= k /\ a <= 2 ^ k <= Z.max (2 * a) 4096.
Proof. intros Ha. pose proof (Z.log2_nonneg a). apply align_up_2_loop_spec; [done|lia]. Qed.
