(* ===== verification/Bitmap.v ===== *)
(** * The page bitmap of [system/memory/bitmap]

    [class Bitmap] holds only the address of a byte array; [get] and [set]
    index it from the most significant bit of each byte.  The array lives in
    the byte memory, so a [set] is a memory update. *)

From S2P Require Import Prelude Mem.
#[local] Open Scope Z_scope.
#[local] Open Scope machine_scope.

Module Bitmap.

(** [class Bitmap]. *)
Record t : Type := mk { buffer : Z }.

(** [uint8_t bitindexer = 0b10000000 >> biti]. *)
Definition bitindexer (biti : Z) : Z := u8 (Z.shiftr 128 biti).

Definition get (m : mem) (b : t) (index : Z) : bool :=
  let bytei := index / 8 in
  let biti := u8 (index mod 8) in
  0 <? Z.land (m (buffer b +64 bytei)) (bitindexer biti).

(** [operator[]]. *)
Definition index (m : mem) (b : t) (index : Z) : bool := get m b index.

Definition set (m : mem) (b : t) (index : Z) (value : bool) : mem * bool :=
  let bytei := index / 8 in
  let biti := u8 (index mod 8) in
  let a := buffer b +64 bytei in
  let m1 := store8 m a (Z.land (m a) (u8 (Z.lnot (bitindexer biti)))) in
  let m2 := if value then store8 m1 a (Z.lor (m1 a) (bitindexer biti)) else m1 in
  (m2, true).

(** ** Lemmas *)

(** The byte and the bit position (from the least significant bit) that
    index [i] denotes. *)
Definition byte_addr (b : t) (i : Z) : Z := buffer b + i / 8.
Definition bit_pos (i : Z) : Z := 7 - i mod 8.

(** The bitmap reaches index [n] without leaving the address space. *)
Definition fits (b : t) (n : Z) : Prop := 0 <= buffer b /\ buffer b + (n + 7) / 8 <= 2 ^ 64.

Lemma bit_pos_range i : 0 <= bit_pos i < 8.
Proof. unfold bit_pos. pose proof (Z.mod_pos_bound i 8). lia. Qed.

Lemma bitindexer_pow2 i : bitindexer (u8 (i mod 8)) = 2 ^ bit_pos i.
Proof.
  unfold bit_pos. pose proof (Z.mod_pos_bound i 8 ltac:(lia)) as H.
  rewrite (wrap_small 8 (i mod 8)) by lia.
  assert (Hc : forall k, 0 <= k < 8 -> bitindexer k = 2 ^ (7 - k)).
  { intros k Hk. enum8 k; reflexivity. }
  apply Hc, H.
Qed.

Lemma byte_addr_wrap b n i :
  fits b n -> 0 <= i < n -> buffer b +64 (i / 8) = byte_addr b i.
Proof.
  intros [Hb Hn] Hi. unfold byte_addr. apply wrap_small. Z.div_mod_to_equations. lia.
Qed.

Lemma land_pow2_pos x k : 0 <= k -> (0 <? Z.land x (2 ^ k)) = Z.testbit x k.
Proof.
  intros Hk. assert (Z.land x (2 ^ k) = if Z.testbit x k then 2 ^ k else 0) as ->.
  { apply Z.bits_inj'. intros i Hi. rewrite Z.land_spec, Z.pow2_bits_eqb by lia.
    destruct (Z.eqb_spec k i) as [->|Hki].
    - destruct (Z.testbit x i) eqn:Hx; [|by rewrite Z.bits_0].
      by rewrite Z.pow2_bits_true by lia.
    - rewrite andb_false_r. destruct (Z.testbit x k); [|by rewrite Z.bits_0].
      by rewrite Z.pow2_bits_false by lia. }
  destruct (Z.testbit x k); [|done]. apply Z.ltb_lt. apply Z.pow_pos_nonneg; lia.
Qed.

Lemma get_testbit m b n i :
  fits b n -> 0 <= i < n -> get m b i = Z.testbit (m (byte_addr b i)) (bit_pos i).
Proof.
  intros Hf Hi. unfold get.
  rewrite bitindexer_pow2, (byte_addr_wrap b n) by done.
  apply land_pow2_pos. pose proof (bit_pos_range i). lia.
Qed.

(** The byte that [set] stores. *)
Definition set_byte (x k : Z) (value : bool) : Z :=
  let y := Z.land x (u8 (Z.lnot (2 ^ k))) in if value then Z.lor y (2 ^ k) else y.

Lemma set_store m b n i value :
  fits b n -> 0 <= i < n ->
  forall a, (set m b i value).1 a =
    store8 m (byte_addr b i) (set_byte (m (byte_addr b i)) (bit_pos i) value) a.
Proof.
  intros Hf Hi a. unfold set, set_byte.
  rewrite bitindexer_pow2, (byte_addr_wrap b n) by done. cbn [fst].
  destruct value; [|done]. rewrite store8_eq.
  unfold store8. by case_Zb.
Qed.

Lemma set_byte_testbit x k j value :
  0 <= k < 8 -> 0 <= j < 8 ->
  Z.testbit (set_byte x k value) j = if decide (j = k) then value else Z.testbit x j.
Proof.
  intros Hk Hj. unfold set_byte.
  assert (Hl : Z.testbit (Z.land x (u8 (Z.lnot (2 ^ k)))) j =
               if decide (j = k) then false else Z.testbit x j).
  { bits_simpl. rewrite (proj2 (Z.ltb_lt j 8)) by lia.
    rewrite Z.pow2_bits_eqb by lia.
    case_decide; [subst; rewrite Z.eqb_refl; apply andb_false_r|].
    destruct (Z.eqb_spec k j); [lia|]. apply andb_true_r. }
  destruct value; [|done]. rewrite Z.lor_spec, Hl, Z.pow2_bits_eqb by lia.
  case_decide; [subst; by rewrite Z.eqb_refl|].
  destruct (Z.eqb_spec k j); [lia|]. apply orb_false_r.
Qed.

Lemma set_byte_range x k value :
  0 <= x < 256 -> 0 <= k < 8 -> 0 <= set_byte x k value < 256.
Proof.
  intros Hx Hk. unfold set_byte.
  pose proof (land_below x (u8 (Z.lnot (2 ^ k))) 8 ltac:(lia) Hx).
  assert (0 <= 2 ^ k < 2 ^ 8)
    by (split; [apply Z.pow_nonneg; lia|apply Z.pow_lt_mono_r; lia]).
  destruct value; [|done]. by apply (lor_below _ _ 8).
Qed.

Lemma byte_bit_inj i j :
  i / 8 = j / 8 -> bit_pos i = bit_pos j -> i = j.
Proof.
  unfold bit_pos. intros Hd Hm.
  rewrite (Z.div_mod i 8), (Z.div_mod j 8) by lia. lia.
Qed.

Lemma get_set m b n i j value :
  fits b n -> 0 <= i < n -> 0 <= j < n ->
  get (set m b i value).1 b j = if decide (j = i) then value else get m b j.
Proof.
  intros Hf Hi Hj. rewrite !(get_testbit _ b n), (set_store m b n) by done.
  unfold store8. destruct (Z.eqb_spec (byte_addr b j) (byte_addr b i)) as [He|He].
  - rewrite set_byte_testbit by apply bit_pos_range. rewrite <- He.
    unfold byte_addr in He. repeat case_decide; subst; try done.
    exfalso. by apply H0, byte_bit_inj; [lia|].
  - case_decide; [by subst|done].
Qed.

Lemma set_frame m b n i value a :
  fits b n -> 0 <= i < n -> a <> byte_addr b i -> (set m b i value).1 a = m a.
Proof. intros. rewrite (set_store m b n) by done. by apply store8_ne. Qed.

Lemma set_wf m b n i value :
  fits b n -> 0 <= i < n -> mem_wf m -> mem_wf (set m b i value).1.
Proof.
  intros Hf Hi Hm a. rewrite (set_store m b n) by done.
  apply store8_wf; [done|]. apply set_byte_range; [apply Hm|apply bit_pos_range].
Qed.

(** The bits of a byte filled with [0xFF] are all set. *)
Lemma get_ff m b n i :
  fits b n -> 0 <= i < n -> m (byte_addr b i) = 255 -> get m b i = true.
Proof.
  intros Hf Hi He. rewrite (get_testbit m b n), He by done.
  pose proof (bit_pos_range i) as Hk. generalize dependent (bit_pos i). intros k Hk.
  enum8 k; reflexivity.
Qed.

(** ** Properties *)

(** The bitmap refines a map from indices to booleans: reading index [j]
    after [set i value] gives [value] when [j = i] and the old bit otherwise,
    and no byte other than the one that holds bit [i] is written. *)
Theorem set_refines_update m b n i j value a
    (Hf : fits b n) (Hi : 0 <= i < n) (Hj : 0 <= j < n) :
  get (set m b i value).1 b j = (if decide (j = i) then value else get m b j) /\
  (a <> byte_addr b i -> (set m b i value).1 a = m a).
Proof. split; [by apply (get_set m b n)|by apply (set_frame m b n)]. Qed.

Lemma set_refines_update_witness :
  get (set (fun _ => 165) (mk 100) 11 true).1 (mk 100) 9 = false /\
  (set (fun _ => 165) (mk 100) 11 true).1 100 = 165.
Proof.
  destruct (set_refines_update (fun _ => 165) (mk 100) 16 11 9 true 100) as [H1 H2];
    [by split|lia|lia|]. split; [exact H1|]. by apply H2.
Defined.

End Bitmap.
