(* ===== verification/Frames.v ===== *)
(** * What the page-frame allocator promises to its clients

    The interface between [system/memory/pMemory] and the code that builds
    page tables in the frames it hands out ([system/memory/vMemory]). *)

From S2P Require Import Prelude Mem.
#[local] Open Scope Z_scope.

Definition PAGE : Z := 4096.

(** The operations a client uses: the memory, writing it, taking one frame. *)
Class FrameAllocator (S : Type) : Type := {
  fa_mem : S -> mem;
  fa_write : mem -> S -> S;
  fa_alloc : S -> result (S * Z);
}.

(** The laws.  [fa_used s i] says that frame [i] is not free, [fa_private s a]
    that address [a] belongs to the allocator itself, and [fa_free s] is the
    number of free frames. *)
Class FrameAllocatorLaws (S : Type) `{FrameAllocator S} : Type := {
  fa_ok : S -> Prop;
  fa_used : S -> Z -> Prop;
  fa_private : S -> Z -> Prop;
  fa_free : S -> Z;
  fa_frames : S -> Z;
  fa_mem_ok s : fa_ok s -> mem_wf (fa_mem s);
  fa_frames_bound s : fa_ok s -> fa_frames s * PAGE <= 2 ^ 52;
  (** Writing client memory. *)
  fa_mem_write s m : fa_mem (fa_write m s) = m;
  fa_write_ok s m :
    fa_ok s -> mem_wf m -> (forall a, fa_private s a -> m a = fa_mem s a) ->
    fa_ok (fa_write m s) /\ fa_free (fa_write m s) = fa_free s /\
    fa_frames (fa_write m s) = fa_frames s /\
    (forall i, fa_used (fa_write m s) i <-> fa_used s i) /\
    (forall a, fa_private (fa_write m s) a <-> fa_private s a);
  (** The allocator's own storage lies in frames it never hands out. *)
  fa_alloc_spec s :
    fa_ok s -> 0 < fa_free s ->
    exists s' p, fa_alloc s = Ret (s', p) /\
      fa_ok s' /\ fa_free s' = fa_free s - 1 /\ fa_frames s' = fa_frames s /\
      0 < p / PAGE < fa_frames s /\ p = p / PAGE * PAGE /\
      ~ fa_used s (p / PAGE) /\
      (forall i, fa_used s' i <-> fa_used s i \/ i = p / PAGE) /\
      (forall a, fa_private s' a <-> fa_private s a) /\
      (forall a, in_range p PAGE a -> ~ fa_private s a) /\
      (forall a, in_range p PAGE a -> fa_mem s' a = 0) /\
      (forall a, ~ in_range p PAGE a -> ~ fa_private s a -> fa_mem s' a = fa_mem s a);
}.
