(* ===== verification/PMemory.v ===== *)
(** * The physical page allocator: [system/memory/pMemory]

    [state] is the namespace's static variables together with the byte memory
    (the bitmap is stored in it) and the boot loader's memory map, which
    [init] edits.  [ohMyAlloc] is the next-fit scan, [alloc], [free] and
    [realloc] the public operations. *)

From S2P Require Import Prelude Mem MathLib Bitmap Frames.
#[local] Open Scope Z_scope.
#[local] Open Scope machine_scope.

Module PMemory.

(** [struct stivale2_mmap_entry]. *)
Record mmap_entry : Type := Entry { base : Z; length : Z; type : Z }.

Definition STIVALE2_MMAP_USABLE : Z := 1.

Definition usable (e : mmap_entry) : bool := type e =? STIVALE2_MMAP_USABLE.

Record state : Type := mk {
  memory : mem;
  bitmap : Bitmap.t;
  isInit : bool;
  highPage : Z;
  last : Z;
  usedRam : Z;
  freeRam : Z;
  mmLock : bool;
  memmap : list mmap_entry;
}.

Definition set_memory (m : mem) (st : state) : state :=
  mk m (bitmap st) (isInit st) (highPage st) (last st) (usedRam st) (freeRam st) (mmLock st) (memmap st).
Definition set_last (l : Z) (st : state) : state :=
  mk (memory st) (bitmap st) (isInit st) (highPage st) l (usedRam st) (freeRam st) (mmLock st) (memmap st).
Definition set_ram (used free : Z) (st : state) : state :=
  mk (memory st) (bitmap st) (isInit st) (highPage st) (last st) used free (mmLock st) (memmap st).
Definition set_lock (l : bool) (st : state) : state :=
  mk (memory st) (bitmap st) (isInit st) (highPage st) (last st) (usedRam st) (freeRam st) l (memmap st).

(** [for (i = first; ...; ++i) bitmap.set(i, value)], [n] iterations. *)
Fixpoint set_range (n : nat) (m : mem) (b : Bitmap.t) (i : Z) (value : bool) : mem :=
  match n with
  | O => m
  | S n => set_range n (Bitmap.set m b i value).1 b (i +64 1) value
  end.

(** The loop of [ohMyAlloc]; [p] is the length of the current free run.
    Returns the memory, the new [last] and the address found or [0]. *)
Fixpoint scan (fuel : nat) (m : mem) (b : Bitmap.t) (count limit last p : Z)
  : result (mem * Z * Z) :=
  match fuel with
  | O => Diverge
  | S fuel =>
      if last <? limit then
        let used := Bitmap.index m b last in
        let last := last +64 1 in
        if negb used then
          let p := p +64 1 in
          if p =? count then
            let page := last -64 count in
            Ret (set_range (Z.to_nat (last - page)) m b page true, last, page *64 0x1000)
          else scan fuel m b count limit last p
        else scan fuel m b count limit last 0
      else Ret (m, last, 0)
  end.

Definition ohMyAlloc (count limit : Z) (st : state) : result (state * Z) :=
  '(m, l, ret) ← scan (S (Z.to_nat (limit - last st))) (memory st) (bitmap st) count limit (last st) 0;
  Ret (set_last l (set_memory m st), ret).

Definition alloc (count : Z) (st : state) : result (state * Z) :=
  held ← spin_lock (mmLock st);
  let st := set_lock held st in
  let tmp := last st in
  '(st, ret) ← ohMyAlloc count (highPage st / 0x1000) st;
  '(st, ret) ← (if ret =? 0 then ohMyAlloc count tmp (set_last 0 st) else Ret (st, ret));
  let st := set_memory (memset (memory st) ret 0 (count *64 0x1000)).1 st in
  let st := set_ram (usedRam st +64 count *64 0x1000) (freeRam st -64 count *64 0x1000) st in
  Ret (set_lock false st, ret).

Definition free (ptr count : Z) (st : state) : result state :=
  if ptr =? 0 then Ret st else
  held ← spin_lock (mmLock st);
  let st := set_lock held st in
  let page := ptr / 0x1000 in
  let st := set_memory (set_range (Z.to_nat ((page +64 count) - page)) (memory st) (bitmap st) page false) st in
  let st := if page <? last st then set_last page st else st in
  let st := set_ram (usedRam st -64 count *64 0x1000) (freeRam st +64 count *64 0x1000) st in
  Ret (set_lock false st).

Definition realloc (ptr oldSize newSize : Z) (st : state) : result (state * Z) :=
  if ptr =? 0 then alloc newSize st else
  if newSize =? 0 then st ← free ptr oldSize st; Ret (st, 0) else
  let st := set_ram (usedRam st -64 oldSize *64 0x1000 +64 newSize *64 0x1000)
                    (freeRam st +64 oldSize *64 0x1000 -64 newSize *64 0x1000) st in
  let oldSize := if newSize <? oldSize then newSize else oldSize in
  '(st, newFrag) ← alloc newSize st;
  let st := set_memory (memcpy (memory st) newFrag ptr oldSize).1 st in
  st ← free ptr 1 st;
  Ret (st, newFrag).

(** The first loop of [init]: the top of usable memory and its amount. *)
Fixpoint survey (es : list mmap_entry) (high free : Z) : Z * Z :=
  match es with
  | [] => (high, free)
  | e :: es =>
      if usable e then
        let top := base e +64 length e in
        let free := free +64 length e in
        survey es (if high <? top then top else high) free
      else survey es high free
  end.

(** The second loop: the bitmap takes the head of the first usable entry
    that can hold it, is filled with [0xFF], and the loop breaks. *)
Fixpoint place_bitmap (es : list mmap_entry) (bitmapSize : Z) (m : mem) (b : Bitmap.t) (free : Z)
  : mem * Bitmap.t * list mmap_entry * Z :=
  match es with
  | [] => (m, b, [], free)
  | e :: es =>
      if usable e && (bitmapSize <=? length e) then
        ((memset m (base e) 0xFF bitmapSize).1, Bitmap.mk (base e),
         Entry (base e +64 bitmapSize) (length e -64 bitmapSize) (type e) :: es,
         free -64 bitmapSize)
      else
        let '(m, b, es, free) := place_bitmap es bitmapSize m b free in
        (m, b, e :: es, free)
  end.

(** [for (j = 0; j < length; j += 0x1000) bitmap.set((base + j) / 0x1000, false)]. *)
Fixpoint release_entry (fuel : nat) (m : mem) (b : Bitmap.t) (e : mmap_entry) (j : Z) : result mem :=
  match fuel with
  | O => Diverge
  | S fuel =>
      if j <? length e then
        release_entry fuel (Bitmap.set m b ((base e +64 j) / 0x1000) false).1 b e (j +64 0x1000)
      else Ret m
  end.

(** The third loop; an entry needs one iteration per page it starts. *)
Fixpoint release_all (es : list mmap_entry) (m : mem) (b : Bitmap.t) : result mem :=
  match es with
  | [] => Ret m
  | e :: es =>
      if usable e then
        m ← release_entry (Z.to_nat (length e / 0x1000 + 2)) m b e 0;
        release_all es m b
      else release_all es m b
  end.

Definition bitmap_size (high : Z) : Z := ALIGN_UP (high / 0x1000 / 8) 0x1000.

Definition init (st : state) : result state :=
  if isInit st then Ret st else
  let '(high, free) := survey (memmap st) (highPage st) (freeRam st) in
  let bitmapSize := bitmap_size high in
  let '(m, b, es, free) := place_bitmap (memmap st) bitmapSize (memory st) (bitmap st) free in
  m ← release_all es m b;
  Ret (mk m b true high (last st) (usedRam st) free (mmLock st) es).

Definition getFreeRam (st : state) : Z := freeRam st.
Definition getUsedRam (st : state) : Z := usedRam st.

(** ** The abstract view: which page frames are free *)

Definition npages (st : state) : Z := highPage st / 0x1000.

Definition page_used (st : state) (i : Z) : bool := Bitmap.get (memory st) (bitmap st) i.

(** [run used i c]: the frames [i, i + c) are all free. *)
Definition run (used : Z -> bool) (i c : Z) : Prop := forall j, i <= j < i + c -> used j = false.

(** The bytes of the bitmap. *)
Definition storage (st : state) (a : Z) : Prop :=
  in_range (Bitmap.buffer (bitmap st)) ((npages st + 7) / 8) a.

(** How many of the first [n] frames are free. *)
Fixpoint count_free (used : Z -> bool) (n : nat) : Z :=
  match n with
  | O => 0
  | S n => count_free used n + if used (Z.of_nat n) then 0 else 1
  end.

Definition free_frames (st : state) : Z := count_free (page_used st) (Z.to_nat (npages st)).

(** The representation invariant.  Frame 0 is reserved because its address
    is the null pointer. *)
Record wf (st : state) : Prop := {
  wf_mem : mem_wf (memory st);
  wf_high : 0 <= highPage st <= 2 ^ 52;
  wf_fits : Bitmap.fits (bitmap st) (npages st);
  wf_last : 0 <= last st <= npages st;
  wf_lock : mmLock st = false;
  wf_zero : 0 < npages st -> page_used st 0 = true;
  wf_storage : forall a, storage st a -> a / PAGE < npages st -> page_used st (a / PAGE) = true;
}.

(** The counters agree with the bitmap. *)
Definition accounted (st : state) : Prop := freeRam st = free_frames st * PAGE.

(** ** Lemmas on [set_range] *)

Section set_range.
Context (b : Bitmap.t) (N : Z) (Hf : Bitmap.fits b N) (HN : N < 2 ^ 64).

Lemma set_range_get n m i v j :
  0 <= i -> i + Z.of_nat n <= N -> 0 <= j < N ->
  Bitmap.get (set_range n m b i v) b j =
    if decide (in_range i (Z.of_nat n) j) then v else Bitmap.get m b j.
Proof.
  revert m i. induction n as [|n IH]; intros m i Hi Hn Hj; cbn [set_range].
  { case_decide; [unfold in_range in *; lia|done]. }
  rewrite wrap_small, IH, (Bitmap.get_set m b N) by lia || done.
  unfold in_range in *. repeat case_decide; done || lia.
Qed.

Lemma set_range_frame n m i v a :
  0 <= i -> i + Z.of_nat n <= N -> ~ in_range (Bitmap.buffer b) ((N + 7) / 8) a ->
  set_range n m b i v a = m a.
Proof.
  revert m i. induction n as [|n IH]; intros m i Hi Hn Ha; [done|]. cbn [set_range].
  rewrite wrap_small, IH by lia || done. apply (Bitmap.set_frame m b N); [done|lia|].
  unfold in_range, Bitmap.byte_addr in *. Z.div_mod_to_equations. lia.
Qed.

Lemma set_range_wf n m i v :
  0 <= i -> i + Z.of_nat n <= N -> mem_wf m -> mem_wf (set_range n m b i v).
Proof.
  revert m i. induction n as [|n IH]; intros m i Hi Hn Hm; [done|]. cbn [set_range].
  rewrite wrap_small by lia. apply IH; [lia..|]. apply (Bitmap.set_wf m b N); [done|lia|done].
Qed.
End set_range.

(** ** The scan is a first fit

    [scan_spec] is the loop invariant: the [p] frames before [last] are
    free, and no run of [count] frames starts in [[s, last - p)]. *)
Lemma scan_spec fuel m b count limit l p s :
  let used := Bitmap.get m b in
  Z.max 0 (limit - l) < Z.of_nat fuel -> 0 < count < 2 ^ 40 -> limit <= 2 ^ 40 -> 0 <= l <= 2 ^ 40 ->
  0 <= p < count -> 0 <= s <= l - p ->
  run used (l - p) p -> (forall i, s <= i < l - p -> ~ run used i count) ->
  exists l' ret,
    (scan fuel m b count limit l p = Ret (m, l', ret) /\ ret = 0 /\ l' = Z.max l limit /\
      forall i, s <= i -> i + count <= limit -> ~ run used i count) \/
    exists page,
      scan fuel m b count limit l p =
        Ret (set_range (Z.to_nat count) m b page true, l', ret) /\
      ret = page * PAGE /\ l' = page + count /\
      s <= page /\ l < page + count <= limit /\ run used page count /\
      forall i, s <= i < page -> ~ run used i count.
Proof.
  intros used. revert l p. induction fuel as [|fuel IH];
    intros l p Hfuel Hc Hlim Hl Hp Hs Hrun Hno; [lia|]. cbn [scan]. unfold Bitmap.index.
  destruct (Z.ltb_spec l limit) as [Hlt|Hge].
  2:{ exists l, 0. left. do 2 (split; [done|]). split; [lia|].
      intros i Hi Hil. apply Hno. lia. }
  rewrite (wrap_small 64 (l + 1)) by lia. fold used. destruct (used l) eqn:Hu; cbn [negb].
  - destruct (IH (l + 1) 0) as (l' & ret & H); [try lia..| | |].
    + intros j Hj. lia.
    + intros i Hi Hr. destruct (decide (i < l - p)); [apply (Hno i); [lia|done]|].
      by rewrite Hr in Hu by lia.
    + exists l', ret. destruct H as [(? & ? & -> & ?)|(page & ? & ? & ? & ? & ? & ? & ?)].
      * left. repeat split; [done|done|lia|done].
      * right. exists page. repeat split; done || lia.
  - rewrite (wrap_small 64 (p + 1)) by lia.
    assert (Hrun' : run used (l + 1 - (p + 1)) (p + 1)).
    { intros j Hj. destruct (decide (j = l)) as [->|]; [done|]. apply Hrun. lia. }
    destruct (Z.eqb_spec (p + 1) count) as [Heq|Hne].
    + exists (l + 1), ((l + 1 - count) * PAGE). right. exists (l + 1 - count).
      rewrite (wrap_small 64 (l + 1 - count)) by lia.
      replace (l + 1 - (l + 1 - count)) with count by lia.
      rewrite (wrap_small 64 (_ * 0x1000)) by lia.
      split; [done|]. split; [done|]. split; [lia|]. split; [lia|]. split; [lia|].
      subst count. split; [done|]. intros i Hi. apply Hno. lia.
    + destruct (IH (l + 1) (p + 1)) as (l' & ret & H); [lia..|done| |].
      { intros i Hi. apply Hno. lia. }
      exists l', ret. destruct H as [(? & ? & -> & ?)|(page & ? & ? & ? & ? & ? & ? & ?)].
      * left. repeat split; [done|done|lia|done].
      * right. exists page. repeat split; done || lia.
Qed.

(** ** Counting free frames *)

Lemma count_free_ext f g n :
  (forall i, 0 <= i < Z.of_nat n -> f i = g i) -> count_free f n = count_free g n.
Proof.
  induction n as [|n IH]; intros H; cbn [count_free]; [done|].
  rewrite IH, H by (intros; try apply H; lia). done.
Qed.

Lemma count_free_nonneg f n : 0 <= count_free f n <= Z.of_nat n.
Proof. induction n as [|n IH]; cbn [count_free]; [lia|]. case_match; lia. Qed.

(** Marking a free run used takes its length off the count. *)
Lemma count_free_run f g n i c :
  0 <= i -> 0 <= c -> i + c <= Z.of_nat n -> run f i c ->
  (forall j, 0 <= j < Z.of_nat n -> g j = if decide (in_range i c j) then true else f j) ->
  count_free g n = count_free f n - c.
Proof.
  revert c. induction n as [|n IH]; intros c Hi Hc Hn Hr Hg; [simpl; lia|].
  destruct (decide (c = 0)) as [->|Hc0].
  { rewrite Z.sub_0_r. apply count_free_ext. intros j Hj. rewrite Hg by done.
    unfold in_range. case_decide; [lia|done]. }
  cbn [count_free].
  rewrite (Hg (Z.of_nat n)) by lia. unfold in_range in *. case_decide as Hd.
  - rewrite (Hr (Z.of_nat n)) by lia. rewrite (IH (c - 1)); [lia..| |].
    + intros j Hj. apply Hr. lia.
    + intros j Hj. rewrite Hg by lia. repeat case_decide; done || lia.
  - rewrite (IH c); [lia|lia|lia|lia|done|].
    intros j Hj. apply Hg. lia.
Qed.

(** A positive count is witnessed by a free frame. *)
Lemma count_free_pos f n :
  0 < count_free f n -> exists i, 0 <= i < Z.of_nat n /\ f i = false.
Proof.
  induction n as [|n IH]; cbn [count_free]; [lia|]. intros H.
  destruct (f (Z.of_nat n)) eqn:Hf.
  - destruct IH as (i & ? & ?); [lia|]. exists i. split; [lia|done].
  - exists (Z.of_nat n). split; [lia|done].
Qed.

(** ** [alloc] *)

Lemma npages_bound st : wf st -> 0 <= npages st <= 2 ^ 40.
Proof.
  intros Hw. pose proof (wf_high _ Hw). unfold npages.
  split; [apply Z.div_pos; lia|]. apply Z.div_le_upper_bound; lia.
Qed.

(** The state after frames [page, page + count) were claimed. *)
Definition claimed (st : state) (page count : Z) : state :=
  mk (memset (set_range (Z.to_nat count) (memory st) (bitmap st) page true)
             (page * PAGE) 0 (count * PAGE)).1
     (bitmap st) (isInit st) (highPage st) (page + count)
     (usedRam st +64 count * PAGE) (freeRam st -64 count * PAGE) false (memmap st).

(** The state after a request that found nothing: the null pointer was
    "cleared" and the counters moved all the same. *)
Definition failed (st : state) (count : Z) : state :=
  mk (memset (memory st) 0 0 (count * PAGE)).1
     (bitmap st) (isInit st) (highPage st) (last st)
     (usedRam st +64 count * PAGE) (freeRam st -64 count * PAGE) false (memmap st).

(** Next fit: the first run at or after [last], else the first run that
    ends at or before [last]. *)
Definition next_fit (st : state) (count page : Z) : Prop :=
  let used := page_used st in
  (last st <= page /\ page + count <= npages st /\
    forall i, last st <= i < page -> ~ run used i count) \/
  ((forall i, last st <= i -> i + count <= npages st -> ~ run used i count) /\
    page + count <= last st /\ forall i, 0 <= i < page -> ~ run used i count).

Definition no_fit (st : state) (count : Z) : Prop :=
  let used := page_used st in
  (forall i, last st <= i -> i + count <= npages st -> ~ run used i count) /\
  (forall i, 0 <= i -> i + count <= last st -> ~ run used i count).

Lemma alloc_cases st count :
  wf st -> 0 < count < 2 ^ 40 ->
  (alloc count st = Ret (failed st count, 0) /\ no_fit st count) \/
  exists page, alloc count st = Ret (claimed st page count, page * PAGE) /\
    0 < page /\ page + count <= npages st /\ run (page_used st) page count /\
    next_fit st count page.
Proof.
  intros Hw Hc. pose proof (npages_bound st Hw) as Hnp. pose proof (wf_last st Hw) as Hl.
  assert (Hz : forall i, 0 <= i -> run (page_used st) i count -> 0 < i \/ npages st <= i).
  { intros i Hi Hr. destruct (decide (i = 0)) as [->|]; [|lia].
    destruct (decide (0 < npages st)); [|lia].
    pose proof (wf_zero st Hw ltac:(done)) as Hu. by rewrite Hr in Hu by lia. }
  unfold alloc, spin_lock. rewrite (wf_lock st Hw). cbn [mbind result_bind].
  unfold ohMyAlloc. cbn [last set_lock memory bitmap highPage].
  fold (npages st).
  destruct (scan_spec (S (Z.to_nat (npages st - last st))) (memory st) (bitmap st) count
              (npages st) (last st) 0 (last st)) as (l1 & r1 & H1); [lia..|intros j Hj; lia|intros i Hi; lia|].
  destruct H1 as [(-> & -> & -> & Hno1)|(page & -> & -> & -> & Hs & Hle & Hr & Hno1)].
  - cbn [mbind result_bind set_last set_memory set_lock last memory bitmap].
    rewrite Z.eqb_refl.
    destruct (scan_spec (S (Z.to_nat (last st - 0))) (memory st) (bitmap st) count
                (last st) 0 0 0) as (l2 & r2 & H2); [lia..|intros j Hj; lia|intros i Hi; lia|].
    destruct H2 as [(-> & -> & -> & Hno2)|(page & -> & -> & -> & Hs & Hle & Hr & Hno2)].
    + left. cbn. rewrite (wrap_small 64 (count * 4096)) by lia.
      rewrite Z.max_r by lia. split; [done|]. by split.
    + right. exists page. cbn. rewrite (wrap_small 64 (count * 4096)) by lia.
      split; [done|]. pose proof (Hz page ltac:(lia) Hr). split; [lia|]. split; [lia|].
      split; [done|]. right. split; [done|]. split; [lia|]. intros i Hi. apply Hno2. lia.
  - right. exists page. pose proof (Hz page ltac:(lia) Hr).
    cbn [mbind result_bind set_last set_memory set_lock last memory bitmap].
    destruct (Z.eqb_spec (page * PAGE) 0); [unfold PAGE in *; lia|].
    cbn. rewrite (wrap_small 64 (count * 4096)) by lia.
    split; [done|]. split; [lia|]. split; [lia|]. split; [done|].
    left. split; [lia|]. split; [lia|]. intros i Hi. apply Hno1. lia.
Qed.

Section claimed.
Context (st : state) (page count : Z) (Hw : wf st).
Context (Hc : 0 < count) (Hp : 0 < page) (Hle : page + count <= npages st).
Context (Hr : run (page_used st) page count).

(** The claimed frames do not meet the bitmap's storage. *)
Lemma run_not_storage a : in_range (page * PAGE) (count * PAGE) a -> ~ storage st a.
Proof.
  unfold in_range, PAGE. intros Ha Hs.
  assert (Hd : page <= a / 4096 < page + count) by (Z.div_mod_to_equations; lia).
  pose proof (wf_storage st Hw a Hs) as Hu. unfold PAGE in Hu.
  specialize (Hu ltac:(lia)). by rewrite Hr in Hu.
Qed.

Lemma claimed_mem a :
  memory (claimed st page count) a =
    if decide (in_range (page * PAGE) (count * PAGE) a) then 0
    else set_range (Z.to_nat count) (memory st) (bitmap st) page true a.
Proof.
  pose proof (npages_bound st Hw). cbn [memory claimed].
  by rewrite memset_lookup by (unfold PAGE; lia).
Qed.

Lemma claimed_frame a :
  ~ in_range (page * PAGE) (count * PAGE) a -> ~ storage st a ->
  memory (claimed st page count) a = memory st a.
Proof.
  intros Ha Hs. pose proof (npages_bound st Hw).
  rewrite claimed_mem, decide_False by done.
  apply (set_range_frame _ (npages st)); [apply (wf_fits st Hw)|lia..|done].
Qed.

Lemma claimed_used i :
  0 <= i < npages st ->
  page_used (claimed st page count) i =
    if decide (in_range page count i) then true else page_used st i.
Proof.
  intros Hi. pose proof (npages_bound st Hw) as Hn. pose proof (wf_fits st Hw) as Hf.
  unfold page_used. cbn [bitmap claimed].
  rewrite (Bitmap.get_testbit _ _ (npages st)), claimed_mem by done.
  rewrite decide_False.
  - rewrite <- (Bitmap.get_testbit _ _ (npages st)) by done.
    rewrite (set_range_get _ (npages st)) by (done || lia).
    by rewrite Z2Nat.id by lia.
  - intros Ha. apply (run_not_storage _ Ha).
    unfold storage, in_range, Bitmap.byte_addr. Z.div_mod_to_equations. lia.
Qed.

Lemma claimed_wf : wf (claimed st page count).
Proof.
  pose proof (npages_bound st Hw) as Hn.
  split; try apply Hw; try done.
  - cbn [memory claimed]. apply memset_wf.
    apply (set_range_wf _ (npages st)); [apply (wf_fits st Hw)|lia..|apply (wf_mem st Hw)].
  - change (npages (claimed st page count)) with (npages st). cbn [last claimed]. lia.
  - change (npages (claimed st page count)) with (npages st). intros.
    rewrite claimed_used by lia. case_decide; [done|]. by apply (wf_zero st Hw).
  - change (npages (claimed st page count)) with (npages st).
    change (storage (claimed st page count)) with (storage st).
    intros a Ha Hlt. assert (0 <= a / PAGE).
    { apply Z.div_pos; [|done]. unfold storage, in_range in Ha.
      pose proof (wf_fits st Hw) as [? _]. lia. }
    rewrite claimed_used by lia. case_decide; [done|]. by apply (wf_storage st Hw).
Qed.

Lemma claimed_free_frames :
  free_frames (claimed st page count) = free_frames st - count.
Proof.
  pose proof (npages_bound st Hw). unfold free_frames.
  change (npages (claimed st page count)) with (npages st).
  apply (count_free_run _ _ _ page); [lia..|done|].
  intros j Hj. apply claimed_used. lia.
Qed.

Lemma claimed_accounted : accounted st -> accounted (claimed st page count).
Proof.
  intros Ha. pose proof (npages_bound st Hw) as Hn. unfold accounted in *.
  rewrite claimed_free_frames. cbn [freeRam claimed].
  pose proof claimed_free_frames as Hq.
  pose proof (count_free_nonneg (page_used (claimed st page count)) (Z.to_nat (npages st))).
  pose proof (count_free_nonneg (page_used st) (Z.to_nat (npages st))).
  unfold free_frames in *. change (npages (claimed st page count)) with (npages st) in *.
  rewrite Ha. unfold PAGE. rewrite wrap_small; lia.
Qed.
End claimed.

(** ** [free] *)

Definition released (st : state) (page count : Z) : state :=
  mk (set_range (Z.to_nat count) (memory st) (bitmap st) page false)
     (bitmap st) (isInit st) (highPage st) (if page <? last st then page else last st)
     (usedRam st -64 count * PAGE) (freeRam st +64 count * PAGE) false (memmap st).

Lemma free_released st page count :
  wf st -> 0 < page -> 0 <= count -> page + count <= npages st ->
  free (page * PAGE) count st = Ret (released st page count).
Proof.
  intros Hw Hp Hc Hle. pose proof (npages_bound st Hw) as Hn.
  unfold free, spin_lock. destruct (Z.eqb_spec (page * PAGE) 0); [unfold PAGE in *; lia|].
  rewrite (wf_lock st Hw). cbn [mbind result_bind set_lock memory bitmap last set_memory].
  replace (page * PAGE / 4096) with page by (unfold PAGE; by rewrite Z.div_mul).
  rewrite (wrap_small 64 (page + count)), (wrap_small 64 (count * 4096)) by lia.
  replace (page + count - page) with count by lia.
  unfold released. by destruct (page <? last st).
Qed.

Section released.
Context (st : state) (page count : Z) (Hw : wf st).
Context (Hc : 0 <= count) (Hp : 0 < page) (Hle : page + count <= npages st).

Lemma released_used i :
  0 <= i < npages st ->
  page_used (released st page count) i =
    if decide (in_range page count i) then false else page_used st i.
Proof.
  intros Hi. pose proof (npages_bound st Hw) as Hn. pose proof (wf_fits st Hw) as Hf.
  unfold page_used. cbn [bitmap memory released].
  rewrite (set_range_get _ (npages st)) by (done || lia). by rewrite Z2Nat.id by lia.
Qed.

Lemma released_frame a : ~ storage st a -> memory (released st page count) a = memory st a.
Proof.
  intros Hs. pose proof (npages_bound st Hw). cbn [memory released].
  apply (set_range_frame _ (npages st)); [apply (wf_fits st Hw)|lia..|done].
Qed.

Lemma released_free_frames :
  (forall i, in_range page count i -> page_used st i = true) ->
  free_frames (released st page count) = free_frames st + count.
Proof.
  intros Hu. pose proof (npages_bound st Hw). unfold free_frames.
  change (npages (released st page count)) with (npages st).
  rewrite (count_free_run (page_used (released st page count)) (page_used st) _ page count);
    [lia..| |].
  - intros j Hj. rewrite released_used by lia. unfold in_range. by rewrite decide_True by lia.
  - intros j Hj. rewrite released_used by lia. case_decide; auto.
Qed.

Lemma released_wf :
  (forall a, storage st a -> ~ in_range page count (a / PAGE)) -> wf (released st page count).
Proof.
  intros Hst. pose proof (npages_bound st Hw) as Hn. pose proof (wf_last st Hw) as Hl.
  split; try apply Hw; try done.
  - cbn [memory released].
    apply (set_range_wf _ (npages st)); [apply (wf_fits st Hw)|lia..|apply (wf_mem st Hw)].
  - change (npages (released st page count)) with (npages st). cbn [last released]. case_Zb; lia.
  - change (npages (released st page count)) with (npages st). intros.
    rewrite released_used by lia. unfold in_range. rewrite decide_False by lia.
    by apply (wf_zero st Hw).
  - change (npages (released st page count)) with (npages st).
    change (storage (released st page count)) with (storage st).
    intros a Ha Hlt. assert (0 <= a / PAGE).
    { apply Z.div_pos; [|done]. unfold storage, in_range in Ha.
      pose proof (wf_fits st Hw) as [? _]. lia. }
    rewrite released_used, decide_False by (by apply Hst || lia). by apply (wf_storage st Hw).
Qed.
End released.

(** ** Writing memory outside the bitmap *)

Section write.
Context (st : state) (m : mem) (Hw : wf st) (Hm : mem_wf m).
Context (Hs : forall a, storage st a -> m a = memory st a).

Lemma write_used i : 0 <= i < npages st -> page_used (set_memory m st) i = page_used st i.
Proof.
  intros Hi. pose proof (wf_fits st Hw) as Hf. unfold page_used. cbn [bitmap memory set_memory].
  rewrite !(Bitmap.get_testbit _ _ (npages st)), Hs by
    (done || (unfold storage, in_range, Bitmap.byte_addr; Z.div_mod_to_equations; lia)).
  done.
Qed.

Lemma write_free_frames : free_frames (set_memory m st) = free_frames st.
Proof.
  pose proof (npages_bound st Hw). apply count_free_ext. intros i Hi. apply write_used.
  change (npages (set_memory m st)) with (npages st) in Hi. lia.
Qed.

Lemma write_wf : wf (set_memory m st).
Proof.
  split; try apply Hw; try done;
    change (npages (set_memory m st)) with (npages st).
  - intros. rewrite write_used by lia. by apply (wf_zero st Hw).
  - change (storage (set_memory m st)) with (storage st). intros a Ha Hlt.
    assert (0 <= a / PAGE).
    { apply Z.div_pos; [|done]. unfold storage, in_range in Ha.
      pose proof (wf_fits st Hw) as [? _]. lia. }
    rewrite write_used by lia. by apply (wf_storage st Hw).
Qed.
End write.

(** ** [init] *)

(** Frame [i] lies in entry [e]. *)
Definition covers (e : mmap_entry) (i : Z) : Prop :=
  usable e = true /\ in_range (base e / PAGE) (length e / PAGE) i.

#[export] Instance covers_dec e i : Decision (covers e i).
Proof. unfold covers. apply _. Defined.

Definition covered (es : list mmap_entry) (i : Z) : Prop := Exists (fun e => covers e i) es.

#[export] Instance covered_dec es i : Decision (covered es i).
Proof. unfold covered. apply _. Defined.

Lemma covered_cons e es i : covered (e :: es) i <-> covers e i \/ covered es i.
Proof. apply Exists_cons. Qed.

(** What the boot protocol guarantees for a usable entry: page-aligned, and
    within the physical address space. *)
Definition entry_ok (e : mmap_entry) : Prop :=
  usable e = true ->
  0 < base e /\ 0 <= length e /\ base e + length e <= 2 ^ 52 /\
  base e mod PAGE = 0 /\ length e mod PAGE = 0.

(** ... and that usable entries do not overlap. *)
Definition disjoint_entries (e1 e2 : mmap_entry) : Prop :=
  usable e1 = true -> usable e2 = true ->
  base e1 + length e1 <= base e2 \/ base e2 + length e2 <= base e1.

Definition total (es : list mmap_entry) : Z :=
  foldr (fun e z => if usable e then length e + z else z) 0 es.

Lemma survey_spec es h f high free :
  0 <= h <= 2 ^ 52 -> Forall entry_ok es -> survey es h f = (high, free) ->
  h <= high <= 2 ^ 52 /\ u64 free = u64 (f + total es) /\
  Forall (fun e => usable e = true -> base e + length e <= high) es.
Proof.
  revert h f. induction es as [|e es IH]; intros h f Hh Hok Hs; simpl in *.
  { simplify_eq. rewrite Z.add_0_r. split; [lia|done]. }
  inversion Hok as [|? ? He Hes]; subst. destruct (usable e) eqn:Hu.
  - specialize (He Hu). rewrite (wrap_small 64 (base e + length e)) in Hs by lia.
    apply IH in Hs as (H1 & H2 & H3); [|case_Zb; lia|done].
    assert (h <= high /\ base e + length e <= high) by (revert H1; case_Zb; lia).
    split; [lia|]. split; [rewrite H2, wrap_add_l; f_equal; lia|]. constructor; [lia|done].
  - destruct (IH _ _ Hh Hes Hs) as (H1 & H2 & H3). split; [done|]. split; [done|].
    constructor; [congruence|done].
Qed.

Lemma place_bitmap_spec es size m b f :
  Exists (fun e => usable e = true /\ size <= length e) es ->
  exists es1 e es2, es = es1 ++ e :: es2 /\ usable e = true /\ size <= length e /\
    place_bitmap es size m b f =
      ((memset m (base e) 0xFF size).1, Bitmap.mk (base e),
       es1 ++ Entry (base e +64 size) (length e -64 size) (type e) :: es2, f -64 size).
Proof.
  induction es as [|e es IH]; intros Hex; [by inversion Hex|]. cbn [place_bitmap].
  destruct (usable e && (size <=? length e)) eqn:Ht.
  - apply andb_true_iff in Ht as [Hu Hl%Z.leb_le].
    by exists [], e, es.
  - inversion Hex as [? ? [Hu Hl]|? ? Hex']; subst.
    { rewrite Hu, (proj2 (Z.leb_le _ _) Hl) in Ht. done. }
    destruct (IH Hex') as (es1 & e' & es2 & -> & Hu & Hl & ->).
    by exists (e :: es1), e', es2.
Qed.

Lemma release_entry_spec b N e m k fuel :
  Bitmap.fits b N -> N <= 2 ^ 40 -> 0 <= k <= length e / PAGE ->
  0 < base e -> 0 <= length e -> base e + length e <= N * PAGE ->
  base e mod PAGE = 0 -> length e mod PAGE = 0 ->
  length e / PAGE - k < Z.of_nat fuel ->
  release_entry fuel m b e (k * PAGE) =
    Ret (set_range (Z.to_nat (length e / PAGE - k)) m b (base e / PAGE + k) false).
Proof.
  intros Hf HN. unfold PAGE. revert m k.
  induction fuel as [|fuel IH]; intros m k Hk Hb Hl Hle Hbm Hlm Hfuel; [lia|].
  cbn [release_entry]. destruct (Z.ltb_spec (k * 4096) (length e)) as [Hlt|Hge].
  - assert (Hk' : k < length e / 4096) by (Z.div_mod_to_equations; lia).
    rewrite (wrap_small 64 (base e + k * 4096)), (wrap_small 64 (k * 4096 + 4096)) by lia.
    replace (k * 4096 + 4096) with ((k + 1) * 4096) by lia. rewrite IH by lia. f_equal.
    replace (Z.to_nat (length e / 4096 - k)) with (S (Z.to_nat (length e / 4096 - (k + 1)))) by lia.
    cbn [set_range]. rewrite Z.div_add by lia.
    rewrite wrap_small by (Z.div_mod_to_equations; lia). f_equal; lia.
  - assert (k = length e / 4096) as -> by (Z.div_mod_to_equations; lia).
    by rewrite Z.sub_diag.
Qed.

Lemma release_all_spec b N es m :
  Bitmap.fits b N -> N <= 2 ^ 40 -> Forall entry_ok es ->
  Forall (fun e => usable e = true -> base e + length e <= N * PAGE) es -> mem_wf m ->
  exists m', release_all es m b = Ret m' /\ mem_wf m' /\
    forall i, 0 <= i < N ->
      Bitmap.get m' b i = if decide (covered es i) then false else Bitmap.get m b i.
Proof.
  intros Hf HN. revert m. induction es as [|e es IH]; intros m Hok Hle Hm; cbn [release_all].
  { exists m. split; [done|]. split; [done|]. intros i Hi. rewrite decide_False; [done|]. by intros ?%Exists_nil. }
  inversion Hok as [|? ? He Hes]; inversion Hle as [|? ? Hl1 Hles]; subst.
  destruct (usable e) eqn:Hu.
  - destruct (He Hu) as (Hb & Hl & Hbl & Hbm & Hlm). specialize (Hl1 eq_refl).
    assert (0 <= length e / PAGE) by (apply Z.div_pos; unfold PAGE; lia).
    pose proof (release_entry_spec b N e m 0 (Z.to_nat (length e / 4096 + 2))) as Hr.
    rewrite Z.mul_0_l in Hr. unfold PAGE in *. rewrite Hr by (done || lia).
    rewrite Z.sub_0_r, Z.add_0_r. cbn [mbind result_bind].
    assert (Hrng : base e / 4096 + Z.of_nat (Z.to_nat (length e / 4096)) <= N)
      by (Z.div_mod_to_equations; lia).
    assert (0 <= base e / 4096) by (Z.div_mod_to_equations; lia).
    edestruct (IH (set_range (Z.to_nat (length e / 4096)) m b (base e / 4096) false))
      as (m' & -> & Hm' & Hget); [done|done|apply (set_range_wf _ N); done || lia|].
    exists m'. split; [done|]. split; [done|]. intros i Hi. rewrite Hget by done.
    rewrite (set_range_get _ N) by (done || lia). rewrite Z2Nat.id by lia.
    pose proof (covered_cons e es i) as Hcov. unfold covers, PAGE in Hcov.
    repeat case_decide; tauto.
  - destruct (IH m Hes Hles Hm) as (m' & -> & Hm' & Hget). exists m'.
    split; [done|]. split; [done|]. intros i Hi. rewrite Hget by done.
    pose proof (covered_cons e es i) as Hcov. unfold covers in Hcov. rewrite Hu in Hcov.
    repeat case_decide; intuition congruence.
Qed.

(** ** Properties *)

Lemma alloc_inv st count st' p :
  wf st -> 0 < count < 2 ^ 40 -> alloc count st = Ret (st', p) -> p <> 0 ->
  exists page, st' = claimed st page count /\ p = page * PAGE /\ 0 < page /\
    page + count <= npages st /\ run (page_used st) page count /\ next_fit st count page.
Proof.
  intros Hw Hc Ha Hp.
  destruct (alloc_cases st count Hw Hc) as [[Heq _]|(page & Heq & H)];
    rewrite Heq in Ha; simplify_eq. by exists page.
Qed.

Lemma next_fit_not_no_fit st count page :
  wf st -> 0 < page -> run (page_used st) page count -> next_fit st count page -> ~ no_fit st count.
Proof.
  intros Hw Hp Hr [(H1 & H2 & H3)|(H1 & H2 & H3)] [N1 N2].
  - by apply (N1 page).
  - by apply (N2 page); [lia|..].
Qed.

(** C1: [alloc] returns for every request, and it is a complete next fit: it
    answers null exactly when no run of [count] free frames lies wholly
    above or wholly below the cursor [last], and otherwise the first such
    run at or after the cursor, else the first one from frame 0. *)
Theorem alloc_next_fit st count :
  wf st -> 0 < count < 2 ^ 40 ->
  exists st' p, alloc count st = Ret (st', p) /\
    (p = 0 <-> no_fit st count) /\
    (p <> 0 -> p = p / PAGE * PAGE /\ 0 < p / PAGE /\ p / PAGE + count <= npages st /\
      run (page_used st) (p / PAGE) count /\ next_fit st count (p / PAGE)).
Proof.
  intros Hw Hc. destruct (alloc_cases st count Hw Hc) as [[-> Hno]|(page & -> & Hp & Hl & Hr & Hn)].
  - eexists _, _. split; [done|]. tauto.
  - eexists _, _. split; [done|]. rewrite Z.div_mul by done.
    pose proof (next_fit_not_no_fit st count page Hw Hp Hr Hn).
    split; [unfold PAGE; split; [lia|done]|]. done.
Qed.

(** C2: a successful [alloc] hands out frames that were free: it marks
    exactly them used, clears exactly their bytes (besides the bitmap), and
    keeps the representation invariant and the accounting of free memory. *)
Theorem alloc_claims st count st' p :
  wf st -> accounted st -> 0 < count < 2 ^ 40 -> alloc count st = Ret (st', p) -> p <> 0 ->
  wf st' /\ accounted st' /\ npages st' = npages st /\
  free_frames st' = free_frames st - count /\
  (forall i, 0 <= i < npages st ->
    page_used st' i = if decide (in_range (p / PAGE) count i) then true else page_used st i) /\
  (forall i, in_range (p / PAGE) count i -> page_used st i = false) /\
  (forall a, in_range p (count * PAGE) a -> memory st' a = 0) /\
  (forall a, ~ in_range p (count * PAGE) a -> ~ storage st a -> memory st' a = memory st a).
Proof.
  intros Hw Hacc Hc Ha Hp.
  destruct (alloc_inv _ _ _ _ Hw Hc Ha Hp) as (page & -> & -> & H0 & Hl & Hr & _).
  rewrite Z.div_mul by done.
  split; [by apply claimed_wf; try lia|]. split; [by apply claimed_accounted; try lia|].
  split; [done|]. split; [by apply claimed_free_frames; try lia|].
  split; [intros i Hi; by apply claimed_used; try lia|]. split; [done|]. split.
  - intros a Ha'. rewrite claimed_mem by (done || lia). by rewrite decide_True.
  - intros a H1 H2. by apply claimed_frame; try lia.
Qed.

(** An [alloc] that finds nothing still clears the [count] frames at the
    null pointer, bitmap included if it lies there, and still moves both
    counters: the free memory reported is no longer the free memory. *)
Theorem alloc_failure st count :
  wf st -> accounted st -> 0 < count < 2 ^ 40 -> no_fit st count ->
  exists st', alloc count st = Ret (st', 0) /\
    (forall a, memory st' a = if decide (in_range 0 (count * PAGE) a) then 0 else memory st a) /\
    getFreeRam st' = u64 (getFreeRam st - count * PAGE) /\
    getUsedRam st' = u64 (getUsedRam st + count * PAGE) /\
    getFreeRam st' <> getFreeRam st.
Proof.
  intros Hw Hacc Hc Hno.
  destruct (alloc_cases st count Hw Hc) as [[-> _]|(page & _ & Hp & Hl & Hr & Hn)].
  - exists (failed st count). split; [done|]. split.
    { intros a. cbn [memory failed]. apply memset_lookup; unfold PAGE; lia. }
    split; [done|]. split; [done|]. cbn [getFreeRam freeRam failed].
    pose proof (npages_bound st Hw).
    pose proof (count_free_nonneg (page_used st) (Z.to_nat (npages st))).
    unfold accounted, free_frames in Hacc. unfold getFreeRam. rewrite Hacc. unfold PAGE, wrap.
    intros Heq. set (f := count_free _ _) in *. Z.div_mod_to_equations. lia.
  - by destruct (next_fit_not_no_fit st count page Hw Hp Hr Hn).
Qed.

(** C19: [free] undoes [alloc]: giving the frames back restores which frames
    are free, the invariant and both counters. *)
Theorem alloc_free_roundtrip st count st1 p :
  wf st -> accounted st -> 0 < count < 2 ^ 40 -> alloc count st = Ret (st1, p) -> p <> 0 ->
  exists st2, free p count st1 = Ret st2 /\ wf st2 /\ accounted st2 /\
    (forall i, 0 <= i < npages st -> page_used st2 i = page_used st i) /\
    getFreeRam st2 = getFreeRam st /\ getUsedRam st2 = u64 (getUsedRam st).
Proof.
  intros Hw Hacc Hc Ha Hp.
  destruct (alloc_inv _ _ _ _ Hw Hc Ha Hp) as (page & -> & -> & H0 & Hl & Hr & _).
  pose proof (claimed_wf st page count Hw ltac:(lia) H0 Hl Hr) as Hw1.
  set (st1 := claimed st page count) in *.
  assert (Hn1 : npages st1 = npages st) by done.
  exists (released st1 page count). split; [by apply free_released; try lia|].
  assert (Hst : forall a, storage st1 a -> ~ in_range page count (a / PAGE)).
  { intros a Hs Ha'. apply (run_not_storage st page count Hw Hl Hr a); [|done].
    unfold in_range, PAGE in *. Z.div_mod_to_equations. lia. }
  assert (Hpu : forall i, 0 <= i < npages st ->
    page_used (released st1 page count) i = page_used st i).
  { intros i Hi. rewrite released_used by (done || lia). unfold st1.
    rewrite claimed_used by (done || lia). case_decide as Hd; [|done]. by rewrite Hr. }
  assert (Hff : free_frames (released st1 page count) = free_frames st).
  { pose proof (npages_bound st Hw). apply count_free_ext. intros i Hi. apply Hpu.
    change (npages (released st1 page count)) with (npages st) in Hi. lia. }
  assert (Hfr : freeRam (released st1 page count) = freeRam st).
  { pose proof (npages_bound st Hw).
    pose proof (count_free_nonneg (page_used st) (Z.to_nat (npages st))).
    cbn [freeRam released st1 claimed]. autorewrite with wrap.
    unfold accounted, free_frames in Hacc. rewrite wrap_small; unfold PAGE in *; lia. }
  split; [by apply released_wf; try lia|].
  split; [unfold accounted; by rewrite Hff, Hfr|]. split; [done|]. split; [done|].
  cbn [getUsedRam usedRam released st1 claimed]. autorewrite with wrap. unfold getUsedRam.
  f_equal. lia.
Qed.

(** [realloc] to a region that can be allocated: [rams] is the first
    adjustment of the counters, [moved] the state when the data was copied. *)
Definition rams (oldSize newSize : Z) (st : state) : state :=
  set_ram (usedRam st -64 oldSize *64 0x1000 +64 newSize *64 0x1000)
          (freeRam st +64 oldSize *64 0x1000 -64 newSize *64 0x1000) st.

Definition moved (st : state) (page pg oldSize newSize : Z) : state :=
  let st1 := claimed (rams oldSize newSize st) pg newSize in
  set_memory (memcpy (memory st1) (pg * PAGE) (page * PAGE) (oldSize `min` newSize)).1 st1.

Section moved.
Context (st : state) (page pg oldSize newSize : Z) (Hw : wf st).
Context (Hp : 0 < page) (Ho : 0 < oldSize) (Hpo : page + oldSize <= npages st).
Context (Hn : 0 < newSize < 2 ^ 40).

Lemma rams_wf : wf (rams oldSize newSize st).
Proof. by destruct Hw. Qed.

Lemma realloc_moved st' p :
  realloc (page * PAGE) oldSize newSize st = Ret (st', p) -> p <> 0 ->
  exists pg, free (page * PAGE) 1 (moved st page pg oldSize newSize) = Ret st' /\
    p = pg * PAGE /\ 0 < pg /\ pg + newSize <= npages st /\ run (page_used st) pg newSize.
Proof.
  intros Hre Hne. unfold realloc in Hre.
  destruct (Z.eqb_spec (page * PAGE) 0); [unfold PAGE in *; lia|].
  destruct (Z.eqb_spec newSize 0); [lia|]. fold (rams oldSize newSize st) in Hre.
  replace (if newSize <? oldSize then newSize else oldSize) with (oldSize `min` newSize)
    in Hre by (case_Zb; lia).
  apply bind_Ret in Hre as ([s1 p1] & Ha & Hre). inv_ret.
  destruct (alloc_inv _ _ _ _ rams_wf Hn Ha Hne) as (pg' & -> & -> & Hpg & Hl & Hr & _).
  by exists pg'.
Qed.

Context (Hpg : 0 < pg) (Hl : pg + newSize <= npages st) (Hr : run (page_used st) pg newSize).
Context (Hused : forall i, in_range page oldSize i -> page_used st i = true).

#[local] Abbreviation st1 := (claimed (rams oldSize newSize st) pg newSize).
#[local] Abbreviation st2 := (moved st page pg oldSize newSize).

Lemma moved_disjoint : pg + newSize <= page \/ page + oldSize <= pg.
Proof.
  destruct (decide (pg + newSize <= page)); [by left|].
  destruct (decide (page + oldSize <= pg)); [by right|]. exfalso.
  assert (page_used st (pg `max` page) = true) as Hu by (apply Hused; unfold in_range; lia).
  by rewrite Hr in Hu by lia.
Qed.

Lemma moved_mem a :
  memory st2 a = if decide (in_range (pg * PAGE) (oldSize `min` newSize) a)
    then memory st1 (page * PAGE + (a - pg * PAGE)) else memory st1 a.
Proof.
  pose proof moved_disjoint. pose proof (npages_bound st Hw).
  apply memcpy_lookup; unfold PAGE; lia.
Qed.

Lemma moved_storage a : storage st1 a -> memory st2 a = memory st1 a.
Proof.
  intros Ha. rewrite moved_mem. case_decide as Hd; [|done]. exfalso.
  apply (run_not_storage _ pg newSize rams_wf Hl Hr a); [|done].
  unfold in_range, PAGE in *. lia.
Qed.

Lemma moved_claimed_wf : wf st1.
Proof. apply claimed_wf; [apply rams_wf|lia|done..]. Qed.

Lemma moved_mem_wf : mem_wf (memory st2).
Proof. apply memcpy_wf, moved_claimed_wf. Qed.

Lemma moved_wf : wf st2.
Proof. apply write_wf; [apply moved_claimed_wf|apply moved_mem_wf|apply moved_storage]. Qed.

Lemma moved_used i :
  0 <= i < npages st ->
  page_used st2 i = if decide (in_range pg newSize i) then true else page_used st i.
Proof.
  intros Hi. unfold moved. rewrite write_used; [|apply moved_claimed_wf|apply moved_storage|done].
  by apply (claimed_used (rams oldSize newSize st)); [apply rams_wf|lia|..].
Qed.

Lemma moved_free_frames : free_frames st2 = free_frames st - newSize.
Proof.
  unfold moved. rewrite write_free_frames; [|apply moved_claimed_wf|apply moved_storage].
  by apply (claimed_free_frames (rams oldSize newSize st)); [apply rams_wf|lia|..].
Qed.

Lemma moved_contents k :
  0 <= k < newSize * PAGE -> (forall a, storage st a -> ~ in_range page oldSize (a / PAGE)) ->
  memory st2 (pg * PAGE + k) =
    if decide (k < oldSize `min` newSize) then memory st (page * PAGE + k) else 0.
Proof.
  intros Hk Hsto. pose proof moved_disjoint. pose proof (npages_bound st Hw).
  rewrite moved_mem. unfold in_range. case_decide as Hd; case_decide as Hd'; try lia.
  - rewrite (claimed_frame (rams oldSize newSize st)); [f_equal; lia|apply rams_wf|lia|done|exact Hl|..].
    + unfold in_range, PAGE in *. lia.
    + intros Hs. apply (Hsto _ Hs). unfold in_range, PAGE in *. Z.div_mod_to_equations. lia.
  - rewrite claimed_mem; [|apply rams_wf|lia|done|exact Hl]. rewrite decide_True; [done|].
    unfold in_range. lia.
Qed.
End moved.

(** [realloc] of an owned region gives back only its first frame: every
    other frame of the old region stays used although nobody holds it any
    more, only [min oldSize newSize] bytes (not frames) are copied, and the
    counters are adjusted twice. *)
Theorem realloc_leaks st page oldSize newSize st' p :
  wf st -> accounted st ->
  0 < page -> 0 < oldSize -> page + oldSize <= npages st -> 0 < newSize < 2 ^ 40 ->
  (forall i, in_range page oldSize i -> page_used st i = true) ->
  (forall a, storage st a -> ~ in_range page oldSize (a / PAGE)) ->
  realloc (page * PAGE) oldSize newSize st = Ret (st', p) -> p <> 0 ->
  (forall i, in_range (page + 1) (oldSize - 1) i -> page_used st' i = true) /\
  (forall k, 0 <= k < newSize * PAGE ->
    memory st' (p + k) =
      if decide (k < oldSize `min` newSize) then memory st (page * PAGE + k) else 0) /\
  free_frames st' = free_frames st - newSize + 1 /\
  getFreeRam st' = u64 (free_frames st' * PAGE + (oldSize - newSize) * PAGE).
Proof.
  intros Hw Hacc Hp Ho Hpo Hn Hused Hsto Hre Hne.
  destruct (realloc_moved _ _ _ _ Hw Hp Hn _ _ Hre Hne) as (pg & Hf & -> & Hpg & Hl & Hr).
  clear Hre. assert (Hw2 : wf (moved st page pg oldSize newSize)) by (by apply moved_wf).
  set (st2 := moved st page pg oldSize newSize) in *.
  assert (Hn2 : npages st2 = npages st) by done.
  rewrite free_released in Hf by (done || lia). injection Hf as <-.
  assert (Hu2 : forall i, in_range page oldSize i -> page_used st2 i = true).
  { intros i Hi. unfold st2. rewrite moved_used by (done || (unfold in_range in *; lia)).
    case_decide; [done|]. by apply Hused. }
  assert (Hff : free_frames (released st2 page 1) = free_frames st - newSize + 1).
  { rewrite released_free_frames by (done || lia || (intros; apply Hu2; unfold in_range in *; lia)).
    f_equal. by apply moved_free_frames. }
  split; [|split; [|split; [done|]]].
  - intros i Hi. unfold in_range in *. rewrite released_used by (done || lia).
    rewrite decide_False by (unfold in_range; lia). apply Hu2. lia.
  - intros k Hk. rewrite released_frame; [by apply moved_contents|done|lia|lia|lia|].
    apply (run_not_storage (rams oldSize newSize st) pg newSize (rams_wf _ _ _ Hw) Hl Hr).
    unfold in_range. lia.
  - unfold getFreeRam. rewrite Hff. unfold accounted in Hacc.
    cbn [freeRam released st2 moved set_memory claimed rams set_ram]. rewrite Hacc.
    autorewrite with wrap. unfold PAGE. unfold wrap.
    Z.div_mod_to_equations. lia.
Qed.

(** ** The state [init] leaves *)

(** Replacing an entry by one that conflicts with less keeps a map disjoint. *)
Lemma ForallOrdPairs_replace (R : mmap_entry -> mmap_entry -> Prop) l1 e e' l2 :
  (forall x, R x e -> R x e') -> (forall x, R e x -> R e' x) ->
  ForallOrdPairs R (l1 ++ e :: l2) -> ForallOrdPairs R (l1 ++ e' :: l2).
Proof.
  intros H1 H2. induction l1 as [|x l1 IH]; cbn [app]; intros H; inversion H as [|? ? Hx Hl]; subst.
  - constructor; [|done]. by eapply Forall_impl.
  - constructor; [|by apply IH].
    apply Forall_app in Hx as [? Hx]. inversion Hx; subst.
    apply Forall_app. split; [done|]. constructor; auto.
Qed.

Lemma total_app es1 es2 : total (es1 ++ es2) = total es1 + total es2.
Proof. induction es1 as [|e es1 IH]; simpl; [done|]. rewrite IH. case_match; lia. Qed.

Lemma covers_disjoint e1 e2 i :
  entry_ok e1 -> entry_ok e2 -> disjoint_entries e1 e2 -> covers e1 i -> covers e2 i -> False.
Proof.
  intros H1 H2 Hd [Hu1 Hc1] [Hu2 Hc2]. specialize (H1 Hu1). specialize (H2 Hu2).
  specialize (Hd Hu1 Hu2). unfold in_range, PAGE in *. Z.div_mod_to_equations. lia.
Qed.

(** The frames covered by a disjoint map, counted. *)
Lemma count_covered es n :
  Forall entry_ok es -> ForallOrdPairs disjoint_entries es ->
  Forall (fun e => usable e = true -> base e + length e <= Z.of_nat n * PAGE) es ->
  count_free (fun i => negb (bool_decide (covered es i))) n * PAGE = total es.
Proof.
  induction es as [|e es IH]; intros Hok Hd Hle.
  { replace (count_free _ n) with 0; [done|]. induction n as [|n IHn]; cbn [count_free]; [done|].
    rewrite bool_decide_false by (by intros ?%Exists_nil). cbn [negb].
    by rewrite <- IHn by constructor. }
  inversion Hok as [|? ? He Hes]; inversion Hd as [|? ? Hd1 Hds]; inversion Hle as [|? ? Hl Hls]; subst.
  specialize (IH Hes Hds Hls). cbn [total foldr]. fold (total es). rewrite <- IH.
  destruct (usable e) eqn:Hu.
  - specialize (Hl eq_refl). pose proof (He Hu) as (Hb & Hlen & Hbl & Hbm & Hlm).
    rewrite (count_free_run (fun i => negb (bool_decide (covered (e :: es) i)))
      (fun i => negb (bool_decide (covered es i))) n (base e / PAGE) (length e / PAGE)).
    + unfold PAGE in *. Z.div_mod_to_equations. lia.
    + unfold PAGE in *. Z.div_mod_to_equations. lia.
    + unfold PAGE in *. Z.div_mod_to_equations. lia.
    + unfold PAGE in *. Z.div_mod_to_equations. lia.
    + intros j Hj. rewrite bool_decide_true; [done|]. by apply covered_cons; left.
    + intros j Hj. case_decide as Hin.
      * rewrite bool_decide_false; [done|]. intros Hc. unfold covered in Hc.
        apply List.Exists_exists in Hc as (e' & Hin' & Hc').
        rewrite List.Forall_forall in Hd1, Hes.
        by apply (covers_disjoint e e' j He (Hes _ Hin') (Hd1 _ Hin')).
      * f_equal. apply bool_decide_ext. rewrite covered_cons. unfold covers. tauto.
  - f_equal. apply count_free_ext. intros i Hi. f_equal. apply bool_decide_ext.
    rewrite covered_cons. unfold covers. rewrite Hu. intuition congruence.
Qed.


Lemma bitmap_size_spec high :
  0 <= high <= 2 ^ 52 -> high / PAGE / 8 <= bitmap_size high < high / PAGE / 8 + PAGE /\
  bitmap_size high mod PAGE = 0.
Proof.
  intros Hh. apply ALIGN_UP_spec; unfold PAGE; Z.div_mod_to_equations; lia.
Qed.

(** The entry the bitmap was cut from. *)
Definition trimmed (size : Z) (e : mmap_entry) : mmap_entry :=
  Entry (base e + size) (length e - size) (type e).

Section trimmed.
Context (es1 es2 : list mmap_entry) (e : mmap_entry) (size : Z).
Context (Hu : usable e = true) (Hs : 0 <= size <= length e) (Hm : size mod PAGE = 0).
Context (Hok : Forall entry_ok (es1 ++ e :: es2)).
Context (Hd : ForallOrdPairs disjoint_entries (es1 ++ e :: es2)).

#[local] Abbreviation es := (es1 ++ e :: es2).
#[local] Abbreviation es' := (es1 ++ trimmed size e :: es2).

Lemma trimmed_entry_ok : entry_ok e.
Proof. apply Forall_app in Hok as [_ H]. by inversion H. Qed.

Lemma trimmed_ok : Forall entry_ok es'.
Proof.
  apply Forall_app in Hok as [H1 H2]. inversion H2 as [|? ? He H3]; subst.
  apply Forall_app. split; [done|]. constructor; [|done].
  intros _. specialize (He Hu). cbn. unfold PAGE in *. Z.div_mod_to_equations. lia.
Qed.

Lemma trimmed_disjoint : ForallOrdPairs disjoint_entries es'.
Proof.
  revert Hd. apply ForallOrdPairs_replace; unfold disjoint_entries; cbn;
    intros x Hx H1 H2; specialize (Hx ltac:(assumption) ltac:(assumption)); lia.
Qed.

Lemma trimmed_total : total es' = total es - size.
Proof.
  rewrite !total_app. cbn [total foldr]. change (usable (trimmed size e)) with (usable e).
  rewrite Hu. cbn. lia.
Qed.

(** Only the entry the bitmap was cut from covers the bitmap's frames. *)
Lemma trimmed_others i :
  in_range (base e / PAGE) (size / PAGE) i -> ~ covered es1 i /\ ~ covered es2 i.
Proof.
  intros Hi. pose proof trimmed_entry_ok as He.
  assert (Hce : covers e i).
  { split; [done|]. unfold in_range, PAGE in *. Z.div_mod_to_equations. lia. }
  assert (Hall : forall x, In x (es1 ++ es2) -> ~ covers x i).
  { intros x Hx Hcx. apply Forall_app in Hok as [Hok1 Hok2].
    rewrite List.Forall_forall in Hok1, Hok2.
    destruct (in_app_or _ _ _ Hx) as [H1|H2].
    - apply (covers_disjoint x e i); auto. clear -Hd H1.
      induction es1 as [|y l IH]; [done|]. inversion Hd as [|? ? Hy Hl]; subst.
      destruct H1 as [->|H1]; [|by apply IH].
      apply Forall_app in Hy as [_ Hy]. by inversion Hy.
    - apply (covers_disjoint e x i); auto; [by apply Hok2; right|]. clear -Hd H2.
      induction es1 as [|y l IH]; inversion Hd as [|? ? Hy Hl]; subst; [|by apply IH].
      rewrite List.Forall_forall in Hy. by apply Hy. }
  split; intros Hc; apply List.Exists_exists in Hc as (x & Hx & Hcx);
    apply (Hall x); auto using in_or_app.
Qed.

Lemma trimmed_covered i :
  covered es' i <-> covered es i /\ ~ in_range (base e / PAGE) (size / PAGE) i.
Proof.
  pose proof (trimmed_entry_ok Hu) as He. pose proof (trimmed_others i) as Ho.
  unfold covered. rewrite !Exists_app, !Exists_cons. fold (covered es1 i) (covered es2 i).
  assert (covers (trimmed size e) i <->
    covers e i /\ ~ in_range (base e / PAGE) (size / PAGE) i); [|tauto].
  unfold covers. change (usable (trimmed size e)) with (usable e). cbn [base length trimmed].
  unfold in_range, PAGE in *.
  rewrite Hu. split; [intros [_ H]|intros [[_ H] H2]]; split_and!; try done; Z.div_mod_to_equations; lia.
Qed.
Lemma trimmed_top high :
  0 <= high -> Forall (fun e => usable e = true -> base e + length e <= high) es ->
  Forall (fun e => usable e = true -> base e + length e <= high / PAGE * PAGE) es'.
Proof.
  intros Hh Htop. apply Forall_app in Htop as [Ht1 Ht2]. inversion Ht2 as [|? ? He Ht3]; subst.
  assert (Hmul : forall x, entry_ok x -> (usable x = true -> base x + length x <= high) ->
    usable x = true -> base x + length x <= high / PAGE * PAGE).
  { clear. intros x Hok Hle Hu. specialize (Hok Hu). specialize (Hle Hu). unfold PAGE in *.
    Z.div_mod_to_equations. lia. }
  apply Forall_app in Hok as [Hok1 Hok2]. inversion Hok2 as [|? ? Hok3 Hok4]; subst.
  pose proof (Hmul e Hok3 He Hu). rewrite List.Forall_forall in *.
  intros x [Hx|[<-|Hx]]%in_app_or; [by auto| |by auto]. intros _. cbn. lia.
Qed.

Lemma covered_pos i : covered es i -> 0 < i.
Proof.
  intros (x & Hx & Hux & Hc)%List.Exists_exists.
  rewrite List.Forall_forall in Hok. specialize (Hok x Hx Hux). unfold in_range, PAGE in *.
  Z.div_mod_to_equations. lia.
Qed.
End trimmed.

(** The state [init] starts from, and what it needs of the memory map: some
    usable entry can hold the bitmap and the bitmap, whose size is computed
    by two rounded divisions, has a bit for every frame. *)
Record boot (st : state) (high size : Z) : Prop := {
  boot_init : isInit st = false;
  boot_high : highPage st = 0;
  boot_free : freeRam st = 0;
  boot_last : last st = 0;
  boot_lock : mmLock st = false;
  boot_mem : mem_wf (memory st);
  boot_ok : Forall entry_ok (memmap st);
  boot_disjoint : ForallOrdPairs disjoint_entries (memmap st);
  boot_top : high = (survey (memmap st) 0 0).1;
  boot_size : size = bitmap_size high;
  boot_bits : high / PAGE <= 8 * size;
  boot_room : Exists (fun e => usable e = true /\ size <= length e) (memmap st);
}.

Section boot.
Context (st : state) (high size : Z) (Hb : boot st high size).

Lemma boot_survey :
  0 <= high <= 2 ^ 52 /\
  exists free, survey (memmap st) 0 0 = (high, free) /\ u64 free = u64 (total (memmap st)) /\
  Forall (fun e => usable e = true -> base e + length e <= high) (memmap st).
Proof.
  pose proof (boot_top _ _ _ Hb) as Ht. destruct (survey (memmap st) 0 0) as [h f] eqn:Hs.
  cbn in Ht. subst h.
  destruct (survey_spec _ 0 0 high f ltac:(lia) (boot_ok _ _ _ Hb) Hs) as (H1 & H2 & H3).
  split; [lia|]. by exists f.
Qed.

Lemma boot_size_spec : 0 <= size /\ size mod PAGE = 0.
Proof.
  pose proof boot_survey as [Hh _]. pose proof (bitmap_size_spec high Hh) as [Hs Hm].
  rewrite (boot_size _ _ _ Hb). split; [|done]. unfold PAGE in *. Z.div_mod_to_equations. lia.
Qed.

Lemma init_run :
  exists es1 e es2 m', memmap st = es1 ++ e :: es2 /\ usable e = true /\ size <= length e /\
    init st = Ret (mk m' (Bitmap.mk (base e)) true high 0 (usedRam st)
      (u64 (total (memmap st) - size)) false (es1 ++ trimmed size e :: es2)) /\
    mem_wf m' /\
    forall i, 0 <= i < high / PAGE ->
      Bitmap.get m' (Bitmap.mk (base e)) i =
        negb (bool_decide (covered (es1 ++ trimmed size e :: es2) i)).
Proof.
  destruct boot_survey as (Hh & free & Hsv & Hfr & Htop). destruct boot_size_spec as [Hs0 Hsm].
  destruct (place_bitmap_spec _ size (memory st) (bitmap st) free (boot_room _ _ _ Hb))
    as (es1 & e & es2 & Hes & Hu & Hl & Hpl).
  pose proof (boot_ok _ _ _ Hb) as Hok. rewrite Hes in Hok, Htop.
  pose proof (trimmed_entry_ok _ _ _ Hok Hu) as (Hb0 & Hl0 & Hbl & Hbm & Hlm).
  rewrite (wrap_small 64 (base e + size)), (wrap_small 64 (length e - size)) in Hpl by lia.
  pose proof (boot_bits _ _ _ Hb) as Hbits.
  set (m1 := (memset (memory st) (base e) 255 size).1) in *.
  assert (Hf : Bitmap.fits (Bitmap.mk (base e)) (high / PAGE)).
  { split; cbn; Z.div_mod_to_equations; lia. }
  destruct (release_all_spec (Bitmap.mk (base e)) (high / PAGE) (es1 ++ trimmed size e :: es2) m1)
    as (m' & Hrel & Hwf & Hget); [done|..].
  { unfold PAGE. apply Z.div_le_upper_bound; lia. }
  { by apply trimmed_ok. }
  { by apply trimmed_top; try lia. }
  { by apply memset_wf, (boot_mem _ _ _ Hb). }
  exists es1, e, es2, m'. do 3 (split; [done|]). split; [|split; [done|]].
  - unfold init. rewrite (boot_init _ _ _ Hb), (boot_high _ _ _ Hb), (boot_free _ _ _ Hb), Hsv.
    rewrite <- (boot_size _ _ _ Hb), Hpl. unfold trimmed in Hrel. rewrite Hrel.
    cbn [mbind result_bind]. rewrite (boot_last _ _ _ Hb), (boot_lock _ _ _ Hb).
    rewrite <- (wrap_sub_l 64 free), Hfr, wrap_sub_l. done.
  - intros i Hi. rewrite Hget by done. case_decide as Hc.
    { by rewrite bool_decide_true. }
    rewrite bool_decide_false by done. apply (Bitmap.get_ff _ _ (high / PAGE)); [done|done|].
    unfold m1. rewrite memset_lookup by lia. rewrite decide_True; [done|].
    unfold in_range, Bitmap.byte_addr. cbn. Z.div_mod_to_equations. lia.
Qed.
End boot.

(** [init] on a fresh state. *)
Lemma init_spec st high size :
  boot st high size ->
  exists st', init st = Ret st' /\ isInit st' = true /\ wf st' /\ accounted st' /\
    npages st' = high / PAGE /\
    (forall i, 0 <= i < npages st' ->
      page_used st' i = false <->
      covered (memmap st) i /\ ~ in_range (Bitmap.buffer (bitmap st') / PAGE) (size / PAGE) i) /\
    init st' = Ret st'.
Proof.
  intros Hb. destruct (boot_survey _ _ _ Hb) as (Hh & free & _ & _ & Htop).
  destruct (boot_size_spec _ _ _ Hb) as [Hs0 Hsm].
  destruct (init_run _ _ _ Hb) as (es1 & e & es2 & m' & Hes & Hu & Hl & Hin & Hm' & Hget).
  pose proof (boot_ok _ _ _ Hb) as Hok. pose proof (boot_disjoint _ _ _ Hb) as Hd.
  pose proof (boot_bits _ _ _ Hb) as Hbits. rewrite Hes in Hok, Hd, Htop |- *.
  pose proof (trimmed_entry_ok _ _ _ Hok Hu) as (Hb0 & Hl0 & Hbl & Hbm & Hlm).
  eexists. split; [exact Hin|]. set (st' := mk _ _ _ _ _ _ _ _ _).
  assert (Hfree : forall i, 0 <= i < npages st' -> page_used st' i = false <->
      covered (es1 ++ e :: es2) i /\ ~ in_range (base e / PAGE) (size / PAGE) i).
  { intros i Hi. unfold page_used. cbn [memory bitmap st']. rewrite Hget by done.
    rewrite <- (trimmed_covered es1 es2 e size) by done.
    rewrite negb_false_iff. apply bool_decide_eq_true. }
  assert (Hacc : count_free (page_used st') (Z.to_nat (npages st')) * PAGE =
      total (es1 ++ trimmed size e :: es2)).
  { rewrite <- (count_covered _ (Z.to_nat (npages st'))).
    - f_equal. apply count_free_ext. intros i Hi. unfold page_used. cbn [memory bitmap st'].
      apply Hget. change (npages st') with (high / PAGE) in Hi. unfold PAGE in *. Z.div_mod_to_equations. lia.
    - by apply trimmed_ok.
    - by apply trimmed_disjoint.
    - replace (Z.of_nat _) with (high / PAGE); [by apply trimmed_top; try lia|].
      change (npages st') with (high / PAGE). unfold PAGE. Z.div_mod_to_equations. lia. }
  split; [done|]. split; [|split; [|done]].
  - split; cbn [memory highPage bitmap last mmLock st']; [done|lia| | |done|..].
    + split; cbn; change (npages st') with (high / PAGE); unfold PAGE in *;
        Z.div_mod_to_equations; lia.
    + change (npages st') with (high / PAGE). unfold PAGE. Z.div_mod_to_equations. lia.
    + intros Hn. apply not_false_iff_true. rewrite Hfree by lia.
      intros [Hc _]. apply (covered_pos es1 es2 e) in Hc; (lia || done).
    + intros a Ha Hn. apply not_false_iff_true. unfold storage, in_range in Ha.
      cbn [Bitmap.buffer bitmap st'] in Ha. change (npages st') with (high / PAGE) in *.
      assert (0 <= a / PAGE) by (apply Z.div_pos; [lia|done]).
      rewrite Hfree by done. intros [_ Hc]. apply Hc. unfold in_range, PAGE in *.
      Z.div_mod_to_equations. lia.
  - unfold accounted, free_frames. rewrite Hacc. cbn [freeRam st'].
    rewrite Hes, trimmed_total by done. apply wrap_small.
    rewrite <- trimmed_total by done. rewrite <- Hacc.
    pose proof (count_free_nonneg (page_used st') (Z.to_nat (npages st'))).
    change (npages st') with (high / PAGE) in *. unfold PAGE in *. Z.div_mod_to_equations. lia.
Qed.

(** An entry with room for the bitmap and [n] frames leaves [n] free frames in
    a row. *)
Lemma init_fits st high size n st' :
  boot st high size -> Exists (fun e => usable e = true /\ size + n * PAGE <= length e) (memmap st) ->
  0 < n -> init st = Ret st' -> ~ no_fit st' n.
Proof.
  intros Hb Hroom Hn Hr. destruct (boot_size_spec _ _ _ Hb) as [Hs0 Hsm].
  destruct (boot_survey _ _ _ Hb) as (Hh & free & _ & _ & Htop).
  destruct (init_run _ _ _ Hb) as (es1 & e & es2 & m' & Hes & Hu & Hl & Hin & _ & Hget).
  rewrite Hin in Hr. injection Hr as <-. pose proof (boot_ok _ _ _ Hb) as Hok. rewrite Hes in Hok, Htop, Hroom.
  pose proof (trimmed_ok es1 es2 e size Hu ltac:(lia) Hsm Hok) as Hok'.
  assert (Htop' : Forall (fun x => usable x = true -> base x + length x <= high / PAGE * PAGE)
    (es1 ++ trimmed size e :: es2)) by (by apply trimmed_top; try lia).
  assert (Hroom' : Exists (fun x => usable x = true /\ n * PAGE <= length x) (es1 ++ trimmed size e :: es2)).
  { apply Exists_app in Hroom as [H|H]; apply Exists_app; [left|right; apply Exists_cons in H as [[_ H]|H]].
    - eapply Exists_impl; [exact H|]. intros x [? ?]. split; [done|lia].
    - apply Exists_cons_hd. split; [done|cbn; lia].
    - apply Exists_cons_tl. eapply Exists_impl; [exact H|]. intros x [? ?]. split; [done|lia]. }
  apply List.Exists_exists in Hroom' as (x & Hx & Hux & Hlx). rewrite List.Forall_forall in Hok', Htop'.
  specialize (Hok' x Hx Hux). specialize (Htop' x Hx Hux).
  assert (Hspan : 0 <= base x / PAGE /\ base x / PAGE + n <= high / PAGE /\ n <= length x / PAGE).
  { unfold PAGE in *. Z.div_mod_to_equations. lia. }
  intros [Hno _]. apply (Hno (base x / PAGE)); [cbn; lia|cbn; unfold npages; cbn; change 0x1000 with PAGE; lia|].
  intros j Hj. unfold page_used. cbn [memory bitmap]. rewrite Hget by lia. apply negb_false_iff, bool_decide_eq_true.
  apply List.Exists_exists. exists x. split; [done|]. split; [done|]. unfold in_range. lia.
Qed.

(** C3: [init] builds the allocator's state from the boot loader's map: a
    frame is free exactly when a usable entry covers it and the bitmap does
    not lie in it, the invariant holds and the free memory reported is the
    number of free frames. *)
Theorem init_correct st high size :
  boot st high size ->
  exists st', init st = Ret st' /\ isInit st' = true /\ wf st' /\ accounted st' /\
    npages st' = high / PAGE /\
    (forall i, 0 <= i < npages st' ->
      page_used st' i = false <->
      covered (memmap st) i /\ ~ in_range (Bitmap.buffer (bitmap st') / PAGE) (size / PAGE) i) /\
    init st' = Ret st'.
Proof. apply init_spec. Qed.

(** ** The interface promised to clients *)

#[export] Instance frame_allocator : FrameAllocator state := {
  fa_mem := memory;
  fa_write := set_memory;
  fa_alloc := alloc 1;
}.

Definition frame_used (st : state) (i : Z) : Prop := 0 <= i < npages st /\ page_used st i = true.

(** One frame is always found when there is one. *)
Lemma alloc_one st :
  wf st -> 0 < free_frames st ->
  exists page, alloc 1 st = Ret (claimed st page 1, page * PAGE) /\
    0 < page /\ page + 1 <= npages st /\ run (page_used st) page 1.
Proof.
  intros Hw Hf. destruct (alloc_cases st 1 Hw ltac:(lia)) as [[_ [Hn1 Hn2]]|(page & Ha & Hp & Hl & Hr & _)].
  - exfalso. apply count_free_pos in Hf as (i & Hi & Hfi). pose proof (npages_bound st Hw).
    assert (Hr : run (page_used st) i 1) by (intros j Hj; replace j with i by lia; done).
    destruct (decide (last st <= i)); [apply (Hn1 i)|apply (Hn2 i)]; lia || done.
  - by exists page.
Qed.

#[export] Program Instance frame_allocator_laws : FrameAllocatorLaws state := {
  fa_ok st := wf st /\ accounted st;
  fa_used := frame_used;
  fa_private := storage;
  fa_free := free_frames;
  fa_frames := npages;
}.
Next Obligation. intros st [Hw _]. apply Hw. Qed.
Next Obligation.
  intros st [Hw _]. pose proof (wf_high st Hw). cbn. unfold npages, PAGE.
  Z.div_mod_to_equations. lia.
Qed.
Next Obligation. done. Qed.
Next Obligation.
  intros st m [Hw Ha] Hm Hs. cbn in *. split.
  { split; [by apply write_wf|]. unfold accounted. by rewrite write_free_frames. }
  split; [by apply write_free_frames|]. split; [done|]. split; [|done].
  intros i. unfold frame_used. change (npages (set_memory m st)) with (npages st).
  split; intros [Hi Hu]; (split; [done|]); by rewrite write_used in *.
Qed.
Next Obligation.
  intros st [Hw Hacc] Hf. cbn in *.
  destruct (alloc_one st Hw Hf) as (page & -> & Hp & Hl & Hr).
  exists (claimed st page 1), (page * PAGE). rewrite Z.div_mul by done.
  split; [done|]. split; [split; [by apply claimed_wf|by apply claimed_accounted]|].
  split; [by apply claimed_free_frames|]. split; [done|]. split; [lia|]. split; [done|].
  split; [intros [_ Hu]; by rewrite Hr in Hu by lia|]. split.
  { intros i. unfold frame_used. change (npages (claimed st page 1)) with (npages st).
    split.
    - intros [Hi Hu]. rewrite claimed_used in Hu by (done || lia). unfold in_range in Hu.
      case_decide; [right; lia|by left].
    - intros [[Hi Hu]| ->]; (split; [lia|]); rewrite claimed_used by (done || lia);
        case_decide as Hd; try done. unfold in_range in Hd. lia. }
  split; [done|]. assert (H1 : 1 * PAGE = PAGE) by done. split_and!; intros a Ha.
  - apply (run_not_storage st page 1); [done..|]. by rewrite H1.
  - rewrite claimed_mem, H1 by (done || lia). by rewrite decide_True.
  - apply claimed_frame; [done..|]. by rewrite H1.
Qed.

(** ** The properties at a concrete state

    Eight frames: 0 reserved, 1 with the bitmap, 2 and 3 taken, 4 to 7 free. *)

Definition demo : state :=
  mk (fun a => if a =? 0x1000 then 0xF0 else 0) (Bitmap.mk 0x1000) true 0x8000 0 0x4000 0x4000 false [].

Lemma demo_wf : wf demo.
Proof.
  split.
  - intros a. cbn. case_Zb; lia.
  - cbn. lia.
  - vm_compute. by split.
  - vm_compute. by split.
  - done.
  - intros _. reflexivity.
  - intros a Ha _. unfold storage, in_range in Ha. cbn in Ha.
    assert (a = 0x1000) as -> by (change ((npages demo + 7) / 8) with 1 in Ha; lia).
    reflexivity.
Qed.

Lemma demo_alloc : exists st' p, alloc 1 demo = Ret (st', p) /\ p <> 0.
Proof.
  destruct (alloc_one demo demo_wf eq_refl) as (page & -> & Hp & _).
  eexists _, _. split; [done|]. unfold PAGE. lia.
Qed.

Lemma demo_realloc : exists st' p, realloc (2 * PAGE) 2 1 demo = Ret (st', p) /\ p <> 0.
Proof.
  assert (Hw : wf (rams 2 1 demo)) by apply rams_wf, demo_wf.
  destruct (alloc_one _ Hw eq_refl) as (page & Ha & Hp & _ & _).
  set (r := rams 2 1 demo) in *.
  assert (realloc (2 * PAGE) 2 1 demo =
    '(st, newFrag) ← alloc 1 r;
    st ← free (2 * PAGE) 1 (set_memory (memcpy (memory st) newFrag (2 * PAGE) 1).1 st);
    Ret (st, newFrag)) as -> by reflexivity.
  rewrite Ha. eexists _, _. split; [reflexivity|]. unfold PAGE. lia.
Qed.

Lemma alloc_next_fit_witness :
  exists st' p, alloc 1 demo = Ret (st', p) /\ (p = 0 <-> no_fit demo 1).
Proof.
  destruct (alloc_next_fit demo 1 demo_wf ltac:(lia)) as (st' & p & H1 & H2 & _). exists st', p. split; [exact H1|exact H2].
Defined.

Lemma alloc_claims_witness :
  exists st' p, alloc 1 demo = Ret (st', p) /\ wf st' /\ accounted st' /\ free_frames st' = 3.
Proof.
  destruct demo_alloc as (st' & p & Ha & Hp).
  destruct (alloc_claims demo 1 st' p demo_wf eq_refl ltac:(lia) Ha Hp) as (H1 & H2 & _ & H3 & _).
  exists st', p. split; [exact Ha|]. split; [exact H1|]. split; [exact H2|exact H3].
Defined.

Lemma alloc_failure_witness :
  exists st', alloc 10 demo = Ret (st', 0) /\ getFreeRam st' = 2 ^ 64 - 0x6000.
Proof.
  destruct (alloc_failure demo 10 demo_wf eq_refl ltac:(lia)) as (st' & H1 & _ & H2 & _).
  - split; intros i Hi Hn; change (npages demo) with 8 in *; change (last demo) with 0 in *; lia.
  - exists st'. split; [exact H1|exact H2].
Defined.

Lemma alloc_free_roundtrip_witness :
  exists st1 p st2, alloc 1 demo = Ret (st1, p) /\ free p 1 st1 = Ret st2 /\
    getFreeRam st2 = getFreeRam demo.
Proof.
  destruct demo_alloc as (st1 & p & Ha & Hp).
  destruct (alloc_free_roundtrip demo 1 st1 p demo_wf eq_refl ltac:(lia) Ha Hp)
    as (st2 & H1 & _ & _ & _ & H2 & _).
  exists st1, p, st2. split; [exact Ha|]. split; [exact H1|exact H2].
Defined.

Lemma realloc_leaks_witness :
  exists st' p, realloc (2 * PAGE) 2 1 demo = Ret (st', p) /\ page_used st' 3 = true /\
    free_frames st' = 4 /\ getFreeRam st' = 5 * PAGE.
Proof.
  destruct demo_realloc as (st' & p & Hr & Hp). exists st', p. split; [done|].
  destruct (realloc_leaks demo 2 2 1 st' p demo_wf eq_refl) as (H1 & _ & H2 & H3);
    [lia|lia|vm_compute; discriminate|lia| | |done|done|].
  - intros i Hi. assert (i = 2 \/ i = 3) as [-> | ->] by (unfold in_range in Hi; lia); reflexivity.
  - intros a Ha. unfold storage, in_range in *. change ((npages demo + 7) / 8) with 1 in Ha.
    change (Bitmap.buffer (bitmap demo)) with 0x1000 in Ha. unfold PAGE. Z.div_mod_to_equations. lia.
  - split; [by apply H1|]. rewrite H3, H2. done.
Defined.

Definition demo_boot : state :=
  mk (fun _ => 0) (Bitmap.mk 0) false 0 0 0 0 false
     [Entry 0 0x1000 2; Entry 0x1000 0x9000 STIVALE2_MMAP_USABLE].

Lemma init_correct_witness :
  exists st', init demo_boot = Ret st' /\ wf st' /\ npages st' = 10.
Proof.
  destruct (init_correct demo_boot 0xA000 0x1000) as (st' & H1 & _ & H2 & _ & H3 & _).
  - split; [done|done|done|done|done| | | |done|done|done|].
    + intros a. cbn. lia.
    + constructor; [done|]. constructor; [|done]. intros _. vm_compute. repeat split; discriminate.
    + constructor; [|by repeat constructor]. constructor; [|done]. intros H. discriminate H.
    + right. left. cbn. split; [done|]. vm_compute. discriminate.
  - exists st'. split; [exact H1|]. split; [exact H2|exact H3].
Defined.

End PMemory.
