(* ===== verification/VMemory.v ===== *)
(** * Page tables: [system/memory/vMemory]

    Page tables live in the frames of a [FrameAllocator], and the code follows
    the physical addresses in their entries.  The operations are those of
    [Pagemap] and [PDEntry]; what they mean is stated on [entry], the value of
    the last-level entry a virtual address selects. *)

From S2P Require Import Prelude Mem Bitmap Frames PMemory.
#[local] Open Scope Z_scope.
#[local] Open Scope machine_scope.

Module VMemory.

(** [enum PT_Flag]. *)
Definition present : Z := Z.shiftl 1 0.
Definition readNwrite : Z := Z.shiftl 1 1.
Definition userSuper : Z := Z.shiftl 1 2.
Definition writeThrough : Z := Z.shiftl 1 3.
Definition cacheDisable : Z := Z.shiftl 1 4.
Definition accessed : Z := Z.shiftl 1 5.
Definition largerPages : Z := Z.shiftl 1 7.
Definition custom0 : Z := Z.shiftl 1 9.
Definition custom1 : Z := Z.shiftl 1 10.
Definition custom2 : Z := Z.shiftl 1 11.
Definition NX : Z := Z.shiftl 1 63.

(** ** [PDEntry]: operations on the entry's [value] *)

Definition setFlags (value flags : Z) (enabled : bool) : Z :=
  let value := Z.land value (u64 (Z.lnot flags)) in
  if enabled then Z.lor value flags else value.

Definition setFlag (value flag : Z) (enabled : bool) : Z :=
  let value := Z.land value (u64 (Z.lnot flag)) in
  if enabled then Z.lor value flag else value.

(** [value & (bitSel > 0)]: the mask is the truth value of a comparison. *)
Definition getFlag (value flag : Z) : bool :=
  negb (Z.land value (Z.b2z (0 <? flag)) =? 0).

Definition getFlags (value flags : Z) : bool :=
  negb (Z.land value (Z.b2z (0 <? flags)) =? 0).

Definition getAddress (value : Z) : Z := Z.shiftr (Z.land value 0x000FFFFFFFFFF000) 12.

Definition setAddress (value address : Z) : Z :=
  let address := Z.land address 0x000000FFFFFFFFFF in
  Z.lor (Z.land value 0xFFF0000000000FFF) (u64 (Z.shiftl address 12)).

(** The address of [entries[i]] of the table at [t]. *)
Definition slot (t i : Z) : Z := t + 8 * i.

(** [(vaddr & ((uint64_t)0x1FF << shift)) >> shift]. *)
Definition index (vaddr shift : Z) : Z :=
  Z.shiftr (Z.land vaddr (Z.shiftl 0x1FF shift)) shift.

Record Pagemap : Type := mkPagemap { lock : bool; TOPLVL : Z }.

Definition set_lock (l : bool) (pm : Pagemap) : Pagemap := mkPagemap l (TOPLVL pm).

Section operations.
Context {S : Type} `{FrameAllocator S}.

(** Writing a 64-bit word of physical memory. *)
Definition write64 (a v : Z) (s : S) : S := fa_write (store64 (fa_mem s) a v) s.

Definition get_next_lvl (curr_lvl entry : Z) (s : S) : result (S * Z) :=
  let a := slot curr_lvl entry in
  if getFlag (load64 (fa_mem s) a) present then
    Ret (s, u64 (Z.shiftl (getAddress (load64 (fa_mem s) a)) 12))
  else
    '(s, ret) ← fa_alloc s;
    let s := write64 a (setAddress (load64 (fa_mem s) a) (Z.shiftr ret 12)) s in
    let s := write64 a (setFlags (load64 (fa_mem s) a)
                         (Z.lor (Z.lor present readNwrite) userSuper) true) s in
    Ret (s, ret).

(** [Pagemap::virt2pte]: the address of the entry it returns a reference to. *)
Definition virt2pte (lvl5 : bool) (pm : Pagemap) (vaddr : Z) (s : S) : result (S * Z) :=
  let pml5_entry := index vaddr 48 in
  let pml4_entry := index vaddr 39 in
  let pml3_entry := index vaddr 30 in
  let pml2_entry := index vaddr 21 in
  let pml1_entry := index vaddr 12 in
  '(s, pml4) ← (if lvl5 then get_next_lvl (TOPLVL pm) pml5_entry s else Ret (s, TOPLVL pm));
  '(s, pml3) ← get_next_lvl pml4 pml4_entry s;
  '(s, pml2) ← get_next_lvl pml3 pml3_entry s;
  '(s, pml1) ← get_next_lvl pml2 pml2_entry s;
  Ret (s, slot pml1 pml1_entry).

(** The members that take the lock, find an entry and update its value. *)
Definition locked_update (f : Z -> Z) (lvl5 : bool) (pm : Pagemap) (vaddr : Z) (s : S)
  : result (S * Pagemap) :=
  held ← spin_lock (lock pm);
  let pm := set_lock held pm in
  '(s, pte) ← virt2pte lvl5 pm vaddr s;
  Ret (write64 pte (f (load64 (fa_mem s) pte)) s, set_lock false pm).

Definition mapMem (lvl5 : bool) (pm : Pagemap) (vaddr paddr flags : Z) (s : S) : result (S * Pagemap) :=
  locked_update (fun v => setFlags (setAddress v (Z.shiftr paddr 12)) flags true) lvl5 pm vaddr s.

Definition unmapMem (lvl5 : bool) (pm : Pagemap) (vaddr : Z) (s : S) : result (S * Pagemap) :=
  locked_update (fun _ => 0) lvl5 pm vaddr s.

Definition pm_setFlags (lvl5 : bool) (pm : Pagemap) (vaddr flags : Z) (s : S) : result (S * Pagemap) :=
  locked_update (fun v => setFlags v flags true) lvl5 pm vaddr s.

Definition pm_remFlags (lvl5 : bool) (pm : Pagemap) (vaddr flags : Z) (s : S) : result (S * Pagemap) :=
  locked_update (fun v => setFlags v flags false) lvl5 pm vaddr s.

Definition remapMem (lvl5 : bool) (pm : Pagemap) (vaddr_old vaddr_new flags : Z) (s : S)
  : result (S * Pagemap) :=
  held ← spin_lock (lock pm);
  let pm := set_lock held pm in
  '(s, pte) ← virt2pte lvl5 pm vaddr_old s;
  let paddr := u64 (Z.shiftl (getAddress (load64 (fa_mem s) pte)) 12) in
  let s := write64 pte 0 s in
  mapMem lvl5 (set_lock false pm) vaddr_new paddr flags s.

Definition mapUserMem (lvl5 : bool) (pm : Pagemap) (vaddr paddr flags : Z) (s : S) : result (S * Pagemap) :=
  mapMem lvl5 pm vaddr paddr (Z.lor flags userSuper) s.

(** [hhdm] is the boot loader's higher-half offset. *)
Definition mapHHMem (hhdm : Z) (lvl5 : bool) (pm : Pagemap) (paddr flags : Z) (s : S) : result (S * Pagemap) :=
  mapMem lvl5 pm (paddr +64 hhdm) paddr flags s.

(** [for (i = 0; i < 512; i++) pml4->entries[i] = old_pml4->entries[i]], from
    entry [i] on, [n] iterations. *)
Fixpoint copy_entries (n : nat) (i dst src : Z) (s : S) : S :=
  match n with
  | O => s
  | Datatypes.S n =>
      copy_entries n (i + 1) dst src
        (write64 (slot dst i) (load64 (fa_mem s) (slot src i)) s)
  end.

Definition clonePagemap (old : Pagemap) (s : S) : result (S * Pagemap) :=
  '(s, top) ← fa_alloc s;
  Ret (copy_entries 512 0 top (TOPLVL old) s, mkPagemap false top).

(** [cr3] is the value of the register; the first page map is the boot loader's. *)
Definition newPagemap (cr3 : Z) (kernel_pagemap : option Pagemap) (s : S) : result (S * Pagemap) :=
  match kernel_pagemap with
  | None => Ret (s, mkPagemap false cr3)
  | Some kernel => clonePagemap kernel s
  end.

(** [switchPagemap] is the new value of [cr3], and [getPagemap] reads it back. *)
Definition switchPagemap (pmap : Pagemap) : Z := TOPLVL pmap.
Definition getPagemap (cr3 : Z) : Z := cr3.

(** [init]: the statics [isInit] and [kernel_pagemap], and [cr3]. *)
Definition init (g : bool * option Pagemap * Z) (s : S) : result (S * (bool * option Pagemap * Z)) :=
  let '(isInit, kernel_pagemap, cr3) := g in
  if isInit then Ret (s, g) else
  '(s, pm) ← newPagemap cr3 kernel_pagemap s;
  Ret (s, (true, Some pm, switchPagemap pm)).

End operations.

(** ** Bits of an entry *)

Lemma address_mask_bit i :
  0 <= i -> Z.testbit 0x000FFFFFFFFFF000 i = (12 <=? i) && (i <? 52).
Proof.
  intros Hi. change 0x000FFFFFFFFFF000 with (Z.shiftl (Z.ones 40) 12).
  rewrite Z.shiftl_spec, Z.testbit_ones by lia.
  repeat (case_Zb; try lia); done.
Qed.

Lemma flags_mask_bit i :
  0 <= i -> Z.testbit 0xFFF0000000000FFF i = (i <? 12) || ((52 <=? i) && (i <? 64)).
Proof.
  intros Hi. change 0xFFF0000000000FFF with (Z.lor (Z.shiftl (Z.ones 12) 52) (Z.ones 12)).
  rewrite Z.lor_spec, Z.shiftl_spec, !Z.testbit_ones by lia.
  repeat (case_Zb; try lia); done.
Qed.

Lemma low40_mask_bit i : 0 <= i -> Z.testbit 0x000000FFFFFFFFFF i = (i <? 40).
Proof.
  intros Hi. change 0x000000FFFFFFFFFF with (Z.ones 40). rewrite Z.testbit_ones by lia.
  repeat (case_Zb; try lia); try done.
Qed.

(** Flags without address bits. *)
Definition flags_ok (flags : Z) : Prop :=
  0 <= flags < 2 ^ 64 /\ Z.land flags 0x000FFFFFFFFFF000 = 0.

Lemma flags_ok_bit flags i : flags_ok flags -> 12 <= i < 52 -> Z.testbit flags i = false.
Proof.
  intros [_ Hf] Hi. assert (H : Z.testbit (Z.land flags 0x000FFFFFFFFFF000) i = false)
    by (by rewrite Hf, Z.bits_0).
  rewrite Z.land_spec, address_mask_bit in H by lia.
  destruct (Z.leb_spec 12 i), (Z.ltb_spec i 52); try lia. by rewrite andb_true_r in H.
Qed.

Lemma setFlags_bit v f e i :
  0 <= i < 64 -> Z.testbit (setFlags v f e) i = if Z.testbit f i then e else Z.testbit v i.
Proof.
  intros Hi. unfold setFlags. destruct e; bits_simpl;
    destruct (Z.ltb_spec i 64); try lia; destruct (Z.testbit v i), (Z.testbit f i); done.
Qed.

Lemma setAddress_bit v a i :
  0 <= i < 64 -> Z.testbit (setAddress v a) i =
    if (12 <=? i) && (i <? 52) then Z.testbit a (i - 12) else Z.testbit v i.
Proof.
  intros Hi. unfold setAddress. rewrite Z.lor_spec, Z.land_spec, flags_mask_bit by lia.
  rewrite testbit_wrap, Z.shiftl_spec, Z.land_spec by lia.
  destruct (decide (12 <= i)).
  - rewrite low40_mask_bit by lia.
    repeat (case_Zb; try lia); destruct (Z.testbit v i), (Z.testbit a (i - 12)); done.
  - rewrite (Z.testbit_neg_r a), (Z.testbit_neg_r 0x000000FFFFFFFFFF) by lia.
    repeat (case_Zb; try lia); destruct (Z.testbit v i); done.
Qed.

Lemma getFlag_present v : getFlag v present = Z.testbit v 0.
Proof.
  unfold getFlag. change (Z.b2z (0 <? present)) with (Z.ones 1). rewrite Z.land_ones by lia.
  change (2 ^ 1) with 2. rewrite <- Z.bit0_mod. by destruct (Z.testbit v 0).
Qed.

Lemma getAddress_setFlags v f e : flags_ok f -> getAddress (setFlags v f e) = getAddress v.
Proof.
  intros Hf. apply Z.bits_inj'. intros i Hi. unfold getAddress.
  rewrite !Z.shiftr_spec, !Z.land_spec, !address_mask_bit by lia.
  destruct (decide (i + 12 < 52)).
  - by rewrite setFlags_bit, (flags_ok_bit f) by (done || lia).
  - repeat (case_Zb; try lia); by rewrite ?andb_false_r.
Qed.

Lemma getAddress_setAddress v a : 0 <= a -> getAddress (setAddress v a) = a mod 2 ^ 40.
Proof.
  intros Ha. apply Z.bits_inj'. intros i Hi. unfold getAddress.
  rewrite Z.shiftr_spec, Z.land_spec, address_mask_bit by lia.
  destruct (decide (i < 40)).
  - rewrite setAddress_bit, Z.mod_pow2_bits_low by lia.
    repeat (case_Zb; try lia); rewrite ?andb_true_r; cbn; f_equal; lia.
  - rewrite Z.mod_pow2_bits_high by lia. repeat (case_Zb; try lia); by rewrite ?andb_false_r.
Qed.

Lemma setFlags_range v f e : 0 <= v < 2 ^ 64 -> 0 <= f < 2 ^ 64 -> 0 <= setFlags v f e < 2 ^ 64.
Proof.
  intros Hv Hf. unfold setFlags. pose proof (land_below v (u64 (Z.lnot f)) 64 ltac:(lia) Hv).
  destruct e; [by apply lor_below|done].
Qed.

Lemma setAddress_range v a : 0 <= v < 2 ^ 64 -> 0 <= setAddress v a < 2 ^ 64.
Proof.
  intros Hv. apply lor_below; [lia|by apply land_below|]. apply wrap_range. lia.
Qed.

Lemma getAddress_shift v :
  0 <= v < 2 ^ 64 -> Z.shiftr (u64 (Z.shiftl (getAddress v) 12)) 12 mod 2 ^ 40 = getAddress v.
Proof.
  intros Hv. apply Z.bits_inj'. intros i Hi. destruct (decide (i < 40)).
  - rewrite Z.mod_pow2_bits_low, Z.shiftr_spec, testbit_wrap, Z.shiftl_spec by lia.
    replace (i + 12 - 12) with i by lia. case_Zb; [done|lia].
  - rewrite Z.mod_pow2_bits_high by lia. unfold getAddress.
    rewrite Z.shiftr_spec, Z.land_spec, address_mask_bit by lia.
    repeat (case_Zb; try lia); by rewrite ?andb_false_r.
Qed.

Lemma setFlags_lor v f : 0 <= v < 2 ^ 64 -> 0 <= f < 2 ^ 64 -> setFlags v f true = Z.lor v f.
Proof.
  intros Hv Hf. apply Z.bits_inj'. intros i Hi. rewrite Z.lor_spec. destruct (decide (i < 64)).
  - rewrite setFlags_bit by lia. by destruct (Z.testbit v i), (Z.testbit f i).
  - pose proof (setFlags_range v f true Hv Hf). by rewrite !(testbit_above _ 64) by lia.
Qed.

Lemma setFlags_ldiff v f : 0 <= v < 2 ^ 64 -> 0 <= f < 2 ^ 64 -> setFlags v f false = Z.ldiff v f.
Proof.
  intros Hv Hf. apply Z.bits_inj'. intros i Hi. rewrite Z.ldiff_spec. destruct (decide (i < 64)).
  - rewrite setFlags_bit by lia. by destruct (Z.testbit v i), (Z.testbit f i).
  - pose proof (setFlags_range v f false Hv Hf). by rewrite !(testbit_above _ 64) by lia.
Qed.

Lemma setFlags_present v f : Z.testbit f 0 = true -> getFlag (setFlags v f true) present = true.
Proof. intros Hf. by rewrite getFlag_present, setFlags_bit, Hf by lia. Qed.

Lemma index_spec va k : 0 <= k -> index va k = va / 2 ^ k mod 512.
Proof.
  intros Hk. unfold index. apply Z.bits_inj'. intros i Hi.
  rewrite Z.shiftr_spec, Z.land_spec, Z.shiftl_spec by lia.
  replace (i + k - k) with i by lia. change 0x1FF with (Z.ones 9). change 512 with (2 ^ 9).
  rewrite Z.testbit_ones by lia. destruct (decide (i < 9)).
  - rewrite Z.mod_pow2_bits_low, Z.div_pow2_bits by lia.
    repeat (case_Zb; try lia); by rewrite ?andb_true_r.
  - rewrite Z.mod_pow2_bits_high by lia. repeat (case_Zb; try lia); by rewrite ?andb_false_r.
Qed.

Lemma index_range va k : 0 <= k -> 0 <= index va k < 512.
Proof. intros. rewrite index_spec by done. by apply Z.mod_pos_bound. Qed.

(** ** The tree of tables

    [table m t path] is the table reached from table [t] by the entries
    [path], and [entry m top path] the value of the entry a full path selects,
    0 when a table on the way is missing. *)

Definition next (v : Z) : Z := u64 (Z.shiftl (getAddress v) 12).

Fixpoint table (m : mem) (t : Z) (path : list Z) : option Z :=
  match path with
  | [] => Some t
  | i :: path =>
      let v := load64 m (slot t i) in
      if getFlag v present then table m (next v) path else None
  end.

Definition leaf (m : mem) (top : Z) (path : list Z) (j : Z) : Z :=
  match table m top path with Some t => load64 m (slot t j) | None => 0 end.

(** The entries [virt2pte] follows for an address, and the one it returns. *)
Definition path_of (lvl5 : bool) (vaddr : Z) : list Z :=
  (if lvl5 then [index vaddr 48] else []) ++ [index vaddr 39; index vaddr 30; index vaddr 21].

Definition entry (lvl5 : bool) (m : mem) (pm : Pagemap) (vaddr : Z) : Z :=
  leaf m (TOPLVL pm) (path_of lvl5 vaddr) (index vaddr 12).

Definition levels (lvl5 : bool) : nat := if lvl5 then 5 else 4.

Definition path_ok (path : list Z) : Prop := Forall (fun i => 0 <= i < 512) path.

Lemma table_snoc m t P i :
  table m t (P ++ [i]) =
    table m t P ≫= fun t' => let v := load64 m (slot t' i) in
      if getFlag v present then Some (next v) else None.
Proof.
  revert t. induction P as [|k P IH]; intros t; simpl; [done|].
  case_match; [apply IH|done].
Qed.

(** A table depends only on the entries on its path. *)
Lemma table_ext m m' top Q :
  (forall R k t', (R ++ [k]) `prefix_of` Q -> table m top R = Some t' ->
    load64 m' (slot t' k) = load64 m (slot t' k)) ->
  table m' top Q = table m top Q.
Proof.
  induction Q as [|k Q IH] using rev_ind; intros Hx; [done|]. rewrite !table_snoc, IH.
  - destruct (table m top Q) as [t'|] eqn:Ht; [|done]. cbn [mbind option_bind]. by rewrite (Hx Q k t').
  - intros R j t' HR. apply Hx. by apply prefix_app_r.
Qed.

Lemma table_none m top P Q : table m top P = None -> table m top (P ++ Q) = None.
Proof.
  revert top. induction P as [|k P IH]; intros top; simpl; [done|]. case_match; [apply IH|done].
Qed.

Lemma slot_disjoint t1 t2 i j :
  t1 mod PAGE = 0 -> t2 mod PAGE = 0 -> 0 <= i < 512 -> 0 <= j < 512 -> (t1, i) <> (t2, j) ->
  slot t1 i + 8 <= slot t2 j \/ slot t2 j + 8 <= slot t1 i.
Proof.
  intros H1 H2 Hi Hj Hne. unfold slot, PAGE in *. destruct (decide (t1 = t2)) as [->|].
  - assert (i <> j) by congruence. lia.
  - Z.div_mod_to_equations. lia.
Qed.

Lemma slot_in_page t i a : 0 <= i < 512 -> in_range (slot t i) 8 a -> in_range t PAGE a.
Proof. unfold in_range, slot, PAGE. lia. Qed.

(** A present entry made by [get_next_lvl] points to its frame. *)
Definition linked (v p : Z) : Z :=
  setFlags (setAddress v (Z.shiftr p 12)) (Z.lor (Z.lor present readNwrite) userSuper) true.

Lemma linked_present v p : getFlag (linked v p) present = true.
Proof. by apply setFlags_present. Qed.

Lemma linked_next v p : 0 <= p < 2 ^ 52 -> p mod PAGE = 0 -> next (linked v p) = p.
Proof.
  intros Hp Hm. unfold next, linked, PAGE in *. rewrite getAddress_setFlags by done.
  rewrite Z.shiftr_div_pow2 by lia. change (2 ^ 12) with 4096.
  rewrite getAddress_setAddress by (apply Z.div_pos; lia).
  rewrite (Z.mod_small (p / 4096)) by (Z.div_mod_to_equations; lia).
  rewrite Z.shiftl_mul_pow2 by lia. change (2 ^ 12) with 4096.
  rewrite wrap_small; Z.div_mod_to_equations; lia.
Qed.

(** Linking a new, empty table at entry [i] of the table [path] leads to. *)
Section link.
Context (L : nat) (m m' : mem) (top : Z) (P : list Z) (i t p y : Z).
Context (HP : (length P + 1 < L)%nat) (HPok : path_ok P) (Hi : 0 <= i < 512).
Context (Ht : table m top P = Some t) (Habs : table m top (P ++ [i]) = None).
Context (Hy : load64 m' (slot t i) = y) (Hyp : getFlag y present = true) (Hyn : next y = p).
Context (Hother : forall R k t', (length R < L)%nat -> path_ok R -> 0 <= k < 512 ->
  table m top R = Some t' -> (R, k) <> (P, i) -> load64 m' (slot t' k) = load64 m (slot t' k)).
Context (Hzero : forall k, 0 <= k < 512 -> load64 m' (slot p k) = 0).

Lemma link_table_path : table m' top P = Some t.
Proof.
  rewrite <- Ht. apply table_ext. intros R k t' HR HtR. destruct HR as [T HT].
  assert (length R < length P)%nat by (rewrite HT, !length_app; simpl; lia).
  unfold path_ok in HPok. rewrite HT in HPok.
  apply Forall_app in HPok as [[HRok [Hk _]%Forall_cons]%Forall_app _].
  apply (Hother R); [lia|done|done|done|]. intros [= -> _]. lia.
Qed.

Lemma link_table Q :
  (length Q < L)%nat -> path_ok Q ->
  table m' top Q = if decide (Q = P ++ [i]) then Some p else table m top Q.
Proof.
  intros HQ HQok. destruct (decide ((P ++ [i]) `prefix_of` Q)) as [[T ->]|Hnp].
  - assert (Hp : table m' top (P ++ [i]) = Some p).
    { rewrite table_snoc, link_table_path. cbn [mbind option_bind].
      by rewrite Hy, Hyp, Hyn. }
    destruct T as [|k T]; [rewrite app_nil_r; by rewrite decide_True|].
    rewrite decide_False by (intros Heq%(f_equal length); rewrite !length_app in Heq; simpl in Heq; lia).
    rewrite (table_none m top) by done. rewrite cons_middle, app_assoc. apply table_none.
    rewrite table_snoc, Hp. cbn [mbind option_bind].
    apply Forall_app in HQok as [_ HT]. inversion HT; subst. by rewrite Hzero.
  - rewrite decide_False by (intros ->; by apply Hnp). apply table_ext.
    intros R k t' HR HtR. pose proof HR as [T HT].
    assert (length R < length Q)%nat by (rewrite HT, !length_app; simpl; lia).
    rewrite HT in HQok. apply Forall_app in HQok as [[HRok [Hk _]%Forall_cons]%Forall_app _].
    apply (Hother R); [lia|done|done|done|]. intros [= -> ->]. by apply Hnp.
Qed.

Lemma link_leaf Q j :
  (length Q + 1 = L)%nat -> path_ok Q -> 0 <= j < 512 -> leaf m' top Q j = leaf m top Q j.
Proof.
  intros HQ HQok Hj. unfold leaf. rewrite link_table by (lia || done). case_decide as Hd.
  - subst Q. by rewrite Habs, Hzero.
  - destruct (table m top Q) as [t'|] eqn:HtQ; [|done].
    apply (Hother Q); [lia|done|done|done|]. intros [= -> _]. lia.
Qed.
End link.

(** ** The invariant and the operations *)

Section invariant.
Context {S : Type} `{Laws : FrameAllocatorLaws S}.

Definition page_owned (s : S) (t : Z) : Prop :=
  t mod PAGE = 0 /\ 0 <= t / PAGE < fa_frames s /\ fa_used s (t / PAGE) /\
  forall a, in_range t PAGE a -> ~ fa_private s a.

(** Every table of the tree is an owned frame, and no frame is reached twice. *)
Record wfmap (L : nat) (top : Z) (s : S) : Prop := {
  wm_ok : fa_ok s;
  wm_owned P t : (length P < L)%nat -> path_ok P -> table (fa_mem s) top P = Some t -> page_owned s t;
  wm_inj P Q t : (length P < L)%nat -> (length Q < L)%nat -> path_ok P -> path_ok Q ->
    table (fa_mem s) top P = Some t -> table (fa_mem s) top Q = Some t -> P = Q;
}.

(** Writing an entry of an owned table. *)
Lemma write64_ok (s : S) t i v :
  fa_ok s -> page_owned s t -> 0 <= i < 512 ->
  let s' := write64 (slot t i) v s in
  fa_ok s' /\ fa_mem s' = store64 (fa_mem s) (slot t i) v /\ fa_free s' = fa_free s /\
  fa_frames s' = fa_frames s /\ (forall k, fa_used s' k <-> fa_used s k) /\
  (forall a, fa_private s' a <-> fa_private s a).
Proof.
  intros Hok (_ & _ & _ & Hp) Hi. unfold write64.
  destruct (fa_write_ok s (store64 (fa_mem s) (slot t i) v)) as (H1 & H2 & H3 & H4 & H5).
  - done.
  - by apply store_wf, fa_mem_ok.
  - intros a Ha. apply store_ne. intros Hr. apply (Hp a); [|done]. by eapply slot_in_page.
  - cbn zeta. rewrite fa_mem_write. done.
Qed.

Lemma page_owned_ext (s s' : S) t :
  fa_frames s' = fa_frames s -> (forall k, fa_used s k -> fa_used s' k) ->
  (forall a, fa_private s' a <-> fa_private s a) -> page_owned s t -> page_owned s' t.
Proof.
  intros Hf Hu Hp (H1 & H2 & H3 & H4). unfold page_owned. rewrite Hf.
  split_and!; [done|lia|lia|by apply Hu|]. intros a Ha. rewrite Hp. by apply H4.
Qed.

(** Entries of different tables, or different entries of one, do not overlap. *)
Lemma wfmap_slots L top s P i t Q j t' :
  wfmap L top s -> (length P < L)%nat -> (length Q < L)%nat -> path_ok P -> path_ok Q ->
  0 <= i < 512 -> 0 <= j < 512 ->
  table (fa_mem s) top P = Some t -> table (fa_mem s) top Q = Some t' -> (Q, j) <> (P, i) ->
  slot t' j + 8 <= slot t i \/ slot t i + 8 <= slot t' j.
Proof.
  intros Hw HP HQ HPo HQo Hi Hj Ht Ht' Hne.
  apply slot_disjoint; [by eapply (wm_owned _ _ _ Hw Q)|by eapply (wm_owned _ _ _ Hw P)|done|done|].
  intros [= -> ->]. apply Hne. f_equal. by eapply (wm_inj _ _ _ Hw).
Qed.

(** A new page: it is owned and zero, and nothing that was owned is in it or
    changes. *)
Lemma fresh_page s :
  fa_ok s -> 0 < fa_free s ->
  exists s' p, fa_alloc s = Ret (s', p) /\ fa_ok s' /\ fa_free s' = fa_free s - 1 /\
    page_owned s' p /\ 0 <= p < 2 ^ 52 /\ ~ fa_used s (p / PAGE) /\
    (forall t, page_owned s t -> page_owned s' t) /\
    (forall t k, page_owned s t -> 0 <= k < 512 ->
      t <> p /\ load64 (fa_mem s') (slot t k) = load64 (fa_mem s) (slot t k)) /\
    (forall k, 0 <= k < 512 -> load64 (fa_mem s') (slot p k) = 0).
Proof.
  intros Hok Hfree. destruct (fa_alloc_spec s Hok Hfree) as (s1 & p & -> & Hok1 & Hf1 & Hfr1 & Hp & Hpp & Hnu
    & Hu1 & Hpv1 & Hpp1 & Hz1 & Hm1).
  assert (Hpm : p mod PAGE = 0) by (rewrite Hpp; by apply Z.mod_mul).
  exists s1, p. split; [done|]. split; [done|]. split; [done|]. split; [|split; [|split; [done|split; [|split]]]].
  - split; [done|]. split; [lia|]. split; [apply Hu1; by right|]. intros a Ha. rewrite Hpv1. by apply Hpp1.
  - pose proof (fa_frames_bound s Hok). unfold PAGE in *. Z.div_mod_to_equations. lia.
  - intros t'. apply page_owned_ext; [lia|intros; apply Hu1; by left|done].
  - intros t' k Ho Hk. assert (t' <> p) by (intros ->; by apply Hnu, Ho). split; [done|].
    apply load_ext. intros a Ha. apply (slot_in_page t' k) in Ha; [|done].
    apply Hm1; [|by apply Ho]. destruct Ho as (Hmt & _). unfold in_range, PAGE in *.
    Z.div_mod_to_equations. lia.
  - intros k Hk. apply load_zero. intros a Ha. apply Hz1. by apply (slot_in_page p k).
Qed.

(** The two writes that link a page. *)
Lemma link_page s t i p :
  fa_ok s -> page_owned s t -> 0 <= i < 512 ->
  let v := load64 (fa_mem s) (slot t i) in
  let s2 := write64 (slot t i) (setAddress v (Z.shiftr p 12)) s in
  let s3 := write64 (slot t i) (setFlags (load64 (fa_mem s2) (slot t i)) (Z.lor (Z.lor present readNwrite) userSuper) true) s2 in
  fa_ok s3 /\ fa_free s3 = fa_free s /\ (forall t', page_owned s t' -> page_owned s3 t') /\
  load64 (fa_mem s3) (slot t i) = linked v p /\
  (forall t' k, t' mod PAGE = 0 -> 0 <= k < 512 -> (t', k) <> (t, i) ->
    load64 (fa_mem s3) (slot t' k) = load64 (fa_mem s) (slot t' k)).
Proof.
  intros Hok Hot Hi v s2.
  destruct (write64_ok s t i (setAddress v (Z.shiftr p 12)) Hok Hot Hi) as (Hok2 & Hm2 & Hf2 & Hfr2 & Hu2 & Hp2).
  fold s2 in Hok2, Hm2, Hf2, Hfr2, Hu2, Hp2.
  assert (Hown2 : forall t', page_owned s t' -> page_owned s2 t').
  { intros t'. apply page_owned_ext; [done|apply Hu2|done]. }
  assert (Hv : 0 <= v < 2 ^ 64) by (apply (load_range 8), fa_mem_ok; done).
  assert (Hl2 : load64 (fa_mem s2) (slot t i) = setAddress v (Z.shiftr p 12)).
  { rewrite Hm2. apply load_store_eq. by apply setAddress_range. }
  rewrite Hl2. fold (linked v p). intros s3.
  destruct (write64_ok s2 t i (linked v p) Hok2 (Hown2 _ Hot) Hi) as (Hok3 & Hm3 & Hf3 & Hfr3 & Hu3 & Hp3).
  fold s3 in Hok3, Hm3, Hf3, Hfr3, Hu3, Hp3. split; [done|]. split; [lia|]. split; [|split].
  - intros t' Ho. apply (page_owned_ext s2); [done|apply Hu3|done|by apply Hown2].
  - rewrite Hm3. apply load_store_eq. apply setFlags_range; [by apply setAddress_range|done].
  - intros t' k Hmt Hk Hne. rewrite Hm3, Hm2.
    assert (slot t' k + 8 <= slot t i \/ slot t i + 8 <= slot t' k)
      by (apply slot_disjoint; try done; apply Hot).
    by rewrite !load_store_ne.
Qed.

(** The case that allocates: what the new state holds. *)
Lemma get_next_lvl_alloc L top s P t i :
  wfmap L top s -> (length P < L)%nat -> path_ok P -> 0 <= i < 512 ->
  table (fa_mem s) top P = Some t -> 0 < fa_free s ->
  getFlag (load64 (fa_mem s) (slot t i)) present = false ->
  exists s' p y, get_next_lvl t i s = Ret (s', p) /\ fa_ok s' /\ fa_free s' = fa_free s - 1 /\
    page_owned s' p /\ ~ fa_used s (p / PAGE) /\
    (forall t', page_owned s t' -> page_owned s' t') /\
    load64 (fa_mem s') (slot t i) = y /\ getFlag y present = true /\ next y = p /\
    (forall R k t', (length R < L)%nat -> path_ok R -> 0 <= k < 512 ->
      table (fa_mem s) top R = Some t' -> (R, k) <> (P, i) ->
      load64 (fa_mem s') (slot t' k) = load64 (fa_mem s) (slot t' k)) /\
    (forall k, 0 <= k < 512 -> load64 (fa_mem s') (slot p k) = 0).
Proof.
  intros Hw HP HPok Hi Ht Hfree Hpr. unfold get_next_lvl. rewrite Hpr.
  destruct (fresh_page s (wm_ok _ _ _ Hw) Hfree)
    as (s1 & p & -> & Hok1 & Hf1 & Hop & Hb & Hnu & Hown1 & Hold & Hz1). cbn [mbind result_bind].
  pose proof (wm_owned _ _ _ Hw P t HP HPok Ht) as Hot.
  destruct (link_page s1 t i p Hok1 (Hown1 _ Hot) Hi) as (Hok3 & Hf3 & Hown3 & Hl3 & Hdis).
  set (s2 := write64 (slot t i) _ s1) in *. set (s3 := write64 (slot t i) _ s2) in *.
  exists s3, p, (load64 (fa_mem s3) (slot t i)). split; [done|]. split; [done|]. split; [lia|].
  split; [by apply Hown3|]. split; [done|]. split; [by auto|]. split; [done|].
  rewrite Hl3. split; [apply linked_present|]. split; [apply linked_next; [done|apply Hop]|]. split.
  - intros R k t' HR HRok Hk HtR Hne. pose proof (wm_owned _ _ _ Hw R t' HR HRok HtR) as Ho.
    rewrite Hdis; [by apply Hold|apply Ho|done|].
    intros [= -> ->]. apply Hne. f_equal. by apply (wm_inj _ _ _ Hw R P t).
  - intros k Hk. destruct (Hold t i Hot Hi) as [Htp _].
    rewrite Hdis; [by apply Hz1|apply Hop|done|by intros [= ->]].
Qed.

Lemma get_next_lvl_spec L top s P t i :
  wfmap L top s -> (length P + 1 < L)%nat -> path_ok P -> 0 <= i < 512 ->
  table (fa_mem s) top P = Some t -> 0 < fa_free s ->
  exists s' t', get_next_lvl t i s = Ret (s', t') /\ wfmap L top s' /\
    table (fa_mem s') top (P ++ [i]) = Some t' /\ fa_free s - 1 <= fa_free s' /\
    (forall Q j, (length Q + 1 = L)%nat -> path_ok Q -> 0 <= j < 512 ->
      leaf (fa_mem s') top Q j = leaf (fa_mem s) top Q j).
Proof.
  intros Hw HP HPok Hi Ht Hfree. destruct (getFlag (load64 (fa_mem s) (slot t i)) present) eqn:Hpr.
  { unfold get_next_lvl. rewrite Hpr. eexists _, _. split; [done|]. split; [done|]. split.
    { rewrite table_snoc, Ht. cbn [mbind option_bind]. by rewrite Hpr. }
    split; [lia|done]. }
  destruct (get_next_lvl_alloc L top s P t i Hw ltac:(lia) HPok Hi Ht Hfree Hpr)
    as (s' & p & y & -> & Hok' & Hf' & Hop & Hnu & Hown & Hy & Hyp & Hyn & Hother & Hzero).
  assert (Habs : table (fa_mem s) top (P ++ [i]) = None).
  { rewrite table_snoc, Ht. cbn [mbind option_bind]. by rewrite Hpr. }
  pose proof (link_table L _ _ top P i t p y HP HPok Ht Habs Hy Hyp Hyn Hother Hzero) as Hlink.
  assert (Hnew : forall Q, (length Q < L)%nat -> path_ok Q -> table (fa_mem s) top Q <> Some p).
  { intros Q HQ HQok HtQ. by apply Hnu, (wm_owned _ _ _ Hw Q p HQ HQok HtQ). }
  exists s', p. split; [done|]. split.
  { split; [done|..].
    - intros Q tq HQ HQok. rewrite Hlink by done. case_decide; [by intros [= <-]|].
      intros HtQ. by apply Hown, (wm_owned _ _ _ Hw Q).
    - intros Q1 Q2 tq HQ1 HQ2 HQ1ok HQ2ok. rewrite !Hlink by done.
      intros E1 E2. repeat case_decide; simplify_eq; try done;
        first [by destruct (Hnew Q1)|by destruct (Hnew Q2)|by apply (wm_inj _ _ _ Hw Q1 Q2 tq)]. }
  split.
  { rewrite Hlink; [by rewrite decide_True|rewrite length_app; simpl; lia|].
    apply Forall_app. split; [done|]. by apply Forall_singleton. }
  split; [lia|]. intros Q j HQ HQok Hj.
  by apply (link_leaf L _ _ top P i t p y).
Qed.

Lemma path_of_ok lvl5 va : path_ok (path_of lvl5 va).
Proof.
  unfold path_of. apply Forall_app. split; [destruct lvl5|];
    repeat (apply Forall_cons; split; [by apply index_range|]); done.
Qed.

Lemma path_of_length lvl5 va : (length (path_of lvl5 va) + 1 = levels lvl5)%nat.
Proof. by destruct lvl5. Qed.

(** [virt2pte] finds the entry: it builds the missing tables, at most one frame
    per level, and changes no last-level entry. *)
Lemma virt2pte_spec lvl5 pm va s :
  wfmap (levels lvl5) (TOPLVL pm) s -> Z.of_nat (levels lvl5) - 1 <= fa_free s ->
  exists s' t, virt2pte lvl5 pm va s = Ret (s', slot t (index va 12)) /\
    wfmap (levels lvl5) (TOPLVL pm) s' /\
    table (fa_mem s') (TOPLVL pm) (path_of lvl5 va) = Some t /\
    fa_free s - (Z.of_nat (levels lvl5) - 1) <= fa_free s' /\
    (forall Q j, (length Q + 1 = levels lvl5)%nat -> path_ok Q -> 0 <= j < 512 ->
      leaf (fa_mem s') (TOPLVL pm) Q j = leaf (fa_mem s) (TOPLVL pm) Q j).
Proof.
  intros Hw Hfree. pose proof (path_of_ok lvl5 va) as Hpo.
  set (top := TOPLVL pm) in *. unfold virt2pte. fold top.
  set (L := levels lvl5) in *.
  assert (exists P4 s4 t4,
    (if lvl5 then get_next_lvl top (index va 48) s else Ret (s, top)) = Ret (s4, t4) /\
    path_of lvl5 va = P4 ++ [index va 39; index va 30; index va 21] /\
    wfmap L top s4 /\ table (fa_mem s4) top P4 = Some t4 /\
    fa_free s - (Z.of_nat L - 1) + 3 <= fa_free s4 /\
    (forall Q j, (length Q + 1 = L)%nat -> path_ok Q -> 0 <= j < 512 ->
      leaf (fa_mem s4) top Q j = leaf (fa_mem s) top Q j))
    as (P4 & s4 & t4 & -> & HP & Hw4 & Ht4 & Hf4 & Hl4).
  { destruct lvl5; cbn in L, Hfree.
    - destruct (get_next_lvl_spec L top s [] top (index va 48))
        as (s' & t' & -> & Hw' & Ht' & Hf' & Hl'); [done|simpl; lia|by apply Forall_nil|by apply index_range|done|lia|].
      exists [index va 48], s', t'. split_and!; try done. cbn in *. lia.
    - exists [], s, top. split_and!; try done. cbn in *. lia. }
  rewrite HP in Hpo |- *. pose proof (path_of_length lvl5 va) as HL. fold L in HL.
  rewrite HP, length_app in HL. simpl in HL.
  apply Forall_app in Hpo as [HP4 _]. cbn [mbind result_bind].
  destruct (get_next_lvl_spec L top s4 P4 t4 (index va 39)) as (s3 & t3 & -> & Hw3 & Ht3 & Hf3 & Hl3);
    [done|lia|done|by apply index_range|done|lia|]. cbn [mbind result_bind].
  assert (HP3 : path_ok (P4 ++ [index va 39])).
  { apply Forall_app. split; [done|]. by apply Forall_singleton, index_range. }
  destruct (get_next_lvl_spec L top s3 (P4 ++ [index va 39]) t3 (index va 30))
    as (s2 & t2 & -> & Hw2 & Ht2 & Hf2 & Hl2);
    [done|rewrite length_app; simpl; lia|done|by apply index_range|done|lia|]. cbn [mbind result_bind].
  assert (HP2 : path_ok ((P4 ++ [index va 39]) ++ [index va 30])).
  { apply Forall_app. split; [done|]. by apply Forall_singleton, index_range. }
  destruct (get_next_lvl_spec L top s2 ((P4 ++ [index va 39]) ++ [index va 30]) t2 (index va 21))
    as (s1 & t1 & -> & Hw1 & Ht1 & Hf1 & Hl1);
    [done|rewrite !length_app; simpl; lia|done|by apply index_range|done|lia|]. cbn [mbind result_bind].
  exists s1, t1. split; [done|]. split; [done|]. split; [by rewrite <- !app_assoc in Ht1|].
  split; [lia|].
  intros Q j HQ HQok Hj. by rewrite Hl1, Hl2, Hl3, Hl4.
Qed.

(** Updating the entry an address selects changes that entry only. *)
Lemma write_leaf L top s P t i v :
  wfmap L top s -> (length P + 1 = L)%nat -> path_ok P -> 0 <= i < 512 ->
  table (fa_mem s) top P = Some t -> 0 <= v < 2 ^ 64 ->
  wfmap L top (write64 (slot t i) v s) /\ fa_free (write64 (slot t i) v s) = fa_free s /\
  forall Q j, (length Q + 1 = L)%nat -> path_ok Q -> 0 <= j < 512 ->
    leaf (fa_mem (write64 (slot t i) v s)) top Q j =
      if decide ((Q, j) = (P, i)) then v else leaf (fa_mem s) top Q j.
Proof.
  intros Hw HP HPok Hi Ht Hv.
  pose proof (wm_owned _ _ _ Hw P t ltac:(lia) HPok Ht) as Hot.
  destruct (write64_ok s t i v (wm_ok _ _ _ Hw) Hot Hi) as (Hok' & Hm' & Hf' & Hfr' & Hu' & Hp').
  set (s' := write64 (slot t i) v s) in *.
  assert (Hload : forall R k t', (length R < L)%nat -> path_ok R -> 0 <= k < 512 ->
    table (fa_mem s) top R = Some t' -> (R, k) <> (P, i) ->
    load64 (fa_mem s') (slot t' k) = load64 (fa_mem s) (slot t' k)).
  { intros R k t' HR HRok Hk HtR Hne. rewrite Hm'. apply load_store_ne.
    apply (wfmap_slots L top s P i t R k t'); done || lia. }
  assert (Htab : forall Q, (length Q < L)%nat -> path_ok Q ->
    table (fa_mem s') top Q = table (fa_mem s) top Q).
  { intros Q HQ HQok. apply table_ext. intros R k t' HR HtR. pose proof HR as [T HT].
    assert (length R < length Q)%nat by (rewrite HT, !length_app; simpl; lia).
    rewrite HT in HQok. apply Forall_app in HQok as [[HRok [Hk _]%Forall_cons]%Forall_app _].
    apply (Hload R); [lia|done|done|done|]. intros [= -> _]. lia. }
  split.
  - split; [done|..].
    + intros Q tq HQ HQok. rewrite Htab by done. intros HtQ.
      apply (page_owned_ext s s'); [done|apply Hu'|done|]. by apply (wm_owned _ _ _ Hw Q).
    + intros Q1 Q2 tq HQ1 HQ2 HQ1ok HQ2ok. rewrite !Htab by done. by apply (wm_inj _ _ _ Hw).
  - split; [done|]. intros Q j HQ HQok Hj. unfold leaf. rewrite Htab by (done || lia).
    case_decide as Hd; [injection Hd as -> ->; rewrite Ht, Hm'; by apply load_store_eq|].
    destruct (table (fa_mem s) top Q) as [t'|] eqn:HtQ; [|done].
    apply (Hload Q); done || lia.
Qed.

(** Two addresses select the same entry when they are in the same page of the
    address space the levels translate. *)
Definition same_page (lvl5 : bool) (va va' : Z) : Prop :=
  va / PAGE mod 2 ^ (9 * Z.of_nat (levels lvl5)) = va' / PAGE mod 2 ^ (9 * Z.of_nat (levels lvl5)).

#[export] Instance same_page_dec lvl5 va va' : Decision (same_page lvl5 va va').
Proof. unfold same_page. apply _. Defined.

Lemma mod_digits x y n :
  0 <= n -> x mod 2 ^ (9 + n) = y mod 2 ^ (9 + n) <->
  x mod 512 = y mod 512 /\ x / 512 mod 2 ^ n = y / 512 mod 2 ^ n.
Proof.
  intros Hn. rewrite Z.pow_add_r by lia. change (2 ^ 9) with 512.
  rewrite !Z.rem_mul_r by (try apply Z.pow_pos_nonneg; lia).
  pose proof (Z.mod_pos_bound x 512). pose proof (Z.mod_pos_bound y 512). nia.
Qed.

Lemma same_page_index lvl5 va va' :
  same_page lvl5 va va' <->
  (path_of lvl5 va, index va 12) = (path_of lvl5 va', index va' 12).
Proof.
  unfold same_page, path_of. rewrite !index_spec by lia.
  replace (2 ^ 21) with (4096 * 512) by lia. replace (2 ^ 30) with (4096 * 512 * 512) by lia.
  replace (2 ^ 39) with (4096 * 512 * 512 * 512) by lia.
  replace (2 ^ 48) with (4096 * 512 * 512 * 512 * 512) by lia. change (2 ^ 12) with 4096.
  change PAGE with 4096. rewrite <- !Z.div_div by lia.
  generalize (va / 4096) (va' / 4096). intros x y.
  destruct lvl5; cbn [levels app].
  - change (9 * Z.of_nat 5) with (9 + (9 + (9 + (9 + 9)))).
    rewrite !mod_digits by lia. change (2 ^ 9) with 512.
    split; [intros H'; destruct_and! H'; congruence|intros [=]; by repeat split].
  - change (9 * Z.of_nat 4) with (9 + (9 + (9 + 9))).
    rewrite !mod_digits by lia. change (2 ^ 9) with 512.
    split; [intros H'; destruct_and! H'; congruence|intros [=]; by repeat split].
Qed.

(** Finding the entry of an address and giving it the value [w]. *)
Lemma update_entry lvl5 pm va s w :
  wfmap (levels lvl5) (TOPLVL pm) s -> Z.of_nat (levels lvl5) - 1 <= fa_free s -> 0 <= w < 2 ^ 64 ->
  exists s1 pte, virt2pte lvl5 pm va s = Ret (s1, pte) /\
    load64 (fa_mem s1) pte = entry lvl5 (fa_mem s) pm va /\
    let s2 := write64 pte w s1 in
    wfmap (levels lvl5) (TOPLVL pm) s2 /\
    fa_free s - (Z.of_nat (levels lvl5) - 1) <= fa_free s2 /\
    forall va', entry lvl5 (fa_mem s2) pm va' =
      if decide (same_page lvl5 va va') then w else entry lvl5 (fa_mem s) pm va'.
Proof.
  intros Hw Hfree Hwr. destruct (virt2pte_spec lvl5 pm va s Hw Hfree)
    as (s1 & t & Hv & Hw1 & Ht1 & Hfr1 & Hl1).
  destruct (write_leaf (levels lvl5) (TOPLVL pm) s1 (path_of lvl5 va) t (index va 12) w)
    as (Hw2 & Hfr2 & Hl2);
    [done|by apply path_of_length|by apply path_of_ok|by apply index_range|done|done|].
  exists s1, (slot t (index va 12)). split; [done|]. split.
  { unfold entry. rewrite <- Hl1; [|by apply path_of_length|by apply path_of_ok|by apply index_range].
    unfold leaf. by rewrite Ht1. }
  split; [done|]. split; [lia|]. intros va'. unfold entry at 1.
  rewrite Hl2; [|by apply path_of_length|by apply path_of_ok|by apply index_range].
  pose proof (same_page_index lvl5 va va') as Hsame.
  destruct (decide (same_page lvl5 va va')) as [Hs|Hs];
    [rewrite decide_True by (by symmetry; apply Hsame); done|].
  rewrite decide_False by (intros Heq; by apply Hs, Hsame).
  rewrite Hl1; [done|by apply path_of_length|by apply path_of_ok|by apply index_range].
Qed.

Lemma entry_range lvl5 pm va s :
  fa_ok s -> 0 <= entry lvl5 (fa_mem s) pm va < 2 ^ 64.
Proof.
  intros Hok. unfold entry, leaf. case_match; [|lia]. by apply (load_range 8), fa_mem_ok.
Qed.

(** What every locked update does: it returns, keeps the tree, leaves the lock
    free, and changes the entry of the addresses in the page only. *)
Lemma locked_update_spec f lvl5 pm va s :
  wfmap (levels lvl5) (TOPLVL pm) s -> Z.of_nat (levels lvl5) - 1 <= fa_free s -> lock pm = false ->
  (forall v, 0 <= v < 2 ^ 64 -> 0 <= f v < 2 ^ 64) ->
  exists s', locked_update f lvl5 pm va s = Ret (s', pm) /\
    wfmap (levels lvl5) (TOPLVL pm) s' /\
    forall va', entry lvl5 (fa_mem s') pm va' =
      if decide (same_page lvl5 va va') then f (entry lvl5 (fa_mem s) pm va)
      else entry lvl5 (fa_mem s) pm va'.
Proof.
  intros Hw Hfree Hlock Hf. unfold locked_update, spin_lock. rewrite Hlock. cbn [mbind result_bind].
  change (set_lock true pm) with (mkPagemap true (TOPLVL pm)).
  destruct (update_entry lvl5 (mkPagemap true (TOPLVL pm)) va s (f (entry lvl5 (fa_mem s) pm va)))
    as (s1 & pte & -> & Hv & Hw2 & _ & Hent); [done|done|apply Hf, entry_range, Hw|].
  cbn [mbind result_bind]. rewrite Hv. eexists. split; [by destruct pm as [[] ?]|]. by split.
Qed.

(** ** Properties *)

(** C4: [mapMem] maps: given a frame per missing level it returns, the entry
    of [vaddr]'s page holds the physical frame and the flags, every other page
    of the address space keeps its entry, the lock is released and the page
    tables stay a tree of frames the allocator holds as used. *)
Theorem mapMem_correct lvl5 pm vaddr paddr flags s :
  wfmap (levels lvl5) (TOPLVL pm) s -> Z.of_nat (levels lvl5) - 1 <= fa_free s ->
  lock pm = false -> flags_ok flags -> 0 <= paddr < 2 ^ 52 ->
  exists s', mapMem lvl5 pm vaddr paddr flags s = Ret (s', pm) /\
    wfmap (levels lvl5) (TOPLVL pm) s' /\
    (forall va', ~ same_page lvl5 vaddr va' ->
      entry lvl5 (fa_mem s') pm va' = entry lvl5 (fa_mem s) pm va') /\
    (forall va', same_page lvl5 vaddr va' ->
      let e := entry lvl5 (fa_mem s') pm va' in
      getAddress e = paddr / PAGE /\
      forall i, 0 <= i < 12 \/ 52 <= i < 64 ->
        Z.testbit e i = Z.testbit flags i || Z.testbit (entry lvl5 (fa_mem s) pm vaddr) i).
Proof.
  intros Hw Hfree Hlock Hfl Hpa.
  destruct (locked_update_spec (fun v => setFlags (setAddress v (Z.shiftr paddr 12)) flags true)
    lvl5 pm vaddr s Hw Hfree Hlock) as (s' & Hrun & Hw' & Hent).
  { intros v Hv. apply setFlags_range; [by apply setAddress_range|apply Hfl]. }
  exists s'. split; [done|]. split; [done|]. split; intros va' Hs.
  - rewrite Hent. by rewrite decide_False.
  - cbn zeta. rewrite Hent, decide_True by done. split.
    + rewrite getAddress_setFlags by done. rewrite Z.shiftr_div_pow2 by lia.
      change (2 ^ 12) with PAGE. unfold PAGE.
      rewrite getAddress_setAddress by (apply Z.div_pos; lia).
      apply Z.mod_small. Z.div_mod_to_equations. lia.
    + intros i Hi. rewrite setFlags_bit, setAddress_bit by lia.
      destruct (Z.testbit flags i); [done|]. repeat (case_Zb; try lia); done.
Qed.

(** C15: [remapMem] moves a mapping: the new page gets the physical frame the
    old page had, the old page is no longer mapped, and no other page changes. *)
Theorem remapMem_moves lvl5 pm vaddr_old vaddr_new flags s :
  wfmap (levels lvl5) (TOPLVL pm) s -> 2 * (Z.of_nat (levels lvl5) - 1) <= fa_free s ->
  lock pm = false -> flags_ok flags -> ~ same_page lvl5 vaddr_new vaddr_old ->
  exists s', remapMem lvl5 pm vaddr_old vaddr_new flags s = Ret (s', pm) /\
    wfmap (levels lvl5) (TOPLVL pm) s' /\
    entry lvl5 (fa_mem s') pm vaddr_old = 0 /\
    getAddress (entry lvl5 (fa_mem s') pm vaddr_new) = getAddress (entry lvl5 (fa_mem s) pm vaddr_old) /\
    (forall va', ~ same_page lvl5 vaddr_old va' -> ~ same_page lvl5 vaddr_new va' ->
      entry lvl5 (fa_mem s') pm va' = entry lvl5 (fa_mem s) pm va').
Proof.
  intros Hw Hfree Hlock Hfl Hne.
  assert (1 <= Z.of_nat (levels lvl5)) by (destruct lvl5; cbn; lia).
  unfold remapMem, spin_lock. rewrite Hlock. cbn [mbind result_bind].
  change (set_lock true pm) with (mkPagemap true (TOPLVL pm)).
  destruct (update_entry lvl5 (mkPagemap true (TOPLVL pm)) vaddr_old s 0)
    as (s1 & pte & -> & Hv & Hw1 & Hf1 & He1); [done|lia|lia|]. cbn [mbind result_bind].
  set (s2 := write64 pte 0 s1) in *. rewrite Hv.
  change (entry lvl5 (fa_mem s) _ vaddr_old) with (entry lvl5 (fa_mem s) pm vaddr_old).
  set (paddr := u64 (Z.shiftl _ 12)).
  replace (set_lock false _) with pm by (by destruct pm as [[] ?]).
  destruct (locked_update_spec (fun v => setFlags (setAddress v (Z.shiftr paddr 12)) flags true)
    lvl5 pm vaddr_new s2) as (s' & Hrun & Hw' & He'); [done|lia|done|..].
  { intros v Hv'. apply setFlags_range; [by apply setAddress_range|apply Hfl]. }
  change (entry lvl5 (fa_mem s2) (mkPagemap true (TOPLVL pm))) with (entry lvl5 (fa_mem s2) pm) in He1.
  change (entry lvl5 (fa_mem s) (mkPagemap true (TOPLVL pm))) with (entry lvl5 (fa_mem s) pm) in He1.
  exists s'. split; [done|]. split; [done|].
  assert (Hrefl : forall va, same_page lvl5 va va) by done.
  split; [by rewrite He', decide_False, He1, decide_True|]. split.
  - rewrite He', decide_True, getAddress_setFlags by done.
    rewrite getAddress_setAddress by (apply Z.shiftr_nonneg, wrap_range; lia).
    subst paddr. apply getAddress_shift, entry_range, Hw.
  - intros va' H1 H2. by rewrite He', decide_False, He1, decide_False.
Qed.

(** C18: [unmapMem] clears the entry of one page, [setFlags] and [remFlags] turn
    exactly the given bits of one page's entry on and off; nothing else in the
    address space changes. *)
Theorem entry_updates lvl5 pm vaddr flags s :
  wfmap (levels lvl5) (TOPLVL pm) s -> Z.of_nat (levels lvl5) - 1 <= fa_free s ->
  lock pm = false -> 0 <= flags < 2 ^ 64 ->
  let old := entry lvl5 (fa_mem s) pm vaddr in
  let updates (run : result (S * Pagemap)) (new : Z) :=
    exists s', run = Ret (s', pm) /\ wfmap (levels lvl5) (TOPLVL pm) s' /\
      forall va', entry lvl5 (fa_mem s') pm va' =
        if decide (same_page lvl5 vaddr va') then new else entry lvl5 (fa_mem s) pm va' in
  updates (unmapMem lvl5 pm vaddr s) 0 /\
  updates (pm_setFlags lvl5 pm vaddr flags s) (Z.lor old flags) /\
  updates (pm_remFlags lvl5 pm vaddr flags s) (Z.ldiff old flags).
Proof.
  intros Hw Hfree Hlock Hfl old updates. pose proof (entry_range lvl5 pm vaddr s (wm_ok _ _ _ Hw)) as Ho.
  split_and!.
  - by apply locked_update_spec.
  - destruct (locked_update_spec (fun v => setFlags v flags true) lvl5 pm vaddr s)
      as (s' & H1 & H2 & H3); [done|done|done|by intros; apply setFlags_range|].
    exists s'. split; [done|]. split; [done|]. intros va'. rewrite H3. case_decide; [|done].
    by apply setFlags_lor.
  - destruct (locked_update_spec (fun v => setFlags v flags false) lvl5 pm vaddr s)
      as (s' & H1 & H2 & H3); [done|done|done|by intros; apply setFlags_range|].
    exists s'. split; [done|]. split; [done|]. intros va'. rewrite H3. case_decide; [|done].
    by apply setFlags_ldiff.
Qed.

(** Copying the entries of one owned table to another. *)
Lemma copy_entries_spec n i dst src s :
  fa_ok s -> page_owned s dst -> page_owned s src -> dst <> src -> 0 <= i -> i + Z.of_nat n <= 512 ->
  let s' := copy_entries n i dst src s in
  (forall k, 0 <= k < 512 -> load64 (fa_mem s') (slot dst k) =
    if decide (in_range i (Z.of_nat n) k) then load64 (fa_mem s) (slot src k)
    else load64 (fa_mem s) (slot dst k)) /\
  (forall t k, t mod PAGE = 0 -> t <> dst -> 0 <= k < 512 ->
    load64 (fa_mem s') (slot t k) = load64 (fa_mem s) (slot t k)).
Proof.
  revert i s. induction n as [|n IH]; intros i s Hok Hd Hs Hne Hi Hn; cbn [copy_entries].
  { split; [|done]. intros k Hk. unfold in_range. rewrite decide_False by lia. done. }
  destruct (write64_ok s dst i (load64 (fa_mem s) (slot src i)) Hok Hd ltac:(lia))
    as (Hok1 & Hm1 & _ & Hfr1 & Hu1 & Hp1).
  set (s1 := write64 _ _ s) in *.
  assert (Hown : forall t, page_owned s t -> page_owned s1 t).
  { intros t. apply page_owned_ext; [done|apply Hu1|done]. }
  assert (H1 : forall t k, t mod PAGE = 0 -> 0 <= k < 512 -> (t, k) <> (dst, i) ->
    load64 (fa_mem s1) (slot t k) = load64 (fa_mem s) (slot t k)).
  { intros t k Hm Hk Hne'. rewrite Hm1. apply load_store_ne.
    apply slot_disjoint; [done|apply Hd|done|lia|done]. }
  destruct (IH (i + 1) s1) as [IH1 IH2]; [done|by apply Hown|by apply Hown|done|lia|lia|].
  split.
  - intros k Hk. rewrite IH1 by done. unfold in_range.
    rewrite (H1 src k); [|apply Hs|done|congruence].
    destruct (decide (k = i)) as [->|Hki].
    + rewrite decide_False, decide_True by lia. rewrite Hm1. apply load_store_eq.
      by apply (load_range 8), fa_mem_ok.
    + rewrite (H1 dst k); [|apply Hd|done|congruence]. repeat case_decide; done || lia.
  - intros t k Hm Ht Hk. rewrite IH2 by done. apply H1; [done|done|congruence].
Qed.

(** C16: a cloned page map has a top-level table of its own and translates every
    address as the original does; the tables below the top are shared, so the
    two maps are not independent. *)
Theorem clone_translation lvl5 old s :
  wfmap (levels lvl5) (TOPLVL old) s -> 0 < fa_free s ->
  exists s' pm, clonePagemap old s = Ret (s', pm) /\ TOPLVL pm <> TOPLVL old /\
    (forall va, entry lvl5 (fa_mem s') pm va = entry lvl5 (fa_mem s) old va) /\
    (forall va, entry lvl5 (fa_mem s') old va = entry lvl5 (fa_mem s) old va) /\
    (forall i, 0 <= i < 512 ->
      table (fa_mem s') (TOPLVL pm) [i] = table (fa_mem s') (TOPLVL old) [i]).
Proof.
  intros Hw Hfree. pose proof (wm_ok _ _ _ Hw) as Hok. set (top := TOPLVL old) in *.
  assert (HL : (1 < levels lvl5)%nat) by (destruct lvl5; simpl; lia).
  unfold clonePagemap. fold top.
  destruct (fresh_page s Hok Hfree) as (s1 & p & -> & Hok1 & _ & Hop & _ & _ & Hown1 & Hkeep & _). cbn [mbind result_bind].
  assert (Hsame : forall R t k, (length R < levels lvl5)%nat -> path_ok R -> 0 <= k < 512 ->
    table (fa_mem s) top R = Some t -> t <> p /\ page_owned s1 t /\
    load64 (fa_mem s1) (slot t k) = load64 (fa_mem s) (slot t k)).
  { intros R t k HR HRok Hk HtR. pose proof (wm_owned _ _ _ Hw R t HR HRok HtR) as Ho.
    destruct (Hkeep t k Ho Hk). auto. }
  destruct (Hsame [] top 0) as (Htp & Hot & _); [simpl; lia|by apply Forall_nil|lia|done|].
  destruct (copy_entries_spec 512 0 p top s1 Hok1 Hop Hot ltac:(done) ltac:(lia) ltac:(lia)) as [Hc1 Hc2].
  set (s2 := copy_entries 512 0 p top s1) in *.
  assert (Hold : forall R t k, (length R < levels lvl5)%nat -> path_ok R -> 0 <= k < 512 ->
    table (fa_mem s) top R = Some t ->
    load64 (fa_mem s2) (slot t k) = load64 (fa_mem s) (slot t k)).
  { intros R t k HR HRok Hk HtR. destruct (Hsame R t k HR HRok Hk HtR) as (H1 & H2 & H3).
    rewrite Hc2; [done|apply H2|done|done]. }
  assert (Htop : forall k, 0 <= k < 512 ->
    load64 (fa_mem s2) (slot p k) = load64 (fa_mem s2) (slot top k)).
  { intros k Hk. rewrite Hc1 by done. rewrite decide_True by (unfold in_range; lia).
    symmetry. apply Hc2; [apply Hot|done|done]. }
  assert (Htab : forall Q, (length Q < levels lvl5)%nat -> path_ok Q ->
    table (fa_mem s2) top Q = table (fa_mem s) top Q).
  { intros Q HQ HQok. apply table_ext. intros R k t' HR HtR. pose proof HR as [T HT].
    assert (length R < length Q)%nat by (rewrite HT, !length_app; simpl; lia).
    rewrite HT in HQok. apply Forall_app in HQok as [[HRok [Hk _]%Forall_cons]%Forall_app _].
    by apply (Hold R); [lia|..]. }
  assert (Holdent : forall va, entry lvl5 (fa_mem s2) old va = entry lvl5 (fa_mem s) old va).
  { intros va. unfold entry, leaf. fold top. pose proof (path_of_length lvl5 va).
    rewrite Htab by (lia || apply path_of_ok).
    destruct (table (fa_mem s) top _) as [t|] eqn:Ht; [|done].
    apply (Hold (path_of lvl5 va)); [lia|apply path_of_ok|by apply index_range|done]. }
  exists s2, (mkPagemap false p). split; [done|]. split; [done|]. split; [|split; [done|]].
  - intros va. rewrite <- Holdent. unfold entry, leaf. fold top. cbn [TOPLVL].
    destruct lvl5; cbn [path_of app table]; by rewrite Htop by (by apply index_range).
  - intros i Hi. cbn [TOPLVL table]. fold top. by rewrite Htop.
Qed.

End invariant.

(** [getFlag] does not look at the flag it is given: it answers whether
    the entry is present, for every flag; so does [getFlags]. *)
Theorem getFlag_ignores_flag value flag :
  0 < flag -> getFlag value flag = Z.testbit value 0 /\ getFlags value flag = Z.testbit value 0.
Proof.
  intros Hf. rewrite <- getFlag_present. unfold getFlag, getFlags.
  destruct (Z.ltb_spec 0 flag); [done|lia].
Qed.

(** ** The properties at a concrete state

    Sixteen frames: 0 reserved, 1 with the bitmap, 2 an empty top-level table,
    3 taken, 4 to 15 free. *)

#[local] Existing Instances PMemory.frame_allocator PMemory.frame_allocator_laws.

Definition demo : PMemory.state :=
  PMemory.mk (fun a => if a =? 0x1000 then 0xF0 else 0) (Bitmap.mk 0x1000) true 0x10000 0
    0x4000 0xC000 false [].

Definition demo_pm : Pagemap := mkPagemap false 0x2000.

Lemma demo_ok : fa_ok demo.
Proof.
  split; [|done]. split.
  - intros a. cbn. case_Zb; lia.
  - cbn. lia.
  - vm_compute. by split.
  - vm_compute. by split.
  - done.
  - intros _. reflexivity.
  - intros a Ha _. unfold PMemory.storage, in_range in Ha. cbn [PMemory.bitmap demo Bitmap.buffer] in Ha.
    change ((PMemory.npages demo + 7) / 8) with 2 in Ha.
    assert (a = 0x1000 \/ a = 0x1001) as [-> | ->] by lia; reflexivity.
Qed.

Lemma demo_wfmap : wfmap 4 (TOPLVL demo_pm) demo.
Proof.
  assert (Hnone : forall P t, path_ok P -> table (fa_mem demo) 0x2000 P = Some t -> P = [] /\ t = 0x2000).
  { intros P t HP Ht. destruct P as [|i P]; cbn [table] in Ht; [by injection Ht|].
    apply Forall_cons in HP as [Hi _]. rewrite load_zero in Ht; [done|].
    intros a Ha. unfold in_range, slot in Ha. cbn. case_Zb; [lia|done]. }
  split; [apply demo_ok|..].
  - intros P t _ HP Ht. apply Hnone in Ht as [-> ->]; [|done].
    split; [done|]. split; [vm_compute; by split|]. split; [split; [vm_compute; by split|done]|].
    intros a Ha Hs. unfold PAGE, in_range in Ha. cbn in Hs. unfold PMemory.storage, in_range in Hs.
    cbn [PMemory.bitmap demo Bitmap.buffer] in Hs.
    change ((PMemory.npages demo + 7) / 8) with 2 in Hs. lia.
  - intros P Q t _ _ HP HQ H1 H2. apply Hnone in H1 as [-> _]; [|done]. by apply Hnone in H2 as [-> _].
Qed.

Lemma mapMem_correct_witness :
  exists s', mapMem false demo_pm 0x400000 0x5000 (Z.lor present readNwrite) demo = Ret (s', demo_pm) /\
    getAddress (entry false (PMemory.memory s') demo_pm 0x400123) = 5.
Proof.
  destruct (mapMem_correct false demo_pm 0x400000 0x5000 (Z.lor present readNwrite) demo)
    as (s' & H1 & _ & _ & H2); [apply demo_wfmap|vm_compute; discriminate|done|done|lia|].
  exists s'. split; [exact H1|]. by apply (H2 0x400123).
Defined.

Lemma remapMem_moves_witness :
  exists s', remapMem false demo_pm 0x400000 0x800000 present demo = Ret (s', demo_pm) /\
    entry false (PMemory.memory s') demo_pm 0x400000 = 0.
Proof.
  destruct (remapMem_moves false demo_pm 0x400000 0x800000 present demo)
    as (s' & H1 & _ & H2 & _); [apply demo_wfmap|vm_compute; discriminate|done|done|by vm_compute|].
  exists s'. split; [exact H1|exact H2].
Defined.

Lemma entry_updates_witness :
  exists s', unmapMem false demo_pm 0x400000 demo = Ret (s', demo_pm) /\
    wfmap 4 (TOPLVL demo_pm) s'.
Proof.
  destruct (entry_updates false demo_pm 0x400000 present demo) as ((s' & H1 & H2 & _) & _);
    [apply demo_wfmap|vm_compute; discriminate|done|done|].
  exists s'. split; [exact H1|exact H2].
Defined.

Lemma clone_translation_witness :
  exists s' pm, clonePagemap demo_pm demo = Ret (s', pm) /\ TOPLVL pm <> 0x2000.
Proof.
  destruct (clone_translation false demo_pm demo) as (s' & pm & H1 & H2 & _);
    [apply demo_wfmap|done|]. exists s', pm. split; [exact H1|exact H2].
Defined.

Lemma getFlag_ignores_flag_witness : 0 < NX /\ getFlag 1 NX = true.
Proof. split; [done|]. apply (getFlag_ignores_flag 1 NX). done. Defined.

End VMemory.
