(* ===== verification/Heap.v ===== *)
(** * The kernel heap: [system/memory/heap]

    A region obtained from [pMemory] is tiled by blocks; a block starts with a
    [HeapBlock] header in memory.  The members of class [Heap] are functions
    on the object's fields and the allocator's state, which holds the memory.
    [tiles] is the abstract view, the list of blocks from [head] to [tail]. *)

From S2P Require Import Prelude Mem MathLib Bitmap Frames PMemory.
#[local] Open Scope Z_scope.
#[local] Open Scope machine_scope.

Module Heap.

Definition INIT_PAGES : Z := 512.

(** [sizeof(HeapBlock)]: [size_t size; bool free;] padded. *)
Definition HEADER : Z := 16.

(** The fields of a block header. *)
Definition bsize (m : mem) (block : Z) : Z := load64 m block.
Definition bfree (m : mem) (block : Z) : bool := negb (m (block +64 8) =? 0).
Definition set_size (m : mem) (block size : Z) : mem := store64 m block size.
Definition set_free (m : mem) (block : Z) (free : bool) : mem :=
  store8 m (block +64 8) (Z.b2z free).

Record heap : Type := mkHeap {
  head : Z;
  tail : Z;
  data : Z;
  expanded : bool;
  lock : bool;
  pages : Z;
}.

Definition with_lock (l : bool) (h : heap) : heap :=
  mkHeap (head h) (tail h) (data h) (expanded h) l (pages h).
Definition with_expanded (e : bool) (h : heap) : heap :=
  mkHeap (head h) (tail h) (data h) e (lock h) (pages h).

(** [Heap::next]. *)
Definition next (m : mem) (block : Z) : Z := block +64 bsize m block.

(** The [while] loop of [Heap::split]: halve the block, go on with its upper half. *)
Fixpoint split_loop (fuel : nat) (m : mem) (block size : Z) : result (mem * Z) :=
  match fuel with
  | O => Diverge
  | S fuel =>
      if size <? bsize m block then
        let sz := Z.shiftr (bsize m block) 1 in
        let m := set_size m block sz in
        let block := next m block in
        let m := set_free (set_size m block sz) block true in
        split_loop fuel m block size
      else Ret (m, block)
  end.

Definition split (m : mem) (block size : Z) : result (mem * Z) :=
  if negb (block =? 0) && negb (size =? 0) then
    '(m, block) ← split_loop 65 m block size;
    if size <=? bsize m block then Ret (m, block) else Ret (m, 0)
  else Ret (m, 0).

(** The loop of [Heap::find_best]; the pointers compared are addresses. *)
Fixpoint find_loop (fuel : nat) (m : mem) (tail size block tmp best_block : Z) : result (mem * Z) :=
  match fuel with
  | O => Diverge
  | S fuel =>
      if (block <? tail) && (tmp <? tail) then
        if bfree m block && bfree m tmp && (bsize m block =? bsize m tmp) then
          let m := set_size m block (u64 (Z.shiftl (bsize m block) 1)) in
          let best_block :=
            if (size <=? bsize m block) &&
               ((best_block =? 0) || (bsize m block <=? bsize m best_block))
            then block else best_block in
          let block := next m tmp in
          let tmp := if block <? tail then next m block else tmp in
          find_loop fuel m tail size block tmp best_block
        else
          let best_block :=
            if bfree m block && (size <=? bsize m block) &&
               ((best_block =? 0) || (bsize m block <=? bsize m best_block))
            then block else best_block in
          let best_block :=
            if bfree m tmp && (size <=? bsize m tmp) &&
               ((best_block =? 0) || (bsize m tmp <? bsize m best_block))
            then tmp else best_block in
          if bsize m block <=? bsize m tmp then
            let block := next m tmp in
            let tmp := if block <? tail then next m block else tmp in
            find_loop fuel m tail size block tmp best_block
          else find_loop fuel m tail size tmp (next m tmp) best_block
      else Ret (m, best_block)
  end.

Definition find_best (m : mem) (h : heap) (size : Z) : result (mem * Z) :=
  if size =? 0 then Ret (m, 0) else
  let block := head h in
  let tmp := next m block in
  if (tmp =? tail h) && bfree m block then split m block size else
  '(m, best_block) ← find_loop (S (Z.to_nat (tail h - head h))) m (tail h) size block tmp 0;
  if negb (best_block =? 0) then split m best_block size else Ret (m, 0).

Fixpoint required_loop (fuel : nat) (size actual_size : Z) : result Z :=
  match fuel with
  | O => Diverge
  | S fuel =>
      if actual_size <? size then required_loop fuel size (u64 (Z.shiftl actual_size 1))
      else Ret actual_size
  end.

Definition required_size (size : Z) : result Z :=
  let actual_size := HEADER in
  let size := size +64 HEADER in
  let size := ALIGN_UP size HEADER in
  required_loop 64 size actual_size.

(** One pass of [Heap::coalescence]: the inner loop; the boolean is
    [no_coalescence]. *)
Fixpoint merge_loop (fuel : nat) (m : mem) (tail block tmp : Z) (no_coalescence : bool)
  : result (mem * bool) :=
  match fuel with
  | O => Diverge
  | S fuel =>
      if (block <? tail) && (tmp <? tail) then
        if bfree m block && bfree m tmp && (bsize m block =? bsize m tmp) then
          let m := set_size m block (u64 (Z.shiftl (bsize m block) 1)) in
          let block := next m block in
          if block <? tail then merge_loop fuel m tail block (next m block) false
          else merge_loop fuel m tail block tmp no_coalescence
        else if bsize m block <? bsize m tmp then
          merge_loop fuel m tail tmp (next m tmp) no_coalescence
        else
          let block := next m tmp in
          let tmp := if block <? tail then next m block else tmp in
          merge_loop fuel m tail block tmp no_coalescence
      else Ret (m, no_coalescence)
  end.

Fixpoint coalescence_loop (fuel : nat) (m : mem) (h : heap) : result mem :=
  match fuel with
  | O => Diverge
  | S fuel =>
      let block := head h in
      '(m, no_coalescence) ← merge_loop (S (Z.to_nat (tail h - head h))) m (tail h) block (next m block) true;
      if no_coalescence : bool then Ret m else coalescence_loop fuel m h
  end.

Definition coalescence (m : mem) (h : heap) : result mem :=
  coalescence_loop (S (Z.to_nat (tail h - head h))) m h.

(** The heap object and the page allocator below it. *)
Definition state : Type := heap * PMemory.state.

(** [Heap::expand]; the three [INVALID] checks return at once, with the lock
    still taken. *)
Definition expand (pagecount : Z) (st : state) : result state :=
  let '(h, s) := st in
  held ← spin_lock (lock h);
  let h := with_lock held h in
  if pagecount =? 0 then Ret (h, s) else
  size ← ALIGN_UP_2 0x1000 ((pagecount +64 pages h) *64 0x1000);
  if negb (POWER_OF_2 size) then Ret (h, s) else
  let pagecount := size / 0x1000 in
  '(s, data) ← PMemory.realloc (data h) (pages h) pagecount s;
  if data =? 0 then Ret (mkHeap (head h) (tail h) data (expanded h) (lock h) (pages h), s) else
  let m := set_free (set_size (PMemory.memory s) data size) data true in
  Ret (mkHeap data (next m data) data (expanded h) false pagecount, PMemory.set_memory m s).

Definition setsize (pagecount : Z) (st : state) : result state :=
  if pagecount =? 0 then Ret st else
  if negb (pages st.1 <? pagecount) then Ret st else
  expand (pagecount -64 pages st.1) st.

(** [Heap::malloc]; [fuel] bounds the recursive call after [expand]. *)
Fixpoint malloc_rec (fuel : nat) (size : Z) (st : state) : result (state * Z) :=
  match fuel with
  | O => Diverge
  | S fuel =>
      if size =? 0 then Ret (st, 0) else
      st ← (if data st.1 =? 0 then expand INIT_PAGES st else Ret st);
      let '(h, s) := st in
      held ← spin_lock (lock h);
      let h := with_lock held h in
      actual_size ← required_size size;
      '(m, found) ← find_best (PMemory.memory s) h actual_size;
      '(m, found) ← (if found =? 0 then
                       m ← coalescence m h; find_best m h actual_size
                     else Ret (m, found));
      if negb (found =? 0) then
        let m := set_free m found false in
        Ret ((with_lock false (with_expanded false h), PMemory.set_memory m s), found +64 HEADER)
      else
        let s := PMemory.set_memory m s in
        if expanded h then Ret ((with_lock false (with_expanded false h), s), 0) else
        st ← expand (size / 0x1000 +64 1) (with_lock false h, s);
        malloc_rec fuel size (with_expanded true st.1, st.2)
  end.

(** At most one recursive call: the second finds [expanded] set. *)
Definition malloc (size : Z) (st : state) : result (state * Z) := malloc_rec 2 size st.

Definition calloc (num size : Z) (st : state) : result (state * Z) :=
  '(st, ptr) ← malloc (num *64 size) st;
  if ptr =? 0 then Ret (st, 0) else
  let '(h, s) := st in
  Ret ((h, PMemory.set_memory (memset (PMemory.memory s) ptr 0 (num *64 size)).1 s), ptr).

Definition free (ptr : Z) (st : state) : result state :=
  let '(h, s) := st in
  if data h =? 0 then Ret st else
  if ptr =? 0 then Ret st else
  if negb (head h <=? ptr) then Ret st else
  if negb (ptr <? tail h) then Ret st else
  held ← spin_lock (lock h);
  let h := with_lock held h in
  let block := ptr -64 HEADER in
  m ← coalescence (set_free (PMemory.memory s) block true) h;
  Ret (with_lock false h, PMemory.set_memory m s).

Definition realloc (ptr size : Z) (st : state) : result (state * Z) :=
  if ptr =? 0 then malloc size st else
  let block := ptr -64 HEADER in
  let oldsize := bsize (PMemory.memory st.2) block in
  if size =? 0 then st ← free ptr st; Ret (st, 0) else
  let oldsize := if size <? oldsize then size else oldsize in
  '(st, newptr) ← malloc size st;
  if newptr =? 0 then Ret (st, ptr) else
  let '(h, s) := st in
  let s := PMemory.set_memory (memcpy (PMemory.memory s) newptr ptr oldsize).1 s in
  st ← free ptr (h, s);
  Ret (st, newptr).

Definition allocsize (ptr : Z) (st : state) : Z :=
  if data st.1 =? 0 then 0 else
  if ptr =? 0 then 0 else
  bsize (PMemory.memory st.2) (ptr -64 HEADER) -64 HEADER.

(** The free functions and [operator new]: [malloc] clears by default. *)
Definition kmalloc (size : Z) (calloc_ : bool) (st : state) : result (state * Z) :=
  if calloc_ then calloc 1 size st else malloc size st.
Definition operator_new (size : Z) (st : state) : result (state * Z) := kmalloc size true st.
Definition operator_delete (ptr : Z) (st : state) : result state := free ptr st.

(** ** The abstract view: a list of blocks *)

(** Block sizes are powers of two that hold a header. *)
Definition wfsize (sz : Z) : Prop := exists k, 5 <= k /\ sz = 2 ^ k.

Fixpoint tiles (m : mem) (p : Z) (bs : list (Z * bool)) (q : Z) : Prop :=
  match bs with
  | [] => p = q
  | (sz, f) :: bs => bsize m p = sz /\ bfree m p = f /\ wfsize sz /\ tiles m (p + sz) bs q
  end.

Definition sum (bs : list (Z * bool)) : Z := foldr (fun b z => b.1 + z) 0 bs.

(** The first block is free and of [n] bytes or more. *)
Definition roomy (n : Z) (bs : list (Z * bool)) : Prop :=
  match bs with (sz, true) :: _ => n <= sz | _ => False end.

(** The blocks in use: address and size. *)
Fixpoint used (p : Z) (bs : list (Z * bool)) : list (Z * Z) :=
  match bs with
  | [] => []
  | (sz, f) :: bs => if f : bool then used (p + sz) bs else (p, sz) :: used (p + sz) bs
  end.

Lemma wfsize_ge sz : wfsize sz -> 32 <= sz.
Proof. intros (k & Hk & ->). change 32 with (2 ^ 5). by apply Z.pow_le_mono_r. Qed.

Lemma sum_app l1 l2 : sum (l1 ++ l2) = sum l1 + sum l2.
Proof. induction l1 as [|b l1 IH]; simpl; [done|]. rewrite IH. lia. Qed.

Lemma used_app p l1 l2 : used p (l1 ++ l2) = used p l1 ++ used (p + sum l1) l2.
Proof.
  revert p. induction l1 as [|[sz f] l1 IH]; intros p; simpl; [by rewrite Z.add_0_r|].
  rewrite IH, Z.add_assoc. by destruct f.
Qed.

Lemma tiles_sum m p bs q : tiles m p bs q -> q = p + sum bs.
Proof.
  revert p. induction bs as [|[sz f] bs IH]; intros p H; simpl in *; [lia|].
  destruct H as (_ & _ & _ & H). rewrite (IH _ H). lia.
Qed.

Lemma tiles_app m p l1 l2 q :
  tiles m p (l1 ++ l2) q <-> tiles m p l1 (p + sum l1) /\ tiles m (p + sum l1) l2 q.
Proof.
  revert p. induction l1 as [|[sz f] l1 IH]; intros p; simpl.
  - rewrite Z.add_0_r. tauto.
  - rewrite IH, Z.add_assoc. tauto.
Qed.

Lemma tiles_pos m p bs q : tiles m p bs q -> 32 * Z.of_nat (length bs) <= sum bs.
Proof.
  revert p. induction bs as [|[sz f] bs IH]; intros p H; simpl in *; [lia|].
  destruct H as (_ & _ & Hs%wfsize_ge & H). specialize (IH _ H). lia.
Qed.

Lemma used_bound m p bs q x n : tiles m p bs q -> In (x, n) (used p bs) -> p <= x /\ 32 <= n /\ x + n <= q.
Proof.
  revert p. induction bs as [|[sz f] bs IH]; intros p H Hin; simpl in *; [done|].
  destruct H as (_ & _ & Hs & H). pose proof (tiles_sum _ _ _ _ H). pose proof (tiles_pos _ _ _ _ H).
  pose proof (wfsize_ge _ Hs). destruct f.
  - specialize (IH _ H Hin). lia.
  - destruct Hin as [[= -> ->]|Hin]; [lia|]. specialize (IH _ H Hin). lia.
Qed.

Lemma used_free p bs : Forall (fun b => b.2 = true) bs -> used p bs = [].
Proof.
  revert p. induction bs as [|[sz f] bs IH]; intros p H; simpl; [done|].
  apply Forall_cons in H as [Hf H]. simpl in Hf. subst f. by apply IH.
Qed.

(** Reading a header that a write does not touch. *)
Lemma header_ext m m' p :
  0 <= p -> p + 16 <= 2 ^ 64 -> (forall a, in_range p 16 a -> m' a = m a) ->
  bsize m' p = bsize m p /\ bfree m' p = bfree m p.
Proof.
  intros H0 H1 H. unfold bsize, bfree. rewrite wrap_small by lia. unfold in_range in H. split.
  - apply load_ext. unfold in_range. intros. apply H. lia.
  - by rewrite H by lia.
Qed.

Lemma tiles_ext m m' p bs q :
  0 <= p -> q <= 2 ^ 63 -> (forall a, in_range p (sum bs) a -> m' a = m a) ->
  tiles m p bs q -> tiles m' p bs q.
Proof.
  intros Hp Hq. revert p Hp. induction bs as [|[sz f] bs IH]; intros p Hp Hm H; [done|].
  pose proof (tiles_sum _ _ _ _ H). pose proof (tiles_pos _ _ _ _ H) as Hpos.
  cbn [tiles sum foldr fst] in *. fold (sum bs) in *. destruct H as (Hsz & Hf & Hw & H).
  pose proof (tiles_pos _ _ _ _ H). pose proof (wfsize_ge _ Hw). unfold in_range in *.
  destruct (header_ext m m' p) as [-> ->]; [lia|lia|unfold in_range; intros; apply Hm; lia|].
  split_and!; try done. apply IH; [lia| |done]. intros a Ha. apply Hm. lia.
Qed.

(** ** Steps that only touch free blocks *)

Section evolve.
Context (hd tl : Z) (Hhd : 0 < hd) (Htl : tl <= 2 ^ 63).

Record evolves (m : mem) (bs : list (Z * bool)) (m' : mem) (bs' : list (Z * bool)) : Prop := {
  ev_tiles : tiles m' hd bs' tl;
  ev_used : used hd bs' = used hd bs;
  ev_out a : ~ in_range hd (tl - hd) a -> m' a = m a;
  ev_in x n a : In (x, n) (used hd bs) -> in_range x n a -> m' a = m a;
  ev_wf : mem_wf m -> mem_wf m';
}.

Lemma evolves_refl m bs : tiles m hd bs tl -> evolves m bs m bs.
Proof. by split. Qed.

Lemma evolves_trans m1 b1 m2 b2 m3 b3 :
  evolves m1 b1 m2 b2 -> evolves m2 b2 m3 b3 -> evolves m1 b1 m3 b3.
Proof.
  intros H1 H2. split.
  - apply H2.
  - etrans; [apply H2|apply H1].
  - intros a Ha. rewrite (ev_out _ _ _ _ H2), (ev_out _ _ _ _ H1); done.
  - intros x n a Hin Ha. rewrite (ev_in _ _ _ _ H2 x n a), (ev_in _ _ _ _ H1 x n a); try done.
    by rewrite (ev_used _ _ _ _ H1).
  - intros Hm. apply (ev_wf _ _ _ _ H2), (ev_wf _ _ _ _ H1), Hm.
Qed.

(** Retiling a stretch of free blocks. *)
Lemma evolves_retile m m' pre mid mid' post :
  let b := hd + sum pre in
  tiles m hd (pre ++ mid ++ post) tl ->
  Forall (fun x => x.2 = true) mid -> Forall (fun x => x.2 = true) mid' -> sum mid' = sum mid ->
  tiles m' b mid' (b + sum mid) -> (forall a, ~ in_range b (sum mid) a -> m' a = m a) ->
  (mem_wf m -> mem_wf m') ->
  evolves m (pre ++ mid ++ post) m' (pre ++ mid' ++ post).
Proof.
  intros b Ht Hf Hf' Hs Ht' Hm Hw. pose proof (tiles_sum _ _ _ _ Ht) as Hsum.
  rewrite !sum_app in Hsum. rewrite !tiles_app in Ht. destruct Ht as (Hpre & Hmid & Hpost). fold b in Hmid, Hpost.
  pose proof (tiles_pos _ _ _ _ Hpre). pose proof (tiles_pos _ _ _ _ Hmid).
  pose proof (tiles_pos _ _ _ _ Hpost). split.
  - rewrite !tiles_app, Hs. fold b. unfold b in *. split_and!.
    + apply (tiles_ext m); [lia|lia| |done]. intros a Ha. apply Hm. unfold in_range in *. lia.
    + done.
    + apply (tiles_ext m); [lia|lia| |done]. intros a Ha. apply Hm. unfold in_range in *. lia.
  - by rewrite !used_app, !(used_free _ mid), !(used_free _ mid'), Hs.
  - intros a Ha. apply Hm. unfold in_range, b in *. lia.
  - intros x n a Hin Ha. apply Hm. rewrite !used_app, (used_free _ mid) in Hin by done. simpl in Hin.
    unfold in_range, b in *. apply in_app_or in Hin as [Hin|Hin].
    + pose proof (used_bound _ _ _ _ _ _ Hpre Hin). lia.
    + pose proof (used_bound _ _ _ _ _ _ Hpost Hin). lia.
  - done.
Qed.

Lemma set_size_bsize m b sz : 0 <= sz < 2 ^ 64 -> bsize (set_size m b sz) b = sz.
Proof. intros. by apply load_store_eq. Qed.

Lemma set_size_bfree m b sz : 0 <= b -> b + 16 <= 2 ^ 64 -> bfree (set_size m b sz) b = bfree m b.
Proof.
  intros. unfold bfree, set_size. rewrite wrap_small by lia. rewrite store_ne; [done|].
  unfold in_range. lia.
Qed.

Lemma set_free_bfree m b f : bfree (set_free m b f) b = f.
Proof. unfold bfree, set_free. rewrite store8_eq. by destruct f. Qed.

Lemma set_free_bsize m b f : 0 <= b -> b + 16 <= 2 ^ 64 -> bsize (set_free m b f) b = bsize m b.
Proof.
  intros. unfold bsize, set_free. rewrite wrap_small by lia. apply load_ext.
  unfold in_range. intros. apply store8_ne. lia.
Qed.

Lemma merge_evolves m pre sz post :
  let b := hd + sum pre in
  tiles m hd (pre ++ (sz, true) :: (sz, true) :: post) tl ->
  evolves m (pre ++ (sz, true) :: (sz, true) :: post)
    (set_size m b (u64 (Z.shiftl sz 1))) (pre ++ (2 * sz, true) :: post).
Proof.
  intros b Ht. pose proof (tiles_sum _ _ _ _ Ht) as Hsum. pose proof Ht as Ht'.
  rewrite tiles_app in Ht. destruct Ht as [Hpre Ht]. fold b in Hpre, Ht.
  cbn [tiles] in Ht. destruct Ht as (Hs1 & Hf1 & Hw & Hs2 & Hf2 & _ & Hpost).
  pose proof (wfsize_ge _ Hw). pose proof (tiles_pos _ _ _ _ Hpre). pose proof (tiles_pos _ _ _ _ Hpost).
  rewrite sum_app in Hsum. cbn [sum foldr fst] in Hsum. fold (sum post) in Hsum. unfold b in *.
  rewrite Z.shiftl_mul_pow2 by lia. change (2 ^ 1) with 2. rewrite wrap_small by lia.
  apply (evolves_retile m _ pre [(sz, true); (sz, true)] [(2 * sz, true)] post).
  - done.
  - by repeat constructor.
  - by repeat constructor.
  - simpl. lia.
  - cbn [tiles sum foldr fst]. rewrite set_size_bsize, set_size_bfree by lia.
    split_and!; [lia|done| |lia]. destruct Hw as (k & Hk & ->). exists (k + 1). split; [lia|].
    rewrite Z.pow_add_r by lia. lia.
  - intros a Ha. apply store_ne. cbn [sum foldr fst] in Ha. unfold in_range in *. lia.
  - intros Hm. by apply store_wf.
Qed.

Lemma halve_evolves m pre k post :
  let b := hd + sum pre in let h := 2 ^ k in
  5 <= k -> tiles m hd (pre ++ (2 ^ (k + 1), true) :: post) tl ->
  let m' := set_free (set_size (set_size m b h) (b + h) h) (b + h) true in
  evolves m (pre ++ (2 ^ (k + 1), true) :: post) m' (pre ++ (h, true) :: (h, true) :: post).
Proof.
  intros b h Hk Ht m'. pose proof (tiles_sum _ _ _ _ Ht) as Hsum. pose proof Ht as Ht'.
  assert (Hh : wfsize h) by (by exists k). pose proof (wfsize_ge _ Hh).
  assert (H2 : 2 ^ (k + 1) = 2 * h) by (unfold h; rewrite Z.pow_add_r by lia; lia).
  rewrite H2 in *. clearbody h. clear H2 Hk k.
  rewrite tiles_app in Ht. destruct Ht as [Hpre Ht]. fold b in Hpre, Ht.
  cbn [tiles] in Ht. destruct Ht as (Hs1 & Hf1 & Hw & Hpost).
  pose proof (tiles_pos _ _ _ _ Hpre). pose proof (tiles_pos _ _ _ _ Hpost).
  rewrite sum_app in Hsum. cbn [sum foldr fst] in Hsum. fold (sum post) in Hsum. unfold b in *.
  apply (evolves_retile m _ pre [(2 * h, true)] [(h, true); (h, true)] post).
  - done.
  - by repeat constructor.
  - by repeat constructor.
  - simpl. lia.
  - cbn [tiles sum foldr fst]. unfold m'.
    rewrite set_free_bfree, set_free_bsize, set_size_bsize by lia.
    destruct (header_ext (set_size m (hd + sum pre) h)
      (set_free (set_size (set_size m (hd + sum pre) h) (hd + sum pre + h) h) (hd + sum pre + h) true)
      (hd + sum pre)) as [-> ->]; [lia|lia| |].
    { unfold in_range, set_free. intros a Ha. rewrite wrap_small by lia. rewrite store8_ne by lia.
      apply store_ne. unfold in_range. lia. }
    rewrite set_size_bsize, set_size_bfree by lia. split_and!; try done. lia.
  - intros a Ha. cbn [sum foldr fst] in Ha. unfold in_range, m', set_free in *.
    rewrite wrap_small by lia. rewrite store8_ne by lia. unfold set_size.
    rewrite !store_ne by (unfold in_range; lia). done.
  - intros Hm. apply store8_wf; [|done]. by apply store_wf, store_wf.
Qed.

Lemma tiles_bound m pre post :
  tiles m hd (pre ++ post) tl -> 0 < hd + sum pre /\ 0 <= sum pre /\ 0 <= sum post /\
    hd + sum pre + sum post = tl.
Proof.
  intros Ht. pose proof (tiles_sum _ _ _ _ Ht) as Hsum. rewrite sum_app in Hsum.
  rewrite tiles_app in Ht. destruct Ht as [H1%tiles_pos H2%tiles_pos]. lia.
Qed.

(** Reading the block after a prefix. *)
Lemma tiles_read m pre sz f post :
  tiles m hd (pre ++ (sz, f) :: post) tl ->
  bsize m (hd + sum pre) = sz /\ bfree m (hd + sum pre) = f /\ wfsize sz /\
  next m (hd + sum pre) = hd + sum pre + sz /\ hd + sum pre + sz <= tl.
Proof.
  intros Ht. pose proof (tiles_bound _ _ _ Ht) as Hb. cbn [sum foldr fst] in Hb. fold (sum post) in Hb.
  rewrite tiles_app in Ht. destruct Ht as [_ (H1 & H2 & H3 & H4)]. pose proof (wfsize_ge _ H3).
  apply tiles_pos in H4. unfold next. rewrite H1, wrap_small by lia. split_and!; done || lia.
Qed.

(** Reading the block behind one. *)
Lemma tiles_read2 m pre sz f sz' f' post :
  tiles m hd (pre ++ (sz, f) :: (sz', f') :: post) tl ->
  let b := hd + sum pre + sz in
  bsize m b = sz' /\ bfree m b = f' /\ wfsize sz' /\ next m b = b + sz' /\ b + sz' <= tl.
Proof.
  intros Ht. cbv zeta. assert (Hb : hd + sum (pre ++ [(sz, f)]) = hd + sum pre + sz)
    by (rewrite sum_app; cbn [sum foldr fst]; lia).
  rewrite <- Hb. apply (tiles_read m _ sz' f' post). by rewrite <- app_assoc.
Qed.

(** [split] of a free block that is big enough: its last [size] bytes become a
    block of their own. *)
Lemma split_loop_spec fuel m pre k j post :
  5 <= j <= k -> k - j < Z.of_nat fuel ->
  tiles m hd (pre ++ (2 ^ k, true) :: post) tl ->
  exists m' pre', split_loop fuel m (hd + sum pre) (2 ^ j) = Ret (m', hd + sum pre') /\
    evolves m (pre ++ (2 ^ k, true) :: post) m' (pre' ++ (2 ^ j, true) :: post) /\
    exists l, pre' = pre ++ l /\ (j < k -> roomy (2 ^ (k - 1)) l).
Proof.
  revert m pre k. induction fuel as [|fuel IH]; intros m pre k Hj Hfuel Ht; [lia|].
  cbn [split_loop]. destruct (tiles_read _ _ _ _ _ Ht) as (Hs & _ & _ & _ & Hle). rewrite Hs.
  destruct (Z.ltb_spec (2 ^ j) (2 ^ k)) as [Hlt|Hge].
  - assert (j < k) by (apply (Z.pow_lt_mono_r_iff 2); lia).
    assert (Hk1 : exists k1, k = k1 + 1) by (exists (k - 1); lia). destruct Hk1 as [k1 ->].
    pose proof (halve_evolves m pre k1 post ltac:(lia) Ht) as Hev. cbn zeta in Hev.
    assert (Hsh : Z.shiftr (2 ^ (k1 + 1)) 1 = 2 ^ k1).
    { rewrite Z.shiftr_div_pow2, Z.pow_add_r by lia. change (2 ^ 1) with 2. by rewrite Z.div_mul. }
    rewrite Hsh. set (h := 2 ^ k1) in *.
    assert (Hh : 32 <= h) by (apply wfsize_ge; exists k1; split; [lia|done]).
    assert (H2 : 2 ^ (k1 + 1) = 2 * h) by (unfold h; rewrite Z.pow_add_r by lia; lia).
    pose proof (tiles_bound _ _ _ Ht) as Hb.
    assert (Hn : next (set_size m (hd + sum pre) h) (hd + sum pre) = hd + sum (pre ++ [(h, true)])).
    { unfold next. rewrite set_size_bsize by lia. rewrite sum_app. cbn [sum foldr fst].
      rewrite wrap_small; lia. }
    rewrite Hn. rewrite sum_app. cbn [sum foldr fst].
    replace (hd + (sum pre + (h + 0))) with (hd + sum pre + h) by lia.
    set (m1 := set_free _ _ true) in *.
    destruct (IH m1 (pre ++ [(h, true)]) k1 ltac:(lia) ltac:(lia)) as (m' & pre' & Hrun & Hev' & l & Hl & _).
    { rewrite <- app_assoc. apply Hev. }
    exists m', pre'. rewrite <- app_assoc in Hev'. split; [|split; [by eapply evolves_trans|]].
    + rewrite <- Hrun. f_equal. rewrite sum_app. cbn [sum foldr fst]. lia.
    + exists ((h, true) :: l). rewrite Hl, <- app_assoc. split; [done|]. intros _. cbn.
      by replace (k1 + 1 - 1) with k1 by lia.
  - assert (j = k) as ->.
    { destruct (decide (j < k)) as [H|]; [|lia]. apply (Z.pow_lt_mono_r 2) in H; lia. }
    exists m, pre. split; [done|]. split; [by apply evolves_refl|]. exists []. rewrite app_nil_r. split; [done|lia].
Qed.

Lemma split_loop_done n m block size :
  bsize m block <= size -> split_loop (S n) m block size = Ret (m, block).
Proof. intros H. cbn [split_loop]. by destruct (Z.ltb_spec size (bsize m block)); [lia|]. Qed.

Lemma split_spec m pre k j post :
  5 <= j <= k -> tiles m hd (pre ++ (2 ^ k, true) :: post) tl ->
  exists m' pre', split m (hd + sum pre) (2 ^ j) = Ret (m', hd + sum pre') /\
    evolves m (pre ++ (2 ^ k, true) :: post) m' (pre' ++ (2 ^ j, true) :: post) /\
    forall i, j <= i -> roomy (2 ^ (i + 1)) (pre ++ (2 ^ k, true) :: post) -> roomy (2 ^ i) pre'.
Proof.
  intros Hj Ht. destruct (tiles_read _ _ _ _ _ Ht) as (_ & _ & _ & _ & Hle).
  pose proof (tiles_bound _ _ _ Ht) as Hb.
  assert (k <= 63) by (apply (Z.pow_le_mono_r_iff 2); lia).
  destruct (split_loop_spec 65 m pre k j post Hj ltac:(lia) Ht) as (m' & pre' & Hrun & Hev & l & Hl & Hroom).
  exists m', pre'. split; [|split; [done|]].
  2:{ intros i Hi Hr. rewrite Hl. destruct pre as [|[s []] pre]; cbn in Hr |- *; [|pose proof (Z.pow_le_mono_r 2 i (i + 1)); lia|done].
      assert (i + 1 <= k) by (apply (Z.pow_le_mono_r_iff 2); lia). specialize (Hroom ltac:(lia)).
      destruct l as [|[s []] l]; cbn in Hroom |- *; try done. pose proof (Z.pow_le_mono_r 2 i (k - 1)). lia. }
  unfold split.
  destruct (Z.eqb_spec (hd + sum pre) 0); [lia|].
  destruct (Z.eqb_spec (2 ^ j) 0) as [Hz|_]; [pose proof (Z.pow_pos_nonneg 2 j); lia|].
  cbn [negb andb]. rewrite Hrun. cbn [mbind result_bind].
  destruct (tiles_read _ _ _ _ _ (ev_tiles _ _ _ _ Hev)) as (-> & _).
  by rewrite Z.leb_refl.
Qed.

(** A candidate of [find_best]: null, or a free block of the list that is big
    enough. *)
Definition cand (bs : list (Z * bool)) (size best : Z) : Prop :=
  best = 0 \/ exists pre sz post, bs = pre ++ (sz, true) :: post /\ best = hd + sum pre /\ size <= sz.

Lemma cand_app l l' size best : cand l size best -> cand (l ++ l') size best.
Proof.
  intros [->|(pre & sz & post & -> & -> & H)]; [by left|]. right.
  exists pre, sz, (post ++ l'). by rewrite <- app_assoc.
Qed.

Lemma cand_last l sz size : size <= sz -> cand (l ++ [(sz, true)]) size (hd + sum l).
Proof. intros. right. by exists l, sz, []. Qed.

Lemma cand_grow l sz sz' size best :
  sz <= sz' -> cand (l ++ [(sz, true)]) size best -> cand (l ++ [(sz', true)]) size best.
Proof.
  intros Hle [->|(pre & s & post & Heq & -> & H)]; [by left|]. right.
  destruct post as [|x post _] using rev_ind.
  - apply app_inj_tail in Heq as [-> [= ->]]. exists pre, sz', []. split_and!; [done|done|lia].
  - rewrite app_comm_cons, app_assoc in Heq. apply app_inj_tail in Heq as [-> _].
    exists pre, s, (post ++ [(sz', true)]). by rewrite <- app_assoc.
Qed.

Lemma cand_if (c : bool) l size best best' :
  (c = true -> cand l size best') -> cand l size best -> cand l size (if c then best' else best).
Proof. destruct c; auto. Qed.

(** The loop invariant: [block] and [tmp] are consecutive blocks of the list,
    and the candidate is not past [block]. *)
Definition at_block (bs : list (Z * bool)) (block tmp : Z) (P : list (Z * bool) -> Prop) : Prop :=
  exists pre rest, bs = pre ++ rest /\ block = hd + sum pre /\
    match rest with [] => P pre | (sz, f) :: _ => tmp = block + sz /\ P (pre ++ [(sz, f)]) end.

(** Moving on to the block that ends at [b]. *)
Lemma at_block_next m bs pre rest b tmp P :
  (forall l l', P l -> P (l ++ l')) ->
  tiles m hd bs tl -> bs = pre ++ rest -> b = hd + sum pre -> P pre ->
  at_block bs b (if b <? tl then next m b else tmp) P.
Proof.
  intros HP Ht -> -> Hp. exists pre, rest. split; [done|]. split; [done|].
  destruct rest as [|[sz f] rest]; [done|].
  destruct (tiles_read _ _ _ _ _ Ht) as (_ & _ & Hw & -> & Hle). pose proof (wfsize_ge _ Hw).
  destruct (Z.ltb_spec (hd + sum pre) tl); [|lia]. split; [done|by apply HP].
Qed.

(** A step of either loop that merges [block] and [tmp]. *)
Lemma merge_step m pre sz rest :
  tiles m hd (pre ++ (sz, true) :: (sz, true) :: rest) tl ->
  let block := hd + sum pre in
  let m' := set_size m block (u64 (Z.shiftl (bsize m block) 1)) in
  let b' := hd + sum (pre ++ [(2 * sz, true)]) in
  evolves m (pre ++ (sz, true) :: (sz, true) :: rest) m' (pre ++ (2 * sz, true) :: rest) /\
  bsize m' block = 2 * sz /\ next m' block = b' /\ next m' (block + sz) = b' /\
  bsize m' (block + sz) = sz.
Proof.
  intros Ht block m' b'. pose proof (merge_evolves m pre sz rest Ht) as Hev.
  destruct (tiles_read _ _ _ _ _ Ht) as (Hs & _ & Hw & _ & _). pose proof (wfsize_ge _ Hw).
  fold block in Hs. unfold m'. rewrite Hs. split; [done|].
  destruct (tiles_read _ _ _ _ _ (ev_tiles _ _ _ _ Hev)) as (Hs' & _ & _ & Hn' & Hle).
  fold block in Hs', Hn', Hle. split; [done|]. split.
  { rewrite Hn'. unfold b'. rewrite sum_app. cbn [sum foldr fst]. lia. }
  pose proof (tiles_bound _ _ _ Ht) as Hb.
  assert (Hr : bsize (set_size m block (u64 (Z.shiftl sz 1))) (block + sz) = sz).
  { unfold bsize, set_size. rewrite load_store_ne by lia. fold (bsize m (block + sz)).
    exact (proj1 (tiles_read2 _ _ _ _ _ _ _ Ht)). }
  split; [|done]. unfold next. rewrite Hr. unfold b', block in *. rewrite sum_app. cbn [sum foldr fst].
  rewrite wrap_small by lia. lia.
Qed.

(** The loop has a block already, or has one in front of it. *)
Definition sure (size : Z) (m : mem) (block tmp best : Z) : Prop :=
  best <> 0 \/ (block < tl /\ tmp < tl /\ bfree m block = true /\ size <= bsize m block).

(** The loop ends with a candidate, from wherever it may be. *)
Definition finds (fuel : nat) (size : Z) (m : mem) (bs : list (Z * bool)) (block tmp best : Z) : Prop :=
  exists m' bs' best', find_loop fuel m tl size block tmp best = Ret (m', best') /\
    evolves m bs m' bs' /\ cand bs' size best' /\ (sure size m block tmp best -> best' <> 0) /\
    (forall n, roomy n bs -> roomy n bs').

Definition finds_below (fuel : nat) (size : Z) : Prop := forall m bs block tmp best,
  tl - block < Z.of_nat fuel -> tiles m hd bs tl -> at_block bs block tmp (fun l => cand l size best) ->
  finds fuel size m bs block tmp best.

(** The rest of a round that has merged two blocks. *)
Lemma finds_merge fuel size m pre sz rest best : 0 < size -> finds_below fuel size ->
  tl - (hd + sum pre) < Z.of_nat (S fuel) -> 32 <= sz -> bsize m (hd + sum pre) = sz ->
  tiles m hd (pre ++ (sz, true) :: (sz, true) :: rest) tl -> cand (pre ++ [(sz, true)]) size best ->
  let m1 := set_size m (hd + sum pre) (u64 (Z.shiftl sz 1)) in
  let b := hd + sum (pre ++ [(2 * sz, true)]) in
  let best1 := if (size <=? 2 * sz) && ((best =? 0) || (2 * sz <=? bsize m1 best)) then hd + sum pre else best in
  exists m' bs' best',
    find_loop fuel m1 tl size b (if b <? tl then next m1 b else hd + sum pre + sz) best1 = Ret (m', best') /\
    evolves m (pre ++ (sz, true) :: (sz, true) :: rest) m' bs' /\ cand bs' size best' /\
    (best <> 0 \/ size <= sz -> best' <> 0) /\
    (forall n, roomy n (pre ++ (sz, true) :: (sz, true) :: rest) -> roomy n bs').
Proof.
  intros Hsize IH Hfuel Hsz Hs Ht Hc m1 b best1.
  destruct (merge_step m pre sz rest Ht) as (Hev & _). rewrite Hs in Hev. fold m1 in Hev.
  assert (Hc1 : cand (pre ++ [(2 * sz, true)]) size best1).
  { apply cand_if; [|eapply cand_grow; [|done]; lia].
    intros [Hle1%Z.leb_le _]%andb_true_iff. by apply cand_last. }
  assert (Hnext : at_block (pre ++ (2 * sz, true) :: rest) b
    (if b <? tl then next m1 b else hd + sum pre + sz) (fun l => cand l size best1)).
  { apply (at_block_next m1 _ (pre ++ [(2 * sz, true)]) rest);
      [by intros; apply cand_app|apply Hev|by rewrite <- app_assoc|done|done]. }
  assert (Hf2 : tl - b < Z.of_nat fuel) by (unfold b; rewrite sum_app; cbn [sum foldr fst]; lia).
  destruct (IH _ _ _ _ _ Hf2 (ev_tiles _ _ _ _ Hev) Hnext) as (m' & bs' & best' & Hrun & Hev' & Hc' & Hsure & Hroom).
  exists m', bs', best'. split; [done|]. split; [by eapply evolves_trans|]. split; [done|]. split.
  2:{ intros n Hn. apply Hroom. destruct pre as [|[s []] pre]; cbn in Hn |- *; lia. }
  intros Hb. apply Hsure. left. destruct (tiles_bound _ _ _ Ht) as (_ & Hpre & _). unfold best1.
  destruct ((size <=? 2 * sz) && _) eqn:E; [lia|]. destruct Hb as [Hb|Hb]; [done|]. intros ->.
  destruct (Z.leb_spec size (2 * sz)); [discriminate E|lia].
Qed.

(** The rest of a round that has not. *)
Lemma finds_plain fuel size m pre sz f sz' f' rest best : 0 < size -> finds_below fuel size ->
  tl - (hd + sum pre) < Z.of_nat (S fuel) -> 32 <= sz -> 32 <= sz' ->
  tiles m hd (pre ++ (sz, f) :: (sz', f') :: rest) tl -> cand (pre ++ [(sz, f)]) size best ->
  let b := hd + sum pre + sz in
  let b' := b + sz' in
  let best2 := if f' && (size <=? sz') && ((best =? 0) || (sz' <? bsize m best)) then b else best in
  finds fuel size m (pre ++ (sz, f) :: (sz', f') :: rest) b' (if b' <? tl then next m b' else b) best2 /\
  finds fuel size m (pre ++ (sz, f) :: (sz', f') :: rest) b b' best2.
Proof.
  intros Hsize IH Hfuel Hsz Hsz' Ht Hc b b' best2.
  assert (Hsum1 : hd + sum (pre ++ [(sz, f)]) = b) by (unfold b; rewrite sum_app; cbn [sum foldr fst]; lia).
  assert (Hc2 : cand ((pre ++ [(sz, f)]) ++ [(sz', f')]) size best2).
  { apply cand_if; [|by apply cand_app]. intros [[-> Hle1%Z.leb_le]%andb_true_iff _]%andb_true_iff.
    rewrite <- Hsum1. by apply cand_last. }
  split.
  - set (pre2 := (pre ++ [(sz, f)]) ++ [(sz', f')]) in *.
    assert (Hsum2 : hd + sum pre2 = b')
      by (unfold pre2, b'; rewrite sum_app, <- Hsum1; cbn [sum foldr fst]; lia).
    apply IH; [unfold b', b in *; lia|done|].
    apply (at_block_next m _ pre2 rest);
      [by intros; apply cand_app|done|unfold pre2; by rewrite <- !app_assoc|done|done].
  - apply IH; [unfold b; lia|done|].
    exists (pre ++ [(sz, f)]), ((sz', f') :: rest). rewrite <- app_assoc. by split_and!.
Qed.

Lemma find_loop_spec fuel m bs size block tmp best :
  0 < size -> tl - block < Z.of_nat fuel -> tiles m hd bs tl ->
  at_block bs block tmp (fun l => cand l size best) -> finds fuel size m bs block tmp best.
Proof.
  intros Hsize. revert m bs block tmp best. change (finds_below fuel size).
  induction fuel as [|fuel IH]; intros m bs block tmp best Hfuel Ht (pre & rest & -> & -> & Hat);
    [pose proof (tiles_bound _ _ _ Ht); lia|].
  unfold finds. cbn [find_loop]. pose proof (tiles_bound _ _ _ Ht) as Hb.
  destruct rest as [|[sz f] rest].
  { cbn [sum foldr] in Hb. destruct (Z.ltb_spec (hd + sum pre) tl); [lia|]. cbn [andb].
    exists m, pre, best. rewrite app_nil_r in *. split; [done|]. split; [by apply evolves_refl|]. split; [done|]. split; [|done].
    intros [|(? & _)]; [done|lia]. }
  destruct Hat as [-> Hc]. destruct (tiles_read _ _ _ _ _ Ht) as (Hs & Hf & Hw & Hn & Hle).
  pose proof (wfsize_ge _ Hw). destruct (Z.ltb_spec (hd + sum pre) tl); [|lia]. cbn [andb].
  destruct (Z.ltb_spec (hd + sum pre + sz) tl) as [Hlt|Hge].
  2:{ exists m, (pre ++ (sz, f) :: rest), best. split; [done|]. split; [by apply evolves_refl|].
      rewrite cons_middle, app_assoc. split; [by apply cand_app|].
      split; [|done]. intros [|(_ & ? & _)]; [done|lia]. }
  destruct rest as [|[sz' f'] rest]; [cbn [sum foldr fst] in Hb; lia|].
  destruct (tiles_read2 _ _ _ _ _ _ _ Ht) as (Hs' & Hf' & Hw' & Hn' & Hle').
  pose proof (wfsize_ge _ Hw'). rewrite Hs, Hf, Hs', Hf'.
  destruct (f && f' && (sz =? sz')) eqn:Hm.
  - apply andb_true_iff in Hm as [[-> ->]%andb_true_iff <-%Z.eqb_eq].
    destruct (merge_step m pre sz rest Ht) as (_ & Hs1 & _ & Hn1 & _). rewrite Hs in Hs1, Hn1. rewrite Hs1, Hn1.
    destruct (finds_merge fuel size m pre sz rest best) as (m' & bs' & best' & Hrun & Hev & Hc' & Hsure & Hroom); [done..|].
    exists m', bs', best'. split; [exact Hrun|]. split; [done|]. split; [done|]. split; [|done].
    unfold sure. rewrite Hs. intros [|(_ & _ & _ & ?)]; apply Hsure; [by left|by right].
  - rewrite Hn'. set (best1 := if f && (size <=? sz) && _ then hd + sum pre else best).
    assert (Hc1 : cand (pre ++ [(sz, f)]) size best1).
    { apply cand_if; [|done]. intros [[-> Hle1%Z.leb_le]%andb_true_iff _]%andb_true_iff. by apply cand_last. }
    assert (Hb1 : sure size m (hd + sum pre) (hd + sum pre + sz) best -> best1 <> 0).
    { unfold sure, best1. rewrite Hf, Hs. destruct (f && (size <=? sz) && _) eqn:E; [lia|].
      intros [|(_ & _ & -> & ?)]; [done|]. intros ->. destruct (Z.leb_spec size sz); [discriminate E|lia]. }
    destruct (finds_plain fuel size m pre sz f sz' f' rest best1) as [Hmove Hstay]; [done..|].
    set (best2 := if f' && (size <=? sz') && _ then hd + sum pre + sz else best1) in *.
    assert (Hb2 : best1 <> 0 -> best2 <> 0) by (unfold best2; destruct (f' && _ && _); [lia|done]).
    destruct (sz <=? sz'); [destruct Hmove as (m' & bs' & best' & Hrun & Hev & Hc' & Hsure & Hroom)
                           |destruct Hstay as (m' & bs' & best' & Hrun & Hev & Hc' & Hsure & Hroom)];
      exists m', bs', best'; (split; [exact Hrun|]); (split; [done|]); (split; [done|]); (split; [|done]);
      intros Hg; apply Hsure; left; auto.
Qed.

Lemma next_head m bs :
  tiles m hd bs tl -> bs <> [] -> forall P, (forall l, P l) -> at_block bs hd (next m hd) P.
Proof.
  intros Ht Hne P HP. exists [], bs. split; [done|]. split; [simpl; lia|].
  destruct bs as [|[sz f] bs]; [done|]. split; [|done].
  destruct (tiles_read m [] sz f bs Ht) as (_ & _ & _ & Hn & _). rewrite Z.add_0_r in Hn. exact Hn.
Qed.

(** [find_best]: the block it answers is a free block of exactly the size asked. *)
Lemma find_best_spec m bs h j :
  head h = hd -> tail h = tl -> 5 <= j -> tiles m hd bs tl -> bs <> [] ->
  exists m' bs' b, find_best m h (2 ^ j) = Ret (m', b) /\ evolves m bs m' bs' /\
    (b = 0 \/ exists pre post, bs' = pre ++ (2 ^ j, true) :: post /\ b = hd + sum pre) /\
    (forall i, j <= i -> roomy (2 ^ (i + 1)) bs ->
      exists pre post, bs' = pre ++ (2 ^ j, true) :: post /\ b = hd + sum pre /\ roomy (2 ^ i) pre).
Proof.
  intros Hh Htl' Hj Ht Hne. unfold find_best. rewrite Hh, Htl'.
  assert (Hpos : 0 < 2 ^ j) by (apply Z.pow_pos_nonneg; lia).
  destruct (Z.eqb_spec (2 ^ j) 0); [lia|].
  destruct bs as [|[sz f] bs]; [done|]. clear Hne.
  destruct (tiles_read m [] sz f bs Ht) as (Hs & Hf & Hw & Hn & _).
  cbn [sum foldr] in *. rewrite Z.add_0_r in *. rewrite Hn, Hf.
  assert (Hsplit : forall m1 bs1 pre sz1 post, evolves m ((sz, f) :: bs) m1 bs1 ->
    bs1 = pre ++ (sz1, true) :: post -> 2 ^ j <= sz1 ->
    exists m' bs' b, split m1 (hd + sum pre) (2 ^ j) = Ret (m', b) /\ evolves m ((sz, f) :: bs) m' bs' /\
    (b = 0 \/ exists pre post, bs' = pre ++ (2 ^ j, true) :: post /\ b = hd + sum pre) /\
    (forall i, j <= i -> roomy (2 ^ (i + 1)) bs1 ->
      exists pre post, bs' = pre ++ (2 ^ j, true) :: post /\ b = hd + sum pre /\ roomy (2 ^ i) pre)).
  { intros m1 bs1 pre sz1 post Hev -> Hle. pose proof (ev_tiles _ _ _ _ Hev) as Ht1.
    destruct (tiles_read _ _ _ _ _ Ht1) as (_ & _ & (k & Hk & ->) & _ & _).
    destruct (split_spec m1 pre k j post) as (m' & pre' & -> & Hev' & Hroom); [|done|].
    { split; [lia|]. apply (Z.pow_le_mono_r_iff 2); lia. }
    eexists _, _, _. split; [done|]. split; [by eapply evolves_trans|]. split; [right; by exists pre', post|].
    intros i Hi Hr. exists pre', post. split_and!; auto. }
  destruct ((hd + sz =? tl) && f) eqn:Hsingle.
  - apply andb_true_iff in Hsingle as [Heq%Z.eqb_eq ->].
    destruct (decide (2 ^ j <= sz)) as [Hle|Hgt].
    + destruct (Hsplit m ((sz, true) :: bs) [] sz bs) as (m' & bs' & b & Hr & Hev & Hb & Hb0);
        [by apply evolves_refl|done|done|].
      cbn [sum foldr] in Hr. rewrite Z.add_0_r in Hr. by exists m', bs', b.
    + exists m, ((sz, true) :: bs), 0. split; [|split; [by apply evolves_refl|split; [by left|]]].
      2:{ intros i Hi Hr. cbn in Hr. pose proof (Z.pow_le_mono_r 2 j (i + 1)). lia. }
      unfold split. destruct (Z.eqb_spec hd 0); [lia|]. destruct (Z.eqb_spec (2 ^ j) 0); [lia|].
      cbn [negb andb]. rewrite (split_loop_done 64) by lia. cbn [mbind result_bind]. rewrite Hs. by destruct (Z.leb_spec (2 ^ j) sz); [lia|].
  - rewrite <- Hn.
    destruct (find_loop_spec (S (Z.to_nat (tl - hd))) m ((sz, f) :: bs) (2 ^ j) hd (next m hd) 0)
      as (m1 & bs1 & best & -> & Hev & Hc & Hsure & Hroom); [done|lia|done|by apply next_head; try (by left)|].
    cbn [mbind result_bind]. destruct (Z.eqb_spec best 0) as [->|Hb0]; cbn [negb].
    + exists m1, bs1, 0. split; [done|]. split; [done|]. split; [by left|].
      intros i Hi Hr. exfalso. destruct f; [|done]. cbn in Hr. apply Hsure; [|done]. right. rewrite Hn, Hs, Hf.
      pose proof (Z.pow_le_mono_r 2 j (i + 1)). pose proof (wfsize_ge _ Hw). rewrite andb_true_r in Hsingle. apply Z.eqb_neq in Hsingle.
      destruct (tiles_read m [] sz true bs Ht) as (_ & _ & _ & _ & Hend). cbn [sum foldr] in Hend. split_and!; done || lia.
    + destruct Hc as [->|(pre & s1 & post & Heq & -> & Hle)]; [done|].
      destruct (Hsplit m1 bs1 pre s1 post) as (m' & bs' & b & ? & ? & ? & Hr); [done..|].
      exists m', bs', b. split; [done|]. split; [done|]. split; [done|]. intros i Hi Hrm. apply Hr; auto.
Qed.

(** One pass of [coalescence]; when it asks for another pass it merged blocks. *)
Lemma merge_loop_spec fuel m bs block tmp nc :
  tl - block < Z.of_nat fuel -> tiles m hd bs tl -> at_block bs block tmp (fun _ => True) ->
  exists m' bs' nc', merge_loop fuel m tl block tmp nc = Ret (m', nc') /\ evolves m bs m' bs' /\
    (length bs' <= length bs)%nat /\ (nc' = false -> nc = false \/ (length bs' < length bs)%nat).
Proof.
  revert m bs block tmp nc.
  induction fuel as [|fuel IH]; intros m bs block tmp nc Hfuel Ht (pre & rest & -> & -> & Hat);
    [pose proof (tiles_bound _ _ _ Ht); lia|].
  cbn [merge_loop]. pose proof (tiles_bound _ _ _ Ht) as Hb.
  assert (Hstop : exists m' bs' nc', Ret (m, nc) = Ret (m', nc') /\ evolves m (pre ++ rest) m' bs' /\
    (length bs' <= length (pre ++ rest))%nat /\
    (nc' = false -> nc = false \/ (length bs' < length (pre ++ rest))%nat)).
  { exists m, (pre ++ rest), nc. split; [done|]. split; [by apply evolves_refl|]. split; [lia|by left]. }
  destruct rest as [|[sz f] rest].
  { cbn [sum foldr] in Hb. destruct (Z.ltb_spec (hd + sum pre) tl); [lia|done]. }
  destruct Hat as [-> _]. destruct (tiles_read _ _ _ _ _ Ht) as (Hs & Hf & Hw & Hn & Hle).
  pose proof (wfsize_ge _ Hw). destruct (Z.ltb_spec (hd + sum pre) tl); [|lia]. cbn [andb].
  destruct (Z.ltb_spec (hd + sum pre + sz) tl) as [Hlt|Hge]; [|done]. clear Hstop.
  destruct rest as [|[sz' f'] rest]; [cbn [sum foldr fst] in Hb; lia|].
  destruct (tiles_read2 _ _ _ _ _ _ _ Ht) as (Hs' & Hf' & Hw' & Hn' & Hle').
  pose proof (wfsize_ge _ Hw'). rewrite Hs, Hf, Hs', Hf', Hn'.
  destruct (f && f' && (sz =? sz')) eqn:Hm; [|destruct (sz <? sz')].
  - apply andb_true_iff in Hm as [[-> ->]%andb_true_iff <-%Z.eqb_eq].
    destruct (merge_step m pre sz rest Ht) as (Hev & _ & Hn1 & _ & _). rewrite Hs in *.
    set (m1 := set_size m _ _) in *. rewrite Hn1. set (b1 := hd + sum (pre ++ [(2 * sz, true)])) in *.
    assert (Hf2 : tl - b1 < Z.of_nat fuel) by (unfold b1; rewrite sum_app; cbn [sum foldr fst]; lia).
    assert (Hnext : forall tmp, at_block (pre ++ (2 * sz, true) :: rest) b1
      (if b1 <? tl then next m1 b1 else tmp) (fun _ => True)).
    { intros. apply (at_block_next m1 _ (pre ++ [(2 * sz, true)]) rest);
        [done|apply Hev|by rewrite <- app_assoc|done|done]. }
    assert (Hlen : (length (pre ++ ((2 * sz)%Z, true) :: rest) < length (pre ++ (sz, true) :: (sz, true) :: rest))%nat)
      by (rewrite !length_app; simpl; lia).
    specialize (Hnext (hd + sum pre + sz)). destruct (b1 <? tl).
    + destruct (IH _ _ _ _ false Hf2 (ev_tiles _ _ _ _ Hev) Hnext) as (m' & bs' & nc' & Hrun & Hev' & Hl & _).
      exists m', bs', nc'. split; [done|]. split; [by eapply evolves_trans|]. split; [lia|]. intros _. right. lia.
    + destruct (IH _ _ _ _ nc Hf2 (ev_tiles _ _ _ _ Hev) Hnext) as (m' & bs' & nc' & Hrun & Hev' & Hl & Hnc).
      exists m', bs', nc'. split; [done|]. split; [by eapply evolves_trans|]. split; [lia|].
      intros E. destruct (Hnc E); [by left|right; lia].
  - apply IH; [lia|done|]. exists (pre ++ [(sz, f)]), ((sz', f') :: rest).
    rewrite <- app_assoc. split_and!; [done|rewrite sum_app; cbn [sum foldr fst]; lia|done..].
  - apply IH; [lia|done|]. set (pre2 := (pre ++ [(sz, f)]) ++ [(sz', f')]) in *.
    apply (at_block_next m _ pre2 rest); [done|done|unfold pre2; by rewrite <- !app_assoc| |done].
    unfold pre2. rewrite !sum_app. cbn [sum foldr fst]. lia.
Qed.

Lemma coalescence_loop_spec fuel m bs h :
  head h = hd -> tail h = tl -> tiles m hd bs tl -> bs <> [] -> (length bs < fuel)%nat ->
  exists m' bs', coalescence_loop fuel m h = Ret m' /\ evolves m bs m' bs'.
Proof.
  intros Hh Htl'. revert m bs. induction fuel as [|fuel IH]; intros m bs Ht Hne Hfuel; [lia|].
  cbn [coalescence_loop]. rewrite Hh, Htl'.
  destruct (merge_loop_spec (S (Z.to_nat (tl - hd))) m bs hd (next m hd) true)
    as (m1 & bs1 & nc & -> & Hev & Hl & Hnc); [lia|done|by apply next_head|].
  cbn [mbind result_bind]. destruct nc; [by exists m1, bs1|].
  destruct (Hnc eq_refl) as [|Hlt]; [done|].
  destruct (IH m1 bs1) as (m' & bs' & -> & Hev'); [apply Hev| |lia|].
  { intros ->. pose proof (tiles_sum _ _ _ _ (ev_tiles _ _ _ _ Hev)) as H1.
    destruct bs as [|[sz f] bs]; [done|].
    destruct (tiles_read m [] sz f bs Ht) as (_ & _ & Hw & _ & Hle). pose proof (wfsize_ge _ Hw).
    cbn [sum foldr] in *. lia. }
  exists m', bs'. split; [done|]. by eapply evolves_trans.
Qed.

(** [coalescence] terminates and merges free blocks only. *)
Lemma coalescence_spec m bs h :
  head h = hd -> tail h = tl -> tiles m hd bs tl -> bs <> [] ->
  exists m' bs', coalescence m h = Ret m' /\ evolves m bs m' bs'.
Proof.
  intros Hh Htl' Ht Hne. apply coalescence_loop_spec; [done..|]. rewrite Hh, Htl'.
  pose proof (tiles_pos _ _ _ _ Ht). pose proof (tiles_sum _ _ _ _ Ht). lia.
Qed.

End evolve.

(** ** [required_size] *)

Lemma required_loop_spec fuel s i k :
  4 <= i <= k -> k <= 63 -> k - i < Z.of_nat fuel -> s <= 2 ^ k -> (i < k -> 2 ^ (k - 1) < s) ->
  required_loop fuel s (2 ^ i) = Ret (2 ^ k).
Proof.
  revert i. induction fuel as [|fuel IH]; intros i Hi Hk Hf Hs Hlow; [lia|].
  cbn [required_loop]. destruct (Z.ltb_spec (2 ^ i) s) as [Hlt|Hge].
  - assert (i < k) by (apply (Z.pow_lt_mono_r_iff 2); lia).
    assert (2 ^ (i + 1) <= 2 ^ k) by (apply Z.pow_le_mono_r; lia).
    assert (2 ^ k <= 2 ^ 63) by (apply Z.pow_le_mono_r; lia).
    rewrite Z.shiftl_mul_pow2 by lia. rewrite <- Z.pow_add_r by lia.
    rewrite wrap_small by (split; [apply Z.pow_nonneg|]; lia). apply IH; [lia|lia|lia|done|].
    intros _. by apply Hlow.
  - destruct (decide (i < k)) as [Hik|]; [|by replace i with k by lia].
    specialize (Hlow Hik). pose proof (Z.pow_le_mono_r 2 i (k - 1)). lia.
Qed.

Lemma required_size_spec size :
  0 < size <= 2 ^ 63 - 16 ->
  exists k, required_size size = Ret (2 ^ k) /\ 5 <= k <= 63 /\
    size + HEADER <= 2 ^ k /\ 2 ^ (k - 1) < size + HEADER.
Proof.
  intros Hs. unfold HEADER. set (n := size + 16).
  exists (Z.log2_up n). assert (Hn : 16 < n <= 2 ^ 63) by lia.
  pose proof (Z.log2_up_spec n ltac:(lia)) as [Hlo Hup]. rewrite <- Z.sub_1_r in Hlo.
  assert (Hk : 5 <= Z.log2_up n <= 63).
  { split; [|apply Z.log2_up_le_pow2; lia].
    assert (4 < Z.log2_up n) by (apply Z.log2_up_lt_pow2; lia). lia. }
  split; [|lia]. unfold required_size, HEADER. rewrite (wrap_small 64 (size + 16)) by lia. fold n.
  destruct (ALIGN_UP_spec n 16) as [Ha Hm]; [lia|lia|lia|]. set (s := ALIGN_UP n 16) in *.
  change 16 with (2 ^ 4). apply required_loop_spec; [lia|lia|lia| |lia].
  assert (H16 : 2 ^ Z.log2_up n mod 16 = 0).
  { replace (Z.log2_up n) with (Z.log2_up n - 4 + 4) by lia. rewrite Z.pow_add_r by lia.
    by apply Z.mod_mul. }
  Z.div_mod_to_equations. lia.
Qed.

(** For larger requests the doubling overflows to 0 and never catches up. *)
Lemma required_loop_zero fuel s : 0 < s -> required_loop fuel s 0 = Diverge.
Proof.
  intros Hs. induction fuel as [|fuel IH]; [done|]. cbn [required_loop].
  destruct (Z.ltb_spec 0 s); [|lia]. exact IH.
Qed.

Lemma required_loop_diverges fuel s i :
  4 <= i <= 63 -> 2 ^ 63 < s -> required_loop fuel s (2 ^ i) = Diverge.
Proof.
  revert i. induction fuel as [|fuel IH]; intros i Hi Hs; [done|]. cbn [required_loop].
  pose proof (Z.pow_le_mono_r 2 i 63 ltac:(lia) ltac:(lia)).
  destruct (Z.ltb_spec (2 ^ i) s); [|lia].
  rewrite Z.shiftl_mul_pow2 by lia. rewrite <- Z.pow_add_r by lia.
  destruct (decide (i = 63)) as [->|].
  - change (u64 (2 ^ (63 + 1))) with 0. apply required_loop_zero. lia.
  - rewrite wrap_small; [apply IH; lia|]. split; [apply Z.pow_nonneg; lia|].
    apply Z.pow_lt_mono_r; lia.
Qed.

(** ** The heap *)

(** The representation invariant: the region is tiled by the blocks [bs]. *)
Record wf (st : state) (bs : list (Z * bool)) : Prop := {
  wf_data : data st.1 = head st.1;
  wf_head : 0 < head st.1;
  wf_tail : tail st.1 <= 2 ^ 63;
  wf_tiles : tiles (PMemory.memory st.2) (head st.1) bs (tail st.1);
  wf_nonempty : bs <> [];
  wf_lock : lock st.1 = false;
}.

(** Blocks in use keep their place, their size and their contents. *)
Definition preserved (m m' : mem) (us : list (Z * Z)) : Prop :=
  forall x n a, In (x, n) us -> in_range x n a -> m' a = m a.

(** Marking a block of the list. *)
Lemma set_free_tiles hd tl m pre sz f f' post :
  0 < hd -> tl <= 2 ^ 63 -> tiles m hd (pre ++ (sz, f) :: post) tl ->
  let b := hd + sum pre in
  tiles (set_free m b f') hd (pre ++ (sz, f') :: post) tl /\
  forall a, a <> b + 8 -> set_free m b f' a = m a.
Proof.
  intros Hhd Htl Ht b. destruct (tiles_bound hd tl Hhd m _ _ Ht) as (Hb & Hp & Hs & Hsum).
  fold b in Hb, Hsum. cbn [sum foldr fst] in Hs, Hsum. fold (sum post) in Hs, Hsum.
  rewrite tiles_app in Ht. destruct Ht as [Hpre (Hsz & Hf & Hw & Hpost)]. fold b in Hsz, Hf, Hpost, Hpre.
  pose proof (wfsize_ge _ Hw). pose proof (tiles_pos _ _ _ _ Hpost).
  assert (Hm : forall a, a <> b + 8 -> set_free m b f' a = m a).
  { intros a Ha. unfold set_free. rewrite wrap_small by lia. by apply store8_ne. }
  split; [|done]. rewrite tiles_app. fold b. cbn [tiles]. unfold in_range, b in *. split_and!.
  - apply (tiles_ext m); [lia|lia| |done]. intros a Ha. apply Hm. unfold in_range in *. lia.
  - rewrite set_free_bsize by lia. done.
  - apply set_free_bfree.
  - done.
  - apply (tiles_ext m); [lia|lia| |done]. intros a Ha. apply Hm. unfold in_range in *. lia.
Qed.

(** Taking a free block for use. *)
Lemma take_block hd tl m pre sz post :
  0 < hd -> tl <= 2 ^ 63 -> tiles m hd (pre ++ (sz, true) :: post) tl ->
  let b := hd + sum pre in let bs := pre ++ (sz, true) :: post in
  let m' := set_free m b false in let bs' := pre ++ (sz, false) :: post in
  tiles m' hd bs' tl /\
  (forall x n, In (x, n) (used hd bs') <-> In (x, n) (used hd bs) \/ (x, n) = (b, sz)) /\
  (forall x n, In (x, n) (used hd bs) -> x + n <= b \/ b + sz <= x) /\
  preserved m m' (used hd bs) /\ bsize m' b = sz /\ b + sz <= tl /\ hd <= b.
Proof.
  intros Hhd Htl Ht b bs m' bs'.
  destruct (set_free_tiles hd tl m pre sz true false post Hhd Htl Ht) as [Ht' Hm'].
  fold b m' bs' in Ht', Hm'. destruct (tiles_bound hd tl Hhd m _ _ Ht) as (Hb & Hp & Hs & Hsum).
  destruct (tiles_read hd tl Hhd Htl m' pre sz false post Ht') as (Hbs & _ & Hw & _ & Hle).
  pose proof (wfsize_ge _ Hw). fold b in Hbs, Hle. rewrite tiles_app in Ht.
  destruct Ht as [Hpre (Hsz & Hf & _ & Hpost)]. fold b in Hsz, Hf, Hpost, Hpre.
  assert (Hdis : forall x n, In (x, n) (used hd bs) -> x + n <= b \/ b + sz <= x).
  { intros x n Hin. unfold bs in Hin. rewrite used_app in Hin. cbn [used] in Hin. fold b in Hin.
    apply in_app_or in Hin as [Hin|Hin].
    - pose proof (used_bound _ _ _ _ _ _ Hpre Hin). lia.
    - pose proof (used_bound _ _ _ _ _ _ Hpost Hin). lia. }
  split; [done|]. split.
  { intros x n. unfold bs, bs'. rewrite !used_app, !in_app_iff. cbn [used]. fold b.
    cbn [In]. split; [intros [?|[<-|?]]; tauto|intros [[?|?]| ->]; tauto]. }
  split; [done|]. split; [|split; [done|split; [done|unfold b; lia]]].
  intros x n a Hin Ha. apply Hm'. specialize (Hdis x n Hin). unfold in_range in Ha. lia.
Qed.

Lemma evolves_nonempty hd tl m bs m' bs' :
  0 < hd -> tl <= 2 ^ 63 -> tiles m hd bs tl -> bs <> [] -> evolves hd tl m bs m' bs' -> bs' <> [].
Proof.
  intros Hhd Htl Ht Hne Hev ->. pose proof (tiles_sum _ _ _ _ (ev_tiles _ _ _ _ _ _ Hev)) as H1.
  pose proof (tiles_sum _ _ _ _ Ht) as H2. apply tiles_pos in Ht.
  destruct bs as [|x bs]; [done|]. cbn [length] in Ht. simpl in H1. lia.
Qed.

Lemma evolves_preserved hd tl m bs m' bs' :
  evolves hd tl m bs m' bs' -> preserved m m' (used hd bs).
Proof. intros Hev x n a. apply Hev. Qed.

Lemma preserved_trans m1 m2 m3 us us' :
  us' = us -> preserved m1 m2 us -> preserved m2 m3 us' -> preserved m1 m3 us.
Proof. intros -> H1 H2 x n a Hin Ha. rewrite (H2 x n a), (H1 x n a); done. Qed.

(** Looking for a block, with a second try after [coalescence]. *)
Definition search (m : mem) (h : heap) (actual_size : Z) : result (mem * Z) :=
  '(m, found) ← find_best m h actual_size;
  if found =? 0 then m ← coalescence m h; find_best m h actual_size else Ret (m, found).

Lemma search_spec m h bs j :
  0 < head h -> tail h <= 2 ^ 63 -> tiles m (head h) bs (tail h) -> bs <> [] -> 5 <= j ->
  exists m' bs' b, search m h (2 ^ j) = Ret (m', b) /\ evolves (head h) (tail h) m bs m' bs' /\
    (b = 0 \/ exists pre post, bs' = pre ++ (2 ^ j, true) :: post /\ b = head h + sum pre) /\
    (forall i, j <= i -> roomy (2 ^ (i + 1)) bs ->
      exists pre post, bs' = pre ++ (2 ^ j, true) :: post /\ b = head h + sum pre /\ roomy (2 ^ i) pre).
Proof.
  intros Hhd Htl Ht Hne Hj. unfold search.
  destruct (find_best_spec (head h) (tail h) Hhd Htl m bs h j) as (m1 & bs1 & b1 & -> & Hev1 & Hb1 & Hf1);
    [done..|]. cbn [mbind result_bind]. destruct (Z.eqb_spec b1 0) as [->|Hb0].
  2:{ exists m1, bs1, b1. done. }
  assert (Hno : forall i, j <= i -> ~ roomy (2 ^ (i + 1)) bs).
  { intros i Hi Hr. destruct (Hf1 i Hi Hr) as (pre & post & -> & Hz & _).
    destruct (tiles_bound (head h) (tail h) Hhd _ _ _ (ev_tiles _ _ _ _ _ _ Hev1)). lia. }
  pose proof (evolves_nonempty _ _ _ _ _ _ Hhd Htl Ht Hne Hev1) as Hne1.
  destruct (coalescence_spec (head h) (tail h) Hhd Htl m1 bs1 h) as (m2 & bs2 & -> & Hev2);
    [done|done|apply Hev1|done|]. cbn [mbind result_bind].
  pose proof (evolves_nonempty _ _ _ _ _ _ Hhd Htl (ev_tiles _ _ _ _ _ _ Hev1) Hne1 Hev2) as Hne2.
  destruct (find_best_spec (head h) (tail h) Hhd Htl m2 bs2 h j) as (m3 & bs3 & b3 & -> & Hev3 & Hb3 & _);
    [done|done|done|apply Hev2|done|].
  exists m3, bs3, b3. split; [done|]. split; [|split; [done|]].
  - eapply evolves_trans; [done|]. by eapply evolves_trans.
  - intros i Hi Hr. by destruct (Hno i Hi).
Qed.

Lemma coalescence_ext m h h' :
  head h = head h' -> tail h = tail h' -> coalescence m h = coalescence m h'.
Proof.
  intros Hh Ht. unfold coalescence. rewrite Hh, Ht. generalize (S (Z.to_nat (tail h' - head h'))).
  intros fuel. revert m. induction fuel as [|fuel IH]; intros m; [done|].
  cbn [coalescence_loop]. rewrite Hh, Ht. destruct (merge_loop _ _ _ _ _ _) as [[m' []]| |]; [done| |done|done].
  apply IH.
Qed.

Lemma malloc_rec_search fuel size st bs k :
  wf st bs -> 0 < size -> required_size size = Ret (2 ^ k) ->
  malloc_rec (S fuel) size st =
    '(m, found) ← search (PMemory.memory st.2) st.1 (2 ^ k);
    if negb (found =? 0) then
      Ret ((with_expanded false st.1, PMemory.set_memory (set_free m found false) st.2), found +64 HEADER)
    else if expanded st.1 then
      Ret ((with_expanded false st.1, PMemory.set_memory m st.2), 0)
    else
      st ← expand (size / 0x1000 +64 1) (st.1, PMemory.set_memory m st.2);
      malloc_rec fuel size (with_expanded true st.1, st.2).
Proof.
  intros Hw Hs Hr. destruct st as [h s]. destruct Hw as [Hd Hh Ht _ _ Hl]. cbn [fst snd] in *.
  cbn [malloc_rec fst]. destruct (Z.eqb_spec size 0); [lia|]. rewrite Hd.
  destruct (Z.eqb_spec (head h) 0); [lia|]. cbn [mbind result_bind]. rewrite Hl.
  cbn [spin_lock mbind result_bind]. rewrite Hr. cbn [mbind result_bind]. unfold search.
  assert (Hh2 : forall e, with_lock false (with_expanded e (with_lock true h)) = with_expanded e h)
    by (intros; destruct h; simpl in *; by subst).
  assert (Hh3 : with_lock false (with_lock true h) = h) by (destruct h; simpl in *; by subst).
  assert (Hfb : forall m sz, find_best m (with_lock true h) sz = find_best m h sz) by done.
  assert (Hco : forall m, coalescence m (with_lock true h) = coalescence m h)
    by (intros; by apply coalescence_ext).
  rewrite Hfb. destruct (find_best (PMemory.memory s) h (2 ^ k)) as [[m b]| |]; [|done|done].
  cbn [mbind result_bind].
  change (expanded (with_lock true h)) with (expanded h).
  destruct (b =? 0); [rewrite Hco; destruct (coalescence m h) as [m'| |]; [|done|done]|];
    cbn [mbind result_bind]; rewrite ?Hfb.
  - destruct (find_best m' h (2 ^ k)) as [[m2 b2]| |]; [|done|done].
    cbn [mbind result_bind]. by rewrite Hh3, !Hh2.
  - by rewrite Hh3, !Hh2.
Qed.

(** C5: on a well-formed heap [malloc] answers in one of three ways.  It finds
    a block: the block holds the request and a header but less than twice
    that, it meets no block in use, and every other block stays in use with
    its contents.  Or the previous expansion did not help and it answers null.
    Or it expands the heap and tries once more.  Searching never disturbs a
    block in use. *)
Theorem malloc_correct st bs size :
  wf st bs -> 0 < size <= 2 ^ 63 - 16 ->
  let us := used (head st.1) bs in
  (exists st' b n bs', malloc size st = Ret (st', b + HEADER) /\ wf st' bs' /\
    size + HEADER <= n < 2 * (size + HEADER) /\
    (forall x k, In (x, k) (used (head st'.1) bs') <-> In (x, k) us \/ (x, k) = (b, n)) /\
    (forall x k, In (x, k) us -> x + k <= b \/ b + n <= x) /\
    preserved (PMemory.memory st.2) (PMemory.memory st'.2) us /\
    allocsize (b + HEADER) st' = n - HEADER) \/
  (exists st' bs', expanded st.1 = true /\ malloc size st = Ret (st', 0) /\ wf st' bs' /\
    used (head st'.1) bs' = us /\ preserved (PMemory.memory st.2) (PMemory.memory st'.2) us) \/
  (exists st1 bs1, expanded st.1 = false /\ wf st1 bs1 /\ used (head st1.1) bs1 = us /\
    preserved (PMemory.memory st.2) (PMemory.memory st1.2) us /\
    malloc size st =
      st2 ← expand (size / 0x1000 +64 1) st1; malloc_rec 1 size (with_expanded true st2.1, st2.2)).
Proof.
  intros Hw Hs us. destruct (required_size_spec size Hs) as (k & Hr & Hk & Hlo & Hup).
  unfold malloc. rewrite (malloc_rec_search 1 size st bs k) by (done || lia).
  destruct Hw as [Hd Hh Htl Ht Hne Hl]. destruct st as [h s]. cbn [fst snd] in *.
  destruct (search_spec (PMemory.memory s) h bs k) as (m1 & bs1 & b & -> & Hev & Hb & _);
    [done..|lia|]. cbn [mbind result_bind].
  pose proof (evolves_nonempty _ _ _ _ _ _ Hh Htl Ht Hne Hev) as Hne1.
  pose proof (evolves_preserved _ _ _ _ _ _ Hev) as Hp.
  destruct (Z.eqb_spec b 0) as [->|Hb0]; cbn [negb].
  - right. destruct (expanded h) eqn:He; [left|right].
    + eexists _, bs1. split; [done|]. split; [done|]. split; [by split; try apply Hev|].
      split; [apply Hev|done].
    + exists (h, PMemory.set_memory m1 s), bs1. split; [done|]. split; [by split; try apply Hev|].
      split; [apply Hev|done].
  - left. destruct Hb as [|(pre & post & -> & ->)]; [done|].
    destruct (take_block _ _ _ _ _ _ Hh Htl (ev_tiles _ _ _ _ _ _ Hev))
      as (Ht' & Hu & Hdis & Hp' & Hbs & Hle & Hge).
    set (b := head h + sum pre) in *. pose proof (ev_used _ _ _ _ _ _ Hev) as Hus. fold us in Hus.
    eexists (_, _), b, (2 ^ k), (pre ++ (2 ^ k, false) :: post). rewrite (wrap_small 64) by (unfold HEADER; lia).
    split; [done|]. cbn [fst snd head with_expanded PMemory.memory PMemory.set_memory].
    split; [split; [done|done|done|done|by destruct pre|done]|].
    split; [split; [done|]|].
    { replace k with (k - 1 + 1) by lia. rewrite Z.pow_add_r by lia. lia. }
    split; [intros x n; by rewrite Hu, Hus|]. split; [intros x n; rewrite <- Hus; apply Hdis|].
    split; [by eapply preserved_trans|].
    unfold allocsize. cbn [fst snd data with_expanded PMemory.memory PMemory.set_memory]. rewrite Hd.
    destruct (Z.eqb_spec (head h) 0); [lia|]. destruct (Z.eqb_spec (b + HEADER) 0); [unfold HEADER in *; lia|].
    unfold HEADER in *. replace (b + 16 -64 16) with b by (rewrite wrap_small; lia).
    rewrite Hbs. apply wrap_small. pose proof (Z.pow_lt_mono_r 2 k 64). lia.
Qed.

Lemma used_split p bs x n :
  In (x, n) (used p bs) -> exists pre post, bs = pre ++ (n, false) :: post /\ x = p + sum pre.
Proof.
  revert p. induction bs as [|[sz f] bs IH]; intros p Hin; [done|]. cbn [used] in Hin. destruct f.
  - destruct (IH _ Hin) as (pre & post & -> & ->). exists ((sz, true) :: pre), post. simpl. split; [done|lia].
  - destruct Hin as [[= -> ->]|Hin]; [exists [], bs; split; [done|simpl; lia]|].
    destruct (IH _ Hin) as (pre & post & -> & ->). exists ((sz, false) :: pre), post. simpl. split; [done|lia].
Qed.

(** C6: [free] of a block in use ends its use and no other's: the blocks still
    in use keep their place, size and contents, and the merging terminates. *)
Theorem free_correct st bs ptr n :
  wf st bs -> In (ptr - HEADER, n) (used (head st.1) bs) -> 0 < ptr ->
  exists st' bs', free ptr st = Ret st' /\ wf st' bs' /\ head st'.1 = head st.1 /\
    (forall x k, In (x, k) (used (head st.1) bs') <->
      In (x, k) (used (head st.1) bs) /\ x <> ptr - HEADER) /\
    preserved (PMemory.memory st.2) (PMemory.memory st'.2) (used (head st.1) bs').
Proof.
  intros Hw Hin Hptr. destruct st as [h s]. destruct Hw as [Hd Hh Htl Ht Hne Hl]. cbn [fst snd] in *.
  destruct (used_split _ _ _ _ Hin) as (pre & post & -> & Hb).
  destruct (set_free_tiles _ _ _ _ _ _ true _ Hh Htl Ht) as [Ht1 Hm1].
  destruct (tiles_read _ _ Hh Htl _ _ _ _ _ Ht) as (_ & _ & Hw & _ & Hle). pose proof (wfsize_ge _ Hw).
  destruct (tiles_bound _ _ Hh _ _ _ Ht) as (_ & Hpre0 & _). rewrite <- Hb in *.
  set (m1 := set_free (PMemory.memory s) (ptr - HEADER) true) in *.
  assert (Hne1 : pre ++ (n, true) :: post <> []) by (by destruct pre).
  destruct (coalescence_spec _ _ Hh Htl m1 _ h eq_refl eq_refl Ht1 Hne1) as (m2 & bs2 & Hrun & Hev).
  assert (Hus : forall x k, In (x, k) (used (head h) (pre ++ (n, true) :: post)) <->
      In (x, k) (used (head h) (pre ++ (n, false) :: post)) /\ x <> ptr - HEADER).
  { intros x k. rewrite tiles_app in Ht. destruct Ht as [Hp1 (_ & _ & _ & Hp2)].
    rewrite !used_app, !in_app_iff. cbn [used In]. rewrite <- Hb. rewrite <- Hb in Hp1, Hp2.
    split.
    - intros [Hi|Hi]; [pose proof (used_bound _ _ _ _ _ _ Hp1 Hi)|pose proof (used_bound _ _ _ _ _ _ Hp2 Hi)];
        (split; [tauto|lia]).
    - intros [[Hi|[[= <- <-]|Hi]] Hx]; [by left|done|by right]. }
  exists (h, PMemory.set_memory m2 s), bs2. unfold HEADER in *.
  split; [|split; [|split; [done|split]]].
  - unfold free, HEADER. rewrite Hd. destruct (Z.eqb_spec (head h) 0); [lia|]. destruct (Z.eqb_spec ptr 0); [lia|].
    destruct (Z.leb_spec (head h) ptr); [|lia]. destruct (Z.ltb_spec ptr (tail h)); [|lia].
    cbn [negb]. rewrite Hl. cbn [spin_lock mbind result_bind]. rewrite (wrap_small 64 (ptr - 16)) by lia.
    fold m1. rewrite (coalescence_ext _ _ h) by done. rewrite Hrun. cbn [mbind result_bind].
    do 3 f_equal. destruct h. simpl in *. by subst.
  - split; [done|done|done|apply Hev|apply (evolves_nonempty _ _ _ _ _ _ Hh Htl Ht1 Hne1 Hev)|done].
  - intros x k. cbn [fst]. rewrite (ev_used _ _ _ _ _ _ Hev). apply Hus.
  - cbn [snd PMemory.memory PMemory.set_memory fst]. rewrite (ev_used _ _ _ _ _ _ Hev).
    eapply preserved_trans; [done| |by eapply evolves_preserved].
    intros x k a [Hi Hx]%Hus Ha. apply Hm1. intros ->.
    (* the header of the freed block is in no other block *)
    rewrite tiles_app in Ht. destruct Ht as [Hp1 (_ & _ & _ & Hp2)]. rewrite <- Hb in Hp1, Hp2.
    rewrite used_app, in_app_iff in Hi. cbn [used In] in Hi. rewrite <- Hb in Hi. unfold in_range in Ha.
    destruct Hi as [Hi|[[= <- <-]|Hi]]; [pose proof (used_bound _ _ _ _ _ _ Hp1 Hi); lia|done|].
    pose proof (used_bound _ _ _ _ _ _ Hp2 Hi). lia.
Qed.

(** ** [expand] *)

(** The region the heap owns. *)
Definition region_ok (h : heap) (s : PMemory.state) : Prop :=
  exists page, data h = page * PAGE /\ 0 < page /\ 0 < pages h /\ page + pages h <= PMemory.npages s.

(** Where [PMemory.realloc] puts the region. *)
Lemma region_bound h s count s' d :
  PMemory.wf s -> region_ok h s -> 0 < count < 2 ^ 40 ->
  PMemory.realloc (data h) (pages h) count s = Ret (s', d) -> d <> 0 ->
  0 < d /\ d + count * PAGE <= 2 ^ 52.
Proof.
  intros Hw (page & Hd0 & Hp & Hp0 & Hpl) Hc Hr Hd. pose proof (PMemory.wf_high s Hw) as Hhigh.
  rewrite Hd0 in Hr.
  destruct (PMemory.realloc_moved _ _ _ _ Hw Hp Hc _ _ Hr Hd) as (pg & _ & -> & Hpg & Hle & _).
  unfold PMemory.npages, PAGE in *. Z.div_mod_to_equations. lia.
Qed.

(** An expansion that succeeds forgets every allocation: whatever blocks
    were in use, the heap becomes one free block of the new size, so memory
    that is still held will be handed out again. *)
Theorem expand_forgets h s bs pagecount st' :
  PMemory.wf s -> region_ok h s -> wf (h, s) bs -> used (head h) bs <> [] ->
  0 < pagecount -> pagecount + pages h <= 2 ^ 20 ->
  expand pagecount (h, s) = Ret st' -> lock st'.1 = false ->
  exists n, wf st' [(n, true)] /\ used (head st'.1) [(n, true)] = [] /\
    n = pages st'.1 * PAGE /\ pagecount + pages h <= pages st'.1.
Proof.
  intros Hw Hreg Hwf _ Hp Hb He Hl. unfold expand in He.
  assert (Hp0 : 0 <= pages h) by (destruct Hreg as (? & _ & _ & ? & _); lia).
  pose proof (wf_lock _ _ Hwf) as Hlk. cbn [fst] in Hlk. rewrite Hlk in He. cbn [spin_lock mbind result_bind] in He.
  destruct (Z.eqb_spec pagecount 0); [lia|].
  change (pages (with_lock true h)) with (pages h) in He.
  rewrite (wrap_small 64 (pagecount + pages h)), (wrap_small 64 (_ * 4096)) in He by lia.
  destruct (ALIGN_UP_2_spec ((pagecount + pages h) * 4096)) as (k & Ha & Hk & Hlo & Hup); [lia|].
  rewrite Ha in He. cbn [mbind result_bind] in He.
  assert (Hk32 : 2 ^ k <= 2 ^ 33) by lia.
  assert (Hpow : POWER_OF_2 (2 ^ k) = true).
  { apply POWER_OF_2_spec; [lia|]. by rewrite Z.log2_pow2 by lia. }
  rewrite Hpow in He. cbn [negb] in He.
  assert (Hdiv : 2 ^ k / 4096 * PAGE = 2 ^ k).
  { replace k with (k - 12 + 12) by lia. rewrite Z.pow_add_r by lia. change (2 ^ 12) with PAGE.
    change 4096 with PAGE. by rewrite Z.div_mul. }
  set (count := 2 ^ k / 4096) in *. assert (Hcount : 0 < count < 2 ^ 40) by (unfold PAGE in *; lia).
  apply bind_Ret in He as ([s' d] & Hr & He).
  change (data (with_lock true h)) with (data h) in Hr. change (pages (with_lock true h)) with (pages h) in Hr.
  destruct (Z.eqb_spec d 0); [injection He as <-; simpl in Hl; done|].
  destruct (region_bound _ _ _ _ _ Hw Hreg Hcount Hr ltac:(done)) as [Hd Hdl]. injection He as <-.
  set (m := set_free _ d true) in *.
  assert (Hbs : bsize m d = 2 ^ k).
  { unfold m. rewrite set_free_bsize by lia. apply set_size_bsize. lia. }
  exists (2 ^ k). split; [|split; [done|split; [done|simpl; unfold PAGE in *; lia]]].
  split; cbn [fst snd data head tail lock PMemory.memory PMemory.set_memory]; try done.
  - unfold next. rewrite Hbs, wrap_small by lia. lia.
  - cbn [tiles]. split; [done|]. split; [apply set_free_bfree|]. split; [exists k; split; [lia|done]|].
    unfold next. by rewrite Hbs, wrap_small by lia.
Qed.

(** When [pMemory] has no room, [expand] returns with the heap's lock
    taken, and from then on [malloc] never returns. *)
Theorem expand_failure_deadlocks h s pagecount size :
  PMemory.wf s -> data h = 0 -> pages h = 0 -> lock h = false -> 0 < pagecount <= 2 ^ 20 ->
  (forall k, pagecount <= k -> PMemory.no_fit s k) -> size <> 0 ->
  exists st', expand pagecount (h, s) = Ret st' /\ lock st'.1 = true /\ malloc size st' = Diverge.
Proof.
  intros Hw Hd Hpg Hl Hp Hno Hs. unfold expand. rewrite Hl. cbn [spin_lock mbind result_bind].
  destruct (Z.eqb_spec pagecount 0); [lia|].
  change (pages (with_lock true h)) with (pages h). change (data (with_lock true h)) with (data h).
  rewrite Hpg, Hd. rewrite (wrap_small 64 (pagecount + 0)), (wrap_small 64 (_ * 4096)) by lia.
  destruct (ALIGN_UP_2_spec ((pagecount + 0) * 4096)) as (k & -> & Hk & Hlo & Hup); [lia|].
  cbn [mbind result_bind]. assert (Hk32 : 2 ^ k <= 2 ^ 33) by lia.
  assert (Hpow : POWER_OF_2 (2 ^ k) = true).
  { apply POWER_OF_2_spec; [lia|]. by rewrite Z.log2_pow2 by lia. }
  rewrite Hpow. cbn [negb]. unfold PMemory.realloc. cbn [Z.eqb].
  assert (Hc : pagecount <= 2 ^ k / 4096 < 2 ^ 40) by (Z.div_mod_to_equations; lia).
  destruct (PMemory.alloc_cases s (2 ^ k / 4096) Hw ltac:(lia)) as [[-> _]|(page & _ & H1 & _ & H3 & H4)].
  - cbn [mbind result_bind Z.eqb]. eexists. split; [done|]. split; [done|].
    unfold malloc. cbn [malloc_rec fst data lock with_lock]. destruct (Z.eqb_spec size 0); [done|]. done.
  - exfalso. apply (PMemory.next_fit_not_no_fit s (2 ^ k / 4096) page Hw H1 H3 H4). apply Hno. lia.
Qed.

(** ** What the search misses *)

(** The search looks at blocks in pairs and stops when the second of a
    pair is the end of the heap, so a last block without a partner is never
    considered: with blocks of 64, 32 and 32 bytes in use and a free block of
    128 bytes after them, [find_best] finds nothing for a request of 32, and
    [coalescence] does not help. *)
Theorem search_misses_last_block m h b :
  0 < b -> b + 256 <= 2 ^ 63 -> head h = b -> tail h = b + 256 ->
  tiles m b [(64, false); (32, false); (32, false); (128, true)] (b + 256) ->
  search m h 32 = Ret (m, 0).
Proof.
  intros Hb0 Hb Hh Htl Ht. pose proof Ht as (Hs0 & Hf0 & _ & Hs1 & Hf1 & _ & Hs2 & Hf2 & _ & Hs3 & Hf3 & _).
  replace (b + 64 + 32) with (b + 96) in * by lia.
  replace (b + 96 + 32) with (b + 128) in * by lia.
  assert (Hn : forall x sz, bsize m x = sz -> 0 <= x + sz < 2 ^ 64 -> next m x = x + sz).
  { intros x sz Hs Hr. unfold next. by rewrite Hs, wrap_small. }
  assert (Hn0 : next m b = b + 64) by (apply Hn; done || lia).
  assert (Hn1 : next m (b + 64) = b + 96) by (rewrite (Hn _ 32) by (done || lia); lia).
  assert (Hn2 : next m (b + 96) = b + 128) by (rewrite (Hn _ 32) by (done || lia); lia).
  assert (Hn3 : next m (b + 128) = b + 256) by (rewrite (Hn _ 128) by (done || lia); lia).
  assert (Hfuel : exists n, S (Z.to_nat (b + 256 - b)) = S (S (S n))) by (exists 254%nat; lia).
  destruct Hfuel as [n Hfuel].
  assert (Hfind : find_best m h 32 = Ret (m, 0)).
  { unfold find_best. rewrite Hh, Htl, Hn0, Hf0, andb_false_r, Hfuel. cbn [Z.eqb].
    remember (S (S n)) as n2 eqn:E2. cbn [find_loop].
    rewrite Hf0, Hf1, Hs0, Hs1, Hn1. cbn [andb]. rewrite (proj2 (Z.ltb_lt _ (b + 256))) by lia. rewrite (proj2 (Z.ltb_lt _ (b + 256))) by lia. cbn [andb Z.leb Z.compare Pos.compare Pos.compare_cont].
    subst n2. remember (S n) as n2 eqn:E2. cbn [find_loop].
    rewrite Hf1, Hf2, Hs1, Hs2, Hn2, Hn3. rewrite (proj2 (Z.ltb_lt _ (b + 256))) by lia. rewrite (proj2 (Z.ltb_lt _ (b + 256))) by lia. cbn [andb Z.leb Z.compare Pos.compare Pos.compare_cont].
    rewrite (proj2 (Z.ltb_lt _ (b + 256))) by lia. subst n2. cbn [find_loop].
    rewrite (proj2 (Z.ltb_ge (b + 256) (b + 256))) by lia. by rewrite andb_false_r. }
  assert (Hmerge : merge_loop (S (S (S n))) m (b + 256) b (b + 64) true = Ret (m, true)).
  { cbn [merge_loop]. rewrite Hn1, Hn2, Hf0, Hf1, Hf2, Hs0, Hs1, Hs2, Hs3, Hn3.
    cbn [andb Z.eqb Z.ltb Z.compare Pos.compare Pos.compare_cont].
    repeat (case_Zb; try lia); done. }
  unfold search. rewrite Hfind. cbn [mbind result_bind Z.eqb]. unfold coalescence. rewrite Hh, Htl, Hfuel.
  cbn [coalescence_loop]. rewrite Hh, Htl, Hfuel, Hn0, Hmerge. cbn [mbind result_bind]. exact Hfind.
Qed.

(** ** The properties at concrete states *)

(** A heap of one 256-byte block at [0x5000]. *)
Definition demo_heap (free : bool) : state :=
  (mkHeap 0x5000 0x5100 0x5000 false false 1,
   PMemory.mk (fun a => if a =? 0x5001 then 1 else if a =? 0x5008 then Z.b2z free else 0)
     (Bitmap.mk 0) true 0 0 0 0 false []).

Lemma demo_heap_wf free : wf (demo_heap free) [(256, free)].
Proof.
  split; try done. cbn [tiles]. split; [done|]. split; [by destruct free|]. split; [by exists 8|done].
Qed.

Lemma required_size_spec_witness : exists k, required_size 100 = Ret (2 ^ k) /\ 5 <= k <= 63.
Proof.
  destruct (required_size_spec 100 ltac:(lia)) as (k & H1 & H2 & _). exists k. by split.
Defined.

Lemma malloc_correct_witness :
  wf (demo_heap true) [(256, true)] /\
  match malloc 20 (demo_heap true) with Ret (_, p) => p = 0x50d0 | _ => False end /\
  exists r, malloc 20 (demo_heap true) = r.
Proof.
  split; [apply demo_heap_wf|]. split; [vm_compute; reflexivity|].
  destruct (malloc_correct (demo_heap true) [(256, true)] 20 (demo_heap_wf true) ltac:(lia))
    as [(st' & b & n & bs' & H & _)|[(st' & bs' & _ & H & _)|(st1 & bs1 & _ & _ & _ & _ & H)]];
    eexists; exact H.
Defined.

Lemma free_correct_witness :
  exists st' bs', free 0x5010 (demo_heap false) = Ret st' /\ wf st' bs' /\
    forall x k, ~ In (x, k) (used 0x5000 bs').
Proof.
  destruct (free_correct (demo_heap false) [(256, false)] 0x5010 256 (demo_heap_wf false)) as
    (st' & bs' & H1 & H2 & _ & H3 & _); [by left|lia|].
  exists st', bs'. split; [exact H1|]. split; [exact H2|]. intros x k Hin.
  apply H3 in Hin as [[[= <- <-]|[]] Hx]. by apply Hx.
Defined.

(** Sixteen frames; frame 2 is a heap of one block in use. *)
Definition demo_full : state :=
  (mkHeap 0x2000 0x3000 0x2000 false false 1,
   PMemory.mk (fun a => if a =? 0x1000 then 0xF0 else if a =? 0x2001 then 0x10 else 0)
     (Bitmap.mk 0x1000) true 0x10000 0 0x4000 0xC000 false []).

Lemma demo_full_wf : wf demo_full [(4096, false)].
Proof.
  split; try done. cbn [tiles]. split; [done|]. split; [done|]. split; [by exists 12|done].
Qed.

Lemma demo_full_pmemory : PMemory.wf demo_full.2.
Proof.
  split.
  - intros a. cbn. repeat case_Zb; lia.
  - cbn. lia.
  - vm_compute. by split.
  - vm_compute. by split.
  - done.
  - intros _. reflexivity.
  - intros a Ha _. unfold PMemory.storage, in_range in Ha.
    cbn [PMemory.bitmap demo_full snd Bitmap.buffer] in Ha.
    change ((PMemory.npages (PMemory.mk _ _ _ _ _ _ _ _ _) + 7) / 8) with 2 in Ha.
    assert (a = 0x1000 \/ a = 0x1001) as [-> | ->] by lia; reflexivity.
Qed.

Lemma expand_forgets_witness :
  match expand 1 demo_full with
  | Ret st' => exists n, wf st' [(n, true)] /\ n = pages st'.1 * PAGE
  | _ => False
  end.
Proof.
  assert (Hr : match expand 1 demo_full with Ret st' => lock st'.1 = false | _ => False end)
    by (vm_compute; reflexivity).
  destruct (expand 1 demo_full) as [st'| |] eqn:He; [|exact Hr|exact Hr].
  destruct (expand_forgets demo_full.1 demo_full.2 [(4096, false)] 1 st' demo_full_pmemory) as (n & H1 & _ & H2 & _).
  - exists 2. vm_compute. repeat split; discriminate.
  - exact demo_full_wf.
  - discriminate.
  - lia.
  - vm_compute. discriminate.
  - exact He.
  - exact Hr.
  - exists n. split; [exact H1|exact H2].
Defined.

Definition demo_empty : PMemory.state :=
  PMemory.mk (fun _ => 0) (Bitmap.mk 0x1000) true 0 0 0 0 false [].

Lemma expand_failure_deadlocks_witness :
  exists st', expand INIT_PAGES (mkHeap 0 0 0 false false 0, demo_empty) = Ret st' /\
    malloc 8 st' = Diverge.
Proof.
  destruct (expand_failure_deadlocks (mkHeap 0 0 0 false false 0) demo_empty INIT_PAGES 8)
    as (st' & H1 & _ & H2).
  - split.
    + intros a. cbn. lia.
    + cbn. lia.
    + vm_compute. by split.
    + vm_compute. by split.
    + reflexivity.
    + intros H. vm_compute in H. discriminate.
    + intros a Ha. change (PMemory.npages demo_empty) with 0.
      unfold PMemory.storage, in_range in Ha. change ((PMemory.npages demo_empty + 7) / 8) with 0 in Ha. lia.
  - reflexivity.
  - reflexivity.
  - reflexivity.
  - unfold INIT_PAGES. lia.
  - intros k Hk. unfold INIT_PAGES in Hk. split; intros i Hi; change (PMemory.npages demo_empty) with 0;
      change (PMemory.last demo_empty) with 0 in *; lia.
  - lia.
  - exists st'. split; [exact H1|exact H2].
Defined.

Definition demo_unpaired : mem := fun a =>
  if a =? 0x5000 then 0x40 else if a =? 0x5040 then 0x20 else if a =? 0x5060 then 0x20 else
  if a =? 0x5080 then 0x80 else if a =? 0x5088 then 1 else 0.

Lemma search_misses_last_block_witness :
  search demo_unpaired (mkHeap 0x5000 0x5100 0x5000 false false 1) 32 = Ret (demo_unpaired, 0).
Proof.
  apply (search_misses_last_block demo_unpaired _ 0x5000); [lia|lia|reflexivity|reflexivity|].
  cbn [tiles]. split_and!; try reflexivity; [by exists 6|by exists 5|by exists 5|by exists 7].
Defined.

End Heap.
