(* ===== verification/HeapBoot.v ===== *)
(** * The heap while it has room

    [Heap] says that [malloc] may fail, or give the heap up for a larger one.
    Here is when neither happens: on a heap whose first block is free and more
    than twice as large as the request, [malloc] and [calloc] return a block,
    and the first block stays free and at least half as large.  A heap that was
    never used makes its first block of 512 frames at the first request. *)

From S2P Require Import Prelude Mem MathLib Bitmap Frames PMemory Heap.
#[local] Open Scope Z_scope.
#[local] Open Scope machine_scope.

Module HeapBoot.
Import Heap.

(** The heap and the allocator below it, as two clients of one memory: the
    heap's region is made of frames in use and does not meet the bitmap. *)
Record sound (st : state) (bs : list (Z * bool)) : Prop := {
  so_heap : wf st bs;
  so_frames : PMemory.wf st.2;
  so_storage : forall a, in_range (head st.1) (tail st.1 - head st.1) a -> ~ PMemory.storage st.2 a;
}.

(** The blocks in use. *)
Definition in_use (st : state) (bs : list (Z * bool)) : list (Z * Z) := used (head st.1) bs.

(** What a request for [size] bytes that is granted the address [p] does. *)
Record granted (st : state) (bs : list (Z * bool)) (size : Z) (st' : state) (p n : Z) (bs' : list (Z * bool)) : Prop := {
  gr_sound : sound st' bs';
  gr_region : head st'.1 = head st.1 /\ tail st'.1 = tail st.1;
  gr_state : st'.2 = PMemory.set_memory (PMemory.memory st'.2) st.2;
  gr_fits : size + HEADER <= n;
  gr_bounds : head st.1 <= p - HEADER /\ p - HEADER + n <= tail st.1;
  gr_used : forall x k, In (x, k) (in_use st' bs') <-> In (x, k) (in_use st bs) \/ (x, k) = (p - HEADER, n);
  gr_apart : forall x k, In (x, k) (in_use st bs) -> x + k <= p - HEADER \/ p - HEADER + n <= x;
  gr_kept : preserved (PMemory.memory st.2) (PMemory.memory st'.2) (in_use st bs);
  gr_outside : forall a, ~ in_range (head st.1) (tail st.1 - head st.1) a -> PMemory.memory st'.2 a = PMemory.memory st.2 a;
}.

Lemma mem_update st m : PMemory.set_memory (PMemory.memory (PMemory.set_memory m st)) st = PMemory.set_memory m st.
Proof. done. Qed.

Lemma storage_set st m a : PMemory.storage (PMemory.set_memory m st) a = PMemory.storage st a.
Proof. done. Qed.

(** Writing the region, and nothing else, keeps the allocator's invariant. *)
Lemma sound_frames (h : heap) s m :
  PMemory.wf s -> mem_wf m ->
  (forall a, in_range (head h) (tail h - head h) a -> ~ PMemory.storage s a) ->
  (forall a, ~ in_range (head h) (tail h - head h) a -> m a = PMemory.memory s a) ->
  PMemory.wf (PMemory.set_memory m s).
Proof.
  intros Hw Hm Hs Ho. apply PMemory.write_wf; [done|done|]. intros a Ha. apply Ho. intros Hin. by apply (Hs a).
Qed.

(** ** [malloc] *)

Lemma malloc_room st bs size i :
  sound st bs -> 0 < size -> 5 <= i <= 62 -> size + HEADER <= 2 ^ i -> roomy (2 ^ (i + 1)) bs ->
  exists st' p n bs', malloc size st = Ret (st', p) /\ granted st bs size st' p n bs' /\ roomy (2 ^ i) bs' /\ 0 < p.
Proof.
  intros [Hw Hf Hst] Hs Hi Hle Hroom. pose proof (Z.pow_le_mono_r 2 i 62 ltac:(lia) ltac:(lia)).
  destruct (required_size_spec size) as (k & Hr & Hk & Hlo & Hup); [unfold HEADER in *; lia|].
  assert (Hki : k <= i).
  { destruct (decide (k <= i)); [done|]. pose proof (Z.pow_le_mono_r 2 i (k - 1)). lia. }
  unfold malloc. rewrite (malloc_rec_search 1 size st bs k) by (done || lia).
  destruct Hw as [Hd Hh Htl Ht Hne Hl]. destruct st as [h s]. cbn [fst snd] in *.
  destruct (search_spec (PMemory.memory s) h bs k) as (m1 & bs1 & b & -> & Hev & _ & Hfind); [done..|lia|].
  cbn [mbind result_bind]. destruct (Hfind i Hki Hroom) as (pre & post & -> & -> & Hpre).
  destruct (take_block _ _ _ _ _ _ Hh Htl (ev_tiles _ _ _ _ _ _ Hev)) as (Ht' & Hu & Hdis & Hp' & Hbs & Hend & Hge).
  set (b := head h + sum pre) in *. destruct (Z.eqb_spec b 0) as [|_]; [lia|]. cbn [negb].
  pose proof (ev_used _ _ _ _ _ _ Hev) as Hus. set (m2 := set_free m1 b false) in *.
  assert (Ho : forall a, ~ in_range (head h) (tail h - head h) a -> m2 a = PMemory.memory s a).
  { intros a Ha. rewrite <- (ev_out _ _ _ _ _ _ Hev a Ha). unfold m2, set_free. apply store8_ne.
    unfold in_range, HEADER in *. rewrite wrap_small by lia. lia. }
  assert (Hm2 : mem_wf m2).
  { apply store8_wf; [apply (ev_wf _ _ _ _ _ _ Hev), (PMemory.wf_mem _ Hf)|done]. }
  eexists (_, _), _, (2 ^ k), (pre ++ (2 ^ k, false) :: post). unfold HEADER in *. rewrite (wrap_small 64) by lia.
  split; [done|]. split; [|split; [by destruct pre as [|[? []] ?]|lia]].
  split; unfold in_use; cbn [fst snd head tail with_expanded PMemory.memory PMemory.set_memory];
    rewrite ?Z.add_simpl_r; try done; try lia.
  - split; cbn [fst snd]; [split; try done; by destruct pre| |done]. by apply (sound_frames h).
  - intros x n. by rewrite Hu, Hus.
  - intros x n. rewrite <- Hus. apply Hdis.
  - eapply preserved_trans; [exact Hus|by eapply evolves_preserved|done].
Qed.

(** ** [calloc] *)

(** The bytes behind a block's header are in no header. *)
Lemma payload_tiles m m' p bs q b n :
  0 < p -> q <= 2 ^ 63 -> tiles m p bs q -> In (b, n) (used p bs) ->
  (forall a, ~ in_range (b + HEADER) (n - HEADER) a -> m' a = m a) -> tiles m' p bs q.
Proof.
  intros Hp Hq Ht Hin Hm. revert p Hp Ht Hin. induction bs as [|[sz f] bs IH]; intros p Hp Ht Hin; [done|].
  pose proof (tiles_sum _ _ _ _ Ht) as Hsum. cbn [tiles sum foldr fst] in *. fold (sum bs) in *.
  destruct Ht as (Hsz & Hf & Hw & Ht). pose proof (wfsize_ge _ Hw). pose proof (tiles_pos _ _ _ _ Ht).
  assert (Hhd : (b = p /\ f = false) \/ In (b, n) (used (p + sz) bs) /\ p + sz <= b).
  { cbn [used] in Hin. destruct f; [|destruct Hin as [[= -> _]|Hin]; [by left|]]; right; (split; [done|]);
      pose proof (used_bound _ _ _ _ _ _ Ht Hin); lia. }
  destruct (header_ext m m' p) as [-> ->]; [lia|lia| |].
  { intros a Ha. apply Hm. unfold in_range, HEADER in *. lia. }
  split_and!; try done. destruct Hhd as [[-> ->]|[Hin' _]]; [|apply IH; try done; lia].
  apply (tiles_ext m); [lia|lia| |done]. intros a Ha. apply Hm. cbn [used] in Hin.
  destruct Hin as [[= <-]|Hin]; [unfold in_range, HEADER in *; lia|]. pose proof (used_bound _ _ _ _ _ _ Ht Hin). lia.
Qed.

(** Filling a block that was just granted. *)
Lemma granted_write st bs size h s p n bs' m :
  granted st bs size (h, s) p n bs' -> mem_wf m -> 0 < size ->
  (forall a, ~ in_range p size a -> m a = PMemory.memory s a) ->
  granted st bs size (h, PMemory.set_memory m s) p n bs'.
Proof.
  intros G Hm Hs Ho. destruct G as [[Hw Hf Hst] [Hhd Htl] Hs' Hfit [Hb1 Hb2] Hu Hap Hk Hout].
  unfold in_use in *. cbn [fst snd] in *. unfold HEADER in *.
  assert (Hin : In (p - 16, n) (used (head h) bs')) by (apply Hu; by right).
  destruct Hw as [Hd Hh Ht63 Ht Hne Hl]. cbn [fst snd] in *.
  split; unfold in_use, HEADER; cbn [fst snd PMemory.memory PMemory.set_memory]; try done.
  - split; cbn [fst snd]; [split; try done| |done].
    + apply (payload_tiles (PMemory.memory s) m _ _ _ (p - 16) n); [done|done|done|done|].
      intros a Ha. apply Ho. unfold in_range, HEADER in *. lia.
    + apply (sound_frames h); [done|done|done|]. intros a Ha. apply Ho. unfold in_range in *. lia.
  - rewrite Hs'. done.
  - intros x k a Hi Ha. rewrite Ho; [by apply (Hk x k)|]. specialize (Hap x k Hi). unfold in_range in *. lia.
  - intros a Ha. rewrite Ho, Hout; [done|done|]. unfold in_range in *. lia.
Qed.

(** A block of [num * size] bytes, all of them 0. *)
Lemma calloc_room st bs num size i :
  sound st bs -> 0 < num * size -> 5 <= i <= 62 -> num * size + HEADER <= 2 ^ i -> roomy (2 ^ (i + 1)) bs ->
  exists st' p n bs', calloc num size st = Ret (st', p) /\ granted st bs (num * size) st' p n bs' /\
    roomy (2 ^ i) bs' /\ 0 < p /\ (forall a, in_range p (num * size) a -> PMemory.memory st'.2 a = 0).
Proof.
  intros Hs Hn Hi Hle Hroom. pose proof (Z.pow_le_mono_r 2 i 62 ltac:(lia) ltac:(lia)).
  unfold calloc. rewrite wrap_small by (unfold HEADER in *; lia).
  destruct (malloc_room st bs (num * size) i Hs Hn Hi Hle Hroom) as ([h s] & p & n & bs' & -> & G & Hr & Hp).
  cbn [mbind result_bind]. destruct (Z.eqb_spec p 0) as [|_]; [lia|].
  pose proof (gr_sound _ _ _ _ _ _ _ G) as [Hw Hf _]. pose proof (gr_region _ _ _ _ _ _ _ G) as [_ Htl].
  pose proof (gr_bounds _ _ _ _ _ _ _ G) as [_ Hb]. pose proof (gr_fits _ _ _ _ _ _ _ G).
  pose proof (wf_tail _ _ Hw). rewrite <- Htl in Hb. cbn [fst snd] in *.
  assert (Hlk : forall a, (memset (PMemory.memory s) p 0 (num * size)).1 a =
    if decide (in_range p (num * size) a) then 0 else PMemory.memory s a).
  { intros a. by rewrite memset_lookup by (unfold HEADER in *; lia). }
  eexists _, p, n, bs'. split; [done|]. split; [|split; [done|split; [done|]]].
  - apply granted_write; [done|by apply memset_wf, (PMemory.wf_mem _ Hf)|done|].
    intros a Ha. by rewrite Hlk, decide_False.
  - intros a Ha. cbn [snd PMemory.memory PMemory.set_memory]. by rewrite Hlk, decide_True.
Qed.

(** ** The first request *)

(** A heap that was never used. *)
Definition fresh (h : heap) : Prop := data h = 0 /\ pages h = 0 /\ lock h = false.

(** The first 512 frames become one free block. *)
Lemma expand_fresh h s :
  fresh h -> PMemory.wf s -> ~ PMemory.no_fit s INIT_PAGES ->
  exists st', expand INIT_PAGES (h, s) = Ret st' /\ sound st' [(2 ^ 21, true)] /\
    tail st'.1 = head st'.1 + 2 ^ 21 /\
    exists page, head st'.1 = page * PAGE /\ 0 < page /\ page + INIT_PAGES <= PMemory.npages s /\
      PMemory.run (PMemory.page_used s) page INIT_PAGES /\
      st'.2 = PMemory.set_memory (PMemory.memory st'.2) (PMemory.claimed s page INIT_PAGES) /\
      (forall a, ~ in_range (head st'.1) (tail st'.1 - head st'.1) a ->
        PMemory.memory st'.2 a = PMemory.memory (PMemory.claimed s page INIT_PAGES) a).
Proof.
  intros (Hd & Hpg & Hl) Hw Hfit. unfold INIT_PAGES in *. unfold expand. rewrite Hl. cbn [spin_lock mbind result_bind].
  change (512 =? 0) with false. cbn iota. change (pages (with_lock true h)) with (pages h).
  change (data (with_lock true h)) with (data h). rewrite Hpg, Hd.
  change ((512 +64 0) *64 4096) with (2 ^ 21). change (ALIGN_UP_2 4096 (2 ^ 21)) with (Ret (2 ^ 21)).
  cbn [mbind result_bind]. change (POWER_OF_2 (2 ^ 21)) with true. cbn [negb]. change (2 ^ 21 / 4096) with 512.
  unfold PMemory.realloc. cbn [Z.eqb].
  destruct (PMemory.alloc_cases s 512 Hw ltac:(lia)) as [[_ Hno]|(page & -> & H0 & Hle & Hrun & _)]; [done|].
  pose proof (PMemory.npages_bound s Hw) as Hb. cbn [mbind result_bind].
  pose proof (PMemory.wf_high s Hw) as Hhigh.
  assert (Hd52 : 0 < page * PAGE /\ page * PAGE + 2 ^ 21 <= 2 ^ 52).
  { unfold PMemory.npages, PAGE in *. Z.div_mod_to_equations. lia. }
  destruct (Z.eqb_spec (page * PAGE) 0) as [|_]; [lia|].
  set (d := page * PAGE) in *. set (s1 := PMemory.claimed s page 512).
  assert (Hw1 : PMemory.wf s1) by (apply PMemory.claimed_wf; done || lia).
  set (m := set_free _ d true).
  assert (Hbs : bsize m d = 2 ^ 21).
  { unfold m. rewrite set_free_bsize by lia. apply set_size_bsize. lia. }
  assert (Hnx : next m d = d + 2 ^ 21) by (unfold next; rewrite Hbs, wrap_small; lia).
  eexists. split; [reflexivity|]. rewrite Hnx. cbn [fst snd head tail].
  assert (Ho : forall a, ~ in_range d (d + 2 ^ 21 - d) a -> m a = PMemory.memory s1 a).
  { intros a Ha. unfold m, set_free. rewrite wrap_small by lia. unfold in_range in *. rewrite store8_ne by lia.
    apply store_ne. unfold in_range. lia. }
  assert (Hst : forall a, in_range d (d + 2 ^ 21 - d) a -> ~ PMemory.storage s1 a).
  { intros a Ha. apply (PMemory.run_not_storage s page 512 Hw Hle Hrun). unfold in_range, d, PAGE in *. lia. }
  split; [|split; [done|]].
  - split; cbn [fst snd]; [split; cbn [fst snd data head tail lock PMemory.memory PMemory.set_memory]| |intros a Ha; rewrite storage_set; by apply Hst].
    + reflexivity.
    + lia.
    + lia.
    + cbn [tiles]. split; [exact Hbs|]. split; [apply set_free_bfree|]. split; [exists 21; split; [lia|reflexivity]|reflexivity].
    + discriminate.
    + reflexivity.
    + apply (sound_frames (mkHeap d (d + 2 ^ 21) d false false 512)); [exact Hw1| |exact Hst|exact Ho].
      apply store8_wf; [|done]. apply store_wf, (PMemory.wf_mem _ Hw1).
  - exists page. split; [reflexivity|]. split; [exact H0|]. split; [exact Hle|]. split; [exact Hrun|].
    split; [by rewrite mem_update|exact Ho].
Qed.

Lemma malloc_fresh h s size st1 bs1 :
  data h = 0 -> 0 < size -> expand INIT_PAGES (h, s) = Ret st1 -> wf st1 bs1 ->
  malloc size (h, s) = malloc size st1.
Proof.
  intros Hd Hs He Hw. unfold malloc. cbn [malloc_rec fst]. destruct (Z.eqb_spec size 0); [lia|].
  rewrite Hd, He. cbn [Z.eqb mbind result_bind]. rewrite (wf_data _ _ Hw).
  pose proof (wf_head _ _ Hw). destruct (Z.eqb_spec (head st1.1) 0); [lia|]. done.
Qed.

Lemma calloc_fresh h s num size st1 bs1 :
  data h = 0 -> 0 < num * size < 2 ^ 64 -> expand INIT_PAGES (h, s) = Ret st1 -> wf st1 bs1 ->
  calloc num size (h, s) = calloc num size st1.
Proof.
  intros Hd Hs He Hw. unfold calloc. rewrite wrap_small by lia. by rewrite (malloc_fresh h s _ st1 bs1) by (done || lia).
Qed.

End HeapBoot.
