(* ===== verification/Vector.v ===== *)
(** * The growing array: [lib/TurboVector]

    Every instance in the kernel holds pointers, so an element is a 64-bit word
    at [data + 8 * index].  The object's fields are a record; its storage comes
    from the kernel heap.  [contents] is the list it stands for.  The template
    member [insert] is never instantiated (its parameter hides the member
    [data] and the body does not type-check), so there is no code to model. *)

From S2P Require Import Prelude Mem Bitmap PMemory Heap.
#[local] Open Scope Z_scope.
#[local] Open Scope machine_scope.

Module Vector.

Record t : Type := mk { data : Z; capacity : Z; length : Z; isInit : bool }.

Definition empty : t := mk 0 0 0 false.

(** [sizeof(T)] and the address of element [i]. *)
Definition SIZE : Z := 8.
Definition elem (v : t) (i : Z) : Z := data v +64 i *64 SIZE.

Definition memory (st : Heap.state) : mem := PMemory.memory st.2.
Definition set_memory (m : mem) (st : Heap.state) : Heap.state := (st.1, PMemory.set_memory m st.2).

Definition init (v : t) (st : Heap.state) : result (t * Heap.state) :=
  '(st, p) ← Heap.operator_new SIZE st;
  Ret (mk p 1 0 true, st).

Definition init_size (size : Z) (v : t) (st : Heap.state) : result (t * Heap.state) :=
  '(st, p) ← Heap.operator_new (size *64 SIZE) st;
  Ret (mk p size 0 true, st).

Definition destroy (v : t) (st : Heap.state) : result (t * Heap.state) :=
  st ← Heap.free (data v) st;
  Ret (mk (data v) (capacity v) (length v) false, st).

Definition store_elem (v : t) (i item : Z) (st : Heap.state) : Heap.state :=
  set_memory (store64 (memory st) (elem v i) item) st.

Definition push_back (item : Z) (v : t) (st : Heap.state) : result (t * Heap.state) :=
  '(v, st) ← (if isInit v then Ret (v, st) else init v st);
  if length v <? capacity v then
    Ret (mk (data v) (capacity v) (length v +64 1) (isInit v), store_elem v (length v) item st)
  else
    '(st, data) ← Heap.realloc (data v) (2 *64 capacity v *64 SIZE) st;
    let v := mk data (capacity v *64 2) (length v) (isInit v) in
    if negb (data =? 0) then
      Ret (mk data (capacity v) (length v +64 1) (isInit v), store_elem v (length v) item st)
    else Ret (v, st).

Definition pop_back (v : t) : t :=
  if isInit v then mk (data v) (capacity v) (length v -64 1) true else v.

(** [for (i = 1; i < length - 1; ++i) data[position + i - 1] = data[position + i]]:
    [n] iterations from [i] on. *)
Fixpoint shift_loop (n : nat) (v : t) (position i : Z) (m : mem) : mem :=
  match n with
  | O => m
  | S n => shift_loop n v position (i + 1)
             (store64 m (elem v (position +64 (i - 1))) (load64 m (elem v (position +64 i))))
  end.

Definition remove (position : Z) (v : t) (st : Heap.state) : t * Heap.state :=
  if isInit v then
    (mk (data v) (capacity v) (length v -64 1) true,
     set_memory (shift_loop (Z.to_nat (length v -64 1 - 1)) v position 1 (memory st)) st)
  else (v, st).

(** [operator[]] and [at]: no bound is checked. *)
Definition index (position : Z) (v : t) (m : mem) : Z := load64 m (elem v position).
Definition at_ (position : Z) (v : t) (m : mem) : Z := load64 m (elem v position).
Definition first (v : t) (m : mem) : Z := load64 m (data v).
Definition last (v : t) (m : mem) : Z := load64 m (elem v (length v -64 1)).
Definition getLength (v : t) : Z := length v.
Definition size (v : t) : Z := length v.
Definition getCapacity (v : t) : Z := capacity v.

Definition resize (size : Z) (v : t) (st : Heap.state) : result (t * Heap.state) :=
  '(v, st) ← (if isInit v then Ret (v, st) else init v st);
  '(st, data) ← Heap.realloc (data v) (size *64 SIZE) st;
  Ret (mk data size (if size <? length v then size +64 1 else length v) (isInit v), st).

(** The loop of [find]: the test compares the address of the element with the
    address of the first one, not the element with [thing]. *)
Fixpoint find_loop (n : nat) (v : t) (thing i : Z) : Z :=
  match n with
  | O => u64 (-1)
  | S n => if data v =? elem v i then i else find_loop n v thing (i + 1)
  end.

Definition find (thing : Z) (v : t) : Z := find_loop (Z.to_nat (length v)) v thing 0.

(** ** The list a vector stands for *)

Definition contents (v : t) (m : mem) : list Z :=
  map (fun i => index (Z.of_nat i) v m) (seq 0 (Z.to_nat (length v))).

(** The representation invariant: the storage does not wrap around. *)
Record wf (v : t) : Prop := {
  wf_init : isInit v = true;
  wf_data : 0 < data v;
  wf_length : 0 <= length v <= capacity v;
  wf_storage : data v + capacity v * SIZE <= 2 ^ 63;
}.

Lemma elem_eq v i : wf v -> 0 <= i <= 2 * capacity v -> elem v i = data v + i * 8.
Proof.
  intros [_ Hd Hl Hs] Hi. unfold elem, SIZE in *. rewrite (wrap_small 64 (i * 8)) by lia.
  apply wrap_small. lia.
Qed.

Lemma contents_lookup v m i :
  contents v m !! i = if decide (Z.of_nat i < length v) then Some (index (Z.of_nat i) v m) else None.
Proof.
  unfold contents. rewrite list_lookup_fmap. case_decide.
  - rewrite lookup_seq_lt by lia. done.
  - by rewrite lookup_seq_ge by lia.
Qed.

Lemma contents_length v m : List.length (contents v m) = Z.to_nat (length v).
Proof. unfold contents. by rewrite length_map, length_seq. Qed.

(** Storing an element changes that element only. *)
Lemma elem_store_load v m i j x :
  wf v -> 0 <= i <= 2 * capacity v -> 0 <= j <= 2 * capacity v -> 0 <= x < 2 ^ 64 ->
  load64 (store64 m (elem v i) x) (elem v j) =
    if decide (j = i) then x else load64 m (elem v j).
Proof.
  intros Hv Hi Hj Hx. case_decide as Hd; [subst j; by apply load_store_eq|].
  apply load_store_ne. rewrite !elem_eq by done. lia.
Qed.

(** The loop copies each word from the next one, [n] words on. *)
Lemma shift_loop_spec n v position i m k :
  wf v -> 0 <= position -> 1 <= i -> position + i + Z.of_nat n <= 2 * capacity v -> mem_wf m ->
  0 <= k <= 2 * capacity v ->
  load64 (shift_loop n v position i m) (elem v k) =
    if decide (position + i - 1 <= k < position + i - 1 + Z.of_nat n)
    then load64 m (elem v (k + 1)) else load64 m (elem v k).
Proof.
  intros Hv Hp. revert i m. induction n as [|n IH]; intros i m Hi Hn Hm Hk; cbn [shift_loop].
  { case_decide; [lia|done]. }
  pose proof Hv as [_ Hd Hl Hs].
  assert (Hc : capacity v < 2 ^ 60) by (unfold SIZE in *; lia).
  rewrite (wrap_small 64 (position + (i - 1))), (wrap_small 64 (position + i)) by lia.
  set (x := load64 m (elem v (position + i))).
  assert (Hx : 0 <= x < 2 ^ 64) by (by apply (load_range 8)).
  rewrite IH; [|lia|lia|by apply store_wf|done].
  assert (Hst : forall j, 0 <= j <= 2 * capacity v ->
    load64 (store64 m (elem v (position + (i - 1))) x) (elem v j) =
      if decide (j = position + (i - 1)) then x else load64 m (elem v j)).
  { intros j Hj. by apply elem_store_load; try lia. }
  repeat case_decide; rewrite Hst by lia; repeat case_decide; try done; try lia.
  unfold x. do 2 f_equal. lia.
Qed.

(** ** Properties *)

(** Below capacity, [push_back] appends to the list and moves nothing. *)
Theorem push_back_appends v st item :
  wf v -> length v < capacity v -> 0 <= item < 2 ^ 64 ->
  exists v' st', push_back item v st = Ret (v', st') /\ wf v' /\
    contents v' (memory st') = contents v (memory st) ++ [item] /\
    capacity v' = capacity v /\ data v' = data v.
Proof.
  intros Hv Hlt Hi. pose proof Hv as [Hin Hd Hl Hs]. unfold push_back. rewrite Hin.
  cbn [mbind result_bind]. destruct (Z.ltb_spec (length v) (capacity v)); [|lia].
  assert (Hc : capacity v < 2 ^ 60) by (unfold SIZE in *; lia).
  rewrite wrap_small by lia. eexists _, _. split; [done|]. split; [split; simpl; done || lia|].
  split; [|done]. apply list_eq. intros i. rewrite contents_lookup. cbn [length].
  unfold index, store_elem, memory, set_memory.
  cbn [snd PMemory.memory PMemory.set_memory].
  change (elem (mk _ _ _ _) ?j) with (elem v j).
  destruct (decide (Z.of_nat i < length v)) as [Hlt2|Hge].
  - rewrite lookup_app_l by (rewrite contents_length; lia). rewrite contents_lookup.
    rewrite !decide_True by lia. f_equal. rewrite elem_store_load by (done || lia).
    rewrite decide_False by lia. done.
  - rewrite lookup_app_r by (rewrite contents_length; lia). rewrite contents_length.
    case_decide.
    + replace (i - Z.to_nat (length v))%nat with 0%nat by lia. cbn. f_equal.
      rewrite elem_store_load by (done || lia). by rewrite decide_True by lia.
    + symmetry. apply lookup_ge_None. simpl. lia.
Qed.

Lemma find_address thing v : wf v -> find thing v = if 0 <? length v then 0 else u64 (-1).
Proof.
  intros Hv. pose proof Hv as [_ Hd Hl Hs]. unfold find. case_Zb.
  - replace (Z.to_nat (length v)) with (S (Z.to_nat (length v - 1))) by lia. cbn [find_loop].
    rewrite elem_eq by (done || lia). by destruct (Z.eqb_spec (data v) (data v + 0 * 8)); [|lia].
  - by replace (Z.to_nat (length v)) with 0%nat by lia.
Qed.

(** [find] compares addresses, so it answers 0 for whatever is searched in
    a vector that is not empty; and [remove] shifts one element too few from
    position 0.  Together, [remove(find(thing))], the way the kernel deletes,
    does not depend on [thing]: it drops the first and the last element and
    leaves the last but one twice. *)
Theorem remove_find_drops_last v st thing l z y :
  wf v -> mem_wf (memory st) -> contents v (memory st) = l ++ [z; y] ->
  find thing v = 0 /\
  let '(v', st') := remove (find thing v) v st in
  wf v' /\ contents v' (memory st') = tail (l ++ [z]) ++ [z].
Proof.
  intros Hv Hm Hc. pose proof Hv as [Hin Hd Hl Hs].
  pose proof (contents_length v (memory st)) as Hlen. rewrite Hc, length_app in Hlen. cbn [List.length] in Hlen.
  rewrite find_address by done. destruct (Z.ltb_spec 0 (length v)); [|lia]. split; [done|].
  unfold remove. rewrite Hin.
  assert (Hcap : capacity v < 2 ^ 60) by (unfold SIZE in *; lia).
  rewrite !wrap_small by lia. split; [split; simpl; done || lia|].
  assert (Hlook : forall j, (j < List.length l + 2)%nat ->
    (l ++ [z; y]) !! j = Some (load64 (memory st) (elem v (Z.of_nat j)))).
  { intros j Hj. rewrite <- Hc, contents_lookup, decide_True by lia. done. }
  assert (Htl : (tail (l ++ [z]) ++ [z]) !! List.length l = Some z /\
    forall j, (j < List.length l)%nat -> (tail (l ++ [z]) ++ [z]) !! j = (l ++ [z; y]) !! S j).
  { destruct l as [|x l]; cbn [app tail List.length]; [split; [done|lia]|]. rewrite <- app_assoc. split.
    - rewrite lookup_app_r by lia. by replace (S (List.length l) - List.length l)%nat with 1%nat by lia.
    - intros j Hj. change ((x :: l ++ [z; y]) !! S j) with ((l ++ [z; y]) !! j).
      destruct (decide (j < List.length l)%nat).
      + by rewrite !lookup_app_l by lia.
      + rewrite (lookup_app_r l ([z] ++ [z])), (lookup_app_r l [z; y]) by lia. by replace (j - List.length l)%nat with 0%nat by lia. }
  apply list_eq. intros i. rewrite contents_lookup. cbn [length].
  unfold index, memory, set_memory. cbn [snd PMemory.memory PMemory.set_memory].
  change (elem (mk _ _ _ _) ?j) with (elem v j). fold (memory st).
  case_decide as Hi.
  - rewrite shift_loop_spec by (done || lia). destruct (decide (i < List.length l)%nat) as [Hlt|Hge].
    + rewrite decide_True by lia. rewrite (proj2 Htl) by lia. rewrite Hlook by lia. do 2 f_equal. f_equal. lia.
    + rewrite decide_False by lia. replace i with (List.length l) by lia. rewrite (proj1 Htl).
      rewrite <- Hlook by lia. rewrite lookup_app_r by lia. by rewrite Nat.sub_diag.
  - symmetry. apply lookup_ge_None. rewrite length_app. cbn [List.length].
    destruct l as [|x l]; cbn [app tail List.length] in *; rewrite ?length_app; cbn [List.length]; lia.
Qed.

(** [resize] to a smaller size leaves a length one more than the capacity:
    the last index counted lies outside the storage. *)
Theorem resize_overruns v st size v' st' :
  isInit v = true -> 0 <= size < length v -> length v < 2 ^ 64 ->
  resize size v st = Ret (v', st') -> length v' = capacity v' + 1.
Proof.
  intros Hin Hs Hl Hr. unfold resize in Hr. rewrite Hin in Hr. cbn [mbind result_bind] in Hr.
  apply bind_Ret in Hr as ([s d] & _ & Hr). injection Hr as <- <-. cbn.
  destruct (Z.ltb_spec size (length v)); [|lia]. rewrite wrap_small by lia. lia.
Qed.

(** ** The properties at a concrete state *)

(** Two elements, 7 and 9, in storage for four at [0x5000]. *)
Definition demo_state : Heap.state :=
  (Heap.mkHeap 0x4000 0x8000 0x4000 false false 4,
   PMemory.mk (fun a => if a =? 0x5000 then 7 else if a =? 0x5008 then 9 else 0)
     (Bitmap.mk 0) true 0 0 0 0 false []).

Definition demo : t := mk 0x5000 4 2 true.

Lemma vector_demo_wf : wf demo.
Proof. by split; cbn. Qed.

Lemma push_back_appends_witness :
  exists v' st', push_back 11 demo demo_state = Ret (v', st') /\ contents v' (memory st') = [7; 9; 11].
Proof.
  destruct (push_back_appends demo demo_state 11 vector_demo_wf) as (v' & st' & H1 & _ & H2 & _); [cbn; lia|lia|].
  exists v', st'. split; [exact H1|]. rewrite H2. reflexivity.
Defined.

Lemma remove_find_drops_last_witness :
  let '(v', st') := remove (find 9 demo) demo demo_state in contents v' (memory st') = [7].
Proof.
  destruct (remove_find_drops_last demo demo_state 9 [] 7 9 vector_demo_wf) as [_ H].
  - intros a. cbn. repeat case_Zb; lia.
  - reflexivity.
  - destruct (remove (find 9 demo) demo demo_state) as [v' st']. apply H.
Defined.

(** Shrinking to one element a vector whose block is in use. *)
Definition demo_shrink : Heap.state :=
  (Heap.mkHeap 0x5000 0x5100 0x5000 false false 1,
   PMemory.mk (fun a => if a =? 0x5000 then 0x80 else if a =? 0x5080 then 0x80
                        else if a =? 0x5088 then 1 else 0)
     (Bitmap.mk 0) true 0 0 0 0 false []).

Lemma resize_overruns_witness :
  match resize 1 (mk 0x5010 4 2 true) demo_shrink with
  | Ret (v', _) => length v' = capacity v' + 1
  | _ => False
  end.
Proof.
  assert (Hr : match resize 1 (mk 0x5010 4 2 true) demo_shrink with Ret _ => True | _ => False end)
    by (vm_compute; exact I).
  destruct (resize 1 (mk 0x5010 4 2 true) demo_shrink) as [[v' st']| |] eqn:He; [|exact Hr|exact Hr].
  apply (resize_overruns (mk 0x5010 4 2 true) demo_shrink 1 v' st'); [reflexivity|cbn; lia|cbn; lia|exact He].
Defined.

End Vector.
