(* ===== verification/Str.v ===== *)
(** * Strings: [lib/string.cpp] and [lib/string.hpp]

    The functions run on the byte memory; a [char] is a byte, signed where the
    code compares it as a number.  Loops that run to a terminator take [fuel],
    and the theorems give the length that is enough.  [is_str m p s] says that
    the bytes [s] and a NUL are at [p].  Pointers are addresses; arithmetic that
    leaves the address space is undefined in the source and not modelled. *)

From S2P Require Import Prelude Mem MathLib PMemory Heap.
#[local] Open Scope Z_scope.
#[local] Open Scope machine_scope.

Module Str.

Fixpoint strlen_loop (fuel : nat) (m : mem) (str length : Z) : result Z :=
  match fuel with
  | O => Diverge
  | S fuel => if m (str + length) =? 0 then Ret length else strlen_loop fuel m str (length +64 1)
  end.

Definition strlen (fuel : nat) (m : mem) (str : Z) : result Z := strlen_loop fuel m str 0.

(** [while ( *source != 0) *destination++ = *source++]: the memory and where
    both pointers end up. *)
Fixpoint copy_loop (fuel : nat) (m : mem) (destination source : Z) : result (mem * Z * Z) :=
  match fuel with
  | O => Diverge
  | S fuel =>
      if m source =? 0 then Ret (m, destination, source)
      else copy_loop fuel (store8 m destination (m source)) (destination + 1) (source + 1)
  end.

Definition strcpy (fuel : nat) (m : mem) (destination source : Z) : result (mem * Z) :=
  if destination =? 0 then Ret (m, 0) else
  '(m, d, _) ← copy_loop fuel m destination source;
  Ret (store8 m d 0, destination).

(** [for (i = 0; i < n && *source != 0; i++)]. *)
Fixpoint ncopy_loop (n : nat) (m : mem) (destination source : Z) : mem * Z :=
  match n with
  | O => (m, destination)
  | S n =>
      if m source =? 0 then (m, destination)
      else ncopy_loop n (store8 m destination (m source)) (destination + 1) (source + 1)
  end.

Definition strncpy (m : mem) (destination source n : Z) : mem * Z :=
  if destination =? 0 then (m, 0) else
  let '(m, d) := ncopy_loop (Z.to_nat n) m destination source in
  (store8 m d 0, destination).

(** No terminator is written after the copied bytes. *)
Definition strcat (fuel : nat) (m : mem) (destination source : Z) : result (mem * Z) :=
  if destination =? 0 then Ret (m, 0) else
  len ← strlen fuel m destination;
  '(m, _, _) ← copy_loop fuel m (destination + len) source;
  Ret (m, destination).

Fixpoint strchr (fuel : nat) (m : mem) (str ch : Z) : result Z :=
  match fuel with
  | O => Diverge
  | S fuel =>
      if negb (m str =? 0) && negb (m str =? ch) then strchr fuel m (str + 1) ch
      else Ret (if ch =? m str then str else 0)
  end.

Fixpoint strcmp (fuel : nat) (m : mem) (a b : Z) : result Z :=
  match fuel with
  | O => Diverge
  | S fuel =>
      if negb (m a =? 0) && (m a =? m b) then strcmp fuel m (a + 1) (b + 1)
      else Ret (m a - m b)
  end.

(** Every one of the [n] bytes is compared: a terminator does not stop it. *)
Fixpoint strncmp (n : nat) (m : mem) (a b : Z) : Z :=
  match n with
  | O => 0
  | S n => if m a =? m b then strncmp n m (a + 1) (b + 1) else 1
  end.

(** The loop of [strstr]: [a] and [b] scan, [str] is the candidate. *)
Fixpoint strstr_loop (fuel : nat) (m : mem) (str a b substring : Z) : result Z :=
  match fuel with
  | O => Diverge
  | S fuel =>
      if m b =? 0 then Ret str else
      if m a =? 0 then Ret 0 else
      if m a =? m b then strstr_loop fuel m str (a + 1) (b + 1) substring
      else strstr_loop fuel m (str + 1) (str + 1) substring substring
  end.

Definition strstr (fuel : nat) (m : mem) (str substring : Z) : result Z :=
  strstr_loop fuel m str str substring substring.

(** [lstrstr]: the number of newlines before the occurrence, [-1] if none;
    [skip] is decremented while [b] stays at the terminator. *)
Fixpoint lstrstr_loop (fuel : nat) (m : mem) (str a b substring skip count : Z) : result Z :=
  match fuel with
  | O => Diverge
  | S fuel =>
      if (m b =? 0) && (skip =? 0) then Ret count else
      let skip := if m b =? 0 then s32 (skip - 1) else skip in
      if m a =? 0 then Ret (-1) else
      let '(str, a, b) :=
        if m a =? m b then (str, a + 1, b + 1) else (str + 1, str + 1, substring) in
      let count := if m str =? 10 then s32 (count + 1) else count in
      lstrstr_loop fuel m str a b substring skip count
  end.

Definition lstrstr (fuel : nat) (m : mem) (str substring skip : Z) : result Z :=
  lstrstr_loop fuel m str str substring substring skip 0.

(** [while (strbck[i - 1] != newline) i--] and [while (strbck[t] != newline) t++]. *)
Fixpoint line_start (fuel : nat) (m : mem) (strbck i : Z) : result Z :=
  match fuel with
  | O => Diverge
  | S fuel => if m (strbck + (i - 1)) =? 10 then Ret i else line_start fuel m strbck (i - 1)
  end.

Fixpoint line_end (fuel : nat) (m : mem) (strbck t : Z) : result Z :=
  match fuel with
  | O => Diverge
  | S fuel => if m (strbck + t) =? 10 then Ret t else line_end fuel m strbck (t + 1)
  end.

Fixpoint getline_loop (fuel : nat) (m : mem) (strbck str a b substring buffer skip i : Z)
  : result (mem * Z) :=
  match fuel with
  | O => Diverge
  | S fuel =>
      if (m b =? 0) && (skip =? 0) then
        i' ← line_start fuel m strbck i;
        t ← line_end fuel m strbck i;
        let size := s32 (t - i') in
        let m := (memcpy m buffer (strbck + i') (u64 size)).1 in
        Ret (store8 m (buffer + size) 0, buffer)
      else
      let skip := if m b =? 0 then s32 (skip - 1) else skip in
      if m a =? 0 then Ret (m, 0) else
      if m a =? m b then getline_loop fuel m strbck str (a + 1) (b + 1) substring buffer skip i
      else getline_loop fuel m strbck (str + 1) (str + 1) substring substring buffer skip (s32 (i + 1))
  end.

Definition getline (fuel : nat) (m : mem) (str substring buffer skip : Z) : result (mem * Z) :=
  getline_loop fuel m str str str substring substring buffer skip 0.

(** [strrm]: the bytes between two occurrences move down to [q]; at the last
    one the rest of the string does. *)
Fixpoint move_until (fuel : nat) (m : mem) (q p r : Z) : result (mem * Z * Z) :=
  match fuel with
  | O => Diverge
  | S fuel =>
      if p <? r then move_until fuel (store8 m q (m p)) (q + 1) (p + 1) r else Ret (m, q, p)
  end.

(** [while (( *q++ = *p++) != 0)]. *)
Fixpoint move_rest (fuel : nat) (m : mem) (q p : Z) : result mem :=
  match fuel with
  | O => Diverge
  | S fuel =>
      let c := m p in
      let m := store8 m q c in
      if c =? 0 then Ret m else move_rest fuel m (q + 1) (p + 1)
  end.

Fixpoint strrm_loop (fuel : nat) (m : mem) (q r len substring : Z) : result (mem * Z * Z) :=
  match fuel with
  | O => Diverge
  | S fuel =>
      let p := r + len in
      r ← strstr fuel m p substring;
      if r =? 0 then Ret (m, q, p)
      else '(m, q, p) ← move_until fuel m q p r; strrm_loop fuel m q r len substring
  end.

Definition strrm (fuel : nat) (m : mem) (str substring : Z) : result (mem * Z) :=
  if m substring =? 0 then Ret (m, str) else
  q ← strstr fuel m str substring;
  if q =? 0 then Ret (m, str) else
  len ← strlen fuel m substring;
  '(m, q, p) ← strrm_loop fuel m q q len substring;
  m ← move_rest fuel m q p;
  Ret (m, str).

(** The functions that allocate take the heap's state. *)
Definition memory (st : Heap.state) : mem := PMemory.memory st.2.
Definition set_memory (m : mem) (st : Heap.state) : Heap.state := (st.1, PMemory.set_memory m st.2).

Definition strdup (fuel : nat) (src : Z) (st : Heap.state) : result (Heap.state * Z) :=
  l ← strlen fuel (memory st) src;
  let len := l +64 1 in
  '(st, s) ← Heap.kmalloc len true st;
  if s =? 0 then Ret (st, 0) else
  Ret (set_memory (memcpy (memory st) s src len).1 st, s).

(** [while ((_s = strstr(_s, delim))) { _s += delimLen; ++nbWords; }]. *)
Fixpoint count_words (fuel : nat) (m : mem) (s delim delimLen nbWords : Z) : result Z :=
  match fuel with
  | O => Diverge
  | S fuel =>
      p ← strstr fuel m s delim;
      if p =? 0 then Ret nbWords else count_words fuel m (p + delimLen) delim delimLen (nbWords +64 1)
  end.

(** The loop that cuts the copy and records the words. *)
Fixpoint cut_words (fuel : nat) (m : mem) (s ptrs delim delimLen : Z) : result (mem * Z) :=
  match fuel with
  | O => Diverge
  | S fuel =>
      p ← strstr fuel m s delim;
      if p =? 0 then Ret (m, ptrs) else
      let m := store8 m p 0 in
      let s := p + delimLen in
      let ptrs := ptrs + 8 in
      cut_words fuel (store64 m ptrs s) s ptrs delim delimLen
  end.

(** Returns the array and the number of words. *)
Definition strsplit_ (fuel : nat) (s delim : Z) (st : Heap.state) : result (Heap.state * Z * Z) :=
  sLen ← strlen fuel (memory st) s;
  delimLen ← strlen fuel (memory st) delim;
  nbWords ← count_words fuel (memory st) s delim delimLen 1;
  let ptrsSize := (nbWords +64 1) *64 8 in
  '(st, data) ← Heap.kmalloc (u64 (ptrsSize + sLen + 1)) true st;
  if data =? 0 then Ret (st, 0, 0) else
  '(m, s') ← strcpy fuel (memory st) (data + ptrsSize) s;
  let m := store64 m data s' in
  '(m, ptrs) ← (if 1 <? nbWords then cut_words fuel m s' data delim delimLen else Ret (m, data));
  let m := store64 m (ptrs + 8) 0 in
  Ret (set_memory m st, data, nbWords).

Definition strsplit (fuel : nat) (s delim : Z) (st : Heap.state) : result (Heap.state * Z) :=
  '(st, data, _) ← strsplit_ fuel s delim st; Ret (st, data).
Definition strsplit_count (fuel : nat) (s delim : Z) (st : Heap.state) : result (Heap.state * Z * Z) :=
  strsplit_ fuel s delim st.

(** [reverse]: [n] swaps at most, from both ends. *)
Fixpoint reverse_loop (n : nat) (m : mem) (s i j : Z) : mem :=
  match n with
  | O => m
  | S n =>
      if i <? j then
        let c := m (s + i) in
        let m := store8 m (s + i) (m (s + j)) in
        let m := store8 m (s + j) c in
        reverse_loop n m s (i +64 1) (j -64 1)
      else m
  end.

Definition reverse (fuel : nat) (m : mem) (s : Z) : result (mem * Z) :=
  len ← strlen fuel m s;
  Ret (reverse_loop fuel m s 0 (len -64 1), s).

(** Characters as signed numbers. *)
Definition char2low (c : Z) : Z := if (65 <=? c) && (c <=? 90) then s8 (c + 32) else c.
Definition char2up (c : Z) : Z := if (97 <=? c) && (c <=? 122) then s8 (c - 32) else c.
Definition char2num (c : Z) : Z := let c := char2up c in if negb (c =? 0) then c - 64 else -1.

(** [char2str] writes the first byte of the global [str], whose second is 0. *)
Definition char2str (str c : Z) (m : mem) : mem * Z := (store8 m str c, str).

(** The digits of [int2string], least significant first: [temp]. *)
Fixpoint int_digits (fuel : nat) (num : Z) : list Z :=
  match fuel with
  | O => []
  | S fuel => if 0 <? num then s8 (num mod 10 + 48) :: int_digits fuel (num / 10) else []
  end.

Fixpoint take_until0 (l : list Z) : list Z :=
  match l with [] => [] | c :: l => if c =? 0 then [] else c :: take_until0 l end.

(** [out] has 10 bytes and gets no terminator: [strdup] reads on into the
    [stack] bytes that follow, up to the first 0.  An 11th character is written
    out of bounds. *)
Definition int2string (stack : list Z) (num : Z) : result (option (list Z)) :=
  if num =? 0 then Ret None else
  let isMinus := num <? 0 in
  let num := if isMinus then s32 (- num) else num in
  let '(temp, num) := if 0 <? num then ([], num) else ([56], s32 (- (Z.quot num 10))) in
  let temp := temp ++ int_digits 10 num in
  let out := (if isMinus then [45] else []) ++ rev temp in
  if (10 <? List.length out)%nat then Fault
  else Ret (Some (take_until0 (out ++ stack))).

Fixpoint string2int_loop (fuel : nat) (m : mem) (p res : Z) : result Z :=
  match fuel with
  | O => Diverge
  | S fuel =>
      if m p =? 0 then Ret res
      else string2int_loop fuel m (p + 1) (s32 (s32 (s32 (res * 10) + s8 (m p)) - 48))
  end.

Definition string2int (fuel : nat) (m : mem) (str : Z) : result Z := string2int_loop fuel m str 0.

Fixpoint oct2dec_loop (fuel : nat) (oct dec temp : Z) : Z :=
  match fuel with
  | O => dec
  | S fuel =>
      if oct =? 0 then dec
      else oct2dec_loop fuel (Z.quot oct 10) (s32 (dec + s32 (Z.rem oct 10 * pow 8 temp))) (temp + 1)
  end.

(** An [int] has at most ten decimal digits. *)
Definition oct2dec (oct : Z) : Z := u64 (oct2dec_loop 10 oct 0 0).

Fixpoint intlen_loop (fuel : nat) (n digits : Z) : Z :=
  match fuel with
  | O => digits
  | S fuel => if n =? 0 then digits else intlen_loop fuel (Z.quot n 10) (digits + 1)
  end.

Definition intlen (n : Z) : Z :=
  if n <=? 0 then intlen_loop 10 (s32 (- n)) 1 else intlen_loop 10 n 0.

(** [hash]: a C string is the list of its bytes here, as the compiler's
    constant evaluation sees it. *)
Fixpoint hash (input : list Z) : Z :=
  match input with
  | [] => 5381
  | c :: input => u32 (u32 (s8 c) + 33 * hash input)
  end.

(** ** Strings in memory *)

(** The bytes of a literal. *)
Fixpoint string_bytes (s : string) : list Z :=
  match s with
  | EmptyString => []
  | String.String c s => Z.of_nat (Ascii.nat_of_ascii c) :: string_bytes s
  end.

Fixpoint is_str (m : mem) (p : Z) (s : list Z) : Prop :=
  match s with
  | [] => m p = 0
  | c :: s => m p = c /\ c <> 0 /\ is_str m (p + 1) s
  end.

Lemma is_str_app m p s t :
  is_str m p (s ++ t) <->
  (forall i c, s !! i = Some c -> m (p + Z.of_nat i) = c /\ c <> 0) /\ is_str m (p + Z.of_nat (length s)) t.
Proof.
  revert p. induction s as [|c s IH]; intros p; cbn [app is_str length].
  - rewrite Z.add_0_r. split; [by split|tauto].
  - rewrite IH. split.
    + intros (Hc & Hn & Hs & Ht). split; [|replace (p + Z.of_nat (S (length s))) with (p + 1 + Z.of_nat (length s)) by lia; done].
      intros [|i] d Hd; [injection Hd as <-; by rewrite Z.add_0_r|].
      replace (p + Z.of_nat (S i)) with (p + 1 + Z.of_nat i) by lia. by apply Hs.
    + intros [Hs Ht]. destruct (Hs 0%nat c eq_refl) as [Hc Hn]. rewrite Z.add_0_r in Hc.
      split; [done|]. split; [done|]. split.
      * intros i d Hd. replace (p + 1 + Z.of_nat i) with (p + Z.of_nat (S i)) by lia. by apply Hs.
      * by replace (p + 1 + Z.of_nat (length s)) with (p + Z.of_nat (S (length s))) by lia.
Qed.

Lemma is_str_end m p s : is_str m p s -> m (p + Z.of_nat (length s)) = 0.
Proof. intros H. rewrite <- (app_nil_r s) in H. by apply is_str_app in H as [_ H]. Qed.

(** A string from its bytes. *)
Lemma is_str_intro m p l : (forall i, 0 <= i < Z.of_nat (length l) -> Some (m (p + i)) = l !! Z.to_nat i) ->
  m (p + Z.of_nat (length l)) = 0 -> Forall (fun c => c <> 0) l -> is_str m p l.
Proof.
  intros Hl H0 Hn. rewrite <- (app_nil_r l). apply is_str_app. split; [|done]. intros i c Hi.
  pose proof (lookup_lt_Some _ _ _ Hi). specialize (Hl (Z.of_nat i) ltac:(lia)). rewrite Nat2Z.id, Hi in Hl.
  injection Hl as ->. split; [done|]. by apply (Forall_lookup_1 _ _ _ _ Hn Hi).
Qed.

Lemma is_str_ext m m' p s :
  (forall a, p <= a <= p + Z.of_nat (length s) -> m' a = m a) -> is_str m p s -> is_str m' p s.
Proof.
  revert p. induction s as [|c s IH]; intros p Hm; cbn [is_str length] in *.
  - intros H. rewrite Hm by lia. done.
  - intros (H1 & H2 & H3). rewrite Hm by lia. split_and!; [done|done|].
    apply IH; [|done]. intros a Ha. apply Hm. lia.
Qed.

Lemma strlen_loop_spec fuel m p s n :
  is_str m (p + n) s -> 0 <= n -> n + Z.of_nat (length s) < 2 ^ 64 -> (length s < fuel)%nat ->
  strlen_loop fuel m p n = Ret (n + Z.of_nat (length s)).
Proof.
  revert n fuel. induction s as [|c s IH]; intros n [|fuel] Hs Hn Hb Hf; cbn [length] in *; try lia;
    cbn [strlen_loop is_str] in *.
  - rewrite Hs. cbn. f_equal. lia.
  - destruct Hs as (-> & Hc & Hs). destruct (Z.eqb_spec c 0); [done|]. rewrite wrap_small by lia.
    rewrite IH; [f_equal; lia|by rewrite Z.add_assoc|lia|lia|lia].
Qed.

Lemma strlen_spec fuel m p s :
  is_str m p s -> Z.of_nat (length s) < 2 ^ 64 -> (length s < fuel)%nat ->
  strlen fuel m p = Ret (Z.of_nat (length s)).
Proof. intros. unfold strlen. apply (strlen_loop_spec fuel m p s 0); rewrite ?Z.add_0_r; done || lia. Qed.

(** The copy of a string to a place it does not overlap. *)
Lemma copy_loop_spec fuel m d p s :
  is_str m p s -> (length s < fuel)%nat ->
  d + Z.of_nat (length s) <= p \/ p + Z.of_nat (length s) < d ->
  exists m', copy_loop fuel m d p = Ret (m', d + Z.of_nat (length s), p + Z.of_nat (length s)) /\
    (forall i c, s !! i = Some c -> m' (d + Z.of_nat i) = c) /\
    forall a, ~ in_range d (Z.of_nat (length s)) a -> m' a = m a.
Proof.
  revert m d p fuel. induction s as [|c s IH]; intros m d p [|fuel] Hs Hf Hdis;
    cbn [length] in *; try lia; cbn [copy_loop is_str] in *.
  - rewrite Hs, !Z.add_0_r. exists m. split; [done|]. by split.
  - destruct Hs as (-> & Hc & Hs). destruct (Z.eqb_spec c 0); [done|].
    assert (Hs' : is_str (store8 m d c) (p + 1) s).
    { apply (is_str_ext m); [|done]. intros a Ha. apply store8_ne. lia. }
    destruct (IH (store8 m d c) (d + 1) (p + 1) fuel Hs') as (m' & -> & Hin & Hout); [lia|lia|].
    exists m'. split; [f_equal; f_equal; [f_equal|]; lia|]. unfold in_range in *. split.
    + intros [|i] e He; cbn in He.
      * injection He as <-. rewrite Z.add_0_r, Hout by lia. apply store8_eq.
      * replace (d + Z.of_nat (S i)) with (d + 1 + Z.of_nat i) by lia. by apply Hin.
    + intros a Ha. rewrite Hout by lia. apply store8_ne. lia.
Qed.

(** [strcmp] answers 0 for equal strings only. *)
Lemma strcmp_equal fuel m a b x y :
  is_str m a x -> is_str m b y -> (length x < fuel)%nat ->
  exists r, strcmp fuel m a b = Ret r /\ (r = 0 <-> x = y).
Proof.
  revert m a b y fuel. induction x as [|c x IH]; intros m a b y [|fuel] Hx Hy Hf; cbn [length] in *; try lia;
    cbn [strcmp is_str] in *.
  - rewrite Hx. cbn [Z.eqb negb andb]. eexists. split; [done|]. destruct y as [|d y]; cbn [is_str] in Hy.
    + rewrite Hy. done.
    + destruct Hy as (-> & Hd & _). split; [lia|done].
  - destruct Hx as (-> & Hc & Hx). destruct (Z.eqb_spec c 0); [done|]. cbn [negb andb].
    destruct y as [|d y]; cbn [is_str] in Hy.
    + rewrite Hy. destruct (Z.eqb_spec c 0); [done|]. eexists. split; [done|]. split; [lia|done].
    + destruct Hy as (-> & Hd & Hy). destruct (Z.eqb_spec c d) as [->|Hne].
      * destruct (IH m (a + 1) (b + 1) y fuel Hx Hy) as (r & Hr & Heq); [lia|]. exists r. split; [done|].
        rewrite Heq. split; [by intros ->|by intros [= ->]].
      * eexists. split; [done|]. split; [lia|congruence].
Qed.

(** The order of C strings: bytes compared as unsigned numbers, a prefix first. *)
Fixpoint str_lt (x y : list Z) : Prop :=
  match x, y with
  | _, [] => False
  | [], _ :: _ => True
  | c :: x, d :: y => c < d \/ (c = d /\ str_lt x y)
  end.

(** [strcmp] of two terminated strings returns, and its sign is their
    order: 0 exactly for equal strings, negative exactly when the first comes
    before the second in the order on unsigned bytes. *)
Theorem strcmp_correct fuel m a b x y :
  is_str m a x -> is_str m b y -> Forall (fun c => 0 <= c) (x ++ y) -> (length x < fuel)%nat ->
  exists r, strcmp fuel m a b = Ret r /\ (r = 0 <-> x = y) /\ (r < 0 <-> str_lt x y).
Proof.
  revert a b y fuel. induction x as [|c x IH]; intros a b y [|fuel] Hx Hy Hc Hf;
    cbn [length] in *; try lia; cbn [strcmp].
  - cbn [is_str] in Hx. rewrite Hx. cbn [Z.eqb negb andb]. eexists. split; [done|].
    destruct y as [|d y]; cbn [is_str str_lt] in *.
    + rewrite Hy. split; [done|split; [lia|done]].
    + destruct Hy as (-> & Hd & _). cbn in Hc. apply Forall_cons in Hc as [Hc _].
      split; [split; [lia|done]|split; [done|lia]].
  - destruct Hx as (-> & Hcn & Hx). destruct (Z.eqb_spec c 0); [done|]. cbn [negb andb].
    apply Forall_app in Hc as [[Hc0 Hcx]%Forall_cons Hcy].
    destruct y as [|d y]; cbn [is_str str_lt] in *.
    + rewrite Hy. destruct (Z.eqb_spec c 0); [done|]. eexists. split; [done|].
      split; [split; [lia|done]|split; [lia|done]].
    + destruct Hy as (-> & Hdn & Hy). apply Forall_cons in Hcy as [Hd0 Hcy].
      destruct (Z.eqb_spec c d) as [->|Hne].
      * destruct (IH (a + 1) (b + 1) y fuel Hx Hy) as (r & -> & H0 & Hlt);
          [by apply Forall_app|lia|]. exists r. split; [done|]. rewrite H0, Hlt. split.
        -- split; [by intros ->|by intros [=]].
        -- split; [by right|intros [|[_ ?]]; [lia|done]].
      * eexists. split; [done|]. split.
        -- split; [lia|intros [=]; done].
        -- split; [left; lia|intros [|[]]; [lia|done]].
Qed.

(** [y] occurs in [x] at position [k]. *)
Definition occurs (y x : list Z) (k : nat) : Prop := exists u, drop k x = y ++ u /\ (k <= length x)%nat.

Lemma occurs_mismatch pre w c v d u : c <> d -> ~ occurs (w ++ c :: v) (pre ++ w ++ d :: u) (length pre).
Proof.
  intros Hne (t & Ht & _). rewrite drop_app_length in Ht. rewrite <- app_assoc in Ht.
  apply app_inv_head in Ht. by injection Ht as ->.
Qed.

Lemma occurs_too_long pre w c v k : (length pre <= k)%nat -> ~ occurs (w ++ c :: v) (pre ++ w) k.
Proof.
  intros Hk (t & Ht & _). apply (f_equal length) in Ht. rewrite length_drop, !length_app in Ht.
  simpl in Ht. lia.
Qed.

Lemma strstr_loop_spec fuel m s p x y pre w u v :
  is_str m s x -> is_str m p y -> x = pre ++ w ++ u -> y = w ++ v -> 0 < s ->
  ((length x + 1 - length pre) * (length y + 1) < fuel + length w)%nat ->
  (forall k, (k < length pre)%nat -> ~ occurs y x k) ->
  exists r, strstr_loop fuel m (s + Z.of_nat (length pre)) (s + Z.of_nat (length pre + length w))
              (p + Z.of_nat (length w)) p = Ret r /\
    ((r = 0 /\ forall k, ~ occurs y x k) \/
     exists k, r = s + Z.of_nat k /\ occurs y x k /\ forall i, (i < k)%nat -> ~ occurs y x i).
Proof.
  intros Hx Hy. revert pre w u v. induction fuel as [|fuel IH]; intros pre w u v Ex Ey Hs0 Hf Hno.
  { assert (length w <= length y)%nat by (rewrite Ey, length_app; lia).
    assert (length pre <= length x)%nat by (rewrite Ex, !length_app; lia). nia. }
  cbn [strstr_loop]. pose proof Hx as Hx'. pose proof Hy as Hy'.
  rewrite Ey in Hy'. apply is_str_app in Hy' as [_ Hv].
  rewrite Ex, app_assoc in Hx'. apply is_str_app in Hx' as [Hpw Hu]. rewrite length_app in Hu.
  destruct v as [|c v]; cbn [is_str] in Hv.
  { rewrite Hv. cbn [Z.eqb]. eexists. split; [done|]. right. exists (length pre).
    split; [done|]. split; [|done]. exists u. rewrite app_nil_r in Ey. subst x y.
    rewrite drop_app_length. split; [done|]. rewrite length_app. lia. }
  destruct Hv as (-> & Hc & _). destruct (Z.eqb_spec c 0); [done|].
  destruct u as [|d u]; cbn [is_str] in Hu.
  { rewrite Hu. cbn [Z.eqb]. eexists. split; [done|]. left. split; [done|]. intros k.
    destruct (decide (k < length pre)%nat); [by apply Hno|].
    rewrite Ex, Ey, app_nil_r. apply occurs_too_long. lia. }
  destruct Hu as (-> & Hd & _). destruct (Z.eqb_spec d 0); [done|].
  destruct (Z.eqb_spec d c) as [->|Hne].
  - destruct (IH pre (w ++ [c]) u v) as (r & Hr & Hres);
      [by rewrite <- app_assoc|by rewrite <- app_assoc|done|rewrite length_app; simpl; lia|done|].
    exists r. split; [|done]. rewrite <- Hr. rewrite length_app. simpl.
    f_equal; lia.
  - assert (Hpre : exists e t, w ++ d :: u = e :: t) by (destruct w; simpl; eauto).
    destruct Hpre as (e & t & Het).
    destruct (IH (pre ++ [e]) [] t y) as (r & Hr & Hres).
    + by rewrite Ex, Het, <- app_assoc.
    + done.
    + done.
    + assert (length w <= length y)%nat by (rewrite Ey, length_app; lia).
      assert (length pre + 1 <= length x)%nat
        by (rewrite Ex, !length_app; simpl; lia).
      rewrite length_app. simpl length.
      replace (length x + 1 - length pre)%nat with (S (length x + 1 - (length pre + 1))) in Hf by lia. lia.
    + intros k Hk. rewrite length_app in Hk. simpl in Hk.
      destruct (decide (k = length pre)) as [->|]; [|apply Hno; lia].
      rewrite Ex, Ey. apply occurs_mismatch. congruence.
    + exists r. split; [|done]. rewrite <- Hr. rewrite length_app. simpl length.
      f_equal; lia.
Qed.

(** [strstr] finds the first occurrence: it always returns, answers null
    exactly when the substring occurs nowhere, and otherwise the address of
    the leftmost occurrence. *)
Theorem strstr_first fuel m s p x y :
  is_str m s x -> is_str m p y -> 0 < s -> ((length x + 1) * (length y + 1) < fuel)%nat ->
  exists r, strstr fuel m s p = Ret r /\
    ((r = 0 /\ forall k, ~ occurs y x k) \/
     exists k, r = s + Z.of_nat k /\ occurs y x k /\ forall i, (i < k)%nat -> ~ occurs y x i).
Proof.
  intros Hx Hy Hs Hf. unfold strstr.
  destruct (strstr_loop_spec fuel m s p x y [] [] x y) as (r & Hr & Hres); try done.
  - simpl. lia.
  - simpl. intros k Hk. lia.
  - exists r. split; [|done]. rewrite <- Hr. simpl. f_equal; lia.
Qed.

(** [strcpy] leaves a terminated copy, and [strcat] appends the source's
    characters but no terminator: the byte after them keeps its old value, and
    unless it was 0 the result is not the concatenation. *)
Theorem strcat_unterminated fuel m d p x y :
  is_str m d x -> is_str m p y -> 0 < d ->
  (length x < fuel)%nat -> (length y < fuel)%nat -> Z.of_nat (length x) < 2 ^ 64 ->
  d + Z.of_nat (length x + length y) < p \/ p + Z.of_nat (length y) < d ->
  exists m', strcat fuel m d p = Ret (m', d) /\
    (forall i c, (x ++ y) !! i = Some c -> m' (d + Z.of_nat i) = c) /\
    m' (d + Z.of_nat (length (x ++ y))) = m (d + Z.of_nat (length (x ++ y))) /\
    (is_str m' d (x ++ y) <-> m (d + Z.of_nat (length (x ++ y))) = 0) /\
    (forall a, ~ in_range d (Z.of_nat (length (x ++ y))) a -> m' a = m a).
Proof.
  intros Hx Hy Hd Hfx Hfy Hb Hdis. unfold strcat. destruct (Z.eqb_spec d 0); [lia|].
  rewrite (strlen_spec fuel m d x) by done. cbn [mbind result_bind].
  destruct (copy_loop_spec fuel m (d + Z.of_nat (length x)) p y) as (m' & -> & Hin & Hout); [done|done|lia|].
  cbn [mbind result_bind]. exists m'. split; [done|]. rewrite length_app. unfold in_range in *.
  assert (Hchars : forall i c, (x ++ y) !! i = Some c -> m' (d + Z.of_nat i) = c /\ c <> 0).
  { intros i c Hi. pose proof Hx as Hx2. rewrite <- (app_nil_r x) in Hx2. apply is_str_app in Hx2 as [Hx2 _].
    pose proof Hy as Hy2. rewrite <- (app_nil_r y) in Hy2. apply is_str_app in Hy2 as [Hy2 _].
    apply lookup_app_Some in Hi as [Hi|[Hle Hi]].
    - pose proof (lookup_lt_Some _ _ _ Hi). rewrite Hout by lia. by apply Hx2.
    - split; [|by apply (Hy2 _ _ Hi)]. rewrite <- (Hin _ _ Hi). f_equal. lia. }
  assert (Hend : m' (d + Z.of_nat (length x + length y)) = m (d + Z.of_nat (length x + length y)))
    by (apply Hout; lia).
  split; [intros; by apply Hchars|]. split; [done|]. split; [|intros a Ha; apply Hout; lia].
  rewrite <- (app_nil_r (x ++ y)), is_str_app. cbn [is_str]. rewrite length_app, Hend. tauto.
Qed.

(** [strcat] of one character. *)
Lemma strcat_char fuel m d p x ch :
  is_str m d x -> m p = ch -> ch <> 0 -> m (p + 1) = 0 -> p <> d + Z.of_nat (length x) -> p + 1 <> d + Z.of_nat (length x) ->
  0 < d -> Z.of_nat (length x) < 2 ^ 64 -> (length x + 1 < fuel)%nat ->
  strcat fuel m d p = Ret (store8 m (d + Z.of_nat (length x)) ch, d).
Proof.
  intros Hx Hp Hc Hz Hn1 Hn2 Hd Hl Hf. unfold strcat. destruct (Z.eqb_spec d 0); [lia|].
  rewrite (strlen_spec fuel m d x) by (done || lia). cbn [mbind result_bind].
  destruct fuel as [|[|fuel]]; [lia..|]. cbn [copy_loop]. rewrite Hp. destruct (Z.eqb_spec ch 0); [done|].
  rewrite store8_ne by lia. by rewrite Hz.
Qed.

(** ** Removing a substring *)

(** The reference: the occurrences from the left, none overlapping. *)
Fixpoint find_sub (y x : list Z) : option nat :=
  if bool_decide (take (length y) x = y) then Some 0%nat
  else match x with [] => None | _ :: x => S <$> find_sub y x end.

Fixpoint strip (fuel : nat) (y x : list Z) : list Z :=
  match fuel with
  | O => x
  | S fuel =>
      match find_sub y x with
      | None => x
      | Some k => take k x ++ strip fuel y (drop (k + length y) x)
      end
  end.

Definition remove_all (y x : list Z) : list Z :=
  match y with [] => x | _ => strip (S (length x)) y x end.

Lemma occurs_0 y x : occurs y x 0 <-> take (length y) x = y.
Proof.
  unfold occurs. rewrite drop_0. split.
  - intros (u & -> & _). by rewrite take_app_length.
  - intros H. exists (drop (length y) x). split; [|lia]. rewrite <- H at 1. by rewrite take_drop.
Qed.

Lemma occurs_S y c x k : occurs y (c :: x) (S k) <-> occurs y x k.
Proof. unfold occurs. cbn [drop length]. split; intros (u & E & Hk); exists u; (split; [done|lia]). Qed.

Lemma find_sub_spec y x :
  match find_sub y x with
  | Some k => occurs y x k /\ forall i, (i < k)%nat -> ~ occurs y x i
  | None => forall k, ~ occurs y x k
  end.
Proof.
  induction x as [|c x IH]; cbn [find_sub].
  - case_bool_decide as H; [split; [by apply occurs_0|intros; lia]|].
    intros [|k]; [by rewrite occurs_0|]. intros (u & _ & Hk). cbn in Hk. lia.
  - case_bool_decide as H; [split; [by apply occurs_0|intros; lia]|].
    destruct (find_sub y x) as [k|]; cbn [fmap option_fmap option_map].
    + destruct IH as [H1 H2]. split; [by apply occurs_S|]. intros [|i] Hi; [by rewrite occurs_0|].
      rewrite occurs_S. apply H2. lia.
    + intros [|k]; [by rewrite occurs_0|]. by rewrite occurs_S.
Qed.

Lemma strstr_run fuel m s p x y :
  is_str m s x -> is_str m p y -> 0 < s -> ((length x + 1) * (length y + 1) < fuel)%nat ->
  strstr fuel m s p = Ret (match find_sub y x with Some k => s + Z.of_nat k | None => 0 end).
Proof.
  intros Hx Hy Hs Hf. unfold strstr.
  destruct (strstr_loop_spec fuel m s p x y [] [] x y) as (r & Hr & Hres); try done; [simpl; lia|simpl; intros k Hk; lia|].
  cbn [length Z.of_nat Nat.add] in Hr. rewrite !Z.add_0_r in Hr. rewrite Hr. f_equal.
  pose proof (find_sub_spec y x) as Hsub. destruct (find_sub y x) as [k|].
  - destruct Hsub as [Hk Hmin]. destruct Hres as [[_ Hno]|(k' & -> & Hk' & Hmin')]; [by destruct (Hno k)|].
    assert (k' = k); [|by subst]. destruct (Nat.lt_trichotomy k k') as [|[|]]; [|done|];
      [by destruct (Hmin' k)|by destruct (Hmin k')].
  - destruct Hres as [[-> _]|(k' & -> & Hk' & _)]; [done|by destruct (Hsub k')].
Qed.

Lemma Ret_triple {A} (a : A) (b b' c c' : Z) : b = b' -> c = c' -> Ret (a, b, c) = Ret (a, b', c').
Proof. by intros -> ->. Qed.

Lemma move_until_spec fuel m q p r :
  q < p -> p <= r -> (Z.to_nat (r - p) < fuel)%nat ->
  exists m', move_until fuel m q p r = Ret (m', q + (r - p), r) /\
    (forall a, in_range q (r - p) a -> m' a = m (p + (a - q))) /\
    (forall a, ~ in_range q (r - p) a -> m' a = m a).
Proof.
  revert m q p. induction fuel as [|fuel IH]; intros m q p Hq Hr Hf; [lia|]. cbn [move_until]. unfold in_range in *.
  destruct (Z.ltb_spec p r) as [Hlt|Hge].
  - destruct (IH (store8 m q (m p)) (q + 1) (p + 1)) as (m' & -> & H1 & H2); [lia..|].
    exists m'. split; [f_equal; f_equal; f_equal; lia|]. split; intros a Ha.
    + destruct (decide (a = q)) as [->|].
      * rewrite H2 by lia. rewrite store8_eq. f_equal. lia.
      * rewrite H1 by lia. rewrite store8_ne by lia. f_equal. lia.
    + rewrite H2 by lia. apply store8_ne. lia.
  - replace r with p by lia. exists m. split; [f_equal; f_equal; f_equal; lia|]. split; [intros; lia|done].
Qed.

Lemma move_rest_spec fuel m q p t :
  is_str m p t -> q < p -> (length t < fuel)%nat ->
  exists m', move_rest fuel m q p = Ret m' /\ is_str m' q t /\
    (forall a, ~ in_range q (Z.of_nat (length t) + 1) a -> m' a = m a).
Proof.
  revert m q p fuel. induction t as [|c t IH]; intros m q p [|fuel] Ht Hq Hf; cbn [length] in *; try lia;
    cbn [move_rest is_str] in *; unfold in_range in *.
  - rewrite Ht. cbn [Z.eqb]. eexists. split; [done|]. split; [apply store8_eq|]. intros a Ha. apply store8_ne. lia.
  - destruct Ht as (Hc & Hn & Ht). rewrite Hc. destruct (Z.eqb_spec c 0); [done|].
    destruct (IH (store8 m q c) (q + 1) (p + 1) fuel) as (m' & E & Hs & Hf'); [|lia|lia|].
    { apply (is_str_ext m); [|done]. intros a Ha. apply store8_ne. lia. }
    exists m'. split; [done|]. split; [split; [rewrite Hf' by lia; apply store8_eq|by split]|].
    intros a Ha. rewrite Hf' by lia. apply store8_ne. lia.
Qed.

Lemma occurs_length y x k : occurs y x k -> (k + length y <= length x)%nat.
Proof. intros (u & E & Hk). apply (f_equal length) in E. rewrite length_drop, length_app in E. lia. Qed.

Lemma is_str_drop m p t k : is_str m p t -> (k <= length t)%nat -> is_str m (p + Z.of_nat k) (drop k t).
Proof.
  intros H Hk. rewrite <- (take_drop k t) in H. apply is_str_app in H as [_ H].
  rewrite length_take, Nat.min_l in H by done. done.
Qed.

(** The bytes [l] are at [q]. *)
Definition bytes_at (m : mem) (q : Z) (l : list Z) : Prop :=
  forall i c, l !! i = Some c -> m (q + Z.of_nat i) = c /\ c <> 0.

Lemma strrm_loop_spec fuel n m q r y t sub :
  let p := r + Z.of_nat (length y) in
  is_str m p t -> is_str m sub y -> y <> [] -> 0 < q -> q <= r ->
  sub + Z.of_nat (length y) < q \/ p + Z.of_nat (length t) < sub ->
  ((length t + 1) * (length y + 1) + 1 < fuel)%nat -> (length t < n)%nat ->
  exists l t' m', strrm_loop fuel m q r (Z.of_nat (length y)) sub =
      Ret (m', q + Z.of_nat (length l), p + (Z.of_nat (length t) - Z.of_nat (length t'))) /\
    strip n y t = l ++ t' /\ bytes_at m' q l /\
    (length l + length t' <= length t)%nat /\
    is_str m' (p + (Z.of_nat (length t) - Z.of_nat (length t'))) t' /\
    (forall a, ~ in_range q (Z.of_nat (length l)) a -> m' a = m a).
Proof.
  revert n m q r t. induction fuel as [|fuel IH]; intros n m q r t p Ht Hy Hne Hq0 Hq Hdis Hf Hn; [lia|].
  destruct n as [|n]; [lia|]. cbn [strrm_loop strip]. fold p. rewrite (strstr_run _ m p sub t y) by (done || lia).
  cbn [mbind result_bind]. pose proof (find_sub_spec y t) as Hsub.
  assert (Hly : (0 < length y)%nat) by (destruct y; [done|cbn; lia]).
  destruct (find_sub y t) as [k|].
  - destruct Hsub as [Hk _]. apply occurs_length in Hk as Hlen.
    destruct (Z.eqb_spec (p + Z.of_nat k) 0); [lia|].
    destruct (move_until_spec fuel m q p (p + Z.of_nat k)) as (m1 & E1 & Hin & Hout); [lia|lia| |].
    { replace (Z.to_nat (p + Z.of_nat k - p)) with k by lia. nia. }
    unfold in_range in *. replace (p + Z.of_nat k - p) with (Z.of_nat k) in * by lia.
    rewrite E1. cbn [mbind result_bind].
    assert (Ht2 : is_str m1 (p + Z.of_nat k + Z.of_nat (length y)) (drop (k + length y) t)).
    { replace (p + Z.of_nat k + Z.of_nat (length y)) with (p + Z.of_nat (k + length y)) by lia.
      apply (is_str_ext m); [|apply is_str_drop; [done|lia]]. intros a Ha. rewrite length_drop in Ha. apply Hout. lia. }
    destruct (IH n m1 (q + Z.of_nat k) (p + Z.of_nat k) (drop (k + length y) t) Ht2)
      as (l & t' & m' & E2 & Hst & Hb & Hle & Hs' & Hfr).
    { apply (is_str_ext m); [|done]. intros a Ha. apply Hout. lia. }
    { done. } { lia. } { lia. } { rewrite length_drop. lia. } { rewrite length_drop. nia. } { rewrite length_drop. lia. }
    rewrite length_drop in *. unfold in_range in *. subst p.
    exists (take k t ++ l), t', m'. rewrite E2, Hst, length_app, length_take, Nat.min_l by lia.
    split; [apply Ret_triple; lia|]. split; [by rewrite app_assoc|]. split; [|split; [lia|split]].
    + intros j c Hj. apply lookup_app_Some in Hj as [Hj|[Hge Hj]].
      * apply lookup_take_Some in Hj as [Hj Hjk]. rewrite Hfr by lia. rewrite Hin by lia.
        rewrite <- (app_nil_r t) in Ht. apply is_str_app in Ht as [Ht _].
        destruct (Ht _ _ Hj) as [Hm Hc]. split; [|done]. rewrite <- Hm. apply f_equal. lia.
      * rewrite length_take, Nat.min_l in * by lia. destruct (Hb _ _ Hj) as [Hm Hc]. split; [|done].
        rewrite <- Hm. apply (f_equal m'). lia.
    + match type of Hs' with is_str _ ?b _ => match goal with |- is_str _ ?a _ => replace a with b by lia end end. exact Hs'.
    + intros a Ha. rewrite Hfr by lia. apply Hout. lia.
  - cbn [Z.eqb]. exists [], t, m. cbn [length app]. unfold in_range.
    split; [apply Ret_triple; lia|]. split; [done|]. split; [by intros i c Hi|]. split; [lia|].
    split; [|done]. by replace (p + (Z.of_nat (length t) - Z.of_nat (length t))) with p by lia.
Qed.

Lemma strip_length n y x : (length (strip n y x) <= length x)%nat.
Proof.
  revert x. induction n as [|n IH]; intros x; cbn [strip]; [done|]. pose proof (find_sub_spec y x) as Hs.
  destruct (find_sub y x) as [k|]; [|done]. destruct Hs as [Hk%occurs_length _].
  rewrite length_app, length_take. specialize (IH (drop (k + length y) x)). rewrite length_drop in IH. lia.
Qed.

Lemma remove_all_length y x : (length (remove_all y x) <= length x)%nat.
Proof. unfold remove_all. destruct y; [done|apply strip_length]. Qed.

Lemma strrm_spec fuel m s p x y :
  is_str m s x -> is_str m p y -> 0 < s -> Z.of_nat (length y) < 2 ^ 64 ->
  p + Z.of_nat (length y) < s \/ s + Z.of_nat (length x) < p ->
  ((length x + 1) * (length y + 1) + 1 < fuel)%nat ->
  exists m', strrm fuel m s p = Ret (m', s) /\ is_str m' s (remove_all y x) /\
    (forall a, ~ in_range s (Z.of_nat (length x) + 1) a -> m' a = m a).
Proof.
  intros Hx Hy Hs Hb Hdis Hf.
  unfold strrm, remove_all. destruct y as [|c y]; [cbn [is_str] in Hy; rewrite Hy; by exists m|].
  pose proof Hy as (Hc & Hc0 & _). rewrite Hc. destruct (Z.eqb_spec c 0); [done|]. clear Hc.
  set (w := c :: y) in *. assert (Hly : (0 < length w)%nat) by (cbn; lia).
  rewrite (strstr_run fuel m s p x w) by (done || lia). cbn [mbind result_bind strip].
  pose proof (find_sub_spec w x) as Hsub. destruct (find_sub w x) as [k|]; [|by exists m].
  destruct Hsub as [Hk _]. apply occurs_length in Hk as Hlen. destruct (Z.eqb_spec (s + Z.of_nat k) 0); [lia|].
  rewrite (strlen_spec fuel m p w) by (done || lia). cbn [mbind result_bind].
  assert (Ht : is_str m (s + Z.of_nat k + Z.of_nat (length w)) (drop (k + length w) x)).
  { replace (s + Z.of_nat k + Z.of_nat (length w)) with (s + Z.of_nat (k + length w)) by lia. by apply is_str_drop. }
  destruct (strrm_loop_spec fuel (length x) m (s + Z.of_nat k) (s + Z.of_nat k) w _ p Ht Hy)
    as (l & t' & m1 & -> & Hst & Hbt & Hle & Hs1 & Hfr); rewrite ?length_drop in *; [done|lia|lia|lia|nia|lia|].
  cbn [mbind result_bind].
  match goal with |- context [move_rest _ _ ?q ?p] => destruct (move_rest_spec fuel m1 q p t' Hs1) as (m2 & -> & Hs2 & Hf2) end;
    [lia|nia|].
  cbn [mbind result_bind]. exists m2. split; [done|]. unfold in_range in *. split.
  - rewrite Hst, app_assoc. apply is_str_app. rewrite length_app, length_take, Nat.min_l by lia. split.
    + intros i d Hi. rewrite Hf2 by (apply lookup_lt_Some in Hi; rewrite length_app, length_take in Hi; lia).
      apply lookup_app_Some in Hi as [Hi|[Hge Hi]].
      * apply lookup_take_Some in Hi as [Hi Hik]. rewrite Hfr by lia.
        rewrite <- (app_nil_r x) in Hx. apply is_str_app in Hx as [Hx _]. by apply Hx.
      * rewrite length_take, Nat.min_l in * by lia. destruct (Hbt _ _ Hi) as [Hm Hd]. split; [|done].
        rewrite <- Hm. apply (f_equal m1). lia.
    + by replace (s + Z.of_nat (k + length l)) with (s + Z.of_nat k + Z.of_nat (length l)) by lia.
  - intros a Ha. rewrite Hf2 by lia. apply Hfr. lia.
Qed.

(** [strrm] removes every occurrence of the substring, from the left and
    none overlapping, in place: the result is [remove_all] of the lists, only
    bytes of the string change, and none at all when nothing is removed. *)
Theorem strrm_removes fuel m s p x y
  (Hx : is_str m s x) (Hy : is_str m p y) (Hs : 0 < s) (Hb : Z.of_nat (length y) < 2 ^ 64)
  (Hdis : p + Z.of_nat (length y) < s \/ s + Z.of_nat (length x) < p)
  (Hf : ((length x + 1) * (length y + 1) + 1 < fuel)%nat) :
  (exists m', strrm fuel m s p = Ret (m', s) /\ is_str m' s (remove_all y x) /\
     (forall a, ~ in_range s (Z.of_nat (length x) + 1) a -> m' a = m a)) /\
  ((forall k, ~ occurs y x k) -> strrm fuel m s p = Ret (m, s)).
Proof.
  split; [by apply strrm_spec|]. intros Hno. unfold strrm. destruct (m p =? 0); [done|].
  rewrite (strstr_run fuel m s p x y) by (done || lia). cbn [mbind result_bind].
  pose proof (find_sub_spec y x) as H. destruct (find_sub y x) as [k|]; [|done]. by destruct (Hno k), H.
Qed.

(** ** The properties at a concrete memory *)

(** Two strings at 16 and 32, the rest of the memory filled with [junk]. *)
Definition demo (x y : list Z) (junk : Z) : mem := fun a =>
  match (x ++ [0]) !! Z.to_nat (a - 16), (y ++ [0]) !! Z.to_nat (a - 32) with
  | Some c, _ => if 16 <=? a then c else junk
  | _, Some c => if 32 <=? a then c else junk
  | _, _ => junk
  end.

Lemma strcmp_correct_witness :
  exists r, strcmp 9 (demo [97; 98] [97; 200] 7) 16 32 = Ret r /\ r < 0.
Proof.
  destruct (strcmp_correct 9 (demo [97; 98] [97; 200] 7) 16 32 [97; 98] [97; 200]) as (r & H1 & _ & H2).
  - by repeat split.
  - by repeat split.
  - repeat (apply Forall_cons; split; [lia|]). by apply Forall_nil.
  - simpl. lia.
  - exists r. split; [exact H1|]. apply H2. right. split; [reflexivity|left; lia].
Defined.

(** ["aab"] first occurs in ["aaab"] at position 1. *)
Lemma strstr_first_witness :
  strstr 21 (demo [97; 97; 97; 98] [97; 97; 98] 7) 16 32 = Ret 17.
Proof.
  destruct (strstr_first 21 (demo [97; 97; 97; 98] [97; 97; 98] 7) 16 32 [97; 97; 97; 98] [97; 97; 98])
    as (r & H1 & _).
  - by repeat split.
  - by repeat split.
  - lia.
  - simpl. lia.
  - rewrite H1. rewrite <- H1. reflexivity.
Defined.

(** Removing ["ab"] from ["aabb"] leaves ["ab"]. *)
Lemma strrm_removes_witness :
  exists m', strrm 18 (demo [97; 97; 98; 98] [97; 98] 7) 16 32 = Ret (m', 16) /\ is_str m' 16 [97; 98].
Proof.
  destruct (strrm_removes 18 (demo [97; 97; 98; 98] [97; 98] 7) 16 32 [97; 97; 98; 98] [97; 98])
    as ((m' & E & Hs & _) & _).
  - by repeat split.
  - by repeat split.
  - lia.
  - simpl. lia.
  - right. simpl. lia.
  - simpl. lia.
  - exists m'. split; [exact E|exact Hs].
Defined.

Lemma strcat_unterminated_witness :
  exists m', strcat 9 (demo [97] [98; 99] 7) 16 32 = Ret (m', 16) /\ ~ is_str m' 16 [97; 98; 99].
Proof.
  destruct (strcat_unterminated 9 (demo [97] [98; 99] 7) 16 32 [97] [98; 99])
    as (m' & H1 & _ & _ & H2 & _).
  - by repeat split.
  - by repeat split.
  - lia.
  - simpl. lia.
  - simpl. lia.
  - simpl. lia.
  - left. simpl. lia.
  - exists m'. split; [exact H1|]. intros H. apply H2 in H. discriminate H.
Defined.

End Str.
