(* ===== verification/Printf.v ===== *)
(** * Formatted output: [drivers/display/terminal/printf.c]

    The configuration the kernel builds: no floating point specifiers, [long
    long] supported, a 32-byte conversion buffer.  The output function [out] is
    a parameter, as in the code; it acts on an output state [S].  The format
    and the strings it names are read from a memory [m] that the output does
    not overlap (the C standard leaves overlapping calls undefined).  The
    variable arguments are the list of their 64-bit slots.

    The conversion buffer [buf] with its [len] is the list of its first [len]
    characters; [push] is [buf[len++] = c], a [Fault] beyond the 32 bytes. *)

From S2P Require Import Prelude Mem Str.
#[local] Open Scope Z_scope.
#[local] Open Scope machine_scope.

Module Printf.

(** ** Flags and bases *)

Definition FLAGS_ZEROPAD := Z.shiftl 1 0.
Definition FLAGS_LEFT := Z.shiftl 1 1.
Definition FLAGS_PLUS := Z.shiftl 1 2.
Definition FLAGS_SPACE := Z.shiftl 1 3.
Definition FLAGS_HASH := Z.shiftl 1 4.
Definition FLAGS_UPPERCASE := Z.shiftl 1 5.
Definition FLAGS_CHAR := Z.shiftl 1 6.
Definition FLAGS_SHORT := Z.shiftl 1 7.
Definition FLAGS_LONG := Z.shiftl 1 8.
Definition FLAGS_LONG_LONG := Z.shiftl 1 9.
Definition FLAGS_PRECISION := Z.shiftl 1 10.
Definition FLAGS_POINTER := Z.shiftl 1 12.

Definition BASE_BINARY := 2.
Definition BASE_OCTAL := 8.
Definition BASE_DECIMAL := 10.
Definition BASE_HEX := 16.

Definition PRINT_INTEGER_BUFFER_SIZE : nat := 32.

(** [flags & f] as a condition, [flags |= f] and [flags &= ~f]. *)
Definition has (flags f : Z) : bool := negb (Z.land flags f =? 0).
Definition set_flag (flags f : Z) : Z := Z.lor flags f.
Definition clear_flag (flags f : Z) : Z := Z.land flags (u32 (Z.lnot f)).

Definition ABS_FOR_PRINTING (x : Z) : Z := u64 (if 0 <? x then x else - x).

(** ** Output functions *)

(** [out(character, buffer, idx, maxlen)] on the output state. *)
Definition out_fct_type (S : Type) : Type := Z -> Z -> Z -> Z -> S -> S.

Definition _out_buffer : out_fct_type mem := fun character buffer idx maxlen m =>
  if idx <? maxlen then store8 m (buffer + idx) character else m.

Definition _out_null {S} : out_fct_type S := fun _ _ _ _ s => s.

Definition _out_char {S} (_putchar : Z -> S -> S) : out_fct_type S :=
  fun character _ _ _ s => if character =? 0 then s else _putchar character s.

(** The wrapped function and its argument come in through [buffer]. *)
Definition _out_fct {S A} (fct : Z -> A -> S -> S) (arg : A) : out_fct_type S :=
  fun character _ _ _ s => if character =? 0 then s else fct character arg s.

(** ** Reading the format *)

Fixpoint _strnlen_loop (fuel : nat) (m : mem) (str s maxsize : Z) : result Z :=
  match fuel with
  | O => Diverge
  | S fuel =>
      if m s =? 0 then Ret (u32 (s - str))
      else if maxsize =? 0 then Ret (u32 (s - str))
      else _strnlen_loop fuel m str (s + 1) (maxsize - 1)
  end.

Definition _strnlen_s (fuel : nat) (m : mem) (str maxsize : Z) : result Z :=
  _strnlen_loop fuel m str str maxsize.

Definition _is_digit (ch : Z) : bool := (48 <=? ch) && (ch <=? 57).

(** The value and the advanced pointer. *)
Fixpoint _atoi_loop (fuel : nat) (m : mem) (str i : Z) : result (Z * Z) :=
  match fuel with
  | O => Diverge
  | S fuel =>
      if _is_digit (m str)
      then _atoi_loop fuel m (str + 1) (u32 (u32 (i * 10) + u32 (m str - 48)))
      else Ret (i, str)
  end.

Definition _atoi (fuel : nat) (m : mem) (str : Z) : result (Z * Z) := _atoi_loop fuel m str 0.

Definition va_arg (va : list Z) : result (Z * list Z) :=
  match va with [] => Fault | v :: va => Ret (v, va) end.

(** ['0'], ['-'], ['+'], [' '], ['#']. *)
Definition flag_of (c : Z) : option Z :=
  match c with
  | 48 => Some FLAGS_ZEROPAD
  | 45 => Some FLAGS_LEFT
  | 43 => Some FLAGS_PLUS
  | 32 => Some FLAGS_SPACE
  | 35 => Some FLAGS_HASH
  | _ => None
  end.

Fixpoint parse_flags (fuel : nat) (m : mem) (format flags : Z) : result (Z * Z) :=
  match fuel with
  | O => Diverge
  | S fuel =>
      match flag_of (m format) with
      | Some f => parse_flags fuel m (format + 1) (set_flag flags f)
      | None => Ret (format, flags)
      end
  end.

(** The width field: [(format, flags, width, va)]. *)
Definition parse_width (fuel : nat) (m : mem) (format flags : Z) (va : list Z) :
    result (Z * Z * Z * list Z) :=
  if _is_digit (m format) then
    '(width, format) ← _atoi fuel m format; Ret (format, flags, width, va)
  else if m format =? 42 then
    '(v, va) ← va_arg va;
    let w := s32 v in
    if w <? 0 then Ret (format + 1, set_flag flags FLAGS_LEFT, u32 (- w), va)
    else Ret (format + 1, flags, u32 w, va)
  else Ret (format, flags, 0, va).

(** The precision field: [(format, flags, precision, va)]. *)
Definition parse_precision (fuel : nat) (m : mem) (format flags : Z) (va : list Z) :
    result (Z * Z * Z * list Z) :=
  if m format =? 46 then
    let flags := set_flag flags FLAGS_PRECISION in
    let format := format + 1 in
    if _is_digit (m format) then
      '(precision, format) ← _atoi fuel m format; Ret (format, flags, precision, va)
    else if m format =? 42 then
      '(v, va) ← va_arg va;
      let precision_ := s32 v in
      Ret (format + 1, flags, if 0 <? precision_ then u32 precision_ else 0, va)
    else Ret (format, flags, 0, va)
  else Ret (format, flags, 0, va).

(** The length field; [long], [ptrdiff_t], [intmax_t] and [size_t] all have
    eight bytes. *)
Definition parse_length (m : mem) (format flags : Z) : Z * Z :=
  match m format with
  | 108 =>
      let flags := set_flag flags FLAGS_LONG in
      if m (format + 1) =? 108 then (format + 2, set_flag flags FLAGS_LONG_LONG)
      else (format + 1, flags)
  | 104 =>
      let flags := set_flag flags FLAGS_SHORT in
      if m (format + 1) =? 104 then (format + 2, set_flag flags FLAGS_CHAR)
      else (format + 1, flags)
  | 116 | 106 | 122 => (format + 1, set_flag flags FLAGS_LONG)
  | _ => (format, flags)
  end.

Definition is_integer_specifier (c : Z) : bool :=
  match c with 100 | 105 | 117 | 120 | 88 | 111 | 98 => true | _ => false end.

(** The base and the flags of an integer specifier. *)
Definition integer_format (c flags : Z) : Z * Z :=
  let '(base, flags) :=
    if (c =? 120) || (c =? 88) then (BASE_HEX, flags)
    else if c =? 111 then (BASE_OCTAL, flags)
    else if c =? 98 then (BASE_BINARY, flags)
    else (BASE_DECIMAL, clear_flag flags FLAGS_HASH) in
  let flags := if c =? 88 then set_flag flags FLAGS_UPPERCASE else flags in
  let flags :=
    if negb (c =? 105) && negb (c =? 100)
    then clear_flag flags (Z.lor FLAGS_PLUS FLAGS_SPACE) else flags in
  let flags :=
    if has flags FLAGS_PRECISION then clear_flag flags FLAGS_ZEROPAD else flags in
  (base, flags).

(** The value an integer specifier takes from its argument slot: its absolute
    value and whether it is negative. *)
Definition integer_value (c flags v : Z) : Z * bool :=
  if (c =? 105) || (c =? 100) then
    let value :=
      if has flags FLAGS_LONG_LONG then s64 v
      else if has flags FLAGS_LONG then s64 v
      else if has flags FLAGS_CHAR then s8 v
      else if has flags FLAGS_SHORT then s16 v
      else s32 v in
    (ABS_FOR_PRINTING value, value <? 0)
  else
    let value :=
      if has flags FLAGS_LONG_LONG then u64 v
      else if has flags FLAGS_LONG then u64 v
      else if has flags FLAGS_CHAR then u8 v
      else if has flags FLAGS_SHORT then u16 v
      else u32 v in
    (value, false).

(** ** Converting an integer *)

Definition push (buf : list Z) (c : Z) : result (list Z) :=
  if (length buf <? PRINT_INTEGER_BUFFER_SIZE)%nat then Ret (buf ++ [c]) else Fault.

(** [while ((len < bound) && (len < PRINT_INTEGER_BUFFER_SIZE)) buf[len++] = '0'];
    the fuel is one more than the buffer's size. *)
Fixpoint zero_fill (fuel : nat) (bound : Z) (buf : list Z) : result (list Z) :=
  match fuel with
  | O => Diverge
  | S fuel =>
      if (Z.of_nat (length buf) <? bound) && (length buf <? PRINT_INTEGER_BUFFER_SIZE)%nat then
        buf ← push buf 48; zero_fill fuel bound buf
      else Ret buf
  end.

Definition digit_char (digit flags : Z) : Z :=
  u8 (if digit <? 10 then 48 + digit
      else (if has flags FLAGS_UPPERCASE then 65 else 97) + digit - 10).

(** [do ... while (value && (len < PRINT_INTEGER_BUFFER_SIZE))] *)
Fixpoint digit_loop (fuel : nat) (value base flags : Z) (buf : list Z) : result (list Z) :=
  match fuel with
  | O => Diverge
  | S fuel =>
      buf ← push buf (digit_char (value mod base) flags);
      let value := value / base in
      if negb (value =? 0) && (length buf <? PRINT_INTEGER_BUFFER_SIZE)%nat
      then digit_loop fuel value base flags buf else Ret buf
  end.

(** The handling of [FLAGS_HASH] and [FLAGS_POINTER]. *)
Definition hash_prefix (buf : list Z) (unpadded_len : nat) (base precision width flags : Z) :
    result (list Z) :=
  let len (buf : list Z) := Z.of_nat (length buf) in
  let full (buf : list Z) := negb (length buf <? PRINT_INTEGER_BUFFER_SIZE)%nat in
  let buf :=
    if negb (has flags FLAGS_PRECISION) && negb (len buf =? 0) &&
       ((len buf =? precision) || (len buf =? width)) then
      let buf := if (unpadded_len <? length buf)%nat then removelast buf else buf in
      if negb (len buf =? 0) && (base =? BASE_HEX) then
        if (unpadded_len <? length buf)%nat then removelast buf else buf
      else buf
    else buf in
  buf ←
    (if (base =? BASE_HEX) && negb (has flags FLAGS_UPPERCASE) && negb (full buf) then push buf 120
     else if (base =? BASE_HEX) && has flags FLAGS_UPPERCASE && negb (full buf) then push buf 88
     else if (base =? BASE_BINARY) && negb (full buf) then push buf 98
     else Ret buf);
  if full buf then Ret buf else push buf 48.

Definition sign_prefix (buf : list Z) (negative : bool) (flags : Z) : result (list Z) :=
  if (length buf <? PRINT_INTEGER_BUFFER_SIZE)%nat then
    if negative then push buf 45
    else if has flags FLAGS_PLUS then push buf 43
    else if has flags FLAGS_SPACE then push buf 32
    else Ret buf
  else Ret buf.

(** Leading zeros up to the width, of which a sign takes one; the digits and the
    width. *)
Definition pad_zeros (buf : list Z) (negative : bool) (width flags : Z) : result (list Z * Z) :=
  if has flags FLAGS_LEFT then Ret (buf, width)
  else
    let width :=
      if negb (width =? 0) && has flags FLAGS_ZEROPAD &&
         (negative || has flags (Z.lor FLAGS_PLUS FLAGS_SPACE))
      then width - 1 else width in
    buf ← (if has flags FLAGS_ZEROPAD
           then zero_fill (S PRINT_INTEGER_BUFFER_SIZE) width buf else Ret buf);
    Ret (buf, width).

(** The buffer that [print_integer_finalization] hands to [_out_rev], and the
    width and flags it passes along. *)
Definition finalize (buf : list Z) (negative : bool) (base precision width flags : Z) :
    result (list Z * Z * Z) :=
  let unpadded_len := length buf in
  '(buf, width) ← pad_zeros buf negative width flags;
  buf ← zero_fill (S PRINT_INTEGER_BUFFER_SIZE) precision buf;
  let flags :=
    if (base =? BASE_OCTAL) && (unpadded_len <? length buf)%nat
    then clear_flag flags FLAGS_HASH else flags in
  buf ← (if has flags (Z.lor FLAGS_HASH FLAGS_POINTER)
         then hash_prefix buf unpadded_len base precision width flags else Ret buf);
  buf ← sign_prefix buf negative flags;
  Ret (buf, width, flags).

(** The digits of [print_integer] and the flags it goes on with. *)
Definition integer_digits (value base flags : Z) : result (list Z * Z) :=
  if value =? 0 then
    if negb (has flags FLAGS_PRECISION) then
      buf ← push [] 48; Ret (buf, clear_flag flags FLAGS_HASH)
    else if base =? BASE_HEX then Ret ([], clear_flag flags FLAGS_HASH)
    else Ret ([], flags)
  else
    buf ← digit_loop PRINT_INTEGER_BUFFER_SIZE value base flags []; Ret (buf, flags).

(** ** Output of converted text *)

Section Output.
Context {S : Type} (out : out_fct_type S) (buffer maxlen : Z).

(** The output state and [idx]. *)
Definition io : Type := S * Z.

(** [out(c, buffer, idx++, maxlen)] *)
Definition put (c : Z) (st : io) : io := (out c buffer st.2 maxlen st.1, st.2 +64 1).

Fixpoint puts (l : list Z) (st : io) : io :=
  match l with [] => st | c :: l => puts l (put c st) end.

(** A loop that puts a space while a counter that starts at [from] is below
    [width]. *)
Definition pad (from width : Z) (st : io) : io :=
  Nat.iter (Z.to_nat (width - from)) (put 32) st.

Definition _out_rev (st : io) (buf : list Z) (width flags : Z) : io :=
  let start_idx := st.2 in
  let st :=
    if negb (has flags FLAGS_LEFT) && negb (has flags FLAGS_ZEROPAD)
    then pad (Z.of_nat (length buf)) width st else st in
  let st := puts (rev buf) st in
  if has flags FLAGS_LEFT then pad (st.2 -64 start_idx) width st else st.

Definition print_integer_finalization (st : io) (buf : list Z) (negative : bool)
    (base precision width flags : Z) : result io :=
  '(buf, width, flags) ← finalize buf negative base precision width flags;
  Ret (_out_rev st buf width flags).

Definition print_integer (st : io) (value : Z) (negative : bool)
    (base precision width flags : Z) : result io :=
  '(buf, flags) ← integer_digits value base flags;
  print_integer_finalization st buf negative base precision width flags.

(** The characters of a [%s] argument; [precision] counts only with
    [FLAGS_PRECISION]. *)
Fixpoint put_string (fuel : nat) (m : mem) (p precision flags : Z) (st : io) : result io :=
  match fuel with
  | O => Diverge
  | Datatypes.S fuel =>
      if m p =? 0 then Ret st
      else if negb (has flags FLAGS_PRECISION) then
        put_string fuel m (p + 1) precision flags (put (m p) st)
      else if precision =? 0 then Ret st
      else put_string fuel m (p + 1) (precision - 1) flags (put (m p) st)
  end.

(** ["(null)"] and ["(nil)"], reversed in the source. *)
Definition llun : list Z := [41; 108; 108; 117; 110; 40].
Definition lin : list Z := [41; 108; 105; 110; 40].

Definition case_char (st : io) (v width flags : Z) : io :=
  let st := if has flags FLAGS_LEFT then st else pad 1 width st in
  let st := put (u8 v) st in
  if has flags FLAGS_LEFT then pad 1 width st else st.

Definition case_string (fuel : nat) (m : mem) (st : io) (p precision width flags : Z) : result io :=
  if p =? 0 then Ret (_out_rev st llun width flags)
  else
    l ← _strnlen_s fuel m p (if precision =? 0 then 2 ^ 64 - 1 else precision);
    let l := if has flags FLAGS_PRECISION then (if l <? precision then l else precision) else l in
    let st := if has flags FLAGS_LEFT then st else pad l width st in
    st ← put_string fuel m p precision flags st;
    Ret (if has flags FLAGS_LEFT then pad l width st else st).

Definition case_pointer (st : io) (value precision flags : Z) : result io :=
  let width := 8 * 2 + 2 in
  let flags := set_flag (set_flag flags FLAGS_ZEROPAD) FLAGS_POINTER in
  if value =? 0 then Ret (_out_rev st lin width flags)
  else print_integer st value false BASE_HEX precision width flags.

(** The specifier at [format]; the arguments that are left. *)
Definition specifier (fuel : nat) (m : mem) (st : io) (c precision width flags : Z) (va : list Z) :
    result (io * list Z) :=
  if is_integer_specifier c then
    let '(base, flags) := integer_format c flags in
    '(v, va) ← va_arg va;
    let '(value, negative) := integer_value c flags v in
    st ← print_integer st value negative base precision width flags;
    Ret (st, va)
  else
    match c with
    | 99 => '(v, va) ← va_arg va; Ret (case_char st v width flags, va)
    | 115 =>
        '(p, va) ← va_arg va;
        st ← case_string fuel m st p precision width flags;
        Ret (st, va)
    | 112 =>
        '(v, va) ← va_arg va;
        st ← case_pointer st (u64 v) precision flags;
        Ret (st, va)
    | 37 => Ret (put 37 st, va)
    | _ => Ret (put c st, va)
    end.

(** One conversion, from the character after ['%']: the output state, the rest
    of the format and of the arguments. *)
Definition conversion (fuel : nat) (m : mem) (st : io) (format : Z) (va : list Z) :
    result (io * Z * list Z) :=
  '(format, flags) ← parse_flags fuel m format 0;
  '(format, flags, width, va) ← parse_width fuel m format flags va;
  '(format, flags, precision, va) ← parse_precision fuel m format flags va;
  let '(format, flags) := parse_length m format flags in
  '(st, va) ← specifier fuel m st (m format) precision width flags va;
  Ret (st, format + 1, va).

Fixpoint format_loop (fuel : nat) (m : mem) (st : io) (format : Z) (va : list Z) : result io :=
  match fuel with
  | O => Diverge
  | Datatypes.S fuel =>
      if m format =? 0 then Ret st
      else if negb (m format =? 37) then format_loop fuel m (put (m format) st) (format + 1) va
      else
        '(st, format, va) ← conversion fuel m st (format + 1) va;
        format_loop fuel m st format va
  end.

End Output.

Definition _vsnprintf {S} (fuel : nat) (m : mem) (out : out_fct_type S) (buffer maxlen format : Z)
    (va : list Z) (s : S) : result (S * Z) :=
  let out := if buffer =? 0 then _out_null else out in
  '(s, idx) ← format_loop out buffer maxlen fuel m (s, 0) format va;
  Ret (out 0 buffer (if idx <? maxlen then idx else maxlen -64 1) maxlen s, s32 idx).

(** ** The entry points *)

Section Entry.
Context (fuel : nat).

(** [local] is the address of the one-byte buffer on the stack. *)
Definition vprintf_ {S} (_putchar : Z -> S -> S) (local : Z) (m : mem) (format : Z) (va : list Z)
    (s : S) : result (S * Z) :=
  _vsnprintf fuel m (_out_char _putchar) local (2 ^ 64 - 1) format va s.

Definition printf_ {S} (_putchar : Z -> S -> S) (local : Z) (m : mem) (format : Z) (va : list Z)
    (s : S) : result (S * Z) :=
  _vsnprintf fuel m (_out_char _putchar) local (2 ^ 64 - 1) format va s.

Definition vsnprintf_ (m : mem) (buffer count format : Z) (va : list Z) : result (mem * Z) :=
  _vsnprintf fuel m _out_buffer buffer count format va m.

Definition snprintf_ (m : mem) (buffer count format : Z) (va : list Z) : result (mem * Z) :=
  _vsnprintf fuel m _out_buffer buffer count format va m.

Definition vsprintf_ (m : mem) (buffer format : Z) (va : list Z) : result (mem * Z) :=
  _vsnprintf fuel m _out_buffer buffer (2 ^ 64 - 1) format va m.

Definition sprintf_ (m : mem) (buffer format : Z) (va : list Z) : result (mem * Z) :=
  _vsnprintf fuel m _out_buffer buffer (2 ^ 64 - 1) format va m.

Definition vfctprintf {S A} (out : Z -> A -> S -> S) (arg : A) (local : Z) (m : mem) (format : Z)
    (va : list Z) (s : S) : result (S * Z) :=
  _vsnprintf fuel m (_out_fct out arg) local (2 ^ 64 - 1) format va s.

Definition fctprintf {S A} (out : Z -> A -> S -> S) (arg : A) (local : Z) (m : mem) (format : Z)
    (va : list Z) (s : S) : result (S * Z) :=
  vfctprintf out arg local m format va s.

End Entry.

(** * The text of a conversion

    What is written, without the output function: the reference the theorems
    compare the output of each routine with. *)

Definition spaces (n : Z) : list Z := replicate (Z.to_nat n) 32.

Definition rev_text (buf : list Z) (width flags : Z) : list Z :=
  let fill := spaces (width - Z.of_nat (length buf)) in
  if has flags FLAGS_LEFT then rev buf ++ fill
  else if has flags FLAGS_ZEROPAD then rev buf else fill ++ rev buf.

Definition integer_text (value : Z) (negative : bool) (base precision width flags : Z) :
    result (list Z) :=
  '(buf, flags) ← integer_digits value base flags;
  '(buf, width, flags) ← finalize buf negative base precision width flags;
  Ret (rev_text buf width flags).

Definition char_text (v width flags : Z) : list Z :=
  if has flags FLAGS_LEFT then u8 v :: spaces (width - 1) else spaces (width - 1) ++ [u8 v].

Fixpoint string_chars (fuel : nat) (m : mem) (p precision flags : Z) : result (list Z) :=
  match fuel with
  | O => Diverge
  | S fuel =>
      if m p =? 0 then Ret []
      else if negb (has flags FLAGS_PRECISION) then
        l ← string_chars fuel m (p + 1) precision flags; Ret (m p :: l)
      else if precision =? 0 then Ret []
      else l ← string_chars fuel m (p + 1) (precision - 1) flags; Ret (m p :: l)
  end.

Definition string_text (fuel : nat) (m : mem) (p precision width flags : Z) : result (list Z) :=
  if p =? 0 then Ret (rev_text llun width flags)
  else
    l ← _strnlen_s fuel m p (if precision =? 0 then 2 ^ 64 - 1 else precision);
    let l := if has flags FLAGS_PRECISION then (if l <? precision then l else precision) else l in
    s ← string_chars fuel m p precision flags;
    Ret (if has flags FLAGS_LEFT then s ++ spaces (width - l) else spaces (width - l) ++ s).

Definition pointer_text (value precision flags : Z) : result (list Z) :=
  let width := 8 * 2 + 2 in
  let flags := set_flag (set_flag flags FLAGS_ZEROPAD) FLAGS_POINTER in
  if value =? 0 then Ret (rev_text lin width flags)
  else integer_text value false BASE_HEX precision width flags.

Definition specifier_text (fuel : nat) (m : mem) (c precision width flags : Z) (va : list Z) :
    result (list Z * list Z) :=
  if is_integer_specifier c then
    let '(base, flags) := integer_format c flags in
    '(v, va) ← va_arg va;
    let '(value, negative) := integer_value c flags v in
    l ← integer_text value negative base precision width flags;
    Ret (l, va)
  else
    match c with
    | 99 => '(v, va) ← va_arg va; Ret (char_text v width flags, va)
    | 115 => '(p, va) ← va_arg va; l ← string_text fuel m p precision width flags; Ret (l, va)
    | 112 => '(v, va) ← va_arg va; l ← pointer_text (u64 v) precision flags; Ret (l, va)
    | _ => Ret ([c], va)
    end.

Definition conversion_text (fuel : nat) (m : mem) (format : Z) (va : list Z) :
    result (list Z * Z * list Z) :=
  '(format, flags) ← parse_flags fuel m format 0;
  '(format, flags, width, va) ← parse_width fuel m format flags va;
  '(format, flags, precision, va) ← parse_precision fuel m format flags va;
  let '(format, flags) := parse_length m format flags in
  '(l, va) ← specifier_text fuel m (m format) precision width flags va;
  Ret (l, format + 1, va).

Fixpoint format_text (fuel : nat) (m : mem) (format : Z) (va : list Z) : result (list Z) :=
  match fuel with
  | O => Diverge
  | S fuel =>
      if m format =? 0 then Ret []
      else if negb (m format =? 37) then
        l ← format_text fuel m (format + 1) va; Ret (m format :: l)
      else
        '(l1, format, va) ← conversion_text fuel m (format + 1) va;
        l2 ← format_text fuel m format va; Ret (l1 ++ l2)
  end.

(** ** The 32-byte buffer *)

Definition fits (buf : list Z) : Prop := (length buf <= PRINT_INTEGER_BUFFER_SIZE)%nat.

Lemma push_ok buf c : (length buf < PRINT_INTEGER_BUFFER_SIZE)%nat -> push buf c = Ret (buf ++ [c]).
Proof. intros H. unfold push. by destruct (Nat.ltb_spec (length buf) PRINT_INTEGER_BUFFER_SIZE); [|lia]. Qed.

Lemma fits_snoc buf c : (length buf < PRINT_INTEGER_BUFFER_SIZE)%nat -> fits (buf ++ [c]).
Proof. unfold fits. rewrite length_app. simpl. lia. Qed.

Lemma fits_removelast buf : fits buf -> fits (removelast buf).
Proof. unfold fits. rewrite removelast_firstn_len, length_firstn. lia. Qed.

#[local] Hint Resolve fits_snoc fits_removelast : core.

Lemma zero_fill_spec fuel bound buf :
  fits buf -> (PRINT_INTEGER_BUFFER_SIZE - length buf < fuel)%nat ->
  zero_fill fuel bound buf =
    Ret (buf ++ replicate (Z.to_nat (Z.min bound 32) - length buf) 48).
Proof.
  unfold fits, PRINT_INTEGER_BUFFER_SIZE.
  revert buf. induction fuel as [|fuel IH]; intros buf Hb Hf; [lia|]. cbn [zero_fill].
  unfold PRINT_INTEGER_BUFFER_SIZE at 1.
  destruct (Z.ltb_spec (Z.of_nat (length buf)) bound), (Nat.ltb_spec (length buf) 32); cbn [andb];
    try (replace (Z.to_nat (Z.min bound 32) - length buf)%nat with 0%nat by lia; by rewrite app_nil_r).
  rewrite push_ok by done. cbn [mbind result_bind]. rewrite IH; rewrite ?length_app; [|simpl; lia..].
  rewrite <- app_assoc. do 2 f_equal. simpl.
  by replace (Z.to_nat (Z.min bound 32) - length buf)%nat
    with (S (Z.to_nat (Z.min bound 32) - (length buf + 1)))%nat by lia.
Qed.

Lemma zero_fill_total bound buf :
  fits buf -> exists b, zero_fill (S PRINT_INTEGER_BUFFER_SIZE) bound buf = Ret b /\ fits b /\
    (length buf <= length b)%nat.
Proof.
  intros Hb. eexists. split; [apply zero_fill_spec; [done|unfold PRINT_INTEGER_BUFFER_SIZE; lia]|].
  unfold fits. rewrite length_app, length_replicate. unfold fits, PRINT_INTEGER_BUFFER_SIZE in *. lia.
Qed.

Lemma digit_loop_total fuel value base flags buf :
  (length buf < PRINT_INTEGER_BUFFER_SIZE)%nat ->
  (PRINT_INTEGER_BUFFER_SIZE - length buf <= fuel)%nat ->
  exists b, digit_loop fuel value base flags buf = Ret b /\ fits b.
Proof.
  revert value buf. induction fuel as [|fuel IH]; intros value buf Hb Hf; [lia|]. cbn [digit_loop].
  rewrite push_ok by done. cbn [mbind result_bind].
  destruct (Nat.ltb_spec (length (buf ++ [digit_char (value mod base) flags])) PRINT_INTEGER_BUFFER_SIZE).
  - case_match; [|eauto]. rewrite length_app in *. cbn [length] in *. apply IH; rewrite ?length_app; simpl; lia.
  - rewrite andb_false_r. eauto.
Qed.

Lemma integer_digits_total value base flags :
  exists b f, integer_digits value base flags = Ret (b, f) /\ fits b.
Proof.
  unfold integer_digits, fits, PRINT_INTEGER_BUFFER_SIZE. case_match.
  - case_match; [|case_match]; cbn; eexists _, _; (split; [reflexivity|simpl; lia]).
  - destruct (digit_loop_total 32 value base flags []) as (b & -> & Hb);
      [unfold PRINT_INTEGER_BUFFER_SIZE; simpl; lia..|].
    cbn. eauto.
Qed.

(** A conditional [push] behind its bounds check. *)
Lemma guarded_push (g : bool) buf c :
  fits buf ->
  exists b, (if g && negb (negb (length buf <? PRINT_INTEGER_BUFFER_SIZE)%nat) then push buf c
             else Ret buf) = Ret b /\ fits b.
Proof.
  intros Hb. destruct g; cbn [andb]; [|eauto].
  destruct (Nat.ltb_spec (length buf) PRINT_INTEGER_BUFFER_SIZE); cbn [negb]; [|eauto].
  rewrite push_ok by done. eauto.
Qed.

Lemma hash_prefix_total buf n base precision width flags :
  fits buf -> exists b, hash_prefix buf n base precision width flags = Ret b /\ fits b.
Proof.
  intros Hb. unfold hash_prefix. cbv zeta.
  match goal with |- context [push ?b 120] => assert (Hb' : fits b) by (repeat case_match; auto); revert Hb'; generalize b end.
  clear. intros buf Hb.
  assert (exists b,
    (if (base =? BASE_HEX) && negb (has flags FLAGS_UPPERCASE) && negb (negb (length buf <? PRINT_INTEGER_BUFFER_SIZE)%nat) then push buf 120
     else if (base =? BASE_HEX) && has flags FLAGS_UPPERCASE && negb (negb (length buf <? PRINT_INTEGER_BUFFER_SIZE)%nat) then push buf 88
     else if (base =? BASE_BINARY) && negb (negb (length buf <? PRINT_INTEGER_BUFFER_SIZE)%nat) then push buf 98
     else Ret buf) = Ret b /\ fits b) as (b & -> & Hb').
  { destruct (Nat.ltb_spec (length buf) PRINT_INTEGER_BUFFER_SIZE); rewrite ?andb_false_r; [|eauto].
    repeat case_match; rewrite ?push_ok by done; eauto. }
  cbn [mbind result_bind].
  destruct (Nat.ltb_spec (length b) PRINT_INTEGER_BUFFER_SIZE); cbn [negb]; [rewrite push_ok by done|]; eauto.
Qed.

Lemma sign_prefix_total buf negative flags :
  fits buf -> exists b, sign_prefix buf negative flags = Ret b /\ fits b.
Proof.
  intros Hb. unfold sign_prefix.
  destruct (Nat.ltb_spec (length buf) PRINT_INTEGER_BUFFER_SIZE); [|eauto].
  repeat case_match; rewrite ?push_ok by done; eauto.
Qed.

Lemma finalize_total buf negative base precision width flags :
  fits buf ->
  exists b w f, finalize buf negative base precision width flags = Ret (b, w, f) /\ fits b.
Proof.
  intros Hb. unfold finalize. cbv zeta.
  assert (exists b w, pad_zeros buf negative width flags = Ret (b, w) /\ fits b) as (b1 & w1 & -> & Hb1).
  { unfold pad_zeros. destruct (has flags FLAGS_LEFT); [eauto|]. destruct (has flags FLAGS_ZEROPAD); [|cbn; eauto].
    match goal with |- context [zero_fill _ ?w _] => destruct (zero_fill_total w buf Hb) as (b & -> & ? & _) end.
    cbn. eauto. }
  cbn [mbind result_bind]. destruct (zero_fill_total precision b1 Hb1) as (b2 & -> & Hb2 & _).
  cbn [mbind result_bind].
  match goal with |- context [?x ≫= _] => assert (exists b, x = Ret b /\ fits b) as (b3 & -> & Hb3) end.
  { case_match; [by apply hash_prefix_total|eauto]. }
  cbn [mbind result_bind].
  match goal with |- context [sign_prefix b3 negative ?f] =>
    destruct (sign_prefix_total b3 negative f Hb3) as (b4 & -> & Hb4) end.
  cbn. eauto.
Qed.

(** ** Each routine writes its text *)

Section Refines.
Context {S : Type} (out : out_fct_type S) (buffer maxlen : Z).

#[local] Abbreviation put := (put out buffer maxlen).
#[local] Abbreviation puts := (puts out buffer maxlen).

Lemma puts_app l1 l2 st : puts (l1 ++ l2) st = puts l2 (puts l1 st).
Proof. revert st. induction l1; simpl; auto. Qed.

Lemma puts_idx l st : l <> [] -> (puts l st).2 = u64 (st.2 + Z.of_nat (length l)).
Proof.
  revert st. induction l as [|c l IH]; [done|]. intros st _. cbn [Printf.puts length].
  destruct l as [|d l]; [done|]. rewrite IH by done. cbn [Printf.put snd].
  autorewrite with wrap. f_equal. lia.
Qed.

Lemma pad_puts from width st : pad out buffer maxlen from width st = puts (spaces (width - from)) st.
Proof.
  unfold pad, spaces. generalize (Z.to_nat (width - from)) as n. intros n. revert st.
  induction n as [|n IH]; intros st; [done|]. rewrite Nat.iter_succ_r. apply IH.
Qed.

Lemma out_rev_puts st buf width flags :
  Z.of_nat (length buf) < 2 ^ 64 ->
  _out_rev out buffer maxlen st buf width flags = puts (rev_text buf width flags) st.
Proof.
  intros Hb. unfold _out_rev, rev_text. destruct (has flags FLAGS_LEFT); cbn [negb andb].
  - rewrite pad_puts, puts_app. f_equal. f_equal. f_equal.
    destruct buf as [|c buf]; [simpl; by rewrite Z.sub_diag|].
    rewrite puts_idx by (intros H; apply (f_equal length) in H; rewrite length_rev in H; done).
    rewrite wrap_sub_l, length_rev. rewrite wrap_small by lia. lia.
  - destruct (has flags FLAGS_ZEROPAD); cbn [negb andb]; [done|]. by rewrite pad_puts, puts_app.
Qed.

Lemma print_integer_puts st value negative base precision width flags :
  exists l, integer_text value negative base precision width flags = Ret l /\
    print_integer out buffer maxlen st value negative base precision width flags = Ret (puts l st).
Proof.
  unfold integer_text, print_integer, print_integer_finalization.
  destruct (integer_digits_total value base flags) as (b & f & -> & Hb). cbn [mbind result_bind].
  destruct (finalize_total b negative base precision width f Hb) as (b' & w & f' & -> & Hb').
  cbn [mbind result_bind]. eexists. split; [done|]. f_equal. apply out_rev_puts.
  unfold fits, PRINT_INTEGER_BUFFER_SIZE in Hb'. lia.
Qed.

Lemma put_string_puts fuel m p precision flags st :
  put_string out buffer maxlen fuel m p precision flags st =
    l ← string_chars fuel m p precision flags; Ret (puts l st).
Proof.
  revert p precision st. induction fuel as [|fuel IH]; intros p precision st; [done|].
  cbn [put_string string_chars].
  repeat (case_match; try done); rewrite IH; by destruct (string_chars _ _ _ _ _).
Qed.

Lemma case_string_puts fuel m st p precision width flags :
  case_string out buffer maxlen fuel m st p precision width flags =
    l ← string_text fuel m p precision width flags; Ret (puts l st).
Proof.
  unfold case_string, string_text. destruct (p =? 0).
  { cbn [mbind result_bind]. f_equal. by apply out_rev_puts. }
  destruct (_strnlen_s _ _ _ _) as [l| |]; cbn [mbind result_bind]; [|done..].
  rewrite put_string_puts. destruct (string_chars _ _ _ _ _); cbn [mbind result_bind]; [|done..].
  rewrite !pad_puts. destruct (has flags FLAGS_LEFT); by rewrite ?puts_app.
Qed.

Lemma case_char_puts st v width flags :
  case_char out buffer maxlen st v width flags = puts (char_text v width flags) st.
Proof.
  unfold case_char, char_text. rewrite !pad_puts. destruct (has flags FLAGS_LEFT); [done|].
  by rewrite puts_app.
Qed.

Lemma case_pointer_puts st v precision flags :
  case_pointer out buffer maxlen st v precision flags =
    l ← pointer_text v precision flags; Ret (puts l st).
Proof.
  unfold case_pointer, pointer_text. destruct (v =? 0).
  { cbn [mbind result_bind]. f_equal. by apply out_rev_puts. }
  edestruct (print_integer_puts st) as (l & -> & ->). done.
Qed.

Lemma specifier_puts fuel m st c precision width flags va :
  specifier out buffer maxlen fuel m st c precision width flags va =
    '(l, va) ← specifier_text fuel m c precision width flags va; Ret (puts l st, va).
Proof.
  unfold specifier, specifier_text. destruct (is_integer_specifier c).
  { destruct (integer_format c flags) as [base f]. destruct va as [|v va]; [done|]. cbn [va_arg mbind result_bind].
    destruct (integer_value c f v) as [value negative].
    edestruct (print_integer_puts st) as (l & -> & ->). done. }
  destruct (decide (c = 99)) as [->|]; [|destruct (decide (c = 115)) as [->|]; [|destruct (decide (c = 112)) as [->|]]].
  - destruct va as [|v va]; [done|]. cbn [va_arg mbind result_bind]. by rewrite case_char_puts.
  - destruct va as [|v va]; [done|]. cbn [va_arg mbind result_bind]. rewrite case_string_puts.
    by destruct (string_text _ _ _ _ _ _).
  - destruct va as [|v va]; [done|]. cbn [va_arg mbind result_bind]. rewrite case_pointer_puts.
    by destruct (pointer_text _ _ _).
  - repeat case_match; done.
Qed.

Lemma conversion_puts fuel m st format va :
  conversion out buffer maxlen fuel m st format va =
    '(l, format, va) ← conversion_text fuel m format va; Ret (puts l st, format, va).
Proof.
  unfold conversion, conversion_text.
  destruct (parse_flags _ _ _ _) as [[f1 fl1]| |]; cbn [mbind result_bind]; [|done..].
  destruct (parse_width _ _ _ _ _) as [[[[f2 fl2] w] va2]| |]; cbn [mbind result_bind]; [|done..].
  destruct (parse_precision _ _ _ _ _) as [[[[f3 fl3] pr] va3]| |]; cbn [mbind result_bind]; [|done..].
  destruct (parse_length _ _ _) as [f4 fl4]. rewrite specifier_puts.
  by destruct (specifier_text _ _ _ _ _ _ _) as [[]| |].
Qed.

Lemma format_loop_puts fuel m st format va :
  format_loop out buffer maxlen fuel m st format va =
    l ← format_text fuel m format va; Ret (puts l st).
Proof.
  revert st format va. induction fuel as [|fuel IH]; intros st format va; [done|].
  cbn [format_loop format_text]. destruct (m format =? 0); [done|].
  destruct (m format =? 37); cbn [negb].
  - rewrite conversion_puts. destruct (conversion_text _ _ _ _) as [[[l1 f] va']| |]; cbn [mbind result_bind]; [|done..].
    rewrite IH. destruct (format_text _ _ _ _); cbn [mbind result_bind]; [|done..]. by rewrite puts_app.
  - rewrite IH. by destruct (format_text _ _ _ _).
Qed.

Lemma puts_idx_0 l s : (puts l (s, 0)).2 = u64 (Z.of_nat (length l)).
Proof. destruct l; [done|]. by rewrite puts_idx. Qed.

End Refines.

(** [_vsnprintf] in terms of its text. *)
Lemma vsnprintf_text {S} fuel m (out : out_fct_type S) buffer maxlen format va s l :
  buffer <> 0 -> format_text fuel m format va = Ret l -> Z.of_nat (length l) < 2 ^ 31 ->
  _vsnprintf fuel m out buffer maxlen format va s =
    let n := Z.of_nat (length l) in
    Ret (out 0 buffer (if n <? maxlen then n else maxlen -64 1) maxlen
           (puts out buffer maxlen l (s, 0)).1, n).
Proof.
  intros Hb Hl Hn. unfold _vsnprintf. destruct (Z.eqb_spec buffer 0); [done|].
  rewrite format_loop_puts, Hl. cbn [mbind result_bind].
  pose proof (puts_idx_0 out buffer maxlen l s) as Hi.
  destruct (puts out buffer maxlen l (s, 0)) as [s' i]. cbn [snd fst] in *. subst i.
  cbv zeta. rewrite !(wrap_small 64 (Z.of_nat _)) by lia. do 2 f_equal.
  by apply swrap_small; lia.
Qed.

Lemma puts_buffer buffer maxlen l m i a :
  0 <= i -> i + Z.of_nat (length l) < 2 ^ 64 ->
  (puts _out_buffer buffer maxlen l (m, i)).1 a =
    if decide (in_range (buffer + i) (Z.min (Z.of_nat (length l)) (maxlen - i)) a)
    then l !!! Z.to_nat (a - buffer - i) else m a.
Proof.
  unfold in_range. revert m i. induction l as [|c l IH]; intros m i Hi Hl; cbn [puts length] in *.
  { case_decide; [lia|done]. }
  unfold put at 1. cbn [fst snd]. rewrite wrap_small, IH by lia.
  unfold _out_buffer, store8.
  case_decide; case_decide; try lia.
  - by replace (Z.to_nat (a - buffer - i)) with (S (Z.to_nat (a - buffer - (i + 1)))) by lia.
  - destruct (Z.ltb_spec i maxlen); [|lia]. destruct (Z.eqb_spec a (buffer + i)); [|lia].
    by replace (Z.to_nat (a - buffer - i)) with 0%nat by lia.
  - destruct (Z.ltb_spec i maxlen); [|done]. destruct (Z.eqb_spec a (buffer + i)); [lia|done].
Qed.

(** ** The digits of an integer *)

(** The value of a digit character, of either case. *)
Definition char_digit (c : Z) : Z :=
  if c <? 58 then c - 48 else if c <? 91 then c - 55 else c - 87.

(** The number a digit string denotes, most significant digit first. *)
Definition digits_value (base : Z) (l : list Z) : Z :=
  fold_left (fun acc c => acc * base + char_digit c) l 0.

Lemma digits_value_snoc base l c :
  digits_value base (l ++ [c]) = digits_value base l * base + char_digit c.
Proof. unfold digits_value. by rewrite fold_left_app. Qed.

Lemma digits_value_zeros base n l : digits_value base (replicate n 48 ++ l) = digits_value base l.
Proof.
  unfold digits_value. rewrite fold_left_app. f_equal. induction n as [|n IH]; [done|].
  rewrite replicate_S_end, fold_left_app, IH. done.
Qed.

Lemma char_digit_char d flags : 0 <= d < 16 -> char_digit (digit_char d flags) = d.
Proof.
  intros H. unfold digit_char, char_digit.
  destruct (Z.ltb_spec d 10), (has flags FLAGS_UPPERCASE); rewrite wrap_small by lia; repeat case_Zb; lia.
Qed.

Lemma digit_char_nonzero d flags : 0 < d < 16 -> digit_char d flags <> 48.
Proof. intros H Hc. pose proof (char_digit_char d flags) as Hd. rewrite Hc in Hd. cbn in Hd. lia. Qed.

(** The digit loop appends the digits of the value, least significant first,
    as far as the buffer goes. *)
Lemma digit_loop_spec fuel value base flags buf k :
  2 <= base <= 16 -> 0 < value < base ^ Z.of_nat k ->
  (length buf + k <= PRINT_INTEGER_BUFFER_SIZE)%nat -> (k <= fuel)%nat ->
  exists ds, digit_loop fuel value base flags buf = Ret (buf ++ ds) /\
    digits_value base (rev ds) = value /\ (1 <= length ds <= k)%nat /\ head (rev ds) <> Some 48.
Proof.
  intros Hb. revert value buf k. induction fuel as [|fuel IH]; intros value buf k Hv Hk Hf.
  { replace k with 0%nat in Hv by lia. simpl in Hv. lia. }
  destruct k as [|k]; [simpl in Hv; lia|]. cbn [digit_loop]. rewrite push_ok by lia. cbn [mbind result_bind].
  pose proof (Z.div_mod value base). pose proof (Z.mod_pos_bound value base).
  rewrite Nat2Z.inj_succ, Z.pow_succ_r in Hv by lia.
  assert (0 <= value / base < base ^ Z.of_nat k)
    by (split; [apply Z.div_pos; lia|apply Z.div_lt_upper_bound; lia]).
  destruct (Z.eqb_spec (value / base) 0) as [Hz|Hz]; cbn [negb andb].
  - exists [digit_char (value mod base) flags]. split; [done|]. cbn [rev app digits_value fold_left length head].
    unfold digits_value. cbn [fold_left]. rewrite char_digit_char by lia. split; [lia|]. split; [lia|].
    intros [= Hc]. revert Hc. apply digit_char_nonzero. lia.
  - assert (k <> 0%nat) by (intros ->; simpl in *; lia).
    destruct (Nat.ltb_spec (length (buf ++ [digit_char (value mod base) flags])) PRINT_INTEGER_BUFFER_SIZE) as [_|Hl];
      [|rewrite length_app in Hl; simpl in Hl; lia].
    destruct (IH (value / base) (buf ++ [digit_char (value mod base) flags]) k) as (ds & -> & Hds & Hlen & Hh);
      [lia|rewrite length_app; simpl; lia|lia|].
    exists (digit_char (value mod base) flags :: ds). split; [by rewrite <- app_assoc|]. cbn [rev length].
    rewrite digits_value_snoc, Hds, char_digit_char by lia. split; [lia|]. split; [lia|].
    destruct (rev ds) eqn:E; [apply (f_equal length) in E; rewrite length_rev in E; simpl in E; lia|done].
Qed.

(** What goes in front of the digits. *)
Definition sign_text (negative : bool) (flags : Z) : list Z :=
  if negative then [45] else if has flags FLAGS_PLUS then [43]
  else if has flags FLAGS_SPACE then [32] else [].

Lemma has_clear flags f g :
  Z.land (u32 (Z.lnot f)) g = g -> has (clear_flag flags f) g = has flags g.
Proof. intros H. unfold has, clear_flag. by rewrite <- Z.land_assoc, H. Qed.

Lemma has_lor flags f g : has flags (Z.lor f g) = has flags f || has flags g.
Proof.
  unfold has. rewrite Z.land_lor_distr_r, <- negb_andb. f_equal. apply eq_true_iff_eq.
  rewrite andb_true_iff, !Z.eqb_eq. apply Z.lor_eq_0_iff.
Qed.

(** [f] has the flags of [flags] as far as the output of an integer goes. *)
Definition same_layout (f flags : Z) : Prop :=
  Forall (fun g => has f g = has flags g)
    [FLAGS_LEFT; FLAGS_ZEROPAD; FLAGS_PLUS; FLAGS_SPACE; FLAGS_POINTER].

Lemma same_layout_clear flags : same_layout (clear_flag flags FLAGS_HASH) flags.
Proof. unfold same_layout. repeat (apply Forall_cons; split; [by apply has_clear|]). by apply Forall_nil. Qed.

Lemma same_layout_sign f flags negative : same_layout f flags -> sign_text negative f = sign_text negative flags.
Proof.
  intros H. unfold same_layout in H. rewrite !Forall_cons in H. destruct H as (_ & _ & Hp & Hs & _).
  unfold sign_text. by rewrite Hp, Hs.
Qed.

Lemma clear_hash_off flags : has flags FLAGS_HASH = false -> has (clear_flag flags FLAGS_HASH) FLAGS_HASH = false.
Proof.
  unfold has, clear_flag. rewrite <- Z.land_assoc. by change (Z.land (u32 (Z.lnot FLAGS_HASH)) FLAGS_HASH) with 0; rewrite Z.land_0_r.
Qed.

Lemma sign_prefix_spec buf negative flags :
  (length buf + length (sign_text negative flags) <= 32)%nat ->
  sign_prefix buf negative flags = Ret (buf ++ sign_text negative flags).
Proof.
  unfold sign_prefix, sign_text. intros H.
  destruct (Nat.ltb_spec (length buf) PRINT_INTEGER_BUFFER_SIZE) as [Hl|Hl]; unfold PRINT_INTEGER_BUFFER_SIZE in *.
  - repeat case_match; rewrite ?push_ok by done; by rewrite ?app_nil_r.
  - repeat case_match; simpl in H; try lia. by rewrite app_nil_r.
Qed.

(** The width that is left for the digits. *)
Definition inner_width (negative : bool) (width flags : Z) : Z :=
  if negb (has flags FLAGS_LEFT) && has flags FLAGS_ZEROPAD
  then Z.max 0 (width - Z.of_nat (length (sign_text negative flags))) else 0.

Lemma pad_zeros_spec buf negative width flags :
  (length buf <= 31)%nat -> 0 <= width <= 32 ->
  exists w, pad_zeros buf negative width flags =
    Ret (buf ++ replicate (Z.to_nat (inner_width negative width flags) - length buf) 48, w) /\
    (negb (has flags FLAGS_LEFT) && has flags FLAGS_ZEROPAD = false -> w = width).
Proof.
  intros Hb Hw. unfold pad_zeros, inner_width.
  destruct (has flags FLAGS_LEFT); cbn [negb andb]; [exists width; by rewrite app_nil_r|].
  destruct (has flags FLAGS_ZEROPAD); cbn [negb andb mbind result_bind].
  2: { exists width. rewrite app_nil_r, andb_false_r. done. }
  rewrite zero_fill_spec by (unfold fits, PRINT_INTEGER_BUFFER_SIZE; lia). cbn [mbind result_bind].
  match goal with |- context [Ret (_, ?w) = Ret _] => exists w end. split; [|done].
  f_equal. f_equal. f_equal. f_equal. unfold sign_text. rewrite has_lor.
  destruct (Z.eqb_spec width 0), negative, (has flags FLAGS_PLUS), (has flags FLAGS_SPACE); cbn; lia.
Qed.

Lemma finalize_spec buf negative base precision width flags :
  has flags FLAGS_HASH = false -> has flags FLAGS_POINTER = false ->
  (length buf <= 31)%nat -> 0 <= precision < 32 -> 0 <= width <= 32 ->
  exists f w, same_layout f flags /\
    (negb (has flags FLAGS_LEFT) && has flags FLAGS_ZEROPAD = false -> w = width) /\
    finalize buf negative base precision width flags =
      Ret (buf ++ replicate (Z.to_nat (Z.max (inner_width negative width flags) precision) - length buf) 48
             ++ sign_text negative flags, w, f).
Proof.
  intros Hh Hp Hb Hpr Hw. unfold finalize. cbv zeta.
  destruct (pad_zeros_spec buf negative width flags) as (w & -> & Hwidth); [done..|]. cbn [mbind result_bind].
  assert (Hi : inner_width negative width flags + Z.of_nat (length (sign_text negative flags)) <= 32).
  { unfold inner_width, sign_text. case_match; repeat case_match; cbn [length]; lia. }
  set (i := inner_width negative width flags) in *.
  rewrite zero_fill_spec
    by (unfold fits, PRINT_INTEGER_BUFFER_SIZE; rewrite length_app, length_replicate; lia).
  cbn [mbind result_bind]. rewrite <- app_assoc, <- replicate_add, !length_app, !length_replicate.
  replace (Z.to_nat i - length buf + (Z.to_nat (Z.min precision 32) - (length buf + (Z.to_nat i - length buf))))%nat
    with (Z.to_nat (Z.max i precision) - length buf)%nat by lia.
  match goal with |- context [has ?f (Z.lor FLAGS_HASH FLAGS_POINTER)] => set (f' := f) end.
  assert (Hf : same_layout f' flags /\ has f' (Z.lor FLAGS_HASH FLAGS_POINTER) = false).
  { unfold f'. case_match.
    - split; [apply same_layout_clear|]. by rewrite has_lor, clear_hash_off, has_clear.
    - split; [unfold same_layout; repeat constructor|]. by rewrite has_lor, Hh, Hp. }
  destruct Hf as [Hf ->]. cbn [mbind result_bind]. rewrite sign_prefix_spec.
  - cbn [mbind result_bind]. exists f', w. split; [done|]. split; [done|].
    rewrite (same_layout_sign f' flags) by done.
    by rewrite <- app_assoc.
  - rewrite (same_layout_sign f' flags), length_app, length_replicate by done.
    assert (length (sign_text negative flags) <= 1)%nat by (unfold sign_text; repeat case_match; simpl; lia). lia.
Qed.

Lemma integer_digits_spec value base flags :
  has flags FLAGS_HASH = false -> 2 <= base <= 16 -> 0 <= value < base ^ 31 ->
  exists ds f, integer_digits value base flags = Ret (rev ds, f) /\
    has f FLAGS_HASH = false /\ same_layout f flags /\
    digits_value base ds = value /\ (length ds <= 31)%nat /\ (value <> 0 -> head ds <> Some 48) /\
    (forall k, (0 < k)%nat -> value < base ^ Z.of_nat k -> (length ds <= k)%nat).
Proof.
  intros Hh Hb Hv. unfold integer_digits. destruct (Z.eqb_spec value 0) as [->|Hv0].
  - repeat case_match.
    + exists [48], (clear_flag flags FLAGS_HASH). split_and!; [done|by apply clear_hash_off|apply same_layout_clear|done|simpl; lia|done|simpl; lia].
    + exists [], (clear_flag flags FLAGS_HASH). split_and!; [done|by apply clear_hash_off|apply same_layout_clear|done|simpl; lia|done|simpl; lia].
    + exists [], flags. split_and!; [done..|unfold same_layout; by repeat constructor|done|simpl; lia|done|simpl; lia].
  - destruct (digit_loop_spec PRINT_INTEGER_BUFFER_SIZE value base flags [] 31) as (ds & Hd & Hds & Hlen & Hhd);
      [lia|lia|unfold PRINT_INTEGER_BUFFER_SIZE; simpl; lia..|].
    exists (rev ds), flags. rewrite Hd. cbn [mbind result_bind app]. rewrite rev_involutive, length_rev.
    split_and!; [done..|unfold same_layout; by repeat constructor|done|lia|done|].
    intros k Hk Hvk. destruct (decide (k <= 31)%nat); [|lia].
    destruct (digit_loop_spec PRINT_INTEGER_BUFFER_SIZE value base flags [] k) as (ds' & Hd' & _ & Hl' & _);
      [lia|lia|unfold PRINT_INTEGER_BUFFER_SIZE; simpl; lia..|].
    rewrite Hd in Hd'. injection Hd' as ->. lia.
Qed.

Lemma rev_replicate {A} n (x : A) : rev (replicate n x) = replicate n x.
Proof. rewrite rev_alt. apply reverse_replicate. Qed.

(** The text of an integer that fits its buffer. *)
Lemma integer_text_spec value negative base precision width flags
    (Hh : has flags FLAGS_HASH = false) (Hp : has flags FLAGS_POINTER = false)
    (Hb : 2 <= base <= 16) (Hv : 0 <= value < base ^ 31)
    (Hpr : 0 <= precision < 32) (Hw : 0 <= width <= 32) :
  exists left zeros ds right,
    let text := spaces left ++ sign_text negative flags ++ replicate zeros 48 ++ ds ++ spaces right in
    integer_text value negative base precision width flags = Ret text /\
    digits_value base (replicate zeros 48 ++ ds) = value /\ (value <> 0 -> head ds <> Some 48) /\
    Z.of_nat (length text)
      = Z.max width (Z.of_nat (length (sign_text negative flags)) + Z.max precision (Z.of_nat (length ds))) /\
    (forall k, (0 < k)%nat -> value < base ^ Z.of_nat k -> (length ds <= k)%nat) /\
    (has flags FLAGS_LEFT = true \/ has flags FLAGS_ZEROPAD = false ->
     zeros = (Z.to_nat precision - length ds)%nat) /\
    (has flags FLAGS_LEFT = true -> left = 0) /\ (has flags FLAGS_LEFT = false -> right = 0) /\
    (has flags FLAGS_ZEROPAD = true -> left = 0).
Proof.
  destruct (integer_digits_spec value base flags Hh Hb Hv) as (ds & f & Hd & Hfh & Hfl & Hval & Hlen & Hhd & Hmin).
  pose proof Hfl as Hfl'. unfold same_layout in Hfl'. rewrite !Forall_cons in Hfl'.
  destruct Hfl' as (HL & HZ & _ & _ & HP & _).
  destruct (finalize_spec (rev ds) negative base precision width f) as (f' & w & Hf'l & Hwidth & Hfin);
    [done|by rewrite HP|by rewrite length_rev|done..|].
  rewrite length_rev, (same_layout_sign f flags) in Hfin by done. unfold inner_width in Hfin.
  rewrite (same_layout_sign f flags), HL, HZ in Hfin by done. rewrite HL, HZ in Hwidth.
  unfold same_layout in Hf'l. rewrite !Forall_cons, HL, HZ in Hf'l. destruct Hf'l as (HL' & HZ' & _).
  unfold integer_text. rewrite Hd. cbn [mbind result_bind]. rewrite Hfin.
  cbn [mbind result_bind].
  set (z := (_ - length ds)%nat) in *. set (sg := sign_text negative flags) in *.
  assert (Hsg : (length sg <= 1)%nat) by (unfold sg, sign_text; repeat case_match; simpl; lia).
  assert (Hrev : rev (rev ds ++ replicate z 48 ++ sg) = sg ++ replicate z 48 ++ ds).
  { rewrite !rev_app_distr, rev_involutive, rev_replicate, <- app_assoc. f_equal.
    unfold sg, sign_text. by repeat case_match. }
  assert (Hn : length (rev ds ++ replicate z 48 ++ sg) = (length ds + z + length sg)%nat)
    by (rewrite !length_app, length_rev, length_replicate; lia).
  assert (Hz : (z <= 32)%nat) by (unfold z; case_match; lia).
  unfold rev_text. rewrite Hn, HL', HZ', Hrev.
  destruct (has flags FLAGS_LEFT) eqn:EL; [|destruct (has flags FLAGS_ZEROPAD) eqn:EZ].
  all: cbn [negb andb] in *; try rewrite (Hwidth eq_refl).
  - exists 0, z, ds, (width - Z.of_nat (length ds + z + length sg)).
    cbn zeta. rewrite <- !app_assoc. split_and!; [done|by rewrite digits_value_zeros|done| |done|subst z; intros []; done || lia|done..].
    unfold spaces. rewrite !length_app, !length_replicate. subst z. lia.
  - exists 0, z, ds, 0. rewrite app_nil_r. split_and!; [done|by rewrite digits_value_zeros|done| |done|subst z; intros []; done || lia|done..].
    unfold spaces. rewrite !length_app, !length_replicate. subst z. simpl. lia.
  - exists (width - Z.of_nat (length ds + z + length sg)), z, ds, 0.
    rewrite app_nil_r. split_and!; [done|by rewrite digits_value_zeros|done| |done|subst z; intros []; done || lia|done..].
    unfold spaces. rewrite !length_app, !length_replicate. subst z. lia.
Qed.

(** * Properties *)

(** ** A number's text has no NUL *)

Definition no_nul (l : list Z) : Prop := Forall (fun c => c <> 0) l.

Lemma push_no_nul buf c buf' : push buf c = Ret buf' -> c <> 0 -> no_nul buf -> no_nul buf'.
Proof.
  unfold push, no_nul. destruct (_ <? _)%nat; [|done]. intros [= <-] Hc Hb. apply Forall_app. by repeat constructor.
Qed.

Lemma zero_fill_no_nul fuel bound buf buf' : zero_fill fuel bound buf = Ret buf' -> no_nul buf -> no_nul buf'.
Proof.
  revert buf. induction fuel as [|fuel IH]; intros buf H Hb; [done|]. cbn [zero_fill] in H. destruct (_ && _); [|by injection H as <-].
  inv_ret. eapply IH; [done|]. by eapply push_no_nul.
Qed.

Lemma digit_loop_no_nul fuel value base flags buf buf' : 2 <= base <= 16 ->
  digit_loop fuel value base flags buf = Ret buf' -> no_nul buf -> no_nul buf'.
Proof.
  intros Hbase. revert value buf. induction fuel as [|fuel IH]; intros value buf H Hb; [done|]. cbn [digit_loop] in H.
  apply bind_Ret in H as (b & Hp & H). assert (no_nul b).
  { eapply push_no_nul; [done| |done]. pose proof (Z.mod_pos_bound value base ltac:(lia)). unfold digit_char.
    rewrite wrap_small; repeat case_match; lia. }
  destruct (negb _ && _); [by eapply IH|by injection H as <-].
Qed.

Lemma removelast_no_nul buf : no_nul buf -> no_nul (removelast buf).
Proof.
  intros H. destruct (decide (buf = [])) as [->|Hn]; [done|]. rewrite (app_removelast_last 0 Hn) in H.
  by apply Forall_app in H as [H _].
Qed.

Lemma hash_prefix_no_nul buf n base precision width flags buf' :
  hash_prefix buf n base precision width flags = Ret buf' -> no_nul buf -> no_nul buf'.
Proof.
  unfold hash_prefix. intros H Hb. set (b1 := if negb (has flags FLAGS_PRECISION) && _ && _ then _ else buf) in H.
  assert (Hb1 : no_nul b1) by (unfold b1; repeat case_match; auto using removelast_no_nul).
  clearbody b1. apply bind_Ret in H as (b2 & H2 & H).
  assert (Hb2 : no_nul b2).
  { repeat case_match; try (by injection H2 as <-); by eapply push_no_nul. }
  case_match; [by injection H as <-|by eapply push_no_nul].
Qed.

Lemma sign_prefix_no_nul buf negative flags buf' : sign_prefix buf negative flags = Ret buf' -> no_nul buf -> no_nul buf'.
Proof.
  unfold sign_prefix. intros H Hb. repeat case_match; try (by injection H as <-); by eapply push_no_nul.
Qed.

Lemma integer_text_no_nul value negative base precision width flags l : 2 <= base <= 16 ->
  integer_text value negative base precision width flags = Ret l -> no_nul l.
Proof.
  intros Hbase H. unfold integer_text in H. apply bind_Ret in H as ([buf fl] & Hd & H).
  apply bind_Ret in H as ([[buf' w] fl'] & Hf & [= <-]).
  assert (Hnil : no_nul []) by constructor. assert (Hb : no_nul buf).
  { unfold integer_digits in Hd. destruct (value =? 0).
    - repeat case_match; inv_ret; try done. by eapply push_no_nul.
    - apply bind_Ret in Hd as (b & Hl & [= <- _]). by eapply digit_loop_no_nul. }
  assert (Hb' : no_nul buf').
  { unfold finalize, pad_zeros in Hf. apply bind_Ret in Hf as ([b1 w1] & H1 & Hf).
    assert (no_nul b1).
    { destruct (has fl FLAGS_LEFT); [by injection H1 as <- _|]. apply bind_Ret in H1 as (b & Hz & [= <- _]).
      destruct (has fl FLAGS_ZEROPAD); [by eapply zero_fill_no_nul|by injection Hz as <-]. }
    apply bind_Ret in Hf as (b2 & H2 & Hf). apply zero_fill_no_nul in H2; [|done].
    apply bind_Ret in Hf as (b3 & H3 & Hf). assert (no_nul b3).
    { match type of H3 with (if ?b then _ else _) = _ => destruct b end;
        [by eapply hash_prefix_no_nul|by injection H3 as <-]. }
    apply bind_Ret in Hf as (b4 & H4 & [= <- _ _]). by eapply sign_prefix_no_nul. }
  assert (Hs : forall n, no_nul (spaces n)) by (intros n; by apply Forall_replicate).
  assert (Hr : no_nul (rev buf')) by (by apply Forall_rev).
  unfold rev_text. repeat case_match; [|done|]; apply Forall_app; split; first [exact Hr|apply Hs].
Qed.

(** C11: [print_integer] prints the number it is given.  For a value that fits
    the buffer (below [base^31], every 64-bit value from base 8 on) and a width
    and precision below it, it returns and writes padding, the sign, zeros and
    digits that denote the value, have no leading zero and are no more than
    needed; the zeros fill up to the precision (to the width too under
    [FLAGS_ZEROPAD] alone), the text is as long as the width, the sign and the
    precision ask, and padding is on the side the flags say. *)
Theorem print_integer_correct {S} (out : out_fct_type S) buffer maxlen st
    value negative base precision width flags
    (Hh : has flags FLAGS_HASH = false) (Hp : has flags FLAGS_POINTER = false)
    (Hb : 2 <= base <= 16) (Hv : 0 <= value < base ^ 31)
    (Hpr : 0 <= precision < 32) (Hw : 0 <= width <= 32) :
  exists left zeros ds right,
    let text := spaces left ++ sign_text negative flags ++ replicate zeros 48 ++ ds ++ spaces right in
    print_integer out buffer maxlen st value negative base precision width flags
      = Ret (puts out buffer maxlen text st) /\
    digits_value base (replicate zeros 48 ++ ds) = value /\ (value <> 0 -> head ds <> Some 48) /\
    Z.of_nat (length text)
      = Z.max width (Z.of_nat (length (sign_text negative flags)) + Z.max precision (Z.of_nat (length ds))) /\
    (forall k, (0 < k)%nat -> value < base ^ Z.of_nat k -> (length ds <= k)%nat) /\
    (has flags FLAGS_LEFT = true \/ has flags FLAGS_ZEROPAD = false ->
     zeros = (Z.to_nat precision - length ds)%nat) /\
    (has flags FLAGS_LEFT = true -> left = 0) /\ (has flags FLAGS_LEFT = false -> right = 0) /\
    (has flags FLAGS_ZEROPAD = true -> left = 0).
Proof.
  destruct (print_integer_puts out buffer maxlen st value negative base precision width flags) as (l & Hl & ->).
  destruct (integer_text_spec value negative base precision width flags)
    as (left & zeros & ds & right & Ht & Hrest); [done..|].
  rewrite Ht in Hl. injection Hl as <-. exists left, zeros, ds, right. by split.
Qed.

(** [%+08d] of 1234. *)
Lemma print_integer_correct_witness :
  exists ds, digits_value 10 ds = 1234 /\
    print_integer _out_buffer 100 20 ((fun _ => 0), 0) 1234 false 10 0 8
      (Z.lor FLAGS_PLUS FLAGS_ZEROPAD) =
    Ret (puts _out_buffer 100 20 (43 :: ds) ((fun _ => 0), 0)).
Proof.
  destruct (print_integer_correct _out_buffer 100 20 ((fun _ => 0), 0) 1234 false 10 0 8
      (Z.lor FLAGS_PLUS FLAGS_ZEROPAD)) as (left & zeros & ds & right & H1 & H2 & _ & _ & _ & _ & _ & H5 & H6).
  1-6: first [reflexivity|lia].
  rewrite (H5 eq_refl), (H6 eq_refl) in H1. exists (replicate zeros 48 ++ ds). split; [exact H2|].
  rewrite H1. cbn [spaces sign_text app replicate Z.to_nat]. rewrite app_nil_r. reflexivity.
Defined.


(** What [_vsnprintf] leaves in a buffer: the first [count - 1] characters of
    the text and a NUL behind them. *)
Lemma vsnprintf_buffer fuel m buffer count format va l m0 :
  buffer <> 0 -> 0 <= count < 2 ^ 64 -> format_text fuel m format va = Ret l -> Z.of_nat (length l) < 2 ^ 31 ->
  exists m', _vsnprintf fuel m _out_buffer buffer count format va m0 = Ret (m', Z.of_nat (length l)) /\
    let n := Z.min (Z.of_nat (length l)) (count - 1) in
    (forall i, 0 <= i < n -> Some (m' (buffer + i)) = l !! Z.to_nat i) /\
    (0 < count -> m' (buffer + n) = 0) /\
    (forall a, ~ in_range buffer (n + 1) a -> m' a = m0 a).
Proof.
  intros Hbuf Hc Hl Hlen. eexists. split; [by apply vsnprintf_text|]. cbv zeta.
  set (N := Z.of_nat (length l)) in *. set (n := Z.min N (count - 1)).
  assert (Hend : (if N <? count then N else count -64 1) = if count =? 0 then 2 ^ 64 - 1 else n).
  { destruct (Z.eqb_spec count 0) as [->|].
    - destruct (Z.ltb_spec N 0); [lia|done].
    - rewrite wrap_small by lia. case_Zb; lia. }
  rewrite Hend. unfold _out_buffer at 1 3 5. split_and!.
  - intros i Hi. destruct (Z.eqb_spec count 0); [lia|]. destruct (Z.ltb_spec n count); [|lia].
    rewrite store8_ne, puts_buffer by lia. unfold in_range. case_decide; [|lia].
    replace (Z.to_nat (buffer + i - buffer - 0)) with (Z.to_nat i) by lia.
    symmetry. apply list_lookup_lookup_total_lt. lia.
  - intros Hc0. destruct (Z.eqb_spec count 0); [lia|]. destruct (Z.ltb_spec n count); [|lia]. apply store8_eq.
  - intros a Ha. unfold in_range in *.
    assert (Hp : (puts _out_buffer buffer count l (m0, 0)).1 a = m0 a).
    { rewrite puts_buffer by lia. unfold in_range. case_decide; [lia|done]. }
    destruct (Z.eqb_spec count 0) as [->|]; [by destruct (Z.ltb_spec (2 ^ 64 - 1) 0); [lia|]|].
    destruct (Z.ltb_spec n count); [|lia]. rewrite store8_ne; [done|]. lia.
Qed.

(** C10: [snprintf_] truncates without losing count.  Whatever the format writes
    ([l], the text every output function gets), the return value is the full
    length, the buffer gets the first [count - 1] characters of it and a NUL
    right after them, nothing else is written, and a [count] of 0 writes
    nothing at all. *)
Theorem snprintf_truncates fuel m buffer count format va l
    (Hbuf : buffer <> 0) (Hc : 0 <= count < 2 ^ 64)
    (Hl : format_text fuel m format va = Ret l) (Hlen : Z.of_nat (length l) < 2 ^ 31) :
  exists m', snprintf_ fuel m buffer count format va = Ret (m', Z.of_nat (length l)) /\
    let n := Z.min (Z.of_nat (length l)) (count - 1) in
    (forall i, 0 <= i < n -> Some (m' (buffer + i)) = l !! Z.to_nat i) /\
    (0 < count -> m' (buffer + n) = 0) /\
    (forall a, ~ in_range buffer (n + 1) a -> m' a = m a).
Proof. by apply vsnprintf_buffer. Qed.

(** [snprintf(p, 4, "%d!", 1234)] leaves ["123"]. *)
Lemma snprintf_truncates_witness :
  exists m', snprintf_ 9 (Str.demo [37; 100; 33] [] 7) 64 4 16 [1234] = Ret (m', 5) /\ m' 67 = 0.
Proof.
  destruct (snprintf_truncates 9 (Str.demo [37; 100; 33] [] 7) 64 4 16 [1234] [49; 50; 51; 52; 33])
    as (m' & H1 & _ & H2 & _).
  - lia.
  - lia.
  - vm_compute. reflexivity.
  - simpl. lia.
  - exists m'. split; [exact H1|]. apply H2. lia.
Defined.

(** A lone ['%'] at the end of the format: the default case prints the
    terminator and steps over it, so the format goes on in the bytes behind. *)
Theorem lone_percent_overruns fuel m p va :
  m p = 37 -> m (p + 1) = 0 -> (1 < fuel)%nat ->
  format_text fuel m p va = l ← format_text (pred fuel) m (p + 2) va; Ret (0 :: l).
Proof.
  intros H1 H2 Hf. destruct fuel as [|k]; [lia|]. cbn [format_text pred]. rewrite H1. cbn [Z.eqb Pos.eqb negb].
  assert (conversion_text k m (p + 1) va = Ret ([0], p + 2, va)) as ->; [|done].
  destruct k as [|k]; [lia|]. unfold conversion_text. cbn [parse_flags]. rewrite H2.
  cbn [flag_of mbind result_bind]. unfold parse_width. rewrite H2. cbn.
  unfold parse_precision. rewrite H2. cbn. unfold parse_length. rewrite H2. cbn. rewrite H2.
  cbn. by rewrite <- Z.add_assoc.
Qed.

(** The buffer holds 32 digits: a larger binary number loses its upper half. *)
Example print_binary_truncates :
  integer_text (2 ^ 40 + 1) false BASE_BINARY 0 0 FLAGS_LONG = integer_text 1 false BASE_BINARY 32 0 FLAGS_LONG.
Proof. vm_compute. reflexivity. Qed.

(** The zeros of a wide field leave no room for the sign. *)
Example print_zero_padded_sign :
  integer_text 7 true BASE_DECIMAL 0 33 FLAGS_ZEROPAD = Ret (replicate 31 48 ++ [55]).
Proof. vm_compute. reflexivity. Qed.

End Printf.
