(* ===== verification/PciDesc.v ===== *)
(** * The names of PCI identifiers: [system/PCI/pcidesc.cpp]

    Every function is a [switch] that returns a literal, and after it the
    common ending: a [calloc]ed buffer of 6 bytes with the number that was not
    found, printed by [sprintf(ret, "%.4X", ...)].  A [name] is one of the two;
    [name_text] is the characters it holds. *)

From S2P Require Import Prelude Mem Str Printf.
#[local] Open Scope Z_scope.

Module PciDesc.

Inductive name : Type :=
| Literal (s : string)
| Formatted (number : Z).

(** The ending of each function. *)
Definition fallback (number : Z) : name := Formatted number.

(** A [switch] that may reach the ending. *)
Definition name_of (s : option string) (number : Z) : name :=
  match s with Some s => Literal s | None => fallback number end.

(** The bytes of ["%.4X"] at address 1, and the call on the new buffer. *)
Definition format_4X : mem := fun a =>
  match a with 1 => 37 | 2 => 46 | 3 => 52 | 4 => 88 | _ => 0 end.

Definition sprintf_4X {S} (out : Printf.out_fct_type S) (ret number : Z) (s : S) : result (S * Z) :=
  Printf._vsnprintf 5 format_4X out ret (2 ^ 64 - 1) 1 [number] s.

(** The characters of a name. *)
Definition name_text (n : name) : result (list Z) :=
  match n with
  | Literal s => Ret (Str.string_bytes s)
  | Formatted v => '(s, _) ← sprintf_4X (fun c _ _ _ s => if c =? 0 then s else s ++ [c]) 1 v []; Ret s
  end.

Definition deviceClasses : list string :=
  ["Unclassified"%string;
   "Mass Storage Controller"%string;
   "Network Controller"%string;
   "Display Controller"%string;
   "Multimedia Controller"%string;
   "Memory Controller"%string;
   "Bridge Device"%string;
   "Simple Communication Controller"%string;
   "Base System Peripheral"%string;
   "Input Device Controller"%string;
   "Docking Station"%string;
   "Processor"%string;
   "Serial Bus Controller"%string;
   "Wireless Controller"%string;
   "Intelligent Controller"%string;
   "Satellite Communication Controller"%string;
   "Encryption Controller"%string;
   "Signal Processing Controller"%string;
   "Processing Accelerator"%string;
   "Non Essential Instrumentation"%string].

Definition getVendor (vendorID : Z) : name :=
  name_of
    (match vendorID with
     | 0x1234 => Some "QEMU"%string
     | 0x8086 => Some "Intel"%string
     | 0x1022 => Some "AMD"%string
     | 0x10DE => Some "NVIDIA"%string
     | _ => None
     end) vendorID.

Definition getDeviceName (vendorID deviceID : Z) : name :=
  name_of
    (match vendorID with
     | 0x1234 => if deviceID =? 0x1111 then Some "Virtual Video Controler"%string else None
     | 0x8086 => match deviceID with
         | 0x9b63 => Some "Host bridge"%string
         | 0xa3af => Some "USB controller"%string
         | 0xa3b1 => Some "Signal Processing Controller"%string
         | 0xa3ba => Some "Communication controller"%string
         | 0xa382 => Some "SATA controller"%string
         | 0xa3da => Some "ISA bridge"%string
         | 0xa3a1 => Some "Memory controller"%string
         | 0xa3f0 => Some "Audio device"%string
         | 0xa3a3 => Some "System Management Bus"%string
         | 0x1911 => Some "Xeon E3-1200 v5/v6 / E3-1500 v5 / 6th/7th Gen Core Processor Gaussian Mixture Model"%string
         | 0x1901 => Some "Xeon E3-1200 v5/E3-1500 v5/6th Gen Core Processor PCIe Controller (x16)"%string
         | 0x0D55 => Some "Ethernet Connection (12) I219-V"%string
         | 0x29c0 => Some "82G33/G31/P35/P31 Express DRAM Controller"%string
         | 0x10d3 => Some "82574L Gigabit Network Connection"%string
         | 0x2934 => Some "82801I (ICH9 Family) USB UHCI Controller"%string
         | 0x2935 => Some "82801I (ICH9 Family) USB UHCI Controller"%string
         | 0x2936 => Some "82801I (ICH9 Family) USB UHCI Controller"%string
         | 0x293A => Some "82801I (ICH9 Family) USB2 EHCI Controller"%string
         | 0x2918 => Some "82801IB (ICH9) LPC Interface Controller"%string
         | 0x2922 => Some "82801IR/IO/IH (ICH9R/DO/DH) 6 port SATA Controller"%string
         | 0x2930 => Some "82801I (ICH9 Family) SMBus Controller"%string
         | _ => None
         end
     | _ => None
     end) deviceID.

Definition unclassifiedSubclassName (subclassCode : Z) : name :=
  name_of
    (match subclassCode with
     | 0x00 => Some "Non-VGA-Compatible Unclassified"%string
     | 0x01 => Some "VGA-Compatible Unclassified"%string
     | _ => None
     end) subclassCode.

Definition mscSubclassName (subclassCode : Z) : name :=
  name_of
    (match subclassCode with
     | 0x00 => Some "SCSI Bus Controller"%string
     | 0x01 => Some "IDE Controller"%string
     | 0x02 => Some "Floppy Disk Controller"%string
     | 0x03 => Some "IPI Bus Controller"%string
     | 0x04 => Some "RAID Controller"%string
     | 0x05 => Some "ATA Controller"%string
     | 0x06 => Some "Serial ATA"%string
     | 0x07 => Some "Serial Attached SCSI"%string
     | 0x08 => Some "Non-Volatile Memory Controller"%string
     | 0x80 => Some "Other"%string
     | _ => None
     end) subclassCode.

Definition netSubclassName (subclassCode : Z) : name :=
  name_of
    (match subclassCode with
     | 0x00 => Some "Ethernet Controller"%string
     | 0x01 => Some "Token Ring Controller"%string
     | 0x02 => Some "FDDI Controller"%string
     | 0x03 => Some "ATM Controller"%string
     | 0x04 => Some "ISDN Controller"%string
     | 0x05 => Some "WorldFip Controller"%string
     | 0x06 => Some "PICMG 2.14 Multi Computing Controller"%string
     | 0x07 => Some "Infiniband Controller"%string
     | 0x08 => Some "Fabric Controller"%string
     | 0x80 => Some "Other"%string
     | _ => None
     end) subclassCode.

Definition displaySubclassName (subclassCode : Z) : name :=
  name_of
    (match subclassCode with
     | 0x00 => Some "VGA Compatible Controller"%string
     | 0x01 => Some "XGA Controller"%string
     | 0x02 => Some "3D Controller (Not VGA-Compatible)"%string
     | 0x80 => Some "Other"%string
     | _ => None
     end) subclassCode.

Definition multimediaSubclassName (subclassCode : Z) : name :=
  name_of
    (match subclassCode with
     | 0x00 => Some "Multimedia Video Controller"%string
     | 0x01 => Some "Multimedia Audio Controller"%string
     | 0x02 => Some "Computer Telephony Device"%string
     | 0x03 => Some "Audio Device"%string
     | 0x80 => Some "Other"%string
     | _ => None
     end) subclassCode.

Definition memorySublassName (subclassCode : Z) : name :=
  name_of
    (match subclassCode with
     | 0x00 => Some "RAM Controller"%string
     | 0x01 => Some "Flash Controller"%string
     | 0x80 => Some "Other"%string
     | _ => None
     end) subclassCode.

Definition bridgeSubclassName (subclassCode : Z) : name :=
  name_of
    (match subclassCode with
     | 0x00 => Some "Host Bridge"%string
     | 0x01 => Some "ISA Bridge"%string
     | 0x02 => Some "EISA Bridge"%string
     | 0x03 => Some "MCA Bridge"%string
     | 0x04 => Some "PCI-to-PCI Bridge"%string
     | 0x05 => Some "PCMCIA Bridge"%string
     | 0x06 => Some "NuBus Bridge"%string
     | 0x07 => Some "CardBus Bridge"%string
     | 0x08 => Some "RACEway Bridge"%string
     | 0x09 => Some "PCI-to-PCI Bridge"%string
     | 0x0A => Some "InfiniBand-to-PCI Host Bridge"%string
     | 0x80 => Some "Other"%string
     | _ => None
     end) subclassCode.

Definition simpleCOMSubclassName (subclassCode : Z) : name :=
  name_of
    (match subclassCode with
     | 0x00 => Some "Serial Controller"%string
     | 0x01 => Some "Parallel Controller"%string
     | 0x02 => Some "Multiport Serial Controller"%string
     | 0x03 => Some "Modem"%string
     | 0x04 => Some "IEEE 488.1/2 (GPIB) Controller"%string
     | 0x05 => Some "Smart Card Controller"%string
     | 0x80 => Some "Other"%string
     | _ => None
     end) subclassCode.

Definition baseSysPerSubclassName (subclassCode : Z) : name :=
  name_of
    (match subclassCode with
     | 0x00 => Some "PIC"%string
     | 0x01 => Some "DMA Controller"%string
     | 0x02 => Some "Timer"%string
     | 0x03 => Some "RTC Controller"%string
     | 0x04 => Some "PCI Hot-Plug Controller"%string
     | 0x05 => Some "SD Host controller"%string
     | 0x06 => Some "IOMMU"%string
     | 0x80 => Some "Other"%string
     | _ => None
     end) subclassCode.

Definition inputDevSubclassName (subclassCode : Z) : name :=
  name_of
    (match subclassCode with
     | 0x00 => Some "Keyboard Controller"%string
     | 0x01 => Some "Digitizer Pen"%string
     | 0x02 => Some "Mouse Controller"%string
     | 0x03 => Some "Scanner Controller"%string
     | 0x04 => Some "Gameport Controller"%string
     | 0x80 => Some "Other"%string
     | _ => None
     end) subclassCode.

Definition dockingStationSubclassName (subclassCode : Z) : name :=
  name_of
    (match subclassCode with
     | 0x00 => Some "Generic"%string
     | 0x80 => Some "Other"%string
     | _ => None
     end) subclassCode.

Definition procSubclassName (subclassCode : Z) : name :=
  name_of
    (match subclassCode with
     | 0x00 => Some "386"%string
     | 0x01 => Some "486"%string
     | 0x02 => Some "Pentium"%string
     | 0x03 => Some "Pentium Pro"%string
     | 0x10 => Some "Alpha"%string
     | 0x20 => Some "PowerPC"%string
     | 0x30 => Some "MIPS"%string
     | 0x40 => Some "Co-Processor"%string
     | 0x80 => Some "Other"%string
     | _ => None
     end) subclassCode.

Definition sbcSubclassName (subclassCode : Z) : name :=
  name_of
    (match subclassCode with
     | 0x00 => Some "FireWire (IEEE 1394) Controller"%string
     | 0x01 => Some "ACCESS Bus"%string
     | 0x02 => Some "SSA"%string
     | 0x03 => Some "USB Controller"%string
     | 0x04 => Some "Fibre Channel"%string
     | 0x05 => Some "SMBus"%string
     | 0x06 => Some "Infiniband"%string
     | 0x07 => Some "IPMI Interface"%string
     | 0x08 => Some "SERCOS Interface (IEC 61491)"%string
     | 0x09 => Some "CANbus"%string
     | 0x80 => Some "SerialBusController - Other"%string
     | _ => None
     end) subclassCode.

Definition wirelessSubclassName (subclassCode : Z) : name :=
  name_of
    (match subclassCode with
     | 0x00 => Some "iRDA Compatible Controller"%string
     | 0x01 => Some "Consumer IR Controller"%string
     | 0x10 => Some "RF Controller"%string
     | 0x11 => Some "Bluetooth Controller"%string
     | 0x12 => Some "Broadband Controller"%string
     | 0x20 => Some "Ethernet Controller (802.1a)"%string
     | 0x21 => Some "Ethernet Controller (802.1b)"%string
     | 0x80 => Some "Other"%string
     | _ => None
     end) subclassCode.

Definition intelligentControlerSubclassName (subclassCode : Z) : name :=
  name_of
    (match subclassCode with
     | 0x00 => Some "I20"%string
     | _ => None
     end) subclassCode.

Definition sccSubclassName (subclassCode : Z) : name :=
  name_of
    (match subclassCode with
     | 0x00 => Some "Satellite TV Controller"%string
     | 0x01 => Some "Satellite Audio Controller"%string
     | 0x02 => Some "Satellite Voice Controller"%string
     | 0x03 => Some "Satellite Data Controller"%string
     | _ => None
     end) subclassCode.

Definition encryptSubclassName (subclassCode : Z) : name :=
  name_of
    (match subclassCode with
     | 0x00 => Some "Network and Computing Encrpytion/Decryption"%string
     | 0x10 => Some "Entertainment Encryption/Decryption"%string
     | 0x80 => Some "Other"%string
     | _ => None
     end) subclassCode.

Definition spcSubclassName (subclassCode : Z) : name :=
  name_of
    (match subclassCode with
     | 0x00 => Some "DPIO Modules"%string
     | 0x01 => Some "Performance Counters"%string
     | 0x10 => Some "Communication Synchronizer"%string
     | 0x20 => Some "Signal Processing Management"%string
     | 0x80 => Some "Other"%string
     | _ => None
     end) subclassCode.

Definition getSubclassName (classCode subclassCode : Z) : name :=
  match classCode with
  | 0x00 => unclassifiedSubclassName subclassCode
  | 0x01 => mscSubclassName subclassCode
  | 0x02 => netSubclassName subclassCode
  | 0x03 => displaySubclassName subclassCode
  | 0x04 => multimediaSubclassName subclassCode
  | 0x05 => memorySublassName subclassCode
  | 0x06 => bridgeSubclassName subclassCode
  | 0x07 => simpleCOMSubclassName subclassCode
  | 0x08 => baseSysPerSubclassName subclassCode
  | 0x09 => inputDevSubclassName subclassCode
  | 0x0A => dockingStationSubclassName subclassCode
  | 0x0B => procSubclassName subclassCode
  | 0x0C => sbcSubclassName subclassCode
  | 0x0D => wirelessSubclassName subclassCode
  | 0x0E => intelligentControlerSubclassName subclassCode
  | 0x0F => sccSubclassName subclassCode
  | 0x10 => encryptSubclassName subclassCode
  | 0x11 => spcSubclassName subclassCode
  | _ => fallback subclassCode
  end.

(** The programming interfaces of class 0x01. *)
Definition progIF_01 (subclassCode progIF : Z) : option string :=
  match subclassCode with
  | 0x01 => match progIF with
      | 0x00 => Some "ISA Compatibility mode-only controller"%string
      | 0x05 => Some "PCI native mode-only controller"%string
      | 0x0A => Some "ISA Compatibility mode controller, supports both channels switched to PCI native mode"%string
      | 0x0F => Some "PCI native mode controller, supports both channels switched to ISA compatibility mode"%string
      | 0x80 => Some "ISA Compatibility mode-only controller, supports bus mastering"%string
      | 0x85 => Some "PCI native mode-only controller, supports bus mastering"%string
      | 0x8A => Some "ISA Compatibility mode controller, supports both channels switched to PCI native mode, supports bus mastering"%string
      | 0x8F => Some "PCI native mode controller, supports both channels switched to ISA compatibility mode, supports bus mastering"%string
      | _ => None
      end
  | 0x05 => match progIF with
      | 0x20 => Some "Single DMA"%string
      | 0x30 => Some "Chained DMA"%string
      | _ => None
      end
  | 0x06 => match progIF with
      | 0x00 => Some "Vendor Specific Interface"%string
      | 0x01 => Some "AHCI 1.0"%string
      | 0x02 => Some "Serial Storage Bus"%string
      | _ => None
      end
  | 0x07 => match progIF with
      | 0x00 => Some "SAS"%string
      | 0x01 => Some "Serial Storage Bus"%string
      | _ => None
      end
  | 0x08 => match progIF with
      | 0x01 => Some "NVMHCI"%string
      | 0x02 => Some "NVM Express"%string
      | _ => None
      end
  | _ => None
  end.

(** The programming interfaces of class 0x03. *)
Definition progIF_03 (subclassCode progIF : Z) : option string :=
  match subclassCode with
  | 0x00 => match progIF with
      | 0x00 => Some "VGA Controller"%string
      | 0x01 => Some "8514-Compatible Controller"%string
      | _ => None
      end
  | _ => None
  end.

(** The programming interfaces of class 0x06. *)
Definition progIF_06 (subclassCode progIF : Z) : option string :=
  match subclassCode with
  | 0x04 => match progIF with
      | 0x00 => Some "Normal Decode"%string
      | 0x01 => Some "Subtractive Decode"%string
      | _ => None
      end
  | 0x08 => match progIF with
      | 0x00 => Some "Transparent Mode"%string
      | 0x01 => Some "Endpoint Mode"%string
      | _ => None
      end
  | 0x09 => match progIF with
      | 0x40 => Some "Semi-Transparent, Primary bus towards host CPU"%string
      | 0x80 => Some "Semi-Transparent, Secondary bus towards host CPU"%string
      | _ => None
      end
  | _ => None
  end.

(** The programming interfaces of class 0x07. *)
Definition progIF_07 (subclassCode progIF : Z) : option string :=
  match subclassCode with
  | 0x00 => match progIF with
      | 0x00 => Some "8250-Compatible (Generic XT)"%string
      | 0x01 => Some "16450-Compatible"%string
      | 0x02 => Some "16550-Compatible"%string
      | 0x03 => Some "16650-Compatible"%string
      | 0x04 => Some "16750-Compatible"%string
      | 0x05 => Some "16850-Compatible"%string
      | 0x06 => Some "16950-Compatible"%string
      | _ => None
      end
  | 0x01 => match progIF with
      | 0x00 => Some "Standard Parallel Port"%string
      | 0x01 => Some "Bi-Directional Parallel Port"%string
      | 0x02 => Some "ECP 1.X Compliant Parallel Port"%string
      | 0x03 => Some "IEEE 1284 Controller"%string
      | 0xFE => Some "IEEE 1284 Target Device"%string
      | _ => None
      end
  | 0x03 => match progIF with
      | 0x00 => Some "Generic Modem"%string
      | 0x01 => Some "Hayes 16450-Compatible Interface"%string
      | 0x02 => Some "Hayes 16550-Compatible Interface"%string
      | 0x03 => Some "Hayes 16650-Compatible Interface"%string
      | 0x04 => Some "Hayes 16750-Compatible Interface"%string
      | _ => None
      end
  | _ => None
  end.

(** The programming interfaces of class 0x08. *)
Definition progIF_08 (subclassCode progIF : Z) : option string :=
  match subclassCode with
  | 0x00 => match progIF with
      | 0x00 => Some "Generic 8259-Compatible"%string
      | 0x01 => Some "ISA-Compatible"%string
      | 0x02 => Some "EISA-Compatible"%string
      | 0x10 => Some "I/O APIC Interrupt Controller"%string
      | 0x20 => Some "I/O(x) APIC Interrupt Controller"%string
      | _ => None
      end
  | 0x01 => match progIF with
      | 0x00 => Some "Generic 8237-Compatible"%string
      | 0x01 => Some "ISA-Compatible"%string
      | 0x02 => Some "EISA-Compatible"%string
      | _ => None
      end
  | 0x02 => match progIF with
      | 0x00 => Some "Generic 8254-Compatible"%string
      | 0x01 => Some "ISA-Compatible"%string
      | 0x02 => Some "EISA-Compatible"%string
      | 0x03 => Some "HPET"%string
      | _ => None
      end
  | 0x03 => match progIF with
      | 0x00 => Some "Generic RTC"%string
      | 0x01 => Some "ISA-Compatible"%string
      | _ => None
      end
  | _ => None
  end.

(** The programming interfaces of class 0x09. *)
Definition progIF_09 (subclassCode progIF : Z) : option string :=
  match subclassCode with
  | 0x04 => match progIF with
      | 0x00 => Some "Generic"%string
      | 0x10 => Some "Extended"%string
      | _ => None
      end
  | _ => None
  end.

(** The programming interfaces of class 0x0C. *)
Definition progIF_0C (subclassCode progIF : Z) : option string :=
  match subclassCode with
  | 0x00 => match progIF with
      | 0x00 => Some "Generic"%string
      | 0x10 => Some "OHCI"%string
      | _ => None
      end
  | 0x03 => match progIF with
      | 0x00 => Some "UHCI Controller"%string
      | 0x10 => Some "OHCI Controller"%string
      | 0x20 => Some "EHCI (USB2) Controller"%string
      | 0x30 => Some "XHCI (USB3) Controller"%string
      | 0x80 => Some "Unspecified"%string
      | 0xFE => Some "USB Device (Not a Host Controller)"%string
      | _ => None
      end
  | 0x07 => match progIF with
      | 0x00 => Some "SMIC"%string
      | 0x01 => Some "Keyboard Controller Style"%string
      | 0x02 => Some "Block Transfer"%string
      | _ => None
      end
  | _ => None
  end.

Definition getProgIFName (classCode subclassCode progIF : Z) : name :=
  name_of
    (match classCode with
     | 0x01 => progIF_01 subclassCode progIF
     | 0x03 => progIF_03 subclassCode progIF
     | 0x06 => progIF_06 subclassCode progIF
     | 0x07 => progIF_07 subclassCode progIF
     | 0x08 => progIF_08 subclassCode progIF
     | 0x09 => progIF_09 subclassCode progIF
     | 0x0C => progIF_0C subclassCode progIF
     | _ => None
     end) progIF.

(** * Properties *)

Lemma conversion_4X v :
  Printf.conversion_text 4 format_4X 2 [v] =
    l ← Printf.integer_text (u32 v) false 16 4 0 (Z.lor Printf.FLAGS_PRECISION Printf.FLAGS_UPPERCASE);
    Ret (l, 5, []).
Proof. cbv -[Printf.integer_text wrap]. by destruct (Printf.integer_text _ _ _ _ _ _). Qed.

Lemma format_text_4X v l :
  Printf.integer_text (u32 v) false 16 4 0 (Z.lor Printf.FLAGS_PRECISION Printf.FLAGS_UPPERCASE) = Ret l ->
  Printf.format_text 5 format_4X 1 [v] = Ret l.
Proof.
  intros Hl. remember 4%nat as k eqn:Hk.
  cbn [Printf.format_text]. change (format_4X 1) with 37. cbn [Z.eqb Pos.eqb negb]. change (1 + 1) with 2.
  rewrite Hk, conversion_4X, Hl. cbn. by rewrite app_nil_r.
Qed.

(** The four hexadecimal digits of a 16-bit number. *)
Lemma hex_text v :
  0 <= v < 2 ^ 16 ->
  exists l, Printf.format_text 5 format_4X 1 [v] = Ret l /\ length l = 4%nat /\
    Printf.digits_value 16 l = v.
Proof.
  intros Hv.
  destruct (Printf.integer_text_spec v false 16 4 0 (Z.lor Printf.FLAGS_PRECISION Printf.FLAGS_UPPERCASE))
    as (left & zeros & ds & right & Ht & Hval & _ & Hlen & Hmin & Hz & _ & Hr & _); [done|done|lia|lia|lia|lia|].
  rewrite Hz in Ht, Hlen, Hval by (by right). rewrite Hr in Ht, Hlen by done.
  change (Printf.sign_text _ _) with (@nil Z) in Ht, Hlen.
  specialize (Hmin 4%nat ltac:(lia)). change (16 ^ Z.of_nat 4) with (2 ^ 16) in Hmin.
  specialize (Hmin ltac:(lia)). unfold Printf.spaces in *. cbn [app] in *.
  rewrite !length_app, !length_replicate in Hlen. cbn [length] in Hlen.
  replace (Z.to_nat left) with 0%nat in Ht by lia. cbn [replicate app Z.to_nat] in Ht. rewrite app_nil_r in Ht.
  eexists. split; [apply format_text_4X; rewrite wrap_small by lia; exact Ht|]. split; [|done].
  rewrite length_app, length_replicate. lia.
Qed.

(** The six bytes every naming function allocates for a number it does not
    know are enough and are used right: [sprintf] writes the four hexadecimal
    digits of the 16-bit number and a terminator, and no other byte. *)
Theorem fallback_fits m ret number (Hret : ret <> 0) (Hn : 0 <= number < 2 ^ 16) :
  exists m' l, sprintf_4X Printf._out_buffer ret number m = Ret (m', 4) /\
    length l = 4%nat /\ Printf.digits_value 16 l = number /\
    (forall i, 0 <= i < 4 -> Some (m' (ret + i)) = l !! Z.to_nat i) /\ m' (ret + 4) = 0 /\
    (forall a, ~ in_range ret 5 a -> m' a = m a).
Proof.
  destruct (hex_text number Hn) as (l & Hl & Hlen & Hval).
  destruct (Printf.vsnprintf_buffer 5 format_4X ret (2 ^ 64 - 1) 1 [number] l m) as (m' & E & Hi & H0 & Ha);
    [done|lia|done|lia|].
  rewrite Hlen in E, Hi, H0, Ha. change (Z.min (Z.of_nat 4) (2 ^ 64 - 1 - 1)) with 4 in Hi, H0, Ha.
  exists m', l. split_and!; [exact E|done|done|exact Hi|by apply H0|exact Ha].
Qed.

Lemma fallback_fits_witness :
  name_text (getVendor 0x1AF4) = Ret [49; 65; 70; 52] /\
  exists m' l, sprintf_4X Printf._out_buffer 100 0x1AF4 (fun _ => 7) = Ret (m', 4) /\
    Printf.digits_value 16 l = 0x1AF4 /\ m' 105 = 7.
Proof.
  split; [vm_compute; reflexivity|].
  destruct (fallback_fits (fun _ => 7) 100 0x1AF4) as (m' & l & H1 & _ & H2 & _ & _ & H3); [lia|lia|].
  exists m', l. split; [exact H1|]. split; [exact H2|]. apply H3. unfold in_range. lia.
Defined.

End PciDesc.
