(* ===== verification/PortIO.v ===== *)
(** * Port input and output: [lib/portIO.cpp]

    A device is a function of what the kernel did before: [history] is the list
    of accesses so far, latest first, to ports, to memory-mapped registers
    ([Load], [Store], see [Mmio]) and to the processor's model-specific
    registers, and [input h width port] is what the device then answers a read
    of [width] bits with.  Every driver of the
    development runs against this interface, so its theorems hold for all
    devices. *)

From S2P Require Import Prelude.
#[local] Open Scope Z_scope.
#[local] Open Scope machine_scope.

Module PortIO.

Inductive access : Type :=
| In (width port : Z)
| Out (width port value : Z)
| Load (width addr : Z)
| Store (width addr value : Z)
| Rdmsr (msr : Z)
| Wrmsr (msr value : Z).

Definition history : Type := list access.
Definition device : Type := history -> Z -> Z -> Z.

(** The [out] instructions: the port is a 16-bit register, the value as wide
    as the access. *)
Definition outb (port val : Z) (h : history) : history := Out 8 (u16 port) (u8 val) :: h.
Definition outw (port val : Z) (h : history) : history := Out 16 (u16 port) (u16 val) :: h.
Definition outl (port val : Z) (h : history) : history := Out 32 (u16 port) (u32 val) :: h.

Section Input.
Context (input : device).

Definition inb (port : Z) (h : history) : Z * history :=
  (u8 (input h 8 (u16 port)), In 8 (u16 port) :: h).
Definition inw (port : Z) (h : history) : Z * history :=
  (u16 (input h 16 (u16 port)), In 16 (u16 port) :: h).
Definition inl (port : Z) (h : history) : Z * history :=
  (u32 (input h 32 (u16 port)), In 32 (u16 port) :: h).

End Input.

(** A write to port 0x80 takes long enough for slow devices. *)
Definition io_wait (h : history) : history := outb 0x80 0 h.

Lemma inb_range input port h : 0 <= (inb input port h).1 < 256.
Proof. apply (wrap_range 8). lia. Qed.

End PortIO.
