(* ===== verification/Mmio.v ===== *)
(** * Memory-mapped registers and the processor: [lib/memory/mmio.cpp] and
    [lib/cpu/cpu.cpp]

    Registers that are mapped in memory and model-specific registers extend the
    interface of [PortIO]: an access is recorded in the same history, and what a
    read answers is an arbitrary function of what happened before.  Control
    registers have no side effect the kernel observes, so they are state. *)

From S2P Require Import Prelude PortIO.
#[local] Open Scope Z_scope.
#[local] Open Scope machine_scope.

Module Mmio.

(** The devices of a machine: ports, mapped registers by width and address,
    and model-specific registers. *)
Record machine : Type := mk_machine {
  ports : PortIO.device;
  registers : PortIO.history -> Z -> Z -> Z;
  msrs : PortIO.history -> Z -> Z;
}.

Definition mmoutb (addr value : Z) (h : PortIO.history) : PortIO.history := PortIO.Store 8 addr (u8 value) :: h.
Definition mmoutw (addr value : Z) (h : PortIO.history) : PortIO.history := PortIO.Store 16 addr (u16 value) :: h.
Definition mmoutd (addr value : Z) (h : PortIO.history) : PortIO.history := PortIO.Store 32 addr (u32 value) :: h.
Definition mmoutq (addr value : Z) (h : PortIO.history) : PortIO.history := PortIO.Store 64 addr (u64 value) :: h.

Section Machine.
Context (d : machine).

Definition mminb (addr : Z) (h : PortIO.history) : Z * PortIO.history :=
  (u8 (registers d h 8 addr), PortIO.Load 8 addr :: h).
Definition mminw (addr : Z) (h : PortIO.history) : Z * PortIO.history :=
  (u16 (registers d h 16 addr), PortIO.Load 16 addr :: h).
Definition mmind (addr : Z) (h : PortIO.history) : Z * PortIO.history :=
  (u32 (registers d h 32 addr), PortIO.Load 32 addr :: h).
Definition mminq (addr : Z) (h : PortIO.history) : Z * PortIO.history :=
  (u64 (registers d h 64 addr), PortIO.Load 64 addr :: h).

(** [rdmsr] joins the two halves of the register. *)
Definition rdmsr (msr : Z) (h : PortIO.history) : Z * PortIO.history :=
  let v := u64 (msrs d h (u32 msr)) in
  let edx := Z.shiftr v 32 in
  let eax := u32 v in
  (Z.lor (Z.shiftl edx 32) eax, PortIO.Rdmsr (u32 msr) :: h).

End Machine.

Definition wrmsr (msr value : Z) (h : PortIO.history) : PortIO.history :=
  let edx := u32 (Z.shiftr value 32) in
  let eax := u32 value in
  PortIO.Wrmsr (u32 msr) (Z.lor (Z.shiftl edx 32) eax) :: h.

(** The two halves are the value. *)
Lemma halves v : 0 <= v < 2 ^ 64 -> Z.lor (Z.shiftl (u32 (Z.shiftr v 32)) 32) (u32 v) = v.
Proof.
  intros Hv. apply Z.bits_inj'. intros i Hi. rewrite Z.lor_spec, Z.shiftl_spec by lia.
  rewrite (testbit_wrap 32 v) by lia. destruct (Z.ltb_spec i 32).
  - by rewrite Z.testbit_neg_r by lia.
  - rewrite testbit_wrap, Z.shiftr_spec by lia. replace (i - 32 + 32) with i by lia. cbn [andb].
    rewrite orb_false_r. case_Zb; [done|]. symmetry. apply (testbit_above _ 64); lia.
Qed.

End Mmio.
