(* ===== verification/Cpu.v ===== *)
(** * Processor control: [lib/cpu/cpu.cpp]

    The control registers are state; [cpuid] is what [__get_cpuid] answers for
    a leaf, [None] when the processor does not have it.  What [xsave] and
    [fxsave] write is the processor's: a parameter. *)

From S2P Require Import Prelude Mem PortIO Mmio.
#[local] Open Scope Z_scope.
#[local] Open Scope machine_scope.

#[local] Arguments Z.shiftl : simpl never.
#[local] Arguments Z.testbit : simpl never.

Module Cpu.

Definition CPUID_SMEP : Z := Z.shiftl 1 7.
Definition CPUID_SMAP : Z := Z.shiftl 1 20.
Definition CPUID_UMIP : Z := Z.shiftl 1 2.

Record regs : Type := mk { cr0 : Z; cr2 : Z; cr3 : Z; cr4 : Z; xcr0 : Z; ac : bool }.

Record leaf : Type := mk_leaf { eax : Z; ebx : Z; ecx : Z; edx : Z }.

(** ** Segment bases *)

Definition set_kernel_gs (addr : Z) (h : PortIO.history) : PortIO.history := Mmio.wrmsr 0xc0000101 addr h.
Definition set_user_gs (addr : Z) (h : PortIO.history) : PortIO.history := Mmio.wrmsr 0xc0000102 addr h.
Definition set_user_fs (addr : Z) (h : PortIO.history) : PortIO.history := Mmio.wrmsr 0xc0000100 addr h.
Definition get_user_gs (d : Mmio.machine) (h : PortIO.history) : Z * PortIO.history := Mmio.rdmsr d 0xc0000102 h.
Definition get_user_fs (d : Mmio.machine) (h : PortIO.history) : Z * PortIO.history := Mmio.rdmsr d 0xc0000100 h.

(** ** Control registers *)

Definition write_cr (reg val : Z) (s : regs) : regs :=
  match reg with
  | 0 => mk val (cr2 s) (cr3 s) (cr4 s) (xcr0 s) (ac s)
  | 2 => mk (cr0 s) val (cr3 s) (cr4 s) (xcr0 s) (ac s)
  | 3 => mk (cr0 s) (cr2 s) val (cr4 s) (xcr0 s) (ac s)
  | 4 => mk (cr0 s) (cr2 s) (cr3 s) val (xcr0 s) (ac s)
  | _ => s
  end.

(** Another register leaves [cr] without a value. *)
Definition read_cr (reg : Z) (s : regs) : result Z :=
  match reg with
  | 0 => Ret (cr0 s)
  | 2 => Ret (cr2 s)
  | 3 => Ret (cr3 s)
  | 4 => Ret (cr4 s)
  | _ => Fault
  end.

(** [xsetbv]; register 0 is the only one there is. *)
Definition wrxcr (i value : Z) (s : regs) : result regs :=
  if i =? 0 then Ret (mk (cr0 s) (cr2 s) (cr3 s) (cr4 s) value (ac s)) else Fault.

Definition clac (s : regs) : regs := mk (cr0 s) (cr2 s) (cr3 s) (cr4 s) (xcr0 s) false.

(** [~(1 << n)] is an [int], widened with its sign. *)
Definition enableSSE (s : regs) : result regs :=
  cr0 ← read_cr 0 s;
  let cr0 := Z.land cr0 (u64 (Z.lnot (Z.shiftl 1 2))) in
  let cr0 := Z.lor cr0 (Z.shiftl 1 1) in
  let s := write_cr 0 cr0 s in
  cr4 ← read_cr 4 s;
  let cr4 := Z.lor cr4 (Z.shiftl 3 9) in
  Ret (write_cr 4 cr4 s).

Section Cpuid.
Context (cpuid : Z -> option leaf).

Definition enableSMEP (s : regs) : result regs :=
  match cpuid 7 with
  | Some l =>
      if negb (Z.land (ebx l) CPUID_SMEP =? 0) then
        cr4 ← read_cr 4 s;
        Ret (write_cr 4 (Z.lor cr4 (Z.shiftl 1 20)) s)
      else Ret s
  | None => Ret s
  end.

Definition enableSMAP (s : regs) : result regs :=
  match cpuid 7 with
  | Some l =>
      if negb (Z.land (ebx l) CPUID_SMAP =? 0) then
        cr4 ← read_cr 4 s;
        Ret (clac (write_cr 4 (Z.lor cr4 (Z.shiftl 1 21)) s))
      else Ret s
  | None => Ret s
  end.

Definition enableUMIP (s : regs) : result regs :=
  match cpuid 7 with
  | Some l =>
      if negb (Z.land (ecx l) CPUID_UMIP =? 0) then
        cr4 ← read_cr 4 s;
        Ret (write_cr 4 (Z.lor cr4 (Z.shiftl 1 11)) s)
      else Ret s
  | None => Ret s
  end.

(** ** The calls of a starting processor in their order *)

Definition enable_all (s : regs) : result regs :=
  s ← enableSSE s; s ← enableSMEP s; s ← enableSMAP s; enableUMIP s.

Definition feature (get : leaf -> Z) (bit : Z) : bool :=
  match cpuid 7 with Some l => Z.testbit (get l) bit | None => false end.

Lemma test_flag x n : 0 <= n -> negb (Z.land x (Z.shiftl 1 n) =? 0) = Z.testbit x n.
Proof.
  intros Hn. rewrite Z.shiftl_1_l. destruct (Z.testbit x n) eqn:Hb.
  - apply negb_true_iff, Z.eqb_neq. intros H. apply (f_equal (fun z => Z.testbit z n)) in H.
    rewrite Z.land_spec, Z.pow2_bits_true, Hb, Z.bits_0 in H by done. done.
  - apply negb_false_iff, Z.eqb_eq. apply Z.bits_inj'. intros i Hi.
    rewrite Z.land_spec, Z.bits_0. destruct (decide (i = n)) as [->|].
    + by rewrite Hb.
    + by rewrite Z.pow2_bits_false, andb_false_r by lia.
Qed.

Lemma set_bit x n i : 0 <= n -> 0 <= i -> Z.testbit (Z.lor x (Z.shiftl 1 n)) i = Z.testbit x i || (i =? n).
Proof.
  intros Hn Hi. rewrite Z.lor_spec, Z.shiftl_1_l. f_equal. destruct (Z.eqb_spec i n) as [->|].
  - by apply Z.pow2_bits_true.
  - apply Z.pow2_bits_false; lia.
Qed.

(** A starting processor turns on SSE, and each protection exactly when its
    leaf 7 reports it; no other bit of the control registers changes, except
    that emulation is turned off. *)
Lemma enable_all_bits s :
  exists s', enable_all s = Ret s' /\
    (forall i, 0 <= i < 64 -> Z.testbit (cr0 s') i = (Z.testbit (cr0 s) i && negb (i =? 2)) || (i =? 1)) /\
    (forall i, 0 <= i < 64 -> Z.testbit (cr4 s') i =
       Z.testbit (cr4 s) i || (i =? 9) || (i =? 10) || ((i =? 20) && feature ebx 7) ||
       ((i =? 21) && feature ebx 20) || ((i =? 11) && feature ecx 2)) /\
    cr2 s' = cr2 s /\ cr3 s' = cr3 s /\ xcr0 s' = xcr0 s.
Proof.
  unfold enable_all, enableSSE, enableSMEP, enableSMAP, enableUMIP, feature. cbn.
  assert (H0 : forall x i, 0 <= i < 64 ->
    Z.testbit (Z.lor (Z.land x (u64 (Z.lnot (Z.shiftl 1 2)))) (Z.shiftl 1 1)) i =
    Z.testbit x i && negb (i =? 2) || (i =? 1)).
  { intros x i Hi. rewrite set_bit by lia. f_equal. rewrite Z.land_spec, testbit_wrap, Z.lnot_spec by lia.
    replace (i <? 64) with true by lia. f_equal. cbn [andb]. f_equal. rewrite Z.shiftl_1_l.
    destruct (Z.eqb_spec i 2) as [->|]; [done|]. apply Z.pow2_bits_false; lia. }
  assert (H4 : forall x i, 0 <= i < 64 -> Z.testbit (Z.lor x (Z.shiftl 3 9)) i = Z.testbit x i || (i =? 9) || (i =? 10)).
  { intros x i Hi. change (Z.shiftl 3 9) with (Z.lor (Z.shiftl 1 9) (Z.shiftl 1 10)).
    by rewrite Z.lor_assoc, !set_bit by lia. }
  destruct (cpuid 7) as [l|].
  - unfold CPUID_SMEP, CPUID_SMAP, CPUID_UMIP. rewrite !test_flag by lia.
    destruct (Z.testbit (ebx l) 7), (Z.testbit (ebx l) 20), (Z.testbit (ecx l) 2); cbn;
      (eexists; split; [reflexivity|]); cbn; (split; [apply H0|]); (split; [|done]); intros i Hi;
      rewrite ?set_bit, H4 by lia; by destruct (Z.testbit (cr4 s) i), (i =? 9), (i =? 10), (i =? 20), (i =? 21), (i =? 11).
  - cbn. eexists. split; [reflexivity|]. cbn. split; [apply H0|]. split; [|done]. intros i Hi.
    rewrite H4 by lia. by rewrite !andb_false_r, !orb_false_r.
Qed.

End Cpuid.

(** ** The extended state *)

Fixpoint write_bytes (p : Z) (l : list Z) (m : mem) : mem :=
  match l with [] => m | c :: l => write_bytes (p + 1) l (store8 m p c) end.

Section Extended.
(** The extended state; the areas that [xsave] (for the components of the mask)
    and [fxsave] make of it, and what is restored from an area. *)
Context {X : Type} (xsave_area : Z -> X -> list Z) (xrstor_area : Z -> mem -> Z -> X -> X).
Context (fxsave_area : X -> list Z) (fxrstor_area : mem -> Z -> X -> X).

(** [edx:eax]: every component. *)
Definition mask : Z := Z.lor (Z.shiftl 0xFFFFFFFF 32) 0xFFFFFFFF.

(** A region that is not aligned is a general protection fault. *)
Definition aligned {A} (n region : Z) (r : A) : result A := if region mod n =? 0 then Ret r else Fault.

Definition xsave (region : Z) (x : X) (m : mem) : result mem := aligned 64 region (write_bytes region (xsave_area mask x) m).
Definition xrstor (region : Z) (m : mem) (x : X) : result X := aligned 64 region (xrstor_area mask m region x).
Definition fxsave (region : Z) (x : X) (m : mem) : result mem := aligned 16 region (write_bytes region (fxsave_area x) m).
Definition fxrstor (region : Z) (m : mem) (x : X) : result X := aligned 16 region (fxrstor_area m region x).

Lemma write_bytes_ne p l m a : ~ in_range p (Z.of_nat (length l)) a -> write_bytes p l m a = m a.
Proof.
  unfold in_range. revert p m. induction l as [|c l IH]; intros p m Ha; [done|]. cbn [write_bytes length] in *.
  rewrite IH by lia. apply store8_ne. lia.
Qed.

Lemma write_bytes_eq p l m i c : l !! i = Some c -> write_bytes p l m (p + Z.of_nat i) = c.
Proof.
  revert p m i. induction l as [|x l IH]; intros p m i Hi; [done|]. destruct i as [|i]; cbn [write_bytes].
  - injection Hi as ->. rewrite Z.add_0_r, write_bytes_ne by (unfold in_range; lia). apply store8_eq.
  - replace (p + Z.of_nat (S i)) with (p + 1 + Z.of_nat i) by lia. by apply IH.
Qed.

(** What the processor promises of an area that it wrote. *)
Definition holds (m : mem) (p : Z) (l : list Z) : Prop := forall i c, l !! i = Some c -> m (p + Z.of_nat i) = c.
Context (xrstor_saved : forall k x y m p, holds m p (xsave_area k x) -> xrstor_area k m p y = x).
Context (fxrstor_saved : forall x y m p, holds m p (fxsave_area x) -> fxrstor_area m p y = x).

(** The state that was saved comes back if the area is left alone in between,
    whatever the processor computed meanwhile; nothing outside the area is
    written; a region at an odd address faults. *)
Lemma save_restore region x y m :
  (region mod 64 = 0 -> exists m1, xsave region x m = Ret m1 /\
     (forall a, ~ in_range region (Z.of_nat (length (xsave_area mask x))) a -> m1 a = m a) /\
     forall m2, (forall a, in_range region (Z.of_nat (length (xsave_area mask x))) a -> m2 a = m1 a) ->
       xrstor region m2 y = Ret x) /\
  (region mod 16 = 0 -> exists m1, fxsave region x m = Ret m1 /\
     (forall a, ~ in_range region (Z.of_nat (length (fxsave_area x))) a -> m1 a = m a) /\
     forall m2, (forall a, in_range region (Z.of_nat (length (fxsave_area x))) a -> m2 a = m1 a) ->
       fxrstor region m2 y = Ret x) /\
  (region mod 64 <> 0 -> xsave region x m = Fault /\ xrstor region m y = Fault).
Proof.
  assert (Hholds : forall l m2, (forall a, in_range region (Z.of_nat (length l)) a -> m2 a = write_bytes region l m a) -> holds m2 region l).
  { intros l m2 H i c Hi. pose proof (lookup_lt_Some _ _ _ Hi). rewrite H by (unfold in_range; lia). by apply write_bytes_eq. }
  unfold xsave, xrstor, fxsave, fxrstor, aligned. split; [|split].
  - intros ->. eexists. split; [done|]. split; [intros; by apply write_bytes_ne|]. intros m2 H2. cbn. f_equal. apply xrstor_saved. by apply Hholds.
  - intros ->. eexists. split; [done|]. split; [intros; by apply write_bytes_ne|]. intros m2 H2. cbn. f_equal. apply fxrstor_saved. by apply Hholds.
  - intros H%Z.eqb_neq. by rewrite H.
Qed.

End Extended.

End Cpu.
