(* ===== verification/Pci.v ===== *)
(** * The PCI bus: [system/PCI/pci.cpp]

    Configuration space is reached through ports or, at the addresses the MCFG
    table names, in memory.  A translated device is a record; its [device]
    pointer is an address in the mapped configuration space or, on the legacy
    path, the block that [init] frees again ([Dangling]): reading that is a
    [Fault].  The heap calls of [translate] are taken to succeed. *)

From S2P Require Import Prelude Mem PortIO PciDesc.
#[local] Open Scope Z_scope.
#[local] Open Scope machine_scope.

Module Pci.

(** ** Port access to configuration space *)

Definition getAddress (bus dev func offset : Z) (h : PortIO.history) : PortIO.history :=
  let address :=
    Z.lor (Z.lor (Z.lor (Z.lor (Z.shiftl bus 16) (Z.shiftl dev 11)) (Z.shiftl func 8))
      (Z.land offset (u32 (Z.lnot 3)))) 0x80000000 in
  PortIO.outl 0xcf8 (u32 address) h.

Definition data_port (offset : Z) : Z := 0xcfc + Z.land offset 3.

Section Ports.
Context (input : PortIO.device).

Definition readb (bus dev func offset : Z) (h : PortIO.history) : Z * PortIO.history :=
  PortIO.inb input (data_port offset) (getAddress bus dev func offset h).

Definition readw (bus dev func offset : Z) (h : PortIO.history) : Z * PortIO.history :=
  PortIO.inw input (data_port offset) (getAddress bus dev func offset h).

Definition readl (bus dev func offset : Z) (h : PortIO.history) : Z * PortIO.history :=
  PortIO.inl input (data_port offset) (getAddress bus dev func offset h).

End Ports.

Definition writeb (bus dev func offset value : Z) (h : PortIO.history) : PortIO.history :=
  PortIO.outb (data_port offset) value (getAddress bus dev func offset h).

Definition writew (bus dev func offset value : Z) (h : PortIO.history) : PortIO.history :=
  PortIO.outw (data_port offset) value (getAddress bus dev func offset h).

Definition writel (bus dev func offset value : Z) (h : PortIO.history) : PortIO.history :=
  PortIO.outl (data_port offset) value (getAddress bus dev func offset h).

(** ** Devices *)

(** The header of a function's configuration space. *)
Record PCIdevice_t : Type := mkDevice {
  vendorID : Z; deviceID : Z; command : Z; status : Z;
  revisionID : Z; progIF : Z; subclass : Z; classID : Z;
  cacheLineSize : Z; latencyTimer : Z; headerType : Z; bist : Z;
}.

Definition device_at (m : mem) (a : Z) : PCIdevice_t :=
  mkDevice (load 2 m a) (load 2 m (a + 2)) (load 2 m (a + 4)) (load 2 m (a + 6))
    (m (a + 8)) (m (a + 9)) (m (a + 10)) (m (a + 11))
    (m (a + 12)) (m (a + 13)) (m (a + 14)) (m (a + 15)).

Inductive device_ptr : Type :=
| Mapped (address : Z)
| Dangling (header : PCIdevice_t).

(** [*device] *)
Definition deref (m : mem) (p : device_ptr) : result PCIdevice_t :=
  match p with Mapped a => Ret (device_at m a) | Dangling _ => Fault end.

Record TranslatedPCIdevice_t : Type := mkTranslated {
  device : device_ptr;
  vendorStr : PciDesc.name;
  deviceStr : PciDesc.name;
  progIFStr : PciDesc.name;
  subclassStr : PciDesc.name;
  classStr : string;
  bus : Z; dev : Z; func : Z;
}.

Record state : Type := mk {
  isInit : bool;
  legacy : bool;
  PCIdevices : list TranslatedPCIdevice_t;
  currentBus : Z; currentDev : Z; currentFunc : Z;
}.

Definition initial : state := mk false false [] 0 0 0.

Definition set_bus (b : Z) (s : state) : state :=
  mk (isInit s) (legacy s) (PCIdevices s) b (currentDev s) (currentFunc s).
Definition set_dev (d : Z) (s : state) : state :=
  mk (isInit s) (legacy s) (PCIdevices s) (currentBus s) d (currentFunc s).
Definition set_func (f : Z) (s : state) : state :=
  mk (isInit s) (legacy s) (PCIdevices s) (currentBus s) (currentDev s) f.
Definition push (d : TranslatedPCIdevice_t) (s : state) : state :=
  mk (isInit s) (legacy s) (PCIdevices s ++ [d]) (currentBus s) (currentDev s) (currentFunc s).

(** ** Looking devices up *)

Definition class_match (c sc pi : Z) (d : PCIdevice_t) : bool :=
  (classID d =? c) && (subclass d =? sc) && (progIF d =? pi).

Definition id_match (v di : Z) (d : PCIdevice_t) : bool :=
  (vendorID d =? v) && (deviceID d =? di).

Fixpoint search_loop (m : mem) (matches : PCIdevice_t -> bool) (l : list TranslatedPCIdevice_t)
    (skip : Z) : result (option TranslatedPCIdevice_t) :=
  match l with
  | [] => Ret None
  | d :: l =>
      h ← deref m (device d);
      if matches h then
        if 0 <? skip then search_loop m matches l (skip - 1) else Ret (Some d)
      else search_loop m matches l skip
  end.

Definition search (m : mem) (s : state) (c sc pi skip : Z) : result (option TranslatedPCIdevice_t) :=
  if negb (isInit s) then Ret None else search_loop m (class_match c sc pi) (PCIdevices s) skip.

Definition search_id (m : mem) (s : state) (v di skip : Z) : result (option TranslatedPCIdevice_t) :=
  if negb (isInit s) then Ret None else search_loop m (id_match v di) (PCIdevices s) skip.

Fixpoint count_loop (m : mem) (matches : PCIdevice_t -> bool) (l : list TranslatedPCIdevice_t)
    (num : Z) : result Z :=
  match l with
  | [] => Ret num
  | d :: l =>
      h ← deref m (device d);
      count_loop m matches l (if matches h then num +64 1 else num)
  end.

Definition count (m : mem) (s : state) (c sc pi : Z) : result Z :=
  if negb (isInit s) then Ret 0 else count_loop m (class_match c sc pi) (PCIdevices s) 0.

Definition count_id (m : mem) (s : state) (v di : Z) : result Z :=
  if negb (isInit s) then Ret 0 else count_loop m (id_match v di) (PCIdevices s) 0.

(** ** Enumeration *)

(** [deviceClasses[classID]] has 20 entries; reading behind them is a [Fault]. *)
Definition translate (m : mem) (header : PCIdevice_t) (p : device_ptr) (s : state) :
    result TranslatedPCIdevice_t :=
  match PciDesc.deviceClasses !! Z.to_nat (classID header) with
  | None => Fault
  | Some classStr =>
      Ret (mkTranslated p
        (PciDesc.getVendor (vendorID header))
        (PciDesc.getDeviceName (vendorID header) (deviceID header))
        (PciDesc.getProgIFName (classID header) (subclass header) (progIF header))
        (PciDesc.getSubclassName (classID header) (subclass header))
        classStr (currentBus s) (currentDev s) (currentFunc s))
  end.

Definition absent (header : PCIdevice_t) : bool :=
  (deviceID header =? 0) || (deviceID header =? 0xFFFF).

Definition enumfunc (m : mem) (devAddress func : Z) (s : state) : result state :=
  let funcAddress := devAddress +64 u64 (Z.shiftl func 12) in
  let header := device_at m funcAddress in
  if absent header then Ret s else
  let s := set_func (u8 func) s in
  d ← translate m header (Mapped funcAddress) s;
  Ret (push d s).

Definition enumdevice (m : mem) (busAddress dev : Z) (s : state) : result state :=
  let devAddress := busAddress +64 u64 (Z.shiftl dev 15) in
  if absent (device_at m devAddress) then Ret s else
  for_loop 8 0 (enumfunc m devAddress) (set_dev (u8 dev) s).

Definition enumbus (m : mem) (baseAddress bus : Z) (s : state) : result state :=
  let busAddress := baseAddress +64 u64 (Z.shiftl bus 20) in
  if absent (device_at m busAddress) then Ret s else
  for_loop 32 0 (enumdevice m busAddress) (set_bus (u8 bus) s).

(** [sizeof(MCFGHeader)] and [sizeof(deviceconfig)]. *)
Definition MCFG_SIZE : Z := 44.
Definition CONFIG_SIZE : Z := 16.

(** One [deviceconfig]: the buses from [startbus] up to [endbus], excluded. *)
Definition enumconfig (m : mem) (mcfghdr i : Z) (s : state) : result state :=
  let newDeviceConfig := mcfghdr +64 MCFG_SIZE +64 CONFIG_SIZE * i in
  let baseaddr := load64 m newDeviceConfig in
  let startbus := m (newDeviceConfig + 10) in
  let endbus := m (newDeviceConfig + 11) in
  for_loop (Z.to_nat (endbus - startbus)) startbus (enumbus m baseaddr) s.

Section Init.
Context (input : PortIO.device).

(** The header the legacy path builds from four configuration registers. *)
Definition unpack (config_0 config_4 config_8 config_c : Z) : PCIdevice_t :=
  mkDevice (u16 config_0) (u16 (Z.shiftr config_0 16)) (u16 config_4) (u16 (Z.shiftr config_4 16))
    (u8 config_8) (u8 (Z.shiftr config_8 8)) (u8 (Z.shiftr config_8 16)) (u8 (Z.shiftr config_8 24))
    (u8 config_c) (u8 (Z.shiftr config_c 8)) (u8 (Z.shiftr config_c 16)) (u8 (Z.shiftr config_c 24)).

(** One function of the legacy scan.  The last step, the log line, reads the
    freed header. *)
Definition legacy_func (m : mem) (bus dev func : Z) (st : state * PortIO.history) :
    result (state * PortIO.history) :=
  let '(s, h) := st in
  let '(config_0, h) := readl input bus dev func 0 h in
  if config_0 =? 0xFFFFFFFF then Ret (s, h) else
  let '(config_4, h) := readl input bus dev func 0x4 h in
  let '(config_8, h) := readl input bus dev func 0x8 h in
  let '(config_c, h) := readl input bus dev func 0xc h in
  let header := unpack config_0 config_4 config_8 config_c in
  let s := set_func func (set_dev dev (set_bus bus s)) in
  d ← translate m header (Dangling header) s;
  let s := push d s in
  _ ← deref m (device d);
  Ret (s, h).

Definition legacy_scan (m : mem) (st : state * PortIO.history) : result (state * PortIO.history) :=
  for_loop 256 0 (fun bus => for_loop 32 0 (fun dev => for_loop 8 0 (fun func =>
    legacy_func m bus dev func))) st.

(** [(mcfghdr->header.length - sizeof(MCFGHeader)) / sizeof(deviceconfig)]: the
    subtraction is on [size_t]; the quotient is converted to [int]. *)
Definition config_entries (m : mem) (mcfghdr : Z) : Z :=
  s32 ((load32 m (mcfghdr + 4) -64 MCFG_SIZE) / CONFIG_SIZE).

(** Without an MCFG table [legacy] is set to [false], and the table is read
    through the null pointer. *)
Definition init (m : mem) (mcfghdr : Z) (s : state) (h : PortIO.history) :
    result (state * PortIO.history) :=
  if isInit s then Ret (s, h) else
  let legacy := if mcfghdr =? 0 then false else legacy s in
  let s := mk (isInit s) legacy [] (currentBus s) (currentDev s) (currentFunc s) in
  '(s, h) ←
    (if negb legacy then
       if mcfghdr =? 0 then Fault
       else
         s ← for_loop (Z.to_nat (config_entries m mcfghdr)) 0 (enumconfig m mcfghdr) s;
         Ret (s, h)
     else legacy_scan m (s, h));
  Ret (mk true legacy (PCIdevices s) (currentBus s) (currentDev s) (currentFunc s), h).

End Init.

(** * Lemmas *)

(** The devices whose header satisfies [matches], in order. *)
Definition hits (m : mem) (matches : PCIdevice_t -> bool) (l : list TranslatedPCIdevice_t) :
    list TranslatedPCIdevice_t :=
  List.filter (fun d => match device d with Mapped a => matches (device_at m a) | Dangling _ => false end) l.

(** All devices are mapped: [init] ran over an MCFG table. *)
Definition all_mapped (l : list TranslatedPCIdevice_t) : Prop :=
  Forall (fun d => exists a, device d = Mapped a) l.

Lemma search_loop_spec m matches l skip :
  all_mapped l -> search_loop m matches l skip = Ret (hits m matches l !! Z.to_nat skip).
Proof.
  intros Hl. revert skip. induction Hl as [|d l [a Ha] Hl IH]; intros skip; cbn [search_loop hits List.filter]; [done|].
  rewrite Ha. cbn [deref mbind result_bind]. destruct (matches (device_at m a)); [|apply IH].
  destruct (Z.ltb_spec 0 skip).
  - rewrite IH. by replace (Z.to_nat skip) with (S (Z.to_nat (skip - 1))) by lia.
  - by replace (Z.to_nat skip) with 0%nat by lia.
Qed.

Lemma count_loop_spec m matches l num :
  all_mapped l -> 0 <= num -> num + Z.of_nat (length l) < 2 ^ 64 ->
  count_loop m matches l num = Ret (num + Z.of_nat (length (hits m matches l))).
Proof.
  intros Hl. revert num. induction Hl as [|d l [a Ha] Hl IH]; intros num Hn Hb;
    cbn [count_loop hits List.filter length] in *; [by rewrite Z.add_0_r|].
  rewrite Ha. cbn [deref mbind result_bind]. destruct (matches (device_at m a)).
  - rewrite wrap_small, IH by lia. f_equal. cbn [length]. unfold hits. lia.
  - apply IH; lia.
Qed.

(** ** What an enumeration finds

    A function is found when function 0 of device 0 of its bus, function 0 of
    its device and the function itself are all present. *)

Definition entry (d : TranslatedPCIdevice_t) : device_ptr * Z * Z * Z := (device d, bus d, dev d, func d).
Definition entries (s : state) : list (device_ptr * Z * Z * Z) := map entry (PCIdevices s).

Definition bus_address (base b : Z) : Z := base +64 u64 (Z.shiftl b 20).
Definition dev_address (base b d : Z) : Z := bus_address base b +64 u64 (Z.shiftl d 15).
Definition func_address (base b d f : Z) : Z := dev_address base b d +64 u64 (Z.shiftl f 12).

Definition found_funcs (m : mem) (base b d : Z) (fs : list Z) : list (device_ptr * Z * Z * Z) :=
  flat_map (fun f => if absent (device_at m (func_address base b d f)) then []
                     else [(Mapped (func_address base b d f), b, d, f)]) fs.

Definition found_devs (m : mem) (base b : Z) (ds : list Z) : list (device_ptr * Z * Z * Z) :=
  flat_map (fun d => if absent (device_at m (dev_address base b d)) then []
                     else found_funcs m base b d (seqZ 0 8)) ds.

Definition found_buses (m : mem) (base : Z) (bs : list Z) : list (device_ptr * Z * Z * Z) :=
  flat_map (fun b => if absent (device_at m (bus_address base b)) then []
                     else found_devs m base b (seqZ 0 32)) bs.

Definition config_at (mcfghdr i : Z) : Z := mcfghdr +64 MCFG_SIZE +64 CONFIG_SIZE * i.

Definition found_configs (m : mem) (mcfghdr : Z) (cs : list Z) : list (device_ptr * Z * Z * Z) :=
  flat_map (fun i =>
    let c := config_at mcfghdr i in
    found_buses m (load64 m c) (seqZ (m (c + 10)) (m (c + 11) - m (c + 10)))) cs.

(** The class codes behind a base address are known ones. *)
Definition known_classes (m : mem) (base : Z) : Prop :=
  forall b d f, 0 <= b < 256 -> 0 <= d < 32 -> 0 <= f < 8 ->
    absent (device_at m (func_address base b d f)) = false ->
    0 <= classID (device_at m (func_address base b d f)) < 20.

Lemma flat_map_single {A B} (g : A -> list B) l : flat_map (fun x => flat_map g [x]) l = flat_map g l.
Proof. apply flat_map_ext. intros x. cbn. apply app_nil_r. Qed.

Lemma flat_map_seqZ_S {B} (g : Z -> list B) from i :
  from <= i -> flat_map g (seqZ from (i + 1 - from)) = flat_map g (seqZ from (i - from)) ++ g i.
Proof.
  intros Hi. replace (i + 1 - from) with (i - from + 1) by lia. rewrite seqZ_app by lia.
  rewrite flat_map_app. f_equal. replace (from + (i - from)) with i by lia.
  cbn. apply app_nil_r.
Qed.

(** A loop whose iteration [i] appends [g i] to the entries and keeps [K]. *)
Lemma for_loop_entries {B} (keep : state -> B) (g : Z -> list (device_ptr * Z * Z * Z)) n from body s :
  (forall i s0, from <= i < from + Z.of_nat n -> keep s0 = keep s ->
     exists s', body i s0 = Ret s' /\ entries s' = entries s0 ++ g i /\ keep s' = keep s0) ->
  exists s', for_loop n from body s = Ret s' /\
    entries s' = entries s ++ flat_map g (seqZ from (Z.of_nat n)) /\ keep s' = keep s.
Proof.
  intros Hstep.
  destruct (for_loop_inv (fun i s' => from <= i /\ entries s' = entries s ++ flat_map g (seqZ from (i - from)) /\
      keep s' = keep s) n from body s) as (s' & Hs & _ & He & Hk).
  - rewrite Z.sub_diag. cbn. by rewrite app_nil_r.
  - intros i s0 Hi (Hle & He & Hk). destruct (Hstep i s0 Hi Hk) as (s1 & Hb & He1 & Hk1). exists s1.
    split; [done|]. split; [lia|]. split; [|congruence]. by rewrite flat_map_seqZ_S, app_assoc, <- He.
  - exists s'. split; [done|]. split; [|done]. rewrite He. do 3 f_equal. lia.
Qed.

Lemma enumfunc_spec m base f s :
  known_classes m base -> 0 <= currentBus s < 256 -> 0 <= currentDev s < 32 -> 0 <= f < 8 ->
  exists s', enumfunc m (dev_address base (currentBus s) (currentDev s)) f s = Ret s' /\
    entries s' = entries s ++ found_funcs m base (currentBus s) (currentDev s) [f] /\
    (currentBus s', currentDev s', isInit s', legacy s') = (currentBus s, currentDev s, isInit s, legacy s).
Proof.
  intros Hc Hb Hd Hf. unfold enumfunc. fold (func_address base (currentBus s) (currentDev s) f).
  unfold found_funcs. cbn [flat_map]. rewrite app_nil_r.
  destruct (absent _) eqn:E; [exists s; by rewrite app_nil_r|].
  specialize (Hc _ _ _ Hb Hd Hf E). unfold translate.
  destruct (PciDesc.deviceClasses !! Z.to_nat (classID (device_at m (func_address base (currentBus s) (currentDev s) f)))) eqn:Ec.
  2: { apply lookup_ge_None in Ec. cbn [length PciDesc.deviceClasses] in Ec. lia. }
  cbn [mbind result_bind]. eexists. split; [done|]. split; [|done].
  unfold entries, push, set_func. cbn. rewrite map_app. cbn. unfold entry. cbn.
  by rewrite wrap_small by lia.
Qed.

Lemma enumdevice_spec m base d s :
  known_classes m base -> 0 <= currentBus s < 256 -> 0 <= d < 32 ->
  exists s', enumdevice m (bus_address base (currentBus s)) d s = Ret s' /\
    entries s' = entries s ++ found_devs m base (currentBus s) [d] /\
    (currentBus s', isInit s', legacy s') = (currentBus s, isInit s, legacy s).
Proof.
  intros Hc Hb Hd. unfold enumdevice. fold (dev_address base (currentBus s) d).
  unfold found_devs. cbn [flat_map]. rewrite app_nil_r.
  destruct (absent _); [exists s; by rewrite app_nil_r|].
  destruct (for_loop_entries (fun s => (currentBus s, currentDev s, isInit s, legacy s))
    (fun f => found_funcs m base (currentBus s) d [f]) 8 0
    (enumfunc m (dev_address base (currentBus s) d)) (set_dev (u8 d) s)) as (s' & Hs & He & Hk).
  - cbn. rewrite wrap_small by lia. intros f s0 Hf [= H1 H2 H3 H4].
    destruct (enumfunc_spec m base f s0) as (s1 & Hs1 & He1 & Hk1); [done|lia..|]. rewrite H1, H2 in *.
    exists s1. split; [done|]. split; [done|]. cbn. congruence.
  - exists s'. split; [done|]. split; [|cbn in Hk; congruence]. rewrite He. f_equal. apply flat_map_single.
Qed.

Lemma enumbus_spec m base b s :
  known_classes m base -> 0 <= b < 256 ->
  exists s', enumbus m base b s = Ret s' /\
    entries s' = entries s ++ found_buses m base [b] /\ (isInit s', legacy s') = (isInit s, legacy s).
Proof.
  intros Hc Hb. unfold enumbus. fold (bus_address base b).
  unfold found_buses. cbn [flat_map]. rewrite app_nil_r.
  destruct (absent _); [exists s; by rewrite app_nil_r|].
  destruct (for_loop_entries (fun s => (currentBus s, isInit s, legacy s))
    (fun d => found_devs m base b [d]) 32 0
    (enumdevice m (bus_address base b)) (set_bus (u8 b) s)) as (s' & Hs & He & Hk).
  - cbn. rewrite wrap_small by lia. intros d s0 Hd [= H1 H2 H3].
    destruct (enumdevice_spec m base d s0) as (s1 & Hs1 & He1 & Hk1); [done|lia..|]. rewrite H1 in *.
    exists s1. split; [done|]. split; [done|]. cbn. congruence.
  - exists s'. split; [done|]. split; [|cbn in Hk; congruence]. rewrite He. f_equal. apply flat_map_single.
Qed.

Lemma enumconfig_spec m mcfghdr i s :
  mem_wf m -> known_classes m (load64 m (config_at mcfghdr i)) ->
  exists s', enumconfig m mcfghdr i s = Ret s' /\
    entries s' = entries s ++ found_configs m mcfghdr [i] /\ (isInit s', legacy s') = (isInit s, legacy s).
Proof.
  intros Hm Hc. unfold enumconfig. fold (config_at mcfghdr i). cbv zeta.
  set (c := config_at mcfghdr i) in *. unfold found_configs. cbn [flat_map]. rewrite app_nil_r. cbv zeta. fold c.
  pose proof (Hm (c + 10)). pose proof (Hm (c + 11)).
  destruct (for_loop_entries (fun s => (isInit s, legacy s)) (fun b => found_buses m (load64 m c) [b])
    (Z.to_nat (m (c + 11) - m (c + 10))) (m (c + 10)) (enumbus m (load64 m c)) s) as (s' & Hs & He & Hk).
  - intros b s0 Hb _. apply enumbus_spec; [done|lia].
  - exists s'. split; [done|]. split; [|done]. rewrite He. f_equal. unfold found_buses.
    rewrite flat_map_single. f_equal. destruct (decide (m (c + 10) <= m (c + 11))); [f_equal; lia|].
    unfold seqZ. do 2 f_equal. lia.
Qed.

(** * Properties *)

(** C21: Over an MCFG table [init] finds exactly the functions that are present:
    it returns, and the devices are, in order, every present function of every
    present device of every present bus in [startbus <= bus < endbus] of every
    entry, each with its address and its position.  ([endbus], the table's last
    bus number, is itself left out.)  A second [init] changes nothing. *)
Theorem init_finds m input mcfghdr s h
    (Hm : mem_wf m) (Hp : mcfghdr <> 0) (Hi : isInit s = false) (Hl : legacy s = false)
    (Hc : forall i, 0 <= i < config_entries m mcfghdr -> known_classes m (load64 m (config_at mcfghdr i))) :
  exists s', init input m mcfghdr s h = Ret (s', h) /\
    entries s' = found_configs m mcfghdr (seqZ 0 (config_entries m mcfghdr)) /\
    init input m mcfghdr s' h = Ret (s', h).
Proof.
  unfold init. rewrite Hi, Hl. destruct (Z.eqb_spec mcfghdr 0); [done|]. cbn [negb].
  destruct (for_loop_entries (fun s => (isInit s, legacy s)) (fun i => found_configs m mcfghdr [i])
    (Z.to_nat (config_entries m mcfghdr)) 0 (enumconfig m mcfghdr)
    (mk false false [] (currentBus s) (currentDev s) (currentFunc s))) as (s' & Hs & He & Hk).
  - intros i s0 Hr _. apply enumconfig_spec; [done|]. apply Hc. lia.
  - rewrite Hs. cbn [mbind result_bind]. eexists. split; [done|]. split; [|done].
    unfold entries in He |- *. cbn [PCIdevices map app] in He |- *. rewrite He.
    unfold found_configs. rewrite flat_map_single. f_equal. unfold seqZ. do 2 f_equal. lia.
Qed.

(** [search] and [count] agree: with the devices of an MCFG table, the
    search by class returns the device number [skip] (counted from 0) of those
    whose class, subclass and interface match, in the order they were found,
    null when there are no more, and [count] is how many there are; likewise
    for the search by vendor and device. *)
Theorem search_count m s skip
    (Hi : isInit s = true) (Hd : all_mapped (PCIdevices s)) (Hn : Z.of_nat (length (PCIdevices s)) < 2 ^ 64) :
  (forall c sc pi,
    search m s c sc pi skip = Ret (hits m (class_match c sc pi) (PCIdevices s) !! Z.to_nat skip) /\
    count m s c sc pi = Ret (Z.of_nat (length (hits m (class_match c sc pi) (PCIdevices s))))) /\
  (forall v di,
    search_id m s v di skip = Ret (hits m (id_match v di) (PCIdevices s) !! Z.to_nat skip) /\
    count_id m s v di = Ret (Z.of_nat (length (hits m (id_match v di) (PCIdevices s))))).
Proof.
  unfold search, count, search_id, count_id. rewrite Hi. cbn [negb].
  split; intros; (split; [by apply search_loop_spec|]);
    rewrite count_loop_spec by (done || lia); by rewrite Z.add_0_l.
Qed.

(** Without an MCFG table the guard meant for the legacy scan sets [legacy] to
    [false], and [init] reads the table through the null pointer. *)
Theorem init_without_mcfg input m s h : isInit s = false -> init input m 0 s h = Fault.
Proof. intros Hi. unfold init. by rewrite Hi. Qed.

(** The legacy scan frees the header that the new entry points to, and reads it
    for the log line: it never gets past a present function. *)
Theorem legacy_use_after_free input m bus dev func s h :
  (readl input bus dev func 0 h).1 <> 0xFFFFFFFF ->
  legacy_func input m bus dev func (s, h) = Fault.
Proof.
  intros H. unfold legacy_func. destruct (readl input bus dev func 0 h) as [c0 h0].
  cbn in H. destruct (Z.eqb_spec c0 0xFFFFFFFF); [done|].
  destruct (readl input bus dev func 0x4 h0) as [c4 h4].
  destruct (readl input bus dev func 0x8 h4) as [c8 h8].
  destruct (readl input bus dev func 0xc h8) as [cc hc]. unfold translate.
  by destruct (PciDesc.deviceClasses !! _).
Qed.

(** A class code of 20 or more, the wiki's "Unassigned" class 0xFF for one,
    reads behind the table of class names. *)
Theorem unknown_class_overruns m header p s : 20 <= classID header -> translate m header p s = Fault.
Proof.
  intros H. unfold translate.
  rewrite (lookup_ge_None_2 PciDesc.deviceClasses); [done|]. cbn [length PciDesc.deviceClasses]. lia.
Qed.

(** ** A machine with one network card *)

(** The table at 4096: one entry, base address 1048576, buses 0 to 1; function
    0 of device 0 is the host bridge, function 0 of device 2 a card. *)
Definition demo : mem := fun a =>
  match a with
  | 4100 => 60
  | 4142 => 16
  | 4151 => 1
  | 1048576 => 0x86 | 1048577 => 0x80 | 1048578 => 0xc0 | 1048579 => 0x29 | 1048587 => 6
  | 1114112 => 0x86 | 1114113 => 0x80 | 1114114 => 0xd3 | 1114115 => 0x10 | 1114123 => 2
  | _ => 0
  end.

Lemma pci_demo_wf : mem_wf demo.
Proof. intros a. unfold demo. repeat case_match; lia. Qed.

Lemma demo_class a : a mod 4096 = 11 -> 0 <= demo a < 20.
Proof. intros Ha. unfold demo. repeat case_match; subst; lia || discriminate Ha. Qed.

Lemma demo_known : known_classes demo 1048576.
Proof.
  intros b d f Hb Hd Hf _. unfold device_at. cbn [classID]. apply demo_class.
  unfold func_address, dev_address, bus_address. rewrite !Z.shiftl_mul_pow2 by lia.
  rewrite (wrap_small 64 (b * _)), (wrap_small 64 (d * _)), (wrap_small 64 (f * _)) by lia.
  rewrite (wrap_small 64 (1048576 + _)) by lia. rewrite (wrap_small 64 (_ + d * _)) by lia.
  rewrite (wrap_small 64 (_ + f * _)) by lia.
  replace (1048576 + b * 2 ^ 20 + d * 2 ^ 15 + f * 2 ^ 12 + 11) with (11 + (256 + b * 256 + d * 8 + f) * 4096) by lia.
  by rewrite Z.mod_add by lia.
Qed.

Lemma init_finds_witness :
  exists s', init (fun _ _ _ => 0) demo 4096 initial [] = Ret (s', []) /\
    entries s' = [(Mapped 1048576, 0, 0, 0); (Mapped 1114112, 0, 2, 0)].
Proof.
  destruct (init_finds demo (fun _ _ _ => 0) 4096 initial []) as (s' & H1 & H2 & _).
  - exact pci_demo_wf.
  - discriminate.
  - reflexivity.
  - reflexivity.
  - intros i Hi. assert (i = 0) as -> by (change (config_entries demo 4096) with 1 in Hi; lia).
    change (load64 demo (config_at 4096 0)) with 1048576. exact demo_known.
  - exists s'. split; [exact H1|]. rewrite H2. vm_compute. reflexivity.
Defined.

(** The card alone: class 2. *)
Definition demo_state : state :=
  mk true false
    [mkTranslated (Mapped 1048576) (PciDesc.Literal "Intel") (PciDesc.Formatted 1) (PciDesc.Formatted 2)
       (PciDesc.Formatted 3) "Bridge Device" 0 0 0;
     mkTranslated (Mapped 1114112) (PciDesc.Literal "Intel") (PciDesc.Formatted 1) (PciDesc.Formatted 2)
       (PciDesc.Formatted 3) "Network Controller" 0 2 0] 0 2 7.

Lemma search_count_witness :
  count demo demo_state 2 0 0 = Ret 1 /\ count_id demo demo_state 0x8086 0x10d3 = Ret 1.
Proof.
  destruct (search_count demo demo_state 0) as [H1 H2].
  - reflexivity.
  - repeat (apply Forall_cons; split; [eexists; reflexivity|]). by apply Forall_nil.
  - simpl. lia.
  - split.
    + destruct (H1 2 0 0) as [_ ->]. reflexivity.
    + destruct (H2 0x8086 0x10d3) as [_ ->]. reflexivity.
Defined.

End Pci.
