(* ===== verification/Acpi.v ===== *)
(** * ACPI tables: [system/ACPI/acpi.cpp]

    The tables are structures in memory, read at the offsets of the packed
    headers; [lit] gives the address of each string literal.  The vectors of
    MADT entries are lists of entry addresses.  Port accesses go through
    [PortIO]; the wait for ACPI mode spins on the device and takes fuel. *)

From S2P Require Import Prelude Mem Str PortIO Pci.
#[local] Open Scope Z_scope.
#[local] Open Scope machine_scope.

Module Acpi.

Definition ACPI_SLEEP : Z := 0x2000.

Definition is_canonical (addr : Z) : bool :=
  (addr <=? 0x00007FFFFFFFFFFF) || ((0xFFFF800000000000 <=? addr) && (addr <=? 0xFFFFFFFFFFFFFFFF)).

(** ** Fields of the tables *)

Definition SDT_SIZE : Z := 36.

Section Fields.
Context (m : mem) (p : Z).

Definition revision : Z := m (p + 15).
Definition rsdtaddress : Z := load32 m (p + 16).
Definition xsdtaddress : Z := load64 m (p + 24).

Definition signature : Z := p.
Definition length_ : Z := load32 m (p + 4).

Definition localControllerAddress : Z := load32 m (p + 36).
Definition entriesBegin : Z := p + 44.

Definition Dsdt : Z := load32 m (p + 40).
Definition SMI_CommandPort : Z := load32 m (p + 48).
Definition AcpiEnable : Z := m (p + 52).
Definition AcpiDisable : Z := m (p + 53).
Definition PM1aControlBlock : Z := load32 m (p + 64).
Definition PM1bControlBlock : Z := load32 m (p + 68).
Definition PM1ControlLength : Z := m (p + 89).
Definition ResetReg_addressSpace : Z := m (p + 116).
Definition ResetReg_address : Z := load64 m (p + 120).
Definition ResetValue : Z := m (p + 128).
Definition X_Dsdt : Z := load64 m (p + 140).

End Fields.

(** ** State *)

Record t : Type := mk {
  isInit : bool; madt : bool; useXSTD : bool;
  rsdp : Z; rsdt : Z; mcfghdr : Z; madthdr : Z; fadthdr : Z; hpethdr : Z;
  lapics : list Z; ioapics : list Z; isos : list Z; nmis : list Z;
  lapicAddress : Z;
  SMI_CMD : Z; ACPI_ENABLE : Z; ACPI_DISABLE : Z; PM1a_CNT : Z; PM1b_CNT : Z;
  SLP_TYPa : Z; SLP_TYPb : Z; SLP_EN : Z; SCI_EN : Z; PM1_CNT_LEN : Z;
}.

Definition initial : t :=
  mk false false false 0 0 0 0 0 0 [] [] [] [] 0 0 0 0 0 0 0 0 0 0 0.

Definition with_madt (lapics ioapics isos nmis : list Z) (lapicAddress : Z) (s : t) : t :=
  mk (isInit s) (madt s) (useXSTD s) (rsdp s) (rsdt s) (mcfghdr s) (madthdr s) (fadthdr s) (hpethdr s)
    lapics ioapics isos nmis lapicAddress
    (SMI_CMD s) (ACPI_ENABLE s) (ACPI_DISABLE s) (PM1a_CNT s) (PM1b_CNT s)
    (SLP_TYPa s) (SLP_TYPb s) (SLP_EN s) (SCI_EN s) (PM1_CNT_LEN s).

Definition with_power (smi en dis a b slpb slpen sci len : Z) (s : t) : t :=
  mk (isInit s) (madt s) (useXSTD s) (rsdp s) (rsdt s) (mcfghdr s) (madthdr s) (fadthdr s) (hpethdr s)
    (lapics s) (ioapics s) (isos s) (nmis s) (lapicAddress s)
    smi en dis a b (SLP_TYPa s) slpb slpen sci len.

Definition with_sci (sci : Z) (s : t) : t :=
  with_power (SMI_CMD s) (ACPI_ENABLE s) (ACPI_DISABLE s) (PM1a_CNT s) (PM1b_CNT s)
    (SLP_TYPb s) (SLP_EN s) sci (PM1_CNT_LEN s) s.

Definition with_roots (x : bool) (rp rt : Z) (s : t) : t :=
  mk (isInit s) (madt s) x rp rt (mcfghdr s) (madthdr s) (fadthdr s) (hpethdr s)
    (lapics s) (ioapics s) (isos s) (nmis s) (lapicAddress s)
    (SMI_CMD s) (ACPI_ENABLE s) (ACPI_DISABLE s) (PM1a_CNT s) (PM1b_CNT s)
    (SLP_TYPa s) (SLP_TYPb s) (SLP_EN s) (SCI_EN s) (PM1_CNT_LEN s).

Definition with_tables (mcfg apic facp hpet : Z) (s : t) : t :=
  mk (isInit s) (if apic =? 0 then madt s else true) (useXSTD s) (rsdp s) (rsdt s) mcfg apic facp hpet
    (lapics s) (ioapics s) (isos s) (nmis s) (lapicAddress s)
    (SMI_CMD s) (ACPI_ENABLE s) (ACPI_DISABLE s) (PM1a_CNT s) (PM1b_CNT s)
    (SLP_TYPa s) (SLP_TYPb s) (SLP_EN s) (SCI_EN s) (PM1_CNT_LEN s).

Definition with_init (s : t) : t :=
  mk true (madt s) (useXSTD s) (rsdp s) (rsdt s) (mcfghdr s) (madthdr s) (fadthdr s) (hpethdr s)
    (lapics s) (ioapics s) (isos s) (nmis s) (lapicAddress s)
    (SMI_CMD s) (ACPI_ENABLE s) (ACPI_DISABLE s) (PM1a_CNT s) (PM1b_CNT s)
    (SLP_TYPa s) (SLP_TYPb s) (SLP_EN s) (SCI_EN s) (PM1_CNT_LEN s).

(** ** The MADT *)

(** [while (madt_ptr < madthdr + madthdr->sdt.length)]: an entry is its type,
    its length and its body. *)
Fixpoint madt_loop (fuel : nat) (m : mem) (madt_ptr last : Z) (s : t) : result t :=
  match fuel with
  | O => Diverge
  | S fuel =>
      if negb (madt_ptr <? last) then Ret s else
      let s :=
        match m madt_ptr with
        | 0 => with_madt (lapics s ++ [madt_ptr]) (ioapics s) (isos s) (nmis s) (lapicAddress s) s
        | 1 => with_madt (lapics s) (ioapics s ++ [madt_ptr]) (isos s) (nmis s) (lapicAddress s) s
        | 2 => with_madt (lapics s) (ioapics s) (isos s ++ [madt_ptr]) (nmis s) (lapicAddress s) s
        | 4 => with_madt (lapics s) (ioapics s) (isos s) (nmis s ++ [madt_ptr]) (lapicAddress s) s
        | 5 => with_madt (lapics s) (ioapics s) (isos s) (nmis s) (load64 m (madt_ptr + 4)) s
        | _ => s
        end in
      madt_loop fuel m (madt_ptr + m (madt_ptr + 1)) last s
  end.

Definition madtInit (fuel : nat) (m : mem) (s : t) : result t :=
  let s := with_madt [] [] [] [] (localControllerAddress m (madthdr s)) s in
  madt_loop fuel m (entriesBegin (madthdr s)) (madthdr s + length_ m (madthdr s)) s.

Section Literals.
Context (lit : string -> Z).

(** ** The DSDT *)

(** [while (dsdtlength-- > 0)]: the final [dsdtlength], which has wrapped when
    the loop ran out, and [S5Addr]. *)
Fixpoint s5_loop (n : nat) (m : mem) (S5Addr : Z) : Z * Z :=
  match n with
  | O => (u64 (-1), S5Addr)
  | S n =>
      if Mem.memcmp m S5Addr (lit "_S5_") 4 =? 0 then (Z.of_nat n, S5Addr)
      else s5_loop n m (S5Addr + 1)
  end.

Definition dsdt_address (m : mem) (s : t) : Z :=
  if is_canonical (X_Dsdt m (fadthdr s)) && useXSTD s then X_Dsdt m (fadthdr s) else Dsdt m (fadthdr s).

Definition dsdtInit (m : mem) (s : t) : t :=
  let dsdtaddr := dsdt_address m s in
  let '(dsdtlength, S5Addr) := s5_loop (Z.to_nat (length_ m dsdtaddr)) m (dsdtaddr + 36) in
  if dsdtlength <=? 0 then s else
  if ((m (S5Addr - 1) =? 0x8) || ((m (S5Addr - 2) =? 0x8) && (m (S5Addr - 1) =? 92))) &&
     (m (S5Addr + 4) =? 0x12) then
    let S5Addr := S5Addr + 5 in
    let S5Addr := S5Addr + (Z.shiftr (Z.land (m S5Addr) 0xC0) 6 + 2) in
    let S5Addr := if m S5Addr =? 0xA then S5Addr + 1 else S5Addr in
    with_power (SMI_CommandPort m (fadthdr s)) (AcpiEnable m (fadthdr s)) (AcpiDisable m (fadthdr s))
      (PM1aControlBlock m (fadthdr s)) (PM1bControlBlock m (fadthdr s))
      (u16 (Z.shiftl (m S5Addr) 10)) (Z.shiftl 1 13) 1 (PM1ControlLength m (fadthdr s)) s
  else with_sci 0 s.

(** ** Finding a table *)

(** [rsdt] entry [i], a 64-bit or a 32-bit address. *)
Definition table_entry (m : mem) (s : t) (i : Z) : Z :=
  if useXSTD s then load64 m (rsdt s + SDT_SIZE + i * 8) else load32 m (rsdt s + SDT_SIZE + i * 4).

Definition table_entries (m : mem) (s : t) : Z :=
  (length_ m (rsdt s) -64 SDT_SIZE) / (if useXSTD s then 8 else 4).

(** [n] entries from [i] on; one comparison with the empty string needs one
    step of [strcmp]. *)
Fixpoint find_loop (n : nat) (m : mem) (s : t) (i signature_ skip : Z) : result Z :=
  match n with
  | O => Ret 0
  | S n =>
      let newsdthdr := table_entry m s i in
      if newsdthdr =? 0 then find_loop n m s (i + 1) signature_ skip else
      c ← Str.strcmp 1 m newsdthdr (lit "");
      if c =? 0 then find_loop n m s (i + 1) signature_ skip else
      if Str.strncmp 4 m newsdthdr signature_ =? 0 then
        if skip =? 0 then Ret newsdthdr else find_loop n m s (i + 1) signature_ (skip - 1)
      else find_loop n m s (i + 1) signature_ skip
  end.

(** [skip < 0] never holds of a [size_t]. *)
Definition findtable (m : mem) (s : t) (signature_ skip : Z) : result Z :=
  find_loop (Z.to_nat (table_entries m s)) m s 0 signature_ skip.

(** ** Power *)

Section Ports.
Context (input : PortIO.device).

Definition shutdown (m : mem) (s : t) (h : PortIO.history) : PortIO.history :=
  if SCI_EN s =? 1 then
    let '(a, h) := PortIO.inw input (PM1aControlBlock m (fadthdr s)) h in
    let h := PortIO.outw (PM1aControlBlock m (fadthdr s))
      (Z.lor (Z.land a 0xE3FF) (Z.lor (Z.shiftl (SLP_TYPa s) 10) ACPI_SLEEP)) h in
    let h :=
      if PM1bControlBlock m (fadthdr s) =? 0 then h else
      let '(b, h) := PortIO.inw input (PM1bControlBlock m (fadthdr s)) h in
      PortIO.outw (PM1bControlBlock m (fadthdr s))
        (Z.lor (Z.land b 0xE3FF) (Z.lor (Z.shiftl (SLP_TYPb s) 10) ACPI_SLEEP)) h in
    let h := PortIO.outw (PM1a_CNT s) (Z.lor (SLP_TYPa s) (SLP_EN s)) h in
    if PM1b_CNT s =? 0 then h else PortIO.outw (PM1b_CNT s) (Z.lor (SLP_TYPb s) (SLP_EN s)) h
  else h.

Definition reboot (m : mem) (s : t) (h : PortIO.history) : mem * PortIO.history :=
  let address := ResetReg_address m (fadthdr s) in
  match ResetReg_addressSpace m (fadthdr s) with
  | 0 => (store8 m address (ResetValue m (fadthdr s)), h)
  | 1 => (m, PortIO.outb address (ResetValue m (fadthdr s)) h)
  | 2 => (m, Pci.writeb 0 (u8 (Z.land (Z.shiftr address 32) 0xFFFF)) (u8 (Z.land (Z.shiftr address 16) 0xFFFF))
               (Z.land address 0xFFFF) (ResetValue m (fadthdr s)) h)
  | _ => (m, h)
  end.

(** [while (!(inw(fadthdr->PM1aControlBlock) & 1));] *)
Fixpoint wait_enabled (fuel : nat) (port : Z) (h : PortIO.history) : result PortIO.history :=
  match fuel with
  | O => Diverge
  | S fuel =>
      let '(v, h) := PortIO.inw input port h in
      if Z.land v 1 =? 0 then wait_enabled fuel port h else Ret h
  end.

(** ** [init]: [rsdp_] is the address in the bootloader's tag. *)
Definition init (fuel : nat) (m : mem) (rsdp_ : Z) (s : t) (h : PortIO.history) :
    result (t * PortIO.history) :=
  if isInit s then Ret (s, h) else
  let s :=
    if (2 <=? revision m rsdp_) && negb (xsdtaddress m rsdp_ =? 0)
    then with_roots true rsdp_ (xsdtaddress m rsdp_) s
    else with_roots false rsdp_ (rsdtaddress m rsdp_) s in
  mcfg ← findtable m s (lit "MCFG") 0;
  apic ← findtable m s (lit "APIC") 0;
  facp ← findtable m s (lit "FACP") 0;
  hpet ← findtable m s (lit "HPET") 0;
  let s := with_tables mcfg apic facp hpet s in
  if facp =? 0 then Fault else
  let h := PortIO.outb (SMI_CommandPort m facp) (AcpiEnable m facp) h in
  h ← wait_enabled fuel (PM1aControlBlock m facp) h;
  s ← (if madt s then madtInit fuel m s else Ret s);
  Ret (with_init (dsdtInit m s), h).

End Ports.
End Literals.

(** * Properties *)

(** The entries from [p] to [last], each with a length that is not 0. *)
Fixpoint entries_at (m : mem) (p last : Z) (es : list Z) : Prop :=
  match es with
  | [] => last <= p
  | e :: es => e = p /\ p < last /\ 0 < m (p + 1) /\ entries_at m (p + m (p + 1)) last es
  end.

Definition of_type (m : mem) (k : Z) (es : list Z) : list Z := List.filter (fun e => m e =? k) es.

(** The address the last override entry gives. *)
Definition override (m : mem) (es : list Z) (a : Z) : Z :=
  fold_left (fun a e => if m e =? 5 then load64 m (e + 4) else a) es a.

Lemma madt_loop_spec fuel m p last es s :
  entries_at m p last es -> (length es < fuel)%nat ->
  madt_loop fuel m p last s =
    Ret (with_madt (lapics s ++ of_type m 0 es) (ioapics s ++ of_type m 1 es)
           (isos s ++ of_type m 2 es) (nmis s ++ of_type m 4 es) (override m es (lapicAddress s)) s).
Proof.
  revert fuel p s. induction es as [|e es IH]; intros [|fuel] p s He Hf; cbn [length] in Hf; try lia;
    cbn [madt_loop entries_at] in *.
  - destruct (Z.ltb_spec p last); [lia|]. cbn. rewrite !app_nil_r. by destruct s.
  - destruct He as (-> & Hp & Hl & He). destruct (Z.ltb_spec p last); [|lia]. cbn [negb].
    rewrite (IH _ _ _ He) by lia. unfold override. cbn [of_type List.filter fold_left].
    destruct (decide (m p = 0)) as [E|]; [|destruct (decide (m p = 1)) as [E|];
      [|destruct (decide (m p = 2)) as [E|]; [|destruct (decide (m p = 4)) as [E|];
      [|destruct (decide (m p = 5)) as [E|]]]]];
      try (rewrite E; cbn; unfold of_type; by rewrite <- ?app_assoc).
    destruct (Z.eqb_spec (m p) 0), (Z.eqb_spec (m p) 1), (Z.eqb_spec (m p) 2), (Z.eqb_spec (m p) 4),
      (Z.eqb_spec (m p) 5); try done.
    by repeat case_match.
Qed.

(** Entries of positive length exist whenever no length read is 0. *)
Lemma entries_exist m p last :
  (forall a, p <= a < last -> 0 < m (a + 1)) ->
  exists es, entries_at m p last es /\ (length es <= Z.to_nat (last - p))%nat.
Proof.
  remember (Z.to_nat (last - p)) as n eqn:Hn. revert p Hn.
  induction (lt_wf n) as [n _ IH]. intros p -> H.
  destruct (decide (p < last)); [|exists []; split; [cbn; lia|simpl; lia]].
  pose proof (H p ltac:(lia)).
  destruct (IH (Z.to_nat (last - (p + m (p + 1)))) ltac:(lia) (p + m (p + 1)) eq_refl) as (es & He & Hl).
  { intros a Ha. apply H. lia. }
  exists (p :: es). split; [by cbn|]. simpl. lia.
Qed.

(** [madtInit] sorts the MADT: when the entries tile the table it returns,
    every vector holds exactly the entries of its type in table order, the
    local APIC address is the one of the last override entry (of the header
    without one), and nothing else of the state changes. *)
Theorem madtInit_sorts fuel m s es
    (He : entries_at m (entriesBegin (madthdr s)) (madthdr s + length_ m (madthdr s)) es)
    (Hf : (length es < fuel)%nat) :
  madtInit fuel m s =
    Ret (with_madt (of_type m 0 es) (of_type m 1 es) (of_type m 2 es) (of_type m 4 es)
           (override m es (localControllerAddress m (madthdr s))) s).
Proof. unfold madtInit. by rewrite (madt_loop_spec _ _ _ _ es). Qed.

(** An entry of length 0 keeps the loop where it is. *)
Theorem madt_zero_length_diverges fuel m p last s :
  p < last -> m (p + 1) = 0 -> madt_loop fuel m p last s = Diverge.
Proof.
  intros Hp H0. revert s. induction fuel as [|fuel IH]; intros s; [done|]. cbn [madt_loop].
  destruct (Z.ltb_spec p last); [|lia]. cbn [negb]. rewrite H0, Z.add_0_r. apply IH.
Qed.

(** The tables with a signature, in the order of the root table. *)
Definition tables (m : mem) (s : t) (signature_ : Z) (is_ : list Z) : list Z :=
  List.filter (fun a => negb (a =? 0) && negb (m a =? 0) && (Str.strncmp 4 m a signature_ =? 0))
    (map (table_entry m s) is_).

Lemma find_table_spec lit n m s i sig skip :
  m (lit ""%string) = 0 -> 0 <= skip ->
  find_loop lit n m s i sig skip =
    Ret (default 0 (tables m s sig (seqZ i (Z.of_nat n)) !! Z.to_nat skip)).
Proof.
  intros Hl. revert i skip. induction n as [|n IH]; intros i skip Hs; [done|]. cbn [find_loop].
  rewrite seqZ_cons by lia. unfold tables. cbn [map List.filter].
  replace (Z.succ i) with (i + 1) by lia. replace (Z.pred (Z.of_nat (S n))) with (Z.of_nat n) by lia.
  fold (tables m s sig (seqZ (i + 1) (Z.of_nat n))).
  destruct (Z.eqb_spec (table_entry m s i) 0); cbn [negb andb]; [by apply IH|].
  cbn [Str.strcmp]. rewrite Hl.
  assert ((if negb (m (table_entry m s i) =? 0) && (m (table_entry m s i) =? 0)
     then Diverge else Ret (m (table_entry m s i) - 0)) = Ret (m (table_entry m s i))) as ->.
  { destruct (Z.eqb_spec (m (table_entry m s i)) 0) as [->|]; cbn [negb andb]; [done|by rewrite Z.sub_0_r]. }
  cbn [mbind result_bind]. destruct (m (table_entry m s i) =? 0); cbn [negb andb]; [by apply IH|].
  destruct (Str.strncmp 4 m (table_entry m s i) sig =? 0); [|by apply IH].
  destruct (Z.eqb_spec skip 0) as [->|]; [done|].
  rewrite IH by lia. by replace (Z.to_nat skip) with (S (Z.to_nat (skip - 1))) by lia.
Qed.

(** [findtable] always returns, with the table number [skip] (from 0) among
    the root table's entries that are not null and carry the signature, over
    32-bit or 64-bit entries as the root demands, or with null when there are
    not so many. *)
Theorem findtable_skips lit m s sig skip
    (Hl : m (lit ""%string) = 0) (Hs : 0 <= skip) (Hn : 0 <= table_entries m s) :
  findtable lit m s sig skip =
    Ret (default 0 (tables m s sig (seqZ 0 (table_entries m s)) !! Z.to_nat skip)).
Proof. unfold findtable. rewrite find_table_spec by done. by rewrite Z2Nat.id. Qed.

(** The search for ["_S5_"] that runs to the end leaves [dsdtlength] at
    [2^64 - 1], which the test [dsdtlength <= 0] does not take for absent. *)
Theorem s5_absent_undetected lit m p n :
  (forall i, 0 <= i < Z.of_nat n -> Mem.memcmp m (p + i) (lit "_S5_"%string) 4 <> 0) ->
  s5_loop lit n m p = (2 ^ 64 - 1, p + Z.of_nat n).
Proof.
  revert p. induction n as [|n IH]; intros p H; cbn [s5_loop]; [by rewrite Z.add_0_r|].
  destruct (Z.eqb_spec (Mem.memcmp m p (lit "_S5_"%string) 4) 0) as [E|].
  - destruct (H 0); [lia|]. by rewrite Z.add_0_r.
  - rewrite IH; [f_equal; lia|]. intros i Hi. replace (p + 1 + i) with (p + (i + 1)) by lia. apply H. lia.
Qed.

(** ** Tables in a concrete memory *)

(** A MADT at 200 of 64 bytes with a local APIC (8 bytes) and an I/O APIC (12);
    an RSDT at 100 with the null entry and the table at 200; ["APIC"] at 8. *)
Definition demo : mem := fun a =>
  match a with
  | 8 => 65 | 9 => 80 | 10 => 73 | 11 => 67
  | 104 => 44 | 140 => 200
  | 200 => 65 | 201 => 80 | 202 => 73 | 203 => 67 | 204 => 64 | 236 => 9
  | 245 => 8 | 252 => 1 | 253 => 12
  | _ => 0
  end.

Definition demo_lit (s : string) : Z := if (s =? "APIC")%string then 8 else 0.

Lemma madtInit_sorts_witness :
  exists s, madtInit 3 demo (with_tables 0 200 0 0 initial) = Ret s /\
    lapics s = [244] /\ ioapics s = [252] /\ lapicAddress s = 9.
Proof.
  eexists. split.
  - apply (madtInit_sorts 3 demo (with_tables 0 200 0 0 initial) [244; 252]).
    + vm_compute. repeat split; discriminate.
    + simpl. lia.
  - vm_compute. repeat split.
Defined.

Lemma findtable_skips_witness :
  findtable demo_lit demo (with_roots false 0 100 initial) 8 0 = Ret 200.
Proof.
  rewrite (findtable_skips demo_lit demo (with_roots false 0 100 initial) 8 0).
  - vm_compute. reflexivity.
  - reflexivity.
  - lia.
  - vm_compute. discriminate.
Defined.

End Acpi.
