(* ===== verification/Lock.v ===== *)
(** * Spin locks: [lib/lock.cpp]

    [lock] repeats an atomic test-and-set until it finds the lock free,
    [unlock] clears it.  The processors interleave freely at the atomic
    operations: a step relation over the lock's byte and the place each
    processor is at. *)

From S2P Require Import Prelude.
#[local] Open Scope Z_scope.

Module Lock.

(** [__atomic_test_and_set] and [__atomic_clear]: the new byte and, of the
    first, the old one. *)
Definition test_and_set (locked : bool) : bool * bool := (true, locked).
Definition clear (locked : bool) : bool := false.
Definition isLocked (locked : bool) : bool := locked.

(** Where a processor is: outside, in the loop of [lock()], or between the
    return of [lock()] and the call of [unlock()]. *)
Inductive place : Type := Outside | Spinning | Inside.

#[export] Instance place_eq_dec : EqDecision place.
Proof. solve_decision. Defined.

Record state : Type := mk { locked : bool; at_ : nat -> place }.

Definition move (i : nat) (p : place) (f : nat -> place) : nat -> place :=
  fun j => if decide (j = i) then p else f j.

(** One iteration of the loop in [lock()]. *)
Definition lock_step (i : nat) (s : state) : state :=
  let '(l, was) := test_and_set (locked s) in
  mk l (if was then at_ s else move i Inside (at_ s)).

Definition unlock (i : nat) (s : state) : state :=
  mk (clear (locked s)) (move i Outside (at_ s)).

Definition call_lock (i : nat) (s : state) : state := mk (locked s) (move i Spinning (at_ s)).

Inductive step : state -> state -> Prop :=
| step_call i s : at_ s i = Outside -> step s (call_lock i s)
| step_lock i s : at_ s i = Spinning -> step s (lock_step i s)
| step_unlock i s : at_ s i = Inside -> step s (unlock i s).

Definition initial : state := mk false (fun _ => Outside).

Inductive reachable : state -> Prop :=
| reach_initial : reachable initial
| reach_step s s' : reachable s -> step s s' -> reachable s'.

(** The byte is set exactly while one processor is inside. *)
Definition owned (s : state) : Prop :=
  (locked s = false /\ forall i, at_ s i <> Inside) \/
  (locked s = true /\ exists i, at_ s i = Inside /\ forall j, at_ s j = Inside -> j = i).

Lemma step_owned s s' : owned s -> step s s' -> owned s'.
Proof.
  intros Ho Hs. destruct Hs as [i s Hi|i s Hi|i s Hi];
    unfold owned, call_lock, lock_step, unlock, move in *; cbn.
  - destruct Ho as [[Hl Hn]|[Hl (k & Hk & Hu)]]; [left|right]; (split; [done|]).
    + intros j. case_decide; [done|apply Hn].
    + exists k. split; [case_decide; congruence|]. intros j. case_decide; [done|apply Hu].
  - right. destruct Ho as [[-> Hn]|[-> (k & Hk & Hu)]]; cbn; (split; [done|]).
    + exists i. split; [by rewrite decide_True|]. intros j. case_decide; [done|]. intros Hj. by destruct (Hn j).
    + by exists k.
  - left. split; [done|]. destruct Ho as [[_ Hn]|[_ (k & Hk & Hu)]]; [by destruct (Hn i)|].
    intros j. case_decide; [done|]. intros Hj. apply Hu in Hj as ->. by apply Hu in Hi as ->.
Qed.

Lemma reachable_owned s : reachable s -> owned s.
Proof.
  induction 1 as [|s s' _ IH Hs]; [|by eapply step_owned].
  left. by split.
Qed.

(** C12: The spin lock excludes: in every interleaving of any number of
    processors at most one is between [lock()] and [unlock()]; the byte says
    whether one is; and when it is clear the next test-and-set of a waiting
    processor gets in. *)
Theorem mutual_exclusion s (Hr : reachable s) :
  (forall i j, at_ s i = Inside -> at_ s j = Inside -> i = j) /\
  (isLocked (locked s) = true <-> exists i, at_ s i = Inside) /\
  (forall i, at_ s i = Spinning -> locked s = false -> at_ (lock_step i s) i = Inside).
Proof.
  destruct (reachable_owned s Hr) as [[Hl Hn]|[Hl (k & Hk & Hu)]]; unfold isLocked; split_and!.
  - intros i j Hi. by destruct (Hn i).
  - rewrite Hl. split; [done|]. intros [i Hi]. by destruct (Hn i).
  - intros i _ _. unfold lock_step. rewrite Hl. cbn. unfold move. by rewrite decide_True.
  - intros i j Hi Hj. apply Hu in Hi, Hj. congruence.
  - split; [eauto|done].
  - intros i _. congruence.
Qed.

(** Two processors, the second waiting while the first is inside. *)
Lemma mutual_exclusion_witness :
  let s := lock_step 1 (call_lock 1 (lock_step 0 (call_lock 0 initial))) in
  reachable s /\ at_ s 0 = Inside /\ at_ s 1 <> Inside.
Proof.
  intros s. assert (Hr : reachable s).
  { repeat (eapply reach_step; [|first [apply step_call; reflexivity|apply step_lock; reflexivity]]).
    apply reach_initial. }
  split; [exact Hr|]. split; [reflexivity|]. intros H.
  destruct (mutual_exclusion s Hr) as [Hx _]. discriminate (Hx 0%nat 1%nat eq_refl H).
Defined.

End Lock.
