(* ===== verification/Pit.v ===== *)
(** * The programmable interval timer: [PIT/pit.cpp] and [PIT/pit.hpp]

    The interrupt handler advances [tick]; a waiting loop reads it again and
    again, so the waits run over the list of the values they will read.  A
    division by zero traps ([Fault]). *)

From S2P Require Import Prelude PortIO.
#[local] Open Scope Z_scope.
#[local] Open Scope machine_scope.

Module Pit.

Definition PIT_DEFAULT_FREQUENCE : Z := 100.

Definition div64 (a b : Z) : result Z := if b =? 0 then Fault else Ret (a / b).

Definition MS_TO_PIT (ms : Z) : result Z := div64 100 ms.
Definition PIT_TO_MS (freq : Z) : result Z := div64 100 freq.

Record t : Type := mk {
  isInit : bool; isScheduling : bool; tick : Z; frequence : Z; pit_lock : bool;
}.

Definition initial : t := mk false false 0 PIT_DEFAULT_FREQUENCE false.

Definition with_tick (k : Z) (s : t) : t := mk (isInit s) (isScheduling s) k (frequence s) (pit_lock s).
Definition with_frequence (f : Z) (s : t) : t := mk (isInit s) (isScheduling s) (tick s) f (pit_lock s).
Definition with_lock (b : bool) (s : t) : t := mk (isInit s) (isScheduling s) (tick s) (frequence s) b.
Definition with_init (s : t) : t := mk true (isScheduling s) (tick s) (frequence s) (pit_lock s).
Definition with_scheduling (s : t) : t := mk (isInit s) true (tick s) (frequence s) (pit_lock s).

(** [while (tick < target);]: what is left of the readings. *)
Fixpoint wait_tick (readings : list Z) (target : Z) : result (list Z) :=
  match readings with
  | [] => Diverge
  | k :: readings => if k <? target then wait_tick readings target else Ret readings
  end.

Definition sleep (seconds : Z) (readings : list Z) (s : t) : result (list Z) :=
  wait_tick readings (tick s +64 seconds *64 frequence s).

Definition mSleep (ms : Z) (readings : list Z) (s : t) : result (list Z) :=
  wait_tick readings (tick s +64 ms *64 (frequence s / 100)).

Definition getTick (s : t) : Z := tick s.

Definition getFrequence (input : PortIO.device) (s : t) (h : PortIO.history) :
    result (Z * t * PortIO.history) :=
  held ← spin_lock (pit_lock s);
  let h := PortIO.outb 0x43 0 h in
  let '(lo, h) := PortIO.inb input 0x40 h in
  let '(hi, h) := PortIO.inb input 0x40 h in
  f ← div64 1193180 (Z.lor lo (Z.shiftl hi 8));
  Ret (f, with_lock false (with_lock held s), h).

(** The clamped value is overwritten by the next statement. *)
Definition setFrequence (f : Z) (s : t) (h : PortIO.history) : result (t * PortIO.history) :=
  held ← spin_lock (pit_lock s);
  let s := with_lock held s in
  let s := if f <? 19 then with_frequence 19 s else s in
  let s := with_frequence f s in
  div ← div64 1193180 (frequence s);
  let h := PortIO.outb 0x43 0x36 h in
  let h := PortIO.outb 0x40 (u8 div) h in
  let h := PortIO.outb 0x40 (u8 (Z.shiftr div 8)) h in
  Ret (with_lock false s, h).

(** The handler, over the rest [S] of the kernel's state and its scheduler. *)
Definition pitHandler {S} (switchTask : t * S -> result (t * S)) (st : t * S) : result (t * S) :=
  let st := (with_tick (tick st.1 +64 1) st.1, st.2) in
  if isScheduling st.1 then switchTask st else Ret st.

(** [register] is [idt::registerInterruptHandler(idt::IRQ0, pitHandler)]. *)
Definition init {S} (register : PortIO.history -> S -> result (PortIO.history * S)) (f : Z) (s : t)
    (h : PortIO.history) (rest : S) : result (t * PortIO.history * S) :=
  if isInit s then Ret (s, h, rest) else
  '(s, h) ← setFrequence f s h;
  '(h, rest) ← register h rest;
  Ret (with_init s, h, rest).

(** * Properties *)

(** [setFrequence] traps for the frequency 0 and otherwise stores the
    frequency unchanged (the clamp to 19 Hz is without effect), takes and
    releases the lock, and programs the 16 low bits of [1193180 / f]: for a
    frequency below 19 Hz the divisor does not fit and is cut. *)
Theorem setFrequence_programs f s h (Hf : 0 <= f) (Hl : pit_lock s = false) :
  setFrequence f s h =
    (if f =? 0 then Fault
     else Ret (with_frequence f s,
               PortIO.Out 8 0x40 ((1193180 / f) / 256 mod 256) ::
               PortIO.Out 8 0x40 ((1193180 / f) mod 256) :: PortIO.Out 8 0x43 0x36 :: h)) /\
  (19 <= f -> (1193180 / f) mod 256 + 256 * ((1193180 / f) / 256 mod 256) = 1193180 / f) /\
  (0 < f < 19 -> (1193180 / f) mod 256 + 256 * ((1193180 / f) / 256 mod 256) < 1193180 / f).
Proof.
  split; [|split].
  - unfold setFrequence. rewrite Hl. cbn [spin_lock mbind result_bind].
    assert (Hs : forall b : bool,
      let s' := with_frequence f (if b then with_frequence 19 (with_lock true s) else with_lock true s) in
      frequence s' = f /\ with_lock false s' = with_frequence f s).
    { intros []; destruct s; cbn in *; by subst. }
    destruct (Hs (f <? 19)) as [-> ->]. unfold div64. destruct (f =? 0); [done|].
    cbn [mbind result_bind]. unfold PortIO.outb. rewrite !wrap_idemp.
    by rewrite Z.shiftr_div_pow2 by lia.
  - intros H. assert (0 <= 1193180 / f <= 62799).
    { split; [apply Z.div_pos; lia|]. apply Z.div_le_upper_bound; lia. }
    pose proof (Z.div_mod (1193180 / f) 256). rewrite (Z.mod_small ((1193180 / f) / 256)); [lia|].
    split; [apply Z.div_pos; lia|apply Z.div_lt_upper_bound; lia].
  - intros H. assert (65536 <= 1193180 / f) by (apply Z.div_le_lower_bound; lia).
    pose proof (Z.mod_pos_bound (1193180 / f) 256). pose proof (Z.mod_pos_bound ((1193180 / f) / 256) 256). lia.
Qed.

Lemma setFrequence_programs_witness :
  setFrequence 100 initial [] =
    Ret (initial, [PortIO.Out 8 0x40 46; PortIO.Out 8 0x40 155; PortIO.Out 8 0x43 0x36]).
Proof.
  destruct (setFrequence_programs 100 initial []) as [H _]; [lia|reflexivity|].
  rewrite H. reflexivity.
Defined.

(** At the default 100 Hz a tick is 10 ms, but [mSleep] waits a tick per
    millisecond. *)
Example mSleep_ticks s readings :
  frequence s = 100 -> tick s = 0 -> mSleep 50 readings s = wait_tick readings 50.
Proof. intros H1 H2. unfold mSleep. by rewrite H1, H2. Qed.

End Pit.
