(* ===== verification/Terminal.v ===== *)
(** * The terminal: [drivers/display/terminal/terminal.cpp]

    The loader's [write] function is the output: a list of events, latest
    first.  Texts are lists of bytes; [printf] prints its text character by
    character through [_putchar], so a formatted text is [puts] of the list
    that [Printf] gives. *)

From S2P Require Import Prelude PortIO Printf.
#[local] Open Scope Z_scope.
#[local] Open Scope machine_scope.

Module Terminal.

(** What [write] was given: a text, or the length that asks for a refresh. *)
Inductive event : Type :=
| Write (text : list Z)
| Refresh.

Record t : Type := mk {
  columns : Z; rows : Z; colour : list Z; out : list event; termLock : bool;
}.

Definition emit (e : event) (s : t) : t := mk (columns s) (rows s) (colour s) (e :: out s) (termLock s).
Definition with_colour (c : list Z) (s : t) : t := mk (columns s) (rows s) c (out s) (termLock s).
Definition with_lock (b : bool) (s : t) : t := mk (columns s) (rows s) (colour s) (out s) b.

Definition ESC : Z := 27.
Definition white : list Z := [ESC; 91; 48; 109].

Definition init (cols rows_ : Z) (s : t) : t := mk (u16 cols) (u16 rows_) (colour s) (out s) (termLock s).

Definition print (text : list Z) (s : t) : result t :=
  held ← spin_lock (termLock s);
  Ret (with_lock false (emit (Write text) (with_lock held s))).

(** [char2str] of a NUL is the empty string. *)
Definition printc (c : Z) (s : t) : result t := print (if c =? 0 then [] else [c]) s.

Definition _putchar := printc.

(** [printf]'s text. *)
Fixpoint puts (text : list Z) (s : t) : result t :=
  match text with
  | [] => Ret s
  | c :: text => s ← _putchar c s; puts text s
  end.

(** [printi]: the digits, least significant first; [temp] has ten places. *)
Fixpoint digits_loop (fuel : nat) (num : Z) (temp : list Z) : result (list Z) :=
  match fuel with
  | O => Diverge
  | S fuel =>
      if 0 <? num then
        if (10 <=? length temp)%nat then Fault
        else digits_loop fuel (num / 10) (temp ++ [num mod 10 + 48])
      else Ret temp
  end.

Definition printi (num : Z) (s : t) : result t :=
  if num =? 0 then printc 48 s else
  '(num, s) ← (if num <? 0 then s ← printc 45 s; Ret (s32 (- num), s) else Ret (num, s));
  let '(num, temp) := if num <=? 0 then (s32 (- Z.quot num 10), [56]) else (num, []) in
  temp ← digits_loop 11 num temp;
  puts (rev temp) s.

Definition setcolour (ascii_colour : list Z) (s : t) : result t := puts ascii_colour (with_colour ascii_colour s).
Definition resetcolour (s : t) : result t := puts white (with_colour white s).

Definition reset (s : t) : result t :=
  held ← spin_lock (termLock s);
  Ret (with_lock false (emit Refresh (with_lock held s))).

(** [clear], over [turbo::keyboard::clearBuffer] on the rest of the state. *)
Definition clear {K} (clearBuffer : K -> result K) (ansii_colour : list Z) (s : t) (k : K) : result (t * K) :=
  k ← clearBuffer k;
  s ← setcolour ansii_colour s;
  s ← puts [ESC; 91; 72; ESC; 91; 50; 74] s;
  s ← reset s;
  Ret (s, k).

(** The escape sequence of a cursor movement by one line. *)
Definition cursor_move (final : Z) (s : t) : result t := puts [ESC; 91; 49; final] s.
Definition cursor_up := cursor_move 65.
Definition cursor_down := cursor_move 66.
Definition cursor_right := cursor_move 67.
Definition cursor_left := cursor_move 68.

(** [columns / 2 - strlen(text) / 2], of type [size_t]. *)
Definition margin (text : list Z) (s : t) : Z := u64 (columns s / 2 - Z.of_nat (length text) / 2).

Definition spaces (n : Z) (s : t) : result t := for_loop (Z.to_nat n) 0 (fun _ => printc 32) s.

Definition center (text : list Z) (s : t) : result t :=
  s ← spaces (margin text s) s;
  s ← print text s;
  spaces (margin text s) s.

Definition check (message : list Z) (s : t) : result t := puts (message ++ [32]) s.
Definition okerr (ok : bool) (s : t) : result t := puts (if ok then [79; 75; 10] else [88; 88; 10]) s.

(** ** Properties *)

(** With the lock free a text is one event, and the lock is free again. *)
Definition append (es : list event) (s : t) : t := mk (columns s) (rows s) (colour s) (es ++ out s) (termLock s).

Lemma append_app e1 e2 s : append e1 (append e2 s) = append (e1 ++ e2) s.
Proof. unfold append. cbn. by rewrite app_assoc. Qed.

Lemma print_run text s : termLock s = false -> print text s = Ret (append [Write text] s).
Proof. intros Hl. unfold print. rewrite Hl. destruct s. cbn in *. by subst. Qed.

Definition char_event (c : Z) : event := Write (if c =? 0 then [] else [c]).

Lemma puts_run text s : termLock s = false -> puts text s = Ret (append (rev (map char_event text)) s).
Proof.
  revert s. induction text as [|c text IH]; intros s Hl; [by destruct s|]. cbn [puts].
  unfold _putchar, printc. rewrite print_run by done. cbn [mbind result_bind]. rewrite IH by done.
  rewrite append_app. done.
Qed.

(** While somebody holds the lock, whoever prints spins: an interrupt handler
    that prints never returns to the code that would release it. *)
Lemma print_deadlock text s : termLock s = true -> print text s = Diverge.
Proof. intros Hl. unfold print. by rewrite Hl. Qed.

Lemma puts_deadlock text s : termLock s = true -> text <> [] -> puts text s = Diverge.
Proof.
  intros Hl Ht. destruct text as [|c text]; [done|]. cbn [puts]. unfold _putchar, printc. by rewrite print_deadlock.
Qed.

Lemma spaces_run n s : termLock s = false ->
  spaces n s = Ret (append (replicate (Z.to_nat n) (Write [32])) s).
Proof.
  unfold spaces. generalize 0 as i. generalize (Z.to_nat n) as k. intros k. revert s.
  induction k as [|k IH]; intros s i Hl; [by destruct s|]. cbn [for_loop]. unfold printc. cbn [Z.eqb].
  rewrite print_run by done. cbn [mbind result_bind]. rewrite IH by done. rewrite append_app. f_equal. f_equal.
  by rewrite <- replicate_cons_app.
Qed.

Ltac half_lia :=
  change (2 ^ 64) with 18446744073709551616 in *; change (2 ^ 63) with 9223372036854775808 in *;
  change (2 ^ 32) with 4294967296 in *; change (2 ^ 16) with 65536 in *;
  Z.to_euclidean_division_equations; lia.

(** [center] puts the text between two margins of spaces that center it;
    for a text longer than the line the margin wraps around, and more than
    2^63 spaces are printed before it. *)
Theorem center_margins text s (Hl : termLock s = false) (Hc : 0 <= columns s < 2 ^ 16)
  (Ht : Z.of_nat (length text) < 2 ^ 32) :
  let n := margin text s in
  center text s = Ret (append (replicate (Z.to_nat n) (Write [32]) ++ [Write text] ++
                               replicate (Z.to_nat n) (Write [32])) s) /\
  (Z.of_nat (length text) <= columns s ->
     n = columns s / 2 - Z.of_nat (length text) / 2 /\ columns s - 2 <= 2 * n + Z.of_nat (length text) <= columns s + 2) /\
  (columns s + 2 <= Z.of_nat (length text) -> 2 ^ 63 < n).
Proof.
  cbn zeta. split; [|split].
  - unfold center. rewrite spaces_run by done. cbn [mbind result_bind]. rewrite print_run by done.
    cbn [mbind result_bind]. rewrite append_app, spaces_run by done. rewrite append_app. done.
  - intros Hle. unfold margin. rewrite wrap_small by half_lia. half_lia.
  - intros Hgt. unfold margin, wrap.
    rewrite <- (Z.mod_unique _ (2 ^ 64) (-1) (columns s / 2 - Z.of_nat (length text) / 2 + 2 ^ 64)) by half_lia.
    half_lia.
Qed.

Lemma center_margins_witness :
  let s := mk 80 25 [] [] false in
  center [72; 105] s = Ret (append (replicate 39 (Write [32]) ++ [Write [72; 105]] ++ replicate 39 (Write [32])) s).
Proof.
  cbn zeta.
  destruct (center_margins [72; 105] (mk 80 25 [] [] false)) as [H _];
    [reflexivity|cbn; lia|cbn; lia|]. exact H.
Defined.

(** The digit loop leaves the digits of the number after what [temp] held. *)
Lemma digits_loop_spec fuel num temp k :
  0 <= num < 10 ^ Z.of_nat k -> (length temp + k <= 10)%nat -> (k < fuel)%nat ->
  exists ds, digits_loop fuel num temp = Ret (temp ++ ds) /\
    Forall (fun c => 48 <= c < 58) ds /\ Printf.digits_value 10 (rev ds) = num /\
    (0 < num -> head (rev ds) <> Some 48 /\ ds <> []).
Proof.
  revert num temp k. induction fuel as [|fuel IH]; intros num temp k Hn Hl Hf; [lia|]. cbn [digits_loop].
  destruct (Z.ltb_spec 0 num) as [Hpos|Hneg].
  2:{ exists []. rewrite app_nil_r. replace num with 0 by lia. split_and!; [done|apply Forall_nil; exact I|done|lia]. }
  destruct k as [|k]; [simpl in Hn; lia|]. rewrite Nat2Z.inj_succ, Z.pow_succ_r in Hn by lia.
  destruct (Nat.leb_spec 10 (length temp)) as [|_]; [lia|].
  pose proof (Z.div_mod num 10). pose proof (Z.mod_pos_bound num 10).
  destruct (IH (num / 10) (temp ++ [num mod 10 + 48]) k) as (ds & Hr & Hd & Hv & Hh);
    [|rewrite length_app; cbn; lia|lia|].
  { split; [apply Z.div_pos; lia|apply Z.div_lt_upper_bound; lia]. }
  exists (num mod 10 + 48 :: ds). rewrite Hr, <- app_assoc. split_and!; [done|constructor; [lia|done]| |].
  - cbn [rev]. rewrite Printf.digits_value_snoc, Hv. unfold Printf.char_digit. destruct (Z.ltb_spec (num mod 10 + 48) 58); lia.
  - intros _. split; [|done]. cbn [rev]. destruct (decide (0 < num / 10)) as [Hq|Hq].
    + destruct (Hh Hq) as [Hh' Hne]. destruct (rev ds) as [|c ds'] eqn:E; [|done].
      apply (f_equal (@rev Z)) in E. by rewrite rev_involutive in E.
    + destruct ds as [|c ds]; [cbn; intros [=]; lia|]. exfalso.
      assert (num / 10 = 0) as Hz by lia. rewrite Hz in Hr. destruct fuel; [discriminate|]. cbn in Hr.
      injection Hr as Hr. apply (f_equal length) in Hr. rewrite !length_app in Hr. cbn in Hr. lia.
Qed.

(** [printi] prints the decimal numeral of every [int], the least one
    included, whose negation is not an [int]: a minus sign for the negative
    ones, then digits whose value is the magnitude, without a leading zero, and
    the ten places of [temp] are enough. *)
Theorem printi_numeral num s (Hn : - 2 ^ 31 <= num < 2 ^ 31) (Hl : termLock s = false) :
  exists ds, printi num s = Ret (append (rev (map char_event ((if num <? 0 then [45] else []) ++ ds))) s) /\
    Forall (fun c => 48 <= c < 58) ds /\ ds <> [] /\ Printf.digits_value 10 ds = Z.abs num /\
    (num <> 0 -> head ds <> Some 48).
Proof.
  unfold printi. destruct (Z.eqb_spec num 0) as [->|H0].
  { exists [48]. unfold printc. rewrite print_run by done. split_and!; [done|repeat constructor; lia|done|done|done]. }
  destruct (decide (num = - 2 ^ 31)) as [->|Hm].
  { exists [50; 49; 52; 55; 52; 56; 51; 54; 52; 56].
    replace (- 2 ^ 31 <? 0) with true by reflexivity. unfold printc at 1. rewrite print_run by done.
    cbn [mbind result_bind].
    replace (s32 (- - 2 ^ 31) <=? 0) with true by reflexivity.
    replace (s32 (- Z.quot (s32 (- - 2 ^ 31)) 10)) with 214748364 by reflexivity.
    cbv [mbind result_bind]. replace (digits_loop 11 214748364 [56]) with (Ret [56; 52; 54; 51; 56; 52; 55; 52; 49; 50]) by reflexivity.
    rewrite puts_run by done. rewrite append_app. split_and!; [done|repeat constructor; lia|done|reflexivity|done]. }
  set (sg := if num <? 0 then [45] else []).
  assert ((if num <? 0 then s ← printc 45 s; Ret (s32 (- num), s) else Ret (num, s)) =
          Ret (Z.abs num, append (rev (map char_event sg)) s)) as ->.
  { unfold sg. destruct (Z.ltb_spec num 0).
    - unfold printc. rewrite print_run by done. cbn [mbind result_bind]. f_equal. f_equal.
      unfold swrap. change (2 ^ 32) with 4294967296. change (2 ^ (32 - 1)) with 2147483648.
      change (2 ^ 31) with 2147483648 in *. rewrite Z.mod_small by lia. case_Zb; lia.
    - rewrite Z.abs_eq by lia. by destruct s. }
  cbn [mbind result_bind]. destruct (Z.leb_spec (Z.abs num) 0); [lia|].
  destruct (digits_loop_spec 11 (Z.abs num) [] 10) as (ds & -> & Hd & Hv & Hh); [|cbn; lia..|].
  { change (10 ^ Z.of_nat 10) with 10000000000. change (2 ^ 31) with 2147483648 in *. lia. }
  cbn [mbind result_bind app]. destruct Hh as [Hh Hne]; [lia|].
  exists (rev ds). rewrite puts_run by done. rewrite append_app, map_app, rev_app_distr.
  split_and!; [done|by apply Forall_rev| |done|done].
  intros E. apply Hne. rewrite <- (rev_involutive ds), E. done.
Qed.

Lemma printi_numeral_witness :
  exists ds, printi (-40) (mk 80 25 [] [] false) =
    Ret (append (rev (map char_event (45 :: ds))) (mk 80 25 [] [] false)) /\ Printf.digits_value 10 ds = 40.
Proof.
  destruct (printi_numeral (-40) (mk 80 25 [] [] false)) as (ds & Hr & _ & _ & Hv & _); [lia|reflexivity|].
  exists ds. split; [exact Hr|exact Hv].
Defined.

End Terminal.
