(* ===== verification/Serial.v ===== *)
(** * The serial port: [drivers/display/serial/serial.cpp]

    The kernel's log goes out of the first port character by character, each
    after a poll of the line status; what comes in is echoed on both the
    terminal and the port.  [vfctprintf] hands the characters of the text that
    [Printf] gives to [printc] one by one, so a formatted text is a list here. *)

From S2P Require Import Prelude PortIO Terminal.
#[local] Open Scope Z_scope.
#[local] Open Scope machine_scope.

Module Serial.

Definition COM1 : Z := 0x3F8.

Record t : Type := mk { isInit : bool; serialLock : bool }.

Definition with_init (s : t) : t := mk true (serialLock s).
Definition with_lock (b : bool) (s : t) : t := mk (isInit s) b.

Definition check (s : t) : bool := if isInit s then true else false.

Section Device.
Context (input : PortIO.device).

Definition is_transmit_empty (h : PortIO.history) : Z * PortIO.history :=
  let '(v, h) := PortIO.inb input (COM1 + 5) h in (Z.land v 0x20, h).

Definition received (h : PortIO.history) : Z * PortIO.history :=
  let '(v, h) := PortIO.inb input (COM1 + 5) h in (Z.land v 1, h).

(** [while (!condition());] *)
Fixpoint wait_for (condition : PortIO.history -> Z * PortIO.history) (fuel : nat) (h : PortIO.history)
  : result PortIO.history :=
  match fuel with
  | O => Diverge
  | S fuel =>
      let '(v, h) := condition h in
      if v =? 0 then wait_for condition fuel h else Ret h
  end.

Definition read (fuel : nat) (h : PortIO.history) : result (Z * PortIO.history) :=
  h ← wait_for received fuel h;
  let '(v, h) := PortIO.inb input COM1 h in Ret (s8 v, h).

Definition printc (fuel : nat) (s : t) (c : Z) (h : PortIO.history) : result PortIO.history :=
  if negb (check s) then Ret h else
  h ← wait_for is_transmit_empty fuel h;
  Ret (PortIO.outb COM1 c h).

(** [vfctprintf(&printc, ...)] of a text. *)
Fixpoint put_text (fuel : nat) (s : t) (text : list Z) (h : PortIO.history) : result PortIO.history :=
  match text with
  | [] => Ret h
  | c :: text => h ← printc fuel s c h; put_text fuel s text h
  end.

Definition serialPrintf (fuel : nat) (text : list Z) (s : t) (h : PortIO.history) : result (t * PortIO.history) :=
  held ← spin_lock (serialLock s);
  let s := with_lock held s in
  h ← put_text fuel s text h;
  Ret (with_lock false s, h).

Definition log (fuel : nat) (text : list Z) (s : t) (h : PortIO.history) : result (t * PortIO.history) :=
  held ← spin_lock (serialLock s);
  let s := with_lock held s in
  h ← put_text fuel s [91; 76; 79; 71; 93; 32] h;
  h ← put_text fuel s text h;
  h ← put_text fuel s [10] h;
  Ret (with_lock false s, h).

Definition newline (fuel : nat) : t -> PortIO.history -> result (t * PortIO.history) := serialPrintf fuel [10].

Definition COM1_Handler (fuel : nat) (s : t) (term : Terminal.t) (h : PortIO.history)
  : result (t * Terminal.t * PortIO.history) :=
  '(c, h) ← read fuel h;
  '(c, s, term, h) ←
    (if c =? 13 then Ret (10, s, term, h)
     else if (c =? 8) || (c =? 127) then
       term ← Terminal.puts [8; 32] term;
       '(s, h) ← serialPrintf fuel [8; 32] s h;
       Ret (8, s, term, h)
     else Ret (c, s, term, h));
  term ← Terminal.puts [c] term;
  '(s, h) ← serialPrintf fuel [c] s h;
  Ret (s, term, h).

(** [register] is [registerInterruptHandler(idt::IRQ4, COM1_Handler)] on the
    rest of the kernel's state. *)
Definition init {K} (fuel : nat) (register : PortIO.history -> K -> result (PortIO.history * K)) (s : t)
    (h : PortIO.history) (k : K) : result (t * PortIO.history * K) :=
  if isInit s then Ret (s, h, k) else
  let h := PortIO.outb (COM1 + 1) 0x00 h in
  let h := PortIO.outb (COM1 + 3) 0x80 h in
  let h := PortIO.outb (COM1 + 0) 0x03 h in
  let h := PortIO.outb (COM1 + 1) 0x00 h in
  let h := PortIO.outb (COM1 + 3) 0x03 h in
  let h := PortIO.outb (COM1 + 2) 0xC7 h in
  let h := PortIO.outb (COM1 + 4) 0x0B h in
  '(s, h) ← serialPrintf fuel Terminal.white s h;
  '(h, k) ← register h k;
  let h := PortIO.outb (COM1 + 1) 0x01 h in
  Ret (with_init s, h, k).

(** ** The protocol of the line *)

Definition status (h : PortIO.history) : Z := (PortIO.inb input (COM1 + 5) h).1.
Definition ready (bit : Z) (h : PortIO.history) : bool := negb (Z.land (status h) bit =? 0).
Definition polled (h : PortIO.history) : PortIO.history := PortIO.In 8 (COM1 + 5) :: h.
Definition sent (c : Z) (h : PortIO.history) : PortIO.history := PortIO.Out 8 COM1 (u8 c) :: h.

(** What a transmitter may do: poll while the line is busy, and send the next
    byte right after a poll that found it free. *)
Inductive transmits : list Z -> PortIO.history -> PortIO.history -> Prop :=
| transmits_nil h : transmits [] h h
| transmits_wait l h h' : ready 0x20 h = false -> transmits l (polled h) h' -> transmits l h h'
| transmits_byte c l h h' : ready 0x20 h = true -> transmits l (sent c (polled h)) h' -> transmits (c :: l) h h'.

Lemma transmits_app l1 l2 h1 h2 h3 : transmits l1 h1 h2 -> transmits l2 h2 h3 -> transmits (l1 ++ l2) h1 h3.
Proof.
  induction 1 as [|l h h' Hr _ IH|c l h h' Hr _ IH]; intros H2; cbn [app];
    [done|apply transmits_wait; auto|apply transmits_byte; auto].
Qed.

(** After less than [n] polls the bit is set. *)
Fixpoint within (bit : Z) (n : nat) (h : PortIO.history) : bool :=
  match n with O => false | S n => ready bit h || within bit n (polled h) end.

Lemma wait_for_spec n h c : within 0x20 n h = true ->
  exists h', wait_for is_transmit_empty n h = Ret (polled h') /\ transmits [c] h (sent c (polled h')).
Proof.
  induction n as [|n IH] in h |- *; [done|]. cbn [within wait_for].
  change (is_transmit_empty h) with (Z.land (status h) 32, polled h). cbv iota beta. unfold ready at 1.
  destruct (Z.eqb_spec (Z.land (status h) 32) 0) as [E|E]; cbn [negb orb].
  - intros (h' & Hw & Ht)%IH. exists h'. split; [exact Hw|]. apply transmits_wait; [|done].
    unfold ready. by rewrite E.
  - intros _. exists h. split; [done|]. apply transmits_byte; [|constructor].
    unfold ready. by destruct (Z.eqb_spec (Z.land (status h) 32) 0).
Qed.

Lemma put_text_spec n s text h :
  isInit s = true -> (forall h, within 0x20 n h = true) ->
  exists h', put_text n s text h = Ret h' /\ transmits text h h'.
Proof.
  intros Hi Hn. revert h. induction text as [|c text IH]; intros h; [by exists h; split; [|constructor]|].
  cbn [put_text]. unfold printc, check. rewrite Hi. cbn [negb].
  destruct (wait_for_spec n h c (Hn h)) as (h' & -> & Ht). cbn [mbind result_bind].
  change (PortIO.outb COM1 c (polled h')) with (sent c (polled h')).
  destruct (IH (sent c (polled h'))) as (h'' & -> & Ht'). exists h''. split; [done|].
  apply (transmits_app [c] text _ _ _ Ht Ht').
Qed.

Lemma put_text_uninit n s text h : isInit s = false -> put_text n s text h = Ret h.
Proof.
  intros Hi. revert h. induction text as [|c text IH]; intros h; [done|]. cbn [put_text]. unfold printc, check.
  rewrite Hi. apply IH.
Qed.

(** Before [init], or on a line that gets free, a log line returns. *)
Lemma log_returns n text s h :
  serialLock s = false -> (isInit s = true -> forall h, within 0x20 n h = true) ->
  exists h', log n text s h = Ret (s, h').
Proof.
  intros Hl Hn. unfold log. rewrite Hl. cbn [spin_lock mbind result_bind].
  assert (H : forall x h, exists h', put_text n (with_lock true s) x h = Ret h').
  { intros x h0. destruct (isInit s) eqn:Hi; [|eexists; by apply put_text_uninit].
    destruct (put_text_spec n (with_lock true s) x h0 Hi (Hn eq_refl)) as (h' & -> & _). by exists h'. }
  destruct (H [91; 76; 79; 71; 93; 32] h) as (h1 & ->). cbn [mbind result_bind].
  destruct (H text h1) as (h2 & ->). cbn [mbind result_bind]. destruct (H [10] h2) as (h3 & ->).
  exists h3. destruct s; cbn in *; by subst.
Qed.

(** C37: a log line that finds the lock free goes out as the protocol of the
    line demands, between its tag and a newline, when every character's wait
    ends within [n] polls; before [init] nothing is sent; while the lock is held
    - by the code that an interrupt handler interrupted, say - it never returns. *)
Theorem log_transmits n text s h (Hn : forall h, within 0x20 n h = true) :
  (serialLock s = false -> isInit s = true ->
     exists h', log n text s h = Ret (s, h') /\
       transmits ([91; 76; 79; 71; 93; 32] ++ text ++ [10]) h h') /\
  (serialLock s = false -> isInit s = false -> log n text s h = Ret (s, h)) /\
  (serialLock s = true -> log n text s h = Diverge).
Proof.
  unfold log. split; [|split].
  - intros Hl Hi. rewrite Hl. cbn [spin_lock mbind result_bind].
    destruct (put_text_spec n (with_lock true s) [91; 76; 79; 71; 93; 32] h Hi Hn) as (h1 & -> & H1).
    cbn [mbind result_bind].
    destruct (put_text_spec n (with_lock true s) text h1 Hi Hn) as (h2 & -> & H2). cbn [mbind result_bind].
    destruct (put_text_spec n (with_lock true s) [10] h2 Hi Hn) as (h3 & -> & H3). cbn [mbind result_bind].
    exists h3. split; [destruct s; cbn in *; by subst|].
    eapply transmits_app; [exact H1|]. by eapply transmits_app.
  - intros Hl Hi. rewrite Hl. cbn [spin_lock mbind result_bind].
    rewrite (put_text_uninit n (with_lock true s) _ h Hi). cbn [mbind result_bind].
    rewrite (put_text_uninit n (with_lock true s) _ h Hi). cbn [mbind result_bind].
    rewrite (put_text_uninit n (with_lock true s) _ h Hi). destruct s; cbn in *; by subst.
  - intros Hl. by rewrite Hl.
Qed.

(** An interrupt of the port while the interrupted code logs never returns. *)
Lemma handler_deadlock fuel s term h c h' :
  serialLock s = true -> read fuel h = Ret (c, h') -> Terminal.termLock term = false ->
  COM1_Handler fuel s term h = Diverge.
Proof.
  intros Hl Hr Ht. unfold COM1_Handler. rewrite Hr. cbn [mbind result_bind].
  destruct (c =? 13); [|destruct ((c =? 8) || (c =? 127))];
    rewrite ?Terminal.puts_run by done; cbn [mbind result_bind];
    rewrite ?Terminal.puts_run by done; cbn [mbind result_bind];
    unfold serialPrintf; by rewrite Hl.
Qed.

(** The colour that [init] sends is lost: [printc] waits for [isInit]. *)
Lemma init_sends_no_colour {K} fuel (register : PortIO.history -> K -> result (PortIO.history * K)) s h k k' :
  isInit s = false -> serialLock s = false -> (forall h, register h k = Ret (h, k')) ->
  exists h', init fuel register s h k = Ret (with_init s, h', k') /\
    Forall (fun a => match a with PortIO.Out 8 p v => p = COM1 -> v = 3 | _ => True end)
      (take 8 h') /\ drop 8 h' = h.
Proof.
  intros Hi Hl Hr. unfold init, serialPrintf. rewrite Hi, Hl. cbn [spin_lock mbind result_bind].
  rewrite put_text_uninit by done. cbn [mbind result_bind]. rewrite Hr. cbn [mbind result_bind].
  eexists. split; [destruct s; cbn in *; by subst|]. split; [|done].
  repeat (apply Forall_cons; split; [cbn; done|]). by apply Forall_nil.
Qed.

End Device.

(** A line that is always free. *)
Lemma log_transmits_witness :
  let input := fun _ _ _ => 0x20 in
  exists h', log input 1 [104; 105] (mk true false) [] = Ret (mk true false, h') /\
    transmits input [91; 76; 79; 71; 93; 32; 104; 105; 10] [] h'.
Proof.
  cbn zeta.
  destruct (log_transmits (fun _ _ _ => 0x20) 1 [104; 105] (mk true false) [] (fun h => eq_refl)) as (H & _ & _).
  destruct (H eq_refl eq_refl) as (h' & E & Ht). exists h'. split; [exact E|exact Ht].
Defined.

End Serial.
