(* ===== verification/Keyboard.v ===== *)
(** * The PS/2 keyboard: [drivers/devices/keyboard.cpp] and [scancodes.hpp]

    The interrupt handler edits two buffers in memory: [buff], what was typed
    since the last Enter, and the line [retstr] that [getLine] collects by
    polling [pressed] and [enter].  The handler may come between any two
    accesses of [getLine] to the shared variables: its places are a program
    counter, and a run is a list of events, steps of [getLine] and keys.

    Arrays of the image ([c], [retstr]) are at addresses of the byte memory; an
    index outside of [retstr] or [escapes] is a fault, the heap block [buff] is
    raw memory.  Loops to a terminator take [fuel], as in [Str]. *)

From S2P Require Import Prelude Mem PortIO Acpi Str Terminal.
#[local] Open Scope Z_scope.
#[local] Open Scope machine_scope.

Module Keyboard.

(** ** [scancodes.hpp] *)

Definition CAPSLOCK : Z := 0x3A.
Definition NUMLOCK : Z := 0x45.
Definition SCROLLLOCK : Z := 0x46.
Definition L_SHIFT_DOWN : Z := 0x2A.
Definition R_SHIFT_DOWN : Z := 0x36.
Definition L_SHIFT_UP : Z := 0xAA.
Definition R_SHIFT_UP : Z := 0xB6.
Definition CTRL_DOWN : Z := 0x1D.
Definition CTRL_UP : Z := 0x9D.
Definition ALT_DOWN : Z := 0x38.
Definition ALT_UP : Z := 0xB8.
Definition DELETE : Z := 0x53.
Definition UP : Z := 0x48.
Definition DOWN : Z := 0x50.
Definition LEFT : Z := 0x4B.
Definition RIGHT : Z := 0x4D.

(** An array of 128 characters, the ones not given are 0. *)
Definition table (l : list Z) : list Z := l ++ replicate (128 - length l) 0.

Definition escapes : list Z := seqZ 0 32 ++ replicate 95 0 ++ [0x7F].

Definition kbdus : list Z :=
  table
    [0; 27; 38; 101; 34; 39; 40; 45; 101; 95; 99; 97; 41; 61; 8; 9; 97; 122; 101; 114; 116; 121; 117;
     105; 111; 112; 94; 36; 10; 0; 113; 115; 100; 102; 103; 104; 106; 107; 108; 109; 117; 42; 0; 60;
     119; 120; 99; 118; 98; 110; 44; 59; 58; 33; 0; 42; 0; 32; 0; 0; 0; 0; 0; 0; 0; 0; 0; 0; 0; 0; 0;
     0; 0; 0; 45; 0; 0; 0; 43].

Definition kbdus_shft : list Z :=
  table
    [0; 27; 49; 50; 51; 52; 53; 54; 55; 56; 57; 48; 42; 43; 8; 9; 65; 90; 69; 82; 84; 89; 85; 73; 79;
     80; 94; 69; 10; 0; 81; 83; 68; 70; 71; 72; 74; 75; 76; 77; 37; 117; 0; 60; 87; 88; 67; 86; 66;
     78; 63; 46; 47; 83; 0; 42; 0; 32; 0; 0; 0; 0; 0; 0; 0; 0; 0; 0; 0; 0; 0; 0; 0; 0; 45; 0; 0; 0;
     43].

Definition kbdus_capsshft : list Z :=
  table
    [0; 27; 38; 101; 34; 39; 40; 45; 101; 95; 99; 97; 41; 61; 8; 9; 97; 122; 101; 114; 116; 121; 117;
     105; 111; 112; 94; 36; 10; 0; 113; 115; 100; 102; 103; 104; 106; 107; 108; 109; 117; 42; 0; 60;
     119; 120; 99; 118; 98; 110; 44; 59; 58; 33; 0; 42; 0; 32; 0; 0; 0; 0; 0; 0; 0; 0; 0; 0; 0; 0; 0;
     0; 0; 0; 45; 0; 0; 0; 43].

Definition kbdus_caps : list Z :=
  table
    [0; 27; 49; 50; 51; 52; 53; 54; 55; 56; 57; 48; 42; 43; 8; 9; 65; 90; 69; 82; 84; 89; 85; 73; 79;
     80; 94; 69; 10; 0; 81; 83; 68; 70; 71; 72; 74; 75; 76; 77; 37; 117; 0; 60; 87; 88; 67; 86; 66;
     78; 63; 46; 47; 83; 0; 42; 0; 32; 0; 0; 0; 0; 0; 0; 0; 0; 0; 0; 0; 0; 0; 0; 0; 0; 45; 0; 0; 0;
     43].

(** ** The driver's state *)

Record kbd_mod_t : Type := mkMod {
  shift : bool; ctrl : bool; alt : bool; numlock : bool; capslock : bool; scrolllock : bool;
}.

Definition no_mod : kbd_mod_t := mkMod false false false false false false.

Record t : Type := mk {
  isInit : bool; reading : bool; gi : Z; pressed : bool; enter : bool; kbd_mod : kbd_mod_t;
  buff : Z; getLine_lock : bool; memory : mem; term : Terminal.t; ports : PortIO.history;
}.

Definition with_init (s : t) : t :=
  mk true (reading s) (gi s) (pressed s) (enter s) (kbd_mod s) (buff s) (getLine_lock s) (memory s) (term s) (ports s).
Definition with_reading (b : bool) (s : t) : t :=
  mk (isInit s) b (gi s) (pressed s) (enter s) (kbd_mod s) (buff s) (getLine_lock s) (memory s) (term s) (ports s).
Definition with_gi (v : Z) (s : t) : t :=
  mk (isInit s) (reading s) v (pressed s) (enter s) (kbd_mod s) (buff s) (getLine_lock s) (memory s) (term s) (ports s).
Definition with_pressed (b : bool) (s : t) : t :=
  mk (isInit s) (reading s) (gi s) b (enter s) (kbd_mod s) (buff s) (getLine_lock s) (memory s) (term s) (ports s).
Definition with_enter (b : bool) (s : t) : t :=
  mk (isInit s) (reading s) (gi s) (pressed s) b (kbd_mod s) (buff s) (getLine_lock s) (memory s) (term s) (ports s).
Definition with_mod (m : kbd_mod_t) (s : t) : t :=
  mk (isInit s) (reading s) (gi s) (pressed s) (enter s) m (buff s) (getLine_lock s) (memory s) (term s) (ports s).
Definition with_buff (p : Z) (s : t) : t :=
  mk (isInit s) (reading s) (gi s) (pressed s) (enter s) (kbd_mod s) p (getLine_lock s) (memory s) (term s) (ports s).
Definition with_lock (b : bool) (s : t) : t :=
  mk (isInit s) (reading s) (gi s) (pressed s) (enter s) (kbd_mod s) (buff s) b (memory s) (term s) (ports s).
Definition with_memory (m : mem) (s : t) : t :=
  mk (isInit s) (reading s) (gi s) (pressed s) (enter s) (kbd_mod s) (buff s) (getLine_lock s) m (term s) (ports s).
Definition with_term (x : Terminal.t) (s : t) : t :=
  mk (isInit s) (reading s) (gi s) (pressed s) (enter s) (kbd_mod s) (buff s) (getLine_lock s) (memory s) x (ports s).
Definition with_ports (h : PortIO.history) (s : t) : t :=
  mk (isInit s) (reading s) (gi s) (pressed s) (enter s) (kbd_mod s) (buff s) (getLine_lock s) (memory s) (term s) h.

Definition set_shift (b : bool) (m : kbd_mod_t) : kbd_mod_t := mkMod b (ctrl m) (alt m) (numlock m) (capslock m) (scrolllock m).
Definition set_ctrl (b : bool) (m : kbd_mod_t) : kbd_mod_t := mkMod (shift m) b (alt m) (numlock m) (capslock m) (scrolllock m).
Definition set_alt (b : bool) (m : kbd_mod_t) : kbd_mod_t := mkMod (shift m) (ctrl m) b (numlock m) (capslock m) (scrolllock m).
Definition flip_num (m : kbd_mod_t) : kbd_mod_t :=
  mkMod (shift m) (ctrl m) (alt m) (if negb (numlock m) then true else false) (capslock m) (scrolllock m).
Definition flip_caps (m : kbd_mod_t) : kbd_mod_t :=
  mkMod (shift m) (ctrl m) (alt m) (numlock m) (if negb (capslock m) then true else false) (scrolllock m).
Definition flip_scroll (m : kbd_mod_t) : kbd_mod_t :=
  mkMod (shift m) (ctrl m) (alt m) (numlock m) (capslock m) (if negb (scrolllock m) then true else false).

Definition change_mod (f : kbd_mod_t -> kbd_mod_t) (s : t) : t := with_mod (f (kbd_mod s)) s.

(** [return table[key_code]]; the callers have [key_code < 128]. *)
Definition get_ascii_char (m : kbd_mod_t) (key_code : Z) : Z :=
  let char_of (l : list Z) := default 0 (l !! Z.to_nat key_code) in
  if negb (shift m) && negb (capslock m) then char_of kbdus
  else if shift m && negb (capslock m) then char_of kbdus_shft
  else if negb (shift m) && capslock m then char_of kbdus_caps
  else if shift m && capslock m then char_of kbdus_capsshft
  else 0.

(** [for (i = 0; i < strlen(buff); i++) buff[i] = 0]. *)
Fixpoint clear_loop (fuel : nat) (b i : Z) (m : mem) : result mem :=
  match fuel with
  | O => Diverge
  | S fuel' =>
      n ← Str.strlen fuel m b;
      if i <? n then clear_loop fuel' b (i + 1) (store8 m (b + i) 0) else Ret m
  end.

Definition clearBuffer (fuel : nat) (b : Z) (m : mem) : result mem := clear_loop fuel b 0 m.

Section Driver.
(** The arrays' addresses, the ACPI tables that [reboot] uses, and [fuel]. *)
Context (retstr c : Z) (acpi : Acpi.t) (fuel : nat).

Definition puts (text : list Z) (s : t) : result t := x ← Terminal.puts text (term s); Ret (with_term x s).
Definition cursor (move : Terminal.t -> result Terminal.t) (s : t) : result t := x ← move (term s); Ret (with_term x s).

(** [terminal::clear()], whose colour is the current one by default. *)
Definition clear (s : t) : result t :=
  '(x, m) ← Terminal.clear (clearBuffer fuel (buff s)) (Terminal.colour (term s)) (term s) (memory s);
  Ret (with_memory m (with_term x s)).

Definition clear_retstr (s : t) : t := with_memory (memset (memory s) retstr 0 1024).1 s.

Definition handle_comb (scancode : Z) (s : t) : result t :=
  let ch := get_ascii_char (kbd_mod s) scancode in
  if ctrl (kbd_mod s) && alt (kbd_mod s) && (scancode =? DELETE) then
    let '(m, h) := Acpi.reboot (memory s) acpi (ports s) in Ret (with_ports h (with_memory m s))
  else if ctrl (kbd_mod s) && ((ch =? 108) || (ch =? 76)) then
    s ← clear s;
    if reading s then Ret (with_enter true (clear_retstr s)) else Ret s
  else Ret s.

(** [strcpy(c, "\033[" final)] and the cursor's movement. *)
Definition arrow (final : Z) (move : Terminal.t -> result Terminal.t) (s : t) : result t :=
  let m := store8 (store8 (store8 (store8 (memory s) c 27) (c + 1) 91) (c + 2) final) (c + 3) 0 in
  cursor move (with_memory m s).

(** [memset(c, 0, strlen(c)); c[0] = get_ascii_char(scancode)]. *)
Definition set_char (scancode : Z) (s : t) : result t :=
  n ← Str.strlen fuel (memory s) c;
  Ret (with_memory (store8 (memset (memory s) c 0 n).1 c (get_ascii_char (kbd_mod s) scancode)) s).

Definition escape (ch : Z) (s : t) : result t :=
  if ((65 <=? ch) && (ch <=? 95)) || (ch =? 63) || (ch =? 48) then
    let i := Str.char2num ch in
    if i <? 0 then Fault else
    match escapes !! Z.to_nat i with Some e => puts [e] s | None => Fault end
  else Ret s.

Definition combination (scancode : Z) (s : t) : result t :=
  let ch := Str.char2up (memory s c) in
  s ← (if ctrl (kbd_mod s) then escape ch s
       else if alt (kbd_mod s) then puts [27; 91; ch] s else Ret s);
  handle_comb scancode s.

Definition newline (s : t) : result t :=
  s ← puts [10] s;
  m ← clearBuffer fuel (buff s) (memory s);
  Ret (with_enter true (with_memory m s)).

Definition backspace (s : t) : result t :=
  if memory s (buff s) =? 0 then Ret s else
  n ← Str.strlen fuel (memory s) (buff s);
  let s := with_memory (store8 (memory s) (buff s + (n - 1)) 0) s in
  s ← (if reading s then
         let i := gi s - 1 in
         if (i <? 0) || (1024 <=? i) then Fault
         else Ret (with_gi i (with_memory (store8 (memory s) (retstr + i) 0) s))
       else Ret s);
  puts [8; 32; 8] s.

(** [printf("%s", c); strcat(buff, c)]: [c] has one character or none. *)
Definition character (s : t) : result t :=
  let s := with_pressed true s in
  let ch := memory s c in
  s ← puts (if ch =? 0 then [] else [ch]) s;
  '(m, _) ← Str.strcat fuel (memory s) (buff s) c;
  Ret (with_memory m s).

Definition key (scancode : Z) (s : t) : result t :=
  s ← set_char scancode s;
  if alt (kbd_mod s) || ctrl (kbd_mod s) then combination scancode s
  else if memory s c =? 10 then newline s
  else if memory s c =? 8 then backspace s
  else character s.

Definition released (scancode : Z) (s : t) : t :=
  if (scancode =? L_SHIFT_UP) || (scancode =? R_SHIFT_UP) then change_mod (set_shift false) s
  else if scancode =? CTRL_UP then change_mod (set_ctrl false) s
  else if scancode =? ALT_UP then change_mod (set_alt false) s
  else s.

Definition depressed (scancode : Z) (s : t) : result t :=
  if (scancode =? L_SHIFT_DOWN) || (scancode =? R_SHIFT_DOWN) then Ret (change_mod (set_shift true) s)
  else if scancode =? CTRL_DOWN then Ret (change_mod (set_ctrl true) s)
  else if scancode =? ALT_DOWN then Ret (change_mod (set_alt true) s)
  else if scancode =? CAPSLOCK then Ret (change_mod flip_caps s)
  else if scancode =? NUMLOCK then Ret (change_mod flip_num s)
  else if scancode =? SCROLLLOCK then Ret (change_mod flip_scroll s)
  else if scancode =? UP then arrow 65 Terminal.cursor_up s
  else if scancode =? DOWN then arrow 66 Terminal.cursor_down s
  else if scancode =? RIGHT then arrow 67 Terminal.cursor_right s
  else if scancode =? LEFT then arrow 68 Terminal.cursor_left s
  else key scancode s.

Definition Keyboard_Handler (input : PortIO.device) (s : t) : result t :=
  let '(scancode, h) := PortIO.inb input 0x60 (ports s) in
  let s := with_ports h s in
  if negb (Z.land scancode 0x80 =? 0) then Ret (released scancode s) else depressed scancode s.

(** ** [getLine] and [getchar], an access to the shared variables a step *)

Inductive place : Type :=
| Acquire | SetReading | ClearLine          (* up to the loop *)
| Test | Poll | Full                        (* [while (!enter)], [if (pressed)], [if (gi >= 1023)] *)
| Await | Take | Fetch                      (* [getchar] *)
| Put (ch : Z) | Count                      (* [retstr[gi] = ch; gi++] *)
| Overflow                                  (* the message *)
| LeaveEnter (r : Z) | LeaveReading (r : Z) | LeaveIndex (r : Z) | Unlock (r : Z)
| Returned (r : Z).

Definition main_step (x : place * t) : result (place * t) :=
  let '(p, s) := x in
  match p with
  | Acquire => held ← spin_lock (getLine_lock s); Ret (SetReading, with_lock held s)
  | SetReading => Ret (ClearLine, with_reading true s)
  | ClearLine => Ret (Test, clear_retstr s)
  | Test => Ret (if enter s then LeaveEnter retstr else Poll, s)
  | Poll => Ret (if pressed s then Full else Test, s)
  | Full => Ret (if 1024 - 1 <=? gi s then Overflow else Await, s)
  | Await => Ret (if pressed s then Take else Await, s)
  | Take => Ret (Fetch, with_pressed false s)
  | Fetch => Ret (Put (memory s c), s)
  | Put ch =>
      if (gi s <? 0) || (1024 <=? gi s) then Fault
      else Ret (Count, with_memory (store8 (memory s) (retstr + gi s) ch) s)
  | Count => Ret (Test, with_gi (s32 (gi s + 1)) s)
  | Overflow => s ← puts (Str.string_bytes "
Buffer Overflow
") s; Ret (LeaveEnter 0, s)
  | LeaveEnter r => Ret (LeaveReading r, with_enter false s)
  | LeaveReading r => Ret (LeaveIndex r, with_reading false s)
  | LeaveIndex r => Ret (Unlock r, with_gi 0 s)
  | Unlock r => Ret (Returned r, with_lock false s)
  | Returned r => Ret (Returned r, s)
  end.

(** A run: steps of the code that called [getLine], and keys. *)
Inductive event : Type :=
| Main
| Key (scancode : Z).

Definition run1 (e : event) (x : place * t) : result (place * t) :=
  match e with
  | Main => main_step x
  | Key scancode => s ← Keyboard_Handler (fun _ _ _ => scancode) x.2; Ret (x.1, s)
  end.

Fixpoint run (es : list event) (x : place * t) : result (place * t) :=
  match es with
  | [] => Ret x
  | e :: es => x ← run1 e x; run es x
  end.

(** [register] is [registerInterruptHandler(idt::IRQ1, Keyboard_Handler)],
    [calloc_buff] is [calloc(1024, sizeof(char))], on the rest of the state. *)
Definition init {K} (calloc_buff : mem -> K -> result (mem * Z * K)) (register : PortIO.history -> K -> result (PortIO.history * K))
    (s : t) (k : K) : result (t * K) :=
  if isInit s then Ret (s, k) else
  '(m, p, k) ← calloc_buff (memory s) k;
  '(h, k) ← register (ports s) k;
  Ret (with_init (with_ports h (with_buff p (with_memory m s))), k).

End Driver.

(** * Properties *)

(** ** Zero-padded arrays *)

(** The [n] bytes at [p] are [w] and zeros. *)
Definition cells (n : nat) (m : mem) (p : Z) (w : list Z) : Prop :=
  forall i : nat, (i < n)%nat -> m (p + Z.of_nat i) = nth i w 0.

Definition nonzero (w : list Z) : Prop := Forall (fun ch => ch <> 0) w.

Lemma cells_str n m p w : cells n m p w -> nonzero w -> (length w < n)%nat -> Str.is_str m p w.
Proof.
  revert n p. induction w as [|ch w IH]; intros n p Hc Hw Hn; cbn [Str.is_str length] in *.
  - rewrite <- (Z.add_0_r p). exact (Hc 0%nat Hn).
  - inversion Hw; subst. destruct n as [|n]; [lia|]. split_and!; [|done|].
    + rewrite <- (Z.add_0_r p). apply (Hc 0%nat). lia.
    + apply (IH n); [|done|lia]. intros i Hi. replace (p + 1 + Z.of_nat i) with (p + Z.of_nat (S i)) by lia.
      apply (Hc (S i)). lia.
Qed.

Lemma cells_ext n m m' p w : (forall a, in_range p (Z.of_nat n) a -> m' a = m a) -> cells n m p w -> cells n m' p w.
Proof. intros He Hc i Hi. rewrite He by (unfold in_range; lia). by apply Hc. Qed.

(** A byte written at index [i]. *)
Lemma cells_store n m p w w' (i : nat) v :
  cells n m p w -> nth i w' 0 = v -> (forall j, j <> i -> nth j w' 0 = nth j w 0) ->
  cells n (store8 m (p + Z.of_nat i) v) p w'.
Proof.
  intros Hc Hv Hw j Hj. destruct (decide (j = i)) as [->|Hne].
  - by rewrite store8_eq.
  - rewrite store8_ne by lia. rewrite Hw by done. by apply Hc.
Qed.

Lemma nth_snoc (w : list Z) v j : nth j (w ++ [v]) 0 = if decide (j = length w) then v else nth j w 0.
Proof.
  case_decide as H; [subst; rewrite app_nth2 by lia; by rewrite Nat.sub_diag|].
  destruct (decide (j < length w)%nat); [by rewrite app_nth1 by lia|].
  rewrite !nth_overflow; [done|lia|rewrite length_app; cbn; lia].
Qed.

Lemma cells_push n m p w v : cells n m p w -> cells n (store8 m (p + Z.of_nat (length w)) v) p (w ++ [v]).
Proof.
  intros Hc. apply (cells_store n m p w); [done|rewrite nth_snoc; by case_decide|].
  intros j Hj. rewrite nth_snoc. by case_decide.
Qed.

Lemma cells_pop n m p w v : cells n m p (w ++ [v]) -> cells n (store8 m (p + Z.of_nat (length w)) 0) p w.
Proof.
  intros Hc. apply (cells_store n m p (w ++ [v])); [done|apply nth_overflow; lia|].
  intros j Hj. rewrite nth_snoc. by case_decide.
Qed.

Lemma cells_head n m p d w v : cells n m p (d :: w) -> cells n (store8 m p v) p (v :: w).
Proof.
  intros Hc. replace p with (p + Z.of_nat 0) at 1 by lia. apply (cells_store n m p (d :: w)); [done..|].
  by intros [|j] Hj.
Qed.

Lemma cells_memset n m p : 0 <= p -> p + Z.of_nat n <= 2 ^ 64 -> cells n (memset m p 0 (Z.of_nat n)).1 p [].
Proof.
  intros Hp Hb i Hi. rewrite memset_lookup by lia. unfold in_range. rewrite decide_True by lia. by destruct i.
Qed.

(** ** The buffer of what was typed *)

(** Enter only clears the first byte: the rest stays behind it. *)
Inductive typed : Type :=
| Text (w : list Z)
| Cleared (w : list Z).

Definition bytes (x : typed) : list Z := match x with Text w => w | Cleared w => 0 :: w end.
Definition chars (x : typed) : list Z := match x with Text w => w | Cleared w => w end.
Definition size (x : typed) : nat := length (bytes x).

Definition holds (m : mem) (b : Z) (x : typed) : Prop :=
  cells 1024 m b (bytes x) /\ nonzero (chars x) /\ (size x < 1024)%nat.

Definition push (ch : Z) (x : typed) : typed :=
  match x with Text w => Text (w ++ [ch]) | Cleared w => Text (ch :: w) end.

Definition entered (x : typed) : typed :=
  match x with Text (_ :: w) => Cleared w | _ => x end.

Definition erased (x : typed) : typed :=
  match x with Text w => Text (removelast w) | Cleared w => x end.

(** What a C string function sees in it. *)
Definition visible (x : typed) : list Z := match x with Text w => w | Cleared w => [] end.

Lemma holds_ext m m' b x : (forall a, in_range b 1024 a -> m' a = m a) -> holds m b x -> holds m' b x.
Proof. intros He (Hc & Hr). split; [by apply (cells_ext _ m)|done]. Qed.

Lemma holds_visible m b x : holds m b x -> Str.is_str m b (visible x).
Proof.
  intros (Hc & Hn & Hs). destruct x as [w|w]; cbn in *; [by apply (cells_str 1024)|].
  rewrite <- (Z.add_0_r b). apply (Hc 0%nat). lia.
Qed.

Lemma holds_push m b x ch : holds m b x -> ch <> 0 -> (S (size x) < 1024)%nat ->
  holds (store8 m (b + Z.of_nat (length (visible x))) ch) b (push ch x).
Proof.
  intros (Hc & Hn & Hs) Hch Hl. destruct x as [w|w]; unfold holds, size in *; cbn [visible push bytes chars] in *.
  - split; [by apply cells_push|]. split; [apply Forall_app; split; [done|by repeat constructor]|].
    rewrite length_app. cbn. lia.
  - split; [rewrite Z.add_0_r; by apply (cells_head _ _ _ 0)|]. split; [by constructor|]. cbn in *. lia.
Qed.

Lemma clearBuffer_spec fuel m b x : holds m b x -> 0 <= b -> (1024 <= fuel)%nat ->
  exists m', clearBuffer fuel b m = Ret m' /\ holds m' b (entered x) /\
    forall a, ~ in_range b 1024 a -> m' a = m a.
Proof.
  intros Hh Hb Hf. pose proof (holds_visible _ _ _ Hh) as Hv. pose proof Hh as (Hc & Hn & Hs).
  assert (Hlen : (length (visible x) < 1024)%nat) by (destruct x; cbn in *; lia).
  destruct fuel as [|[|fuel]]; [lia..|]. unfold clearBuffer. cbn [clear_loop].
  rewrite (Str.strlen_spec _ m b (visible x)) by (done || lia). cbn [mbind result_bind].
  destruct x as [[|d w]|w]; cbn [visible length entered] in *.
  - exists m. by split_and!.
  - destruct (Z.ltb_spec 0 (Z.of_nat (S (length w)))); [|lia].
    assert (Hh' : holds (store8 m (b + 0) 0) b (Cleared w)).
    { unfold holds, size in *. cbn [bytes chars] in *. rewrite Z.add_0_r. split; [by apply (cells_head _ _ _ d)|].
      split; [by inversion Hn|done]. }
    rewrite (Str.strlen_spec _ _ b []) by (first [exact (holds_visible _ _ _ Hh')|cbn; lia]). cbn [mbind result_bind length].
    eexists. split; [done|]. split; [done|].
    intros a Ha. apply store8_ne. unfold in_range in Ha. lia.
  - exists m. by split_and!.
Qed.

(** ** The handler *)

Definition special (scancode : Z) : bool :=
  existsb (Z.eqb scancode) [L_SHIFT_DOWN; R_SHIFT_DOWN; CTRL_DOWN; ALT_DOWN; CAPSLOCK; NUMLOCK; SCROLLLOCK; UP; DOWN; RIGHT; LEFT].

(** A key that the tables give a character, with neither Ctrl nor Alt down. *)
Record stroke (md : kbd_mod_t) (scancode : Z) : Prop := {
  st_range : 0 <= scancode < 128;
  st_special : special scancode = false;
  st_ctrl : ctrl md = false;
  st_alt : alt md = false;
}.

Definition control (ch : Z) : bool := (ch =? 0) || (ch =? 8) || (ch =? 10).

Lemma land_128 v : 0 <= v < 128 -> Z.land v 0x80 = 0.
Proof.
  intros Hv. apply Z.bits_inj'. intros i Hi. rewrite Z.land_spec, Z.bits_0. change 128 with (2 ^ 7).
  rewrite Z.pow2_bits_eqb by lia. destruct (Z.eqb_spec 7 i) as [<-|]; [|by rewrite andb_false_r].
  by rewrite (testbit_above v 7).
Qed.

Definition disjoint (p n q k : Z) : Prop := p + n <= q \/ q + k <= p.

Section Handler.
Context (retstr c : Z) (acpi : Acpi.t) (fuel : nat) (Hfuel : (1024 <= fuel)%nat).

(** The arrays are apart, [c] is padded with zeros, and the terminal is free. *)
Record kbd_ok (s : t) : Prop := {
  ko_buff : 0 < buff s /\ buff s + 1024 <= 2 ^ 64;
  ko_c : 0 < c /\ c + 10 <= 2 ^ 64;
  ko_retstr : 0 < retstr /\ retstr + 1024 <= 2 ^ 64;
  ko_buff_c : disjoint (buff s) 1024 c 10;
  ko_buff_retstr : disjoint (buff s) 1024 retstr 1024;
  ko_c_retstr : disjoint c 10 retstr 1024;
  ko_char : exists x, cells 10 (memory s) c x /\ nonzero x /\ (length x <= 3)%nat;
  ko_term : Terminal.termLock (term s) = false;
}.

Lemma set_char_spec sc s : kbd_ok s ->
  exists m', set_char c fuel sc s = Ret (with_memory m' s) /\ cells 10 m' c [get_ascii_char (kbd_mod s) sc] /\
    forall a, ~ in_range c 10 a -> m' a = memory s a.
Proof.
  intros [_ Hc _ _ _ _ (x & Hx & Hn & Hl) _]. unfold set_char.
  rewrite (Str.strlen_spec fuel _ c x) by (first [by apply (cells_str 10); [..|lia]|lia]).
  cbn [mbind result_bind]. eexists. split; [done|]. split.
  - replace c with (c + Z.of_nat 0) at 2 by lia. apply (cells_store 10 _ c []); [|done|by intros [|[|j]] Hj].
    intros i Hi. rewrite memset_lookup by lia. unfold in_range. case_decide; [by destruct i|].
    rewrite Hx by done. rewrite !nth_overflow by (cbn; lia). done.
  - intros a Ha. unfold in_range in *. rewrite store8_ne by lia. rewrite memset_lookup by lia.
    unfold in_range. by rewrite decide_False by lia.
Qed.

Lemma set_char_ports sc h s : set_char c fuel sc (with_ports h s) = (x ← set_char c fuel sc s; Ret (with_ports h x)).
Proof. unfold set_char. cbn [memory with_ports kbd_mod]. by destruct (Str.strlen fuel (memory s) c). Qed.

(** The handler's work for a key goes through [set_char] to one of the cases. *)
Lemma handler_key sc s : stroke (kbd_mod s) sc -> kbd_ok s ->
  exists m', cells 10 m' c [get_ascii_char (kbd_mod s) sc] /\
    (forall a, ~ in_range c 10 a -> m' a = memory s a) /\
    let s' := with_memory m' (with_ports (PortIO.In 8 0x60 :: ports s) s) in
    Keyboard_Handler retstr c acpi fuel (fun _ _ _ => sc) s =
      if get_ascii_char (kbd_mod s) sc =? 10 then newline fuel s'
      else if get_ascii_char (kbd_mod s) sc =? 8 then backspace retstr fuel s'
      else character c fuel s'.
Proof.
  intros [Hr Hsp Hct Hal] Hok. destruct (set_char_spec sc s Hok) as (m' & E & Hc & Hm).
  exists m'. split; [done|]. split; [done|]. cbv zeta. unfold Keyboard_Handler, PortIO.inb.
  rewrite (wrap_small 8 sc) by lia. rewrite land_128 by done. cbn [negb Z.eqb].
  unfold special in Hsp. cbn [existsb] in Hsp. repeat (apply orb_false_iff in Hsp as [? Hsp]).
  unfold depressed, key.
  repeat match goal with H : (sc =? _) = false |- _ => rewrite H; clear H end. cbn [orb].
  assert (E' : set_char c fuel sc (with_ports (PortIO.In 8 (u16 0x60) :: ports s) s) =
               Ret (with_memory m' (with_ports (PortIO.In 8 0x60 :: ports s) s))).
  { by rewrite set_char_ports, E. }
  rewrite E'. cbn [mbind result_bind]. cbn [kbd_mod with_memory with_ports]. rewrite Hct, Hal. cbn [orb memory with_memory].
  assert (m' c = get_ascii_char (kbd_mod s) sc) as ->; [|done].
  rewrite <- (Z.add_0_r c). apply (Hc 0%nat). lia.
Qed.

Definition noted (s : t) : t := with_ports (PortIO.In 8 0x60 :: ports s) s.
Definition shown (es : list Terminal.event) (s : t) : t := with_term (Terminal.append es (term s)) s.

(** Memory changes to [c], which holds [ch], and to [buff], which holds [x]. *)
Record edited (s : t) (ch : Z) (x : typed) (m' : mem) : Prop := {
  ed_char : cells 10 m' c [ch];
  ed_buff : holds m' (buff s) x;
  ed_rest : forall a, ~ in_range c 10 a -> ~ in_range (buff s) 1024 a -> m' a = memory s a;
}.

Lemma puts_shown text s : kbd_ok s -> puts text s = Ret (shown (rev (map Terminal.char_event text)) s).
Proof. intros Hok. unfold puts. by rewrite Terminal.puts_run by apply Hok. Qed.

Lemma kbd_ok_edit s s' ch :
  kbd_ok s -> cells 10 (memory s') c [ch] -> ch <> 0 -> buff s' = buff s ->
  Terminal.termLock (term s') = false -> kbd_ok s'.
Proof.
  intros [] Hc Hch Hb Ht. split; rewrite ?Hb; try done.
  exists [ch]. split; [done|]. split; [by repeat constructor|cbn; lia].
Qed.

Lemma char_spec sc s x :
  let ch := get_ascii_char (kbd_mod s) sc in
  stroke (kbd_mod s) sc -> control ch = false -> kbd_ok s ->
  holds (memory s) (buff s) x -> (S (size x) < 1024)%nat ->
  exists m', Keyboard_Handler retstr c acpi fuel (fun _ _ _ => sc) s =
      Ret (with_memory m' (shown [Terminal.char_event ch] (with_pressed true (noted s)))) /\
    edited s ch (push ch x) m'.
Proof.
  intros ch Hst Hct Hok Hx Hs. destruct (handler_key sc s Hst Hok) as (m1 & Hc & Hm & E). rewrite E. clear E. fold ch in Hc |- *.
  unfold control in Hct. apply orb_false_iff in Hct as [Hct H10]. apply orb_false_iff in Hct as [H0 H8].
  rewrite H10, H8. apply Z.eqb_neq in H0. pose proof Hok as [[Hb1 Hb2] [Hc1 Hc2] _ Hd _ _ _ Ht].
  assert (Hx1 : holds m1 (buff s) x).
  { apply (holds_ext (memory s)); [|done]. intros a Ha. apply Hm. unfold disjoint, in_range in *. lia. }
  assert (Hmc : m1 c = ch) by (rewrite <- (Z.add_0_r c); apply (Hc 0%nat); lia).
  unfold character. cbn [memory with_memory with_pressed]. rewrite Hmc. apply Z.eqb_neq in H0 as H0'. rewrite H0'.
  set (s1 := with_pressed true _). unfold puts, s1. cbn [term with_pressed with_memory with_ports].
  rewrite Terminal.puts_run by done. cbn [mbind result_bind map rev app].
  cbn [buff with_term with_pressed with_memory with_ports memory].
  unfold Str.strcat. destruct (Z.eqb_spec (buff s) 0); [lia|].
  assert (Hvl : (length (visible x) <= size x)%nat) by (destruct x; unfold size; cbn; lia).
  rewrite (Str.strlen_spec fuel m1 (buff s) (visible x)) by (first [exact (holds_visible _ _ _ Hx1)|lia]).
  cbn [mbind result_bind].
  assert (Hsc : Str.is_str m1 c [ch]) by (apply (cells_str 10); [done|by repeat constructor|cbn; lia]).
  assert (Hcopy : Str.copy_loop fuel m1 (buff s + Z.of_nat (length (visible x))) c =
    Ret (store8 m1 (buff s + Z.of_nat (length (visible x))) ch, buff s + Z.of_nat (length (visible x)) + 1, c + 1)).
  { destruct fuel as [|[|fuel']]; [lia..|]. cbn [Str.copy_loop]. rewrite Hmc, H0'.
    rewrite store8_ne by (unfold disjoint in *; lia). cbn [Str.is_str] in Hsc. destruct Hsc as (_ & _ & ->). done. }
  rewrite Hcopy. cbn [mbind result_bind]. eexists. split; [reflexivity|]. split.
  - apply (cells_ext 10 m1); [|done]. intros a Ha. apply store8_ne. unfold disjoint, in_range in *. lia.
  - by apply holds_push.
  - intros a Ha1 Ha2. rewrite store8_ne by (unfold in_range in Ha2; lia). by apply Hm.
Qed.

Lemma enter_spec sc s x :
  stroke (kbd_mod s) sc -> get_ascii_char (kbd_mod s) sc = 10 -> kbd_ok s -> holds (memory s) (buff s) x ->
  exists m', Keyboard_Handler retstr c acpi fuel (fun _ _ _ => sc) s =
      Ret (with_enter true (with_memory m' (shown [Terminal.Write [10]] (noted s)))) /\
    edited s 10 (entered x) m'.
Proof.
  intros Hst Hch Hok Hx. destruct (handler_key sc s Hst Hok) as (m1 & Hc & Hm & E). rewrite E. clear E.
  rewrite Hch in *. cbn [Z.eqb Pos.eqb]. pose proof Hok as [[Hb1 Hb2] [Hc1 Hc2] _ Hd _ _ _ Ht].
  assert (Hx1 : holds m1 (buff s) x).
  { apply (holds_ext (memory s)); [|done]. intros a Ha. apply Hm. unfold disjoint, in_range in *. lia. }
  unfold newline, puts. cbn [term with_memory with_ports]. rewrite Terminal.puts_run by done. cbn [mbind result_bind].
  cbn [buff with_term with_memory with_ports memory].
  destruct (clearBuffer_spec fuel m1 (buff s) x Hx1) as (m2 & -> & Hh & Hm2); [lia|lia|].
  cbn [mbind result_bind]. exists m2. split; [reflexivity|]. split; [|done|].
  - apply (cells_ext 10 m1); [|done]. intros a Ha. apply Hm2. unfold disjoint, in_range in *. lia.
  - intros a Ha1 Ha2. rewrite Hm2 by done. by apply Hm.
Qed.

(** ** Lines *)

#[local] Abbreviation step := (run retstr c acpi fuel).

Lemma run_app es1 es2 x : step (es1 ++ es2) x = (y ← step es1 x; step es2 y).
Proof.
  revert x. induction es1 as [|e es1 IH]; intros x; [done|]. cbn [app run].
  destruct (run1 retstr c acpi fuel e x); cbn [mbind result_bind]; [apply IH|done..].
Qed.

(** [getLine] at its loop, having collected [w], with nothing to take. *)
Record collecting (s : t) (x : typed) (w : list Z) : Prop := {
  cl_ok : kbd_ok s;
  cl_buff : holds (memory s) (buff s) x;
  cl_line : cells 1024 (memory s) retstr w;
  cl_gi : gi s = Z.of_nat (length w);
  cl_pressed : pressed s = false;
  cl_enter : enter s = false;
}.

Definition unchanged (s s' : t) : Prop :=
  kbd_mod s' = kbd_mod s /\ buff s' = buff s /\ reading s' = reading s /\ getLine_lock s' = getLine_lock s.

Lemma idle_polls n s : pressed s = false -> enter s = false -> step (replicate (2 * n) Main) (Test, s) = Ret (Test, s).
Proof.
  intros Hp He. induction n as [|n IH]; [done|]. replace (2 * S n)%nat with (S (S (2 * n))) by lia.
  cbn [replicate run run1 main_step mbind result_bind]. rewrite He. cbn [main_step mbind result_bind]. by rewrite Hp.
Qed.

(** The eight steps that take a character. *)
Lemma take_char s :
  enter s = false -> pressed s = true -> 0 <= gi s < 1023 ->
  step (replicate 8 Main) (Test, s) =
    Ret (Test, with_gi (gi s + 1) (with_memory (store8 (memory s) (retstr + gi s) (memory s c)) (with_pressed false s))).
Proof.
  intros He Hp Hg.
  cbn [replicate run run1 main_step mbind result_bind]. rewrite He. cbn [main_step mbind result_bind].
  rewrite Hp. cbn [main_step mbind result_bind]. replace (1024 - 1 <=? gi s) with false by lia.
  cbn [main_step mbind result_bind]. rewrite Hp. cbn [main_step mbind result_bind gi with_pressed memory].
  replace (gi s <? 0) with false by lia. replace (1024 <=? gi s) with false by lia.
  cbn [orb mbind result_bind main_step]. do 3 f_equal. cbn [gi with_memory with_pressed].
  by apply swrap_small; lia.
Qed.

(** A key that gives [ch], pressed after [n] idle polls, and taken at once. *)
Definition keystroke (k : nat * Z) : list event := replicate (2 * k.1) Main ++ Key k.2 :: replicate 8 Main.

Definition prints (md : kbd_mod_t) (k : nat * Z) : Prop :=
  stroke md k.2 /\ control (get_ascii_char md k.2) = false.

Lemma keystroke_spec k s x w :
  collecting s x w -> prints (kbd_mod s) k -> (S (size x) < 1024)%nat -> (length w < 1023)%nat ->
  let ch := get_ascii_char (kbd_mod s) k.2 in
  exists s', step (keystroke k) (Test, s) = Ret (Test, s') /\ collecting s' (push ch x) (w ++ [ch]) /\ unchanged s s'.
Proof.
  intros [Hok Hx Hw Hg Hp He] [Hst Hct] Hs Hl ch. unfold keystroke. rewrite run_app, idle_polls by done.
  cbn [mbind result_bind]. destruct (char_spec k.2 s x Hst Hct Hok Hx Hs) as (m' & E & Hed). fold ch in E, Hed.
  cbn [run run1]. cbn [snd fst]. rewrite E. clear E. cbn [mbind result_bind fst]. set (s1 := with_memory m' _).
  rewrite (take_char s1) by (done || (cbn; lia)). eexists. split; [reflexivity|].
  assert (Hch : ch <> 0) by (unfold control in Hct; fold ch in Hct; intros E; by rewrite E in Hct).
  destruct Hed as [Hc Hb Hr]. pose proof Hok as [_ _ _ Hd1 Hd2 Hd3 _ _]. unfold disjoint in *.
  assert (Hmc : m' c = ch) by (rewrite <- (Z.add_0_r c); apply (Hc 0%nat); lia).
  change (gi s1) with (gi s). change (memory s1) with m'. rewrite Hmc, Hg.
  assert (Hrest : forall a, in_range c 10 a \/ in_range (buff s) 1024 a ->
    store8 m' (retstr + Z.of_nat (length w)) ch a = m' a).
  { intros a Ha. apply store8_ne. unfold in_range in Ha. lia. }
  split; [|by repeat split].
  split; cbn [memory buff gi pressed enter with_gi with_memory with_pressed]; try done.
  - apply (kbd_ok_edit s _ ch); try done; [|by apply Hok]. apply (cells_ext 10 m'); [|done]. intros; apply Hrest; by left.
  - apply (holds_ext m'); [|done]. intros a Ha. apply Hrest. by right.
  - apply cells_push. apply (cells_ext 1024 (memory s)); [|done]. intros a Ha. apply Hr; unfold in_range in *; lia.
  - rewrite length_app. cbn. lia.
Qed.

Definition text_of (md : kbd_mod_t) (ks : list (nat * Z)) : list Z := map (fun k => get_ascii_char md k.2) ks.
Definition pushes (l : list Z) (x : typed) : typed := foldl (fun x ch => push ch x) x l.

Lemma size_push ch x : size (push ch x) = match x with Text w => S (size x) | Cleared w => size x end.
Proof. destruct x; unfold size; cbn; [rewrite length_app; cbn; lia|done]. Qed.

Lemma unchanged_trans s1 s2 s3 : unchanged s1 s2 -> unchanged s2 s3 -> unchanged s1 s3.
Proof. unfold unchanged. intuition congruence. Qed.

Lemma keystrokes_spec ks s x w :
  collecting s x w -> Forall (prints (kbd_mod s)) ks ->
  (size x + length ks < 1024)%nat -> (length w + length ks <= 1023)%nat ->
  exists s', step (concat (map keystroke ks)) (Test, s) = Ret (Test, s') /\
    collecting s' (pushes (text_of (kbd_mod s) ks) x) (w ++ text_of (kbd_mod s) ks) /\ unchanged s s'.
Proof.
  revert s x w. induction ks as [|k ks IH]; intros s x w Hc Hk Hs Hl; cbn [length map concat text_of] in *.
  - exists s. rewrite app_nil_r. split; [done|]. split; [done|]. by repeat split.
  - inversion Hk as [|? ? Hk1 Hk2]; subst.
    destruct (keystroke_spec k s x w Hc Hk1) as (s1 & E & Hc1 & Hu); [lia..|].
    rewrite run_app, E. cbn [mbind result_bind]. pose proof Hu as (Hmd & _).
    destruct (IH s1 (push (get_ascii_char (kbd_mod s) k.2) x) (w ++ [get_ascii_char (kbd_mod s) k.2]))
      as (s2 & E2 & Hc2 & Hu2); [exact Hc1|rewrite Hmd; exact Hk2| |rewrite length_app; cbn; lia|].
    { rewrite size_push. destruct x; lia. }
    rewrite Hmd, <- app_assoc in Hc2. exists s2. split; [done|]. split; [done|by eapply unchanged_trans].
Qed.

Lemma start_spec s x :
  kbd_ok s -> holds (memory s) (buff s) x -> getLine_lock s = false -> gi s = 0 -> pressed s = false -> enter s = false ->
  exists s', step (replicate 3 Main) (Acquire, s) = Ret (Test, s') /\ collecting s' x [] /\
    kbd_mod s' = kbd_mod s /\ buff s' = buff s.
Proof.
  intros Hok Hx Hl Hg Hp He. cbn [replicate run run1 main_step mbind result_bind]. rewrite Hl.
  cbn [spin_lock mbind result_bind main_step]. unfold clear_retstr. cbn [memory with_reading with_lock].
  pose proof Hok as [[Hb1 Hb2] [Hc1 Hc2] [Hr1 Hr2] Hd1 Hd2 Hd3 (y & Hy & Hn & Hly) Ht]. unfold disjoint in *.
  assert (Hz : forall a, ~ in_range retstr 1024 a -> (memset (memory s) retstr 0 1024).1 a = memory s a).
  { intros a Ha. rewrite memset_lookup by lia. by rewrite decide_False. }
  pose proof (cells_memset 1024 (memory s) retstr ltac:(lia) ltac:(lia)) as Hcl.
  change (Z.of_nat 1024) with 1024 in Hcl. revert Hz Hcl. generalize (memset (memory s) retstr 0 1024).1 as m1. intros m1 Hz Hcl.
  eexists. split; [reflexivity|]. split; [|done].
  split; cbn; try done.
  - split; cbn; try done. exists y. split; [|done]. apply (cells_ext 10 (memory s)); [|done].
    intros a Ha. apply Hz. unfold in_range in *. lia.
  - apply (holds_ext (memory s)); [|done]. intros a Ha. apply Hz. unfold in_range in *. lia.
Qed.

Definition ENTER : Z := 0x1C.

Definition BACKSPACE : Z := 0x0E.

Lemma stroke_plain md sc : 0 <= sc < 128 -> special sc = false -> ctrl md = false -> alt md = false -> stroke md sc.
Proof. by split. Qed.

Lemma enter_char md : get_ascii_char md ENTER = 10.
Proof. destruct md as [[] ? ? ? [] ?]; reflexivity. Qed.

Lemma backspace_char md : get_ascii_char md BACKSPACE = 8.
Proof. destruct md as [[] ? ? ? [] ?]; reflexivity. Qed.

Lemma pushes_nonzero md ks : Forall (prints md) ks -> nonzero (text_of md ks).
Proof.
  intros H. apply Forall_map. eapply Forall_impl; [exact H|]. intros k [_ Hc]. cbn. intros E. by rewrite E in Hc.
Qed.

(** The keys of a line and Enter, from the call of [getLine] to its return. *)
Definition line (ks : list (nat * Z)) : list event :=
  replicate 3 Main ++ concat (map keystroke ks) ++ Key ENTER :: replicate 5 Main.

(** Between two calls of [getLine]. *)
Record idle (s : t) (x : typed) : Prop := {
  id_ok : kbd_ok s;
  id_buff : holds (memory s) (buff s) x;
  id_lock : getLine_lock s = false;
  id_gi : gi s = 0;
  id_pressed : pressed s = false;
  id_enter : enter s = false;
  id_mod : ctrl (kbd_mod s) = false /\ alt (kbd_mod s) = false;
}.

Lemma line_spec ks s x :
  idle s x -> Forall (prints (kbd_mod s)) ks -> (size x + length ks < 1024)%nat -> (length ks <= 1023)%nat ->
  exists s', step (line ks) (Acquire, s) = Ret (Returned retstr, s') /\
    Str.is_str (memory s') retstr (text_of (kbd_mod s) ks) /\
    idle s' (entered (pushes (text_of (kbd_mod s) ks) x)) /\ kbd_mod s' = kbd_mod s /\ reading s' = false.
Proof.
  intros [Hok Hx Hl Hg Hp He [Hct Hal]] Hk Hs Hn. unfold line.
  destruct (start_spec s x Hok Hx Hl Hg Hp He) as (s1 & E1 & Hc1 & Hm1 & Hb1).
  rewrite run_app, E1. cbn [mbind result_bind]. clear E1. rewrite run_app.
  destruct (keystrokes_spec ks s1 x [] Hc1) as (s2 & E2 & Hc2 & Hm2 & Hb2 & _); [by rewrite Hm1|lia|cbn; lia|].
  rewrite E2. cbn [mbind result_bind run run1 fst snd]. clear E2. rewrite Hm1 in *.
  pose proof Hc2 as [Hok2 Hx2 Hw2 Hg2 Hp2 He2].
  destruct (enter_spec ENTER s2 (pushes (text_of (kbd_mod s) ks) x)) as (m' & E3 & [Hc3 Hh3 Hr3]);
    [apply stroke_plain; rewrite ?Hm2; done|apply enter_char|done|done|].
  rewrite E3. clear E3. cbn [mbind result_bind replicate run run1 main_step enter with_enter].
  eexists. split; [reflexivity|]. pose proof Hok2 as [_ _ _ Hd1 Hd2 Hd3 _ Ht2]. unfold disjoint in *.
  split; [|split; [|done]].
  - cbn [memory with_lock with_gi with_reading with_enter with_memory]. apply (cells_str 1024).
    + apply (cells_ext 1024 (memory s2)); [|done]. intros a Ha. apply Hr3; unfold in_range in *; lia.
    + by apply pushes_nonzero.
    + unfold text_of. rewrite length_map. lia.
  - split; cbn; rewrite ?Hm2; try done. by apply (kbd_ok_edit s2 _ 10).
Qed.


(** Lines, one call each. *)
Fixpoint calls (ls : list (list (nat * Z))) (s : t) : result t :=
  match ls with
  | [] => Ret s
  | l :: ls => '(_, s) ← step (line l) (Acquire, s); calls ls s
  end.

Definition rests (l : list Z) : list Z := match l with [] => [] | _ :: r => r end.

Lemma entered_pushes l w : l <> [] -> entered (pushes l (Cleared w)) = Cleared (w ++ rests l).
Proof.
  destruct l as [|d l]; [done|]. intros _. cbn [pushes foldl push rests].
  assert (forall l w, pushes l (Text w) = Text (w ++ l)) as Hp.
  { clear. intros l. induction l as [|d l IH]; intros w; [by rewrite app_nil_r|]. cbn. unfold pushes in IH.
    rewrite IH. by rewrite <- app_assoc. }
  unfold pushes in Hp. rewrite Hp. done.
Qed.

(** [buff] is not the current line: Enter clears its first byte only, so
    every line leaves all its characters but the first, and the next line's
    first character brings them back.  After lines [ls] the block holds as many
    stale characters as the lines had beyond their first ones, 1023 of which
    fill it, and what the next character makes of it is that character in front
    of all of them. *)
Theorem buff_accumulates ls s w ch sc
  (Hi : idle s (Cleared w)) (Hk : Forall (fun l => l <> [] /\ Forall (prints (kbd_mod s)) l) ls)
  (Hs : (S (length w) + length (concat ls) < 1023)%nat)
  (Hsc : prints (kbd_mod s) (0%nat, sc)) (Hch : ch = get_ascii_char (kbd_mod s) sc) :
  let stale := w ++ concat (map (fun l => rests (text_of (kbd_mod s) l)) ls) in
  exists s' s'', calls ls s = Ret s' /\ idle s' (Cleared stale) /\
    Keyboard_Handler retstr c acpi fuel (fun _ _ _ => sc) s' = Ret s'' /\
    Str.is_str (memory s'') (buff s'') (ch :: stale).
Proof.
  cbv zeta. revert s w Hi Hk Hs Hsc Hch. induction ls as [|l ls IH]; intros s w Hi Hk Hs Hsc Hch; cbn [calls map concat].
  - rewrite app_nil_r. destruct Hi as [Hok Hx ? ? ? ? ?]. destruct Hsc as [Hst Hct]. cbn [snd] in *.
    destruct (char_spec sc s (Cleared w) Hst Hct Hok Hx) as (m' & E & [_ Hh _]); [unfold size; cbn in *; lia|].
    exists s. eexists. split; [done|]. split; [done|]. split; [exact E|]. cbn [memory buff with_memory].
    rewrite Hch. apply (holds_visible _ _ _ Hh).
  - inversion Hk as [|? ? [Hne Hl] Hk']; subst. cbn [concat] in Hs. rewrite length_app in Hs.
    destruct (line_spec l s (Cleared w) Hi Hl) as (s1 & E1 & _ & Hi1 & Hm1 & _); [unfold size; cbn; lia|lia|].
    rewrite E1. cbn [mbind result_bind].
    rewrite entered_pushes in Hi1 by (by destruct l).
    destruct (IH s1 (w ++ rests (text_of (kbd_mod s) l)) Hi1) as (s2 & s3 & E2 & Hi2 & E3 & H3);
      rewrite ?Hm1; try done.
    + rewrite length_app. destruct l as [|k l]; [done|]. unfold text_of. cbn [map rests length] in *. rewrite length_map. lia.
    + exists s2, s3. rewrite Hm1, <- app_assoc in Hi2, H3. by split_and!.
Qed.

(** ** Keys that come faster than the polls *)

(** After a burst of keys [c] has the last one's character. *)
Record burst_done (s s' : t) (ch : Z) (x : typed) : Prop := {
  bd_ok : kbd_ok s';
  bd_char : memory s' c = ch;
  bd_cells : cells 10 (memory s') c [ch];
  bd_buff : holds (memory s') (buff s') x;
  bd_rest : forall a, in_range retstr 1024 a -> memory s' a = memory s a;
  bd_fields : gi s' = gi s /\ enter s' = enter s /\ pressed s' = true;
  bd_unchanged : unchanged s s';
}.

Lemma key_burst p k s x :
  prints (kbd_mod s) k -> kbd_ok s -> holds (memory s) (buff s) x -> (S (size x) < 1024)%nat ->
  let ch := get_ascii_char (kbd_mod s) k.2 in
  exists s', step [Key k.2] (p, s) = Ret (p, s') /\ burst_done s s' ch (push ch x).
Proof.
  intros [Hst Hct] Hok Hx Hs ch. destruct (char_spec k.2 s x Hst Hct Hok Hx Hs) as (m' & E & [Hc Hb Hr]).
  fold ch in E, Hc, Hb. cbn [run run1 snd fst]. rewrite E. cbn [mbind result_bind]. eexists. split; [reflexivity|].
  pose proof Hok as [_ _ _ Hd1 Hd2 Hd3 _ Ht]. unfold disjoint in *.
  assert (Hch : ch <> 0) by (unfold control in Hct; fold ch in Hct; intros E0; by rewrite E0 in Hct).
  split; try done; cbn [memory buff with_memory].
  - by apply (kbd_ok_edit s _ ch).
  - rewrite <- (Z.add_0_r c). apply (Hc 0%nat). lia.
  - intros a Ha. apply Hr; unfold in_range in *; lia.
Qed.

Lemma keys_burst p ks k s x :
  Forall (prints (kbd_mod s)) (ks ++ [k]) -> kbd_ok s -> holds (memory s) (buff s) x ->
  (S (size x + length ks) < 1024)%nat ->
  exists s', step (map (fun k => Key k.2) (ks ++ [k])) (p, s) = Ret (p, s') /\
    burst_done s s' (get_ascii_char (kbd_mod s) k.2) (pushes (text_of (kbd_mod s) (ks ++ [k])) x).
Proof.
  revert s x. induction ks as [|k1 ks IH]; intros s x Hk Hok Hx Hs; cbn [app map length] in *;
    inversion Hk as [|? ? Hk1 Hk2]; subst.
  - apply key_burst; [done..|lia].
  - destruct (key_burst p k1 s x Hk1 Hok Hx) as (s1 & E1 & [Hok1 _ _ Hb1 Hr1 Hf1 Hu1]); [lia|].
    pose proof Hu1 as (Hm1 & _).
    destruct (IH s1 (push (get_ascii_char (kbd_mod s) k1.2) x)) as (s2 & E2 & [Hok2 Hc2 Hcc2 Hb2 Hr2 Hf2 Hu2]);
      [by rewrite Hm1|done|done|rewrite size_push; destruct x; lia|].
    exists s2. change (Key k1.2 :: ?l) with ([Key k1.2] ++ l). rewrite run_app, E1. cbn [mbind result_bind].
    split; [done|]. rewrite Hm1 in *. split; try done.
    + intros a Ha. by rewrite Hr2, Hr1.
    + intuition congruence.
    + by eapply unchanged_trans.
Qed.

(** Of several characters typed between two polls, only the last reaches
    the line - all of them are shown and kept in [buff] - so from then on
    Backspace can delete more characters than the line has. *)
Theorem burst_keeps_last ks k s x w
  (Hc : collecting s x w) (Hk : Forall (prints (kbd_mod s)) (ks ++ [k]))
  (Hs : (S (size x + length ks) < 1024)%nat) (Hw : (length w < 1023)%nat) :
  exists s', step (map (fun k => Key k.2) (ks ++ [k]) ++ replicate 8 Main) (Test, s) = Ret (Test, s') /\
    collecting s' (pushes (text_of (kbd_mod s) (ks ++ [k])) x) (w ++ [get_ascii_char (kbd_mod s) k.2]).
Proof.
  destruct Hc as [Hok Hx Hl Hg Hp He].
  destruct (keys_burst Test ks k s x Hk Hok Hx Hs) as (s1 & E1 & [Hok1 Hc1 Hcc1 Hb1 Hr1 (Hg1 & He1 & Hp1) _]).
  rewrite run_app, E1. cbn [mbind result_bind]. rewrite take_char by (rewrite ?Hg1, ?He1; done || lia).
  eexists. split; [reflexivity|]. pose proof Hok1 as [_ _ _ Hd1 Hd2 Hd3 Hch Ht]. unfold disjoint in *.
  rewrite Hc1, Hg1, Hg.
  assert (Hrest : forall a, ~ in_range retstr 1024 a ->
    store8 (memory s1) (retstr + Z.of_nat (length w)) (get_ascii_char (kbd_mod s) k.2) a = memory s1 a).
  { intros a Ha. apply store8_ne. unfold in_range in Ha. lia. }
  split; cbn [memory buff gi pressed enter with_gi with_memory with_pressed]; rewrite ?He1; try done.
  - destruct Hch as (y & Hy & Hn & Hly). destruct Hok1. split; try done. exists y. split; [|done].
    apply (cells_ext 10 (memory s1)); [|done]. intros a Ha. apply Hrest. unfold in_range in *. lia.
  - apply (holds_ext (memory s1)); [|done]. intros a Ha. apply Hrest. unfold in_range in *. lia.
  - apply cells_push. by apply (cells_ext 1024 (memory s)).
  - rewrite length_app. cbn. lia.
Qed.

(** ** Backspace *)

Lemma erase_spec p s w d :
  stroke (kbd_mod s) BACKSPACE -> kbd_ok s -> holds (memory s) (buff s) (Text (w ++ [d])) -> reading s = true ->
  if (gi s <=? 0) || (1024 <? gi s) then step [Key BACKSPACE] (p, s) = Fault
  else exists s', step [Key BACKSPACE] (p, s) = Ret (p, s') /\ kbd_ok s' /\ holds (memory s') (buff s') (Text w) /\
    gi s' = gi s - 1 /\ memory s' (retstr + gi s - 1) = 0 /\ unchanged s s' /\
    (forall a, in_range retstr 1024 a -> a <> retstr + gi s - 1 -> memory s' a = memory s a).
Proof.
  intros Hst Hok Hx Hr. cbn [run run1 snd fst].
  destruct (handler_key BACKSPACE s Hst Hok) as (m1 & Hc & Hm & ->). rewrite backspace_char in *. cbn [Z.eqb Pos.eqb].
  pose proof Hok as [[Hb1 Hb2] [Hc1 Hc2] _ Hd1 Hd2 Hd3 _ Ht]. unfold disjoint in *.
  assert (Hx1 : holds m1 (buff s) (Text (w ++ [d]))).
  { apply (holds_ext (memory s)); [|done]. intros a Ha. apply Hm. unfold in_range in *. lia. }
  pose proof Hx1 as (Hcell & Hnz & Hsz). unfold size in Hsz. cbn [bytes chars] in *. rewrite length_app in Hsz. cbn in Hsz.
  apply Forall_app in Hnz as [Hnw Hnd]. inversion Hnd as [|? ? Hd _]; subst.
  unfold backspace. cbn [memory with_memory with_ports buff].
  assert (Hne : m1 (buff s) <> 0).
  { rewrite <- (Z.add_0_r (buff s)). change 0 with (Z.of_nat 0) at 1. rewrite (Hcell 0%nat) by lia.
    destruct w as [|e w]; [done|]. by inversion Hnw. }
  destruct (Z.eqb_spec (m1 (buff s)) 0); [done|].
  rewrite (Str.strlen_spec fuel m1 (buff s) (w ++ [d])); [|exact (holds_visible _ _ _ Hx1)|rewrite length_app; cbn; lia..].
  cbn [mbind result_bind reading with_memory with_ports gi]. rewrite Hr.
  rewrite length_app. cbn [length]. replace (Z.of_nat (length w + 1) - 1) with (Z.of_nat (length w)) by lia.
  destruct (Z.leb_spec (gi s) 0) as [Hg|Hg]; cbn [orb].
  { by replace (gi s - 1 <? 0) with true by lia. }
  replace (gi s - 1 <? 0) with false by lia. cbn [orb].
  destruct (Z.ltb_spec 1024 (gi s)) as [Hg'|Hg'].
  { by replace (1024 <=? gi s - 1) with true by lia. }
  replace (1024 <=? gi s - 1) with false by lia. cbn [mbind result_bind].
  unfold puts. cbn [term with_gi with_memory with_ports]. rewrite Terminal.puts_run by done. cbn [mbind result_bind].
  eexists. split; [reflexivity|]. cbn [memory buff gi with_term with_gi with_memory with_ports].
  split; [|split; [|split; [done|split; [|split; [done|]]]]].
  - apply (kbd_ok_edit s _ 8); try done. cbn. apply (cells_ext 10 m1); [|done]. intros a Ha. unfold in_range in Ha.
    rewrite !store8_ne by lia. done.
  - apply (holds_ext (store8 m1 (buff s + Z.of_nat (length w)) 0)).
    + intros a Ha. apply store8_ne. unfold in_range in Ha. lia.
    + split; [by eapply cells_pop|]. split; [done|]. unfold size. cbn. lia.
  - replace (retstr + gi s - 1) with (retstr + (gi s - 1)) by lia. apply store8_eq.
  - intros a Ha Hn. unfold in_range in Ha. rewrite !store8_ne by lia. apply Hm. unfold in_range. lia.
Qed.

Lemma backspace_stroke md : ctrl md = false /\ alt md = false -> stroke md BACKSPACE.
Proof. intros [? ?]. apply stroke_plain; [unfold BACKSPACE; lia|done..]. Qed.

Lemma backspaces_spec n p s w :
  ctrl (kbd_mod s) = false /\ alt (kbd_mod s) = false -> kbd_ok s -> holds (memory s) (buff s) (Text w) ->
  reading s = true -> gi s = Z.of_nat n -> (n < length w)%nat ->
  exists s', step (replicate n (Key BACKSPACE)) (p, s) = Ret (p, s') /\ gi s' = 0 /\
    (forall i, 0 <= i < Z.of_nat n -> memory s' (retstr + i) = 0) /\
    (forall i, Z.of_nat n <= i < 1024 -> memory s' (retstr + i) = memory s (retstr + i)) /\
    step [Key BACKSPACE] (p, s') = Fault.
Proof.
  revert s w. induction n as [|n IH]; intros s w Hm Hok Hx Hr Hg Hn;
    (destruct w as [|d w _] using rev_ind; [cbn in Hn; lia|]; rewrite length_app in Hn; cbn in Hn;
     pose proof Hx as (_ & _ & Hsz); unfold size in Hsz; cbn [bytes] in Hsz; rewrite length_app in Hsz; cbn in Hsz;
     pose proof (erase_spec p s w d (backspace_stroke _ Hm) Hok Hx Hr) as H).
  - exists s. replace (gi s <=? 0) with true in H by lia. split_and!; [done|done|lia|done|done].
  - replace (gi s <=? 0) with false in H by lia. replace (1024 <? gi s) with false in H by lia. cbn [orb] in H.
    destruct H as (s1 & E & Hok1 & Hx1 & Hg1 & Hz1 & (Hu1 & Hu2 & Hu3 & Hu4) & Hrest).
    destruct (IH s1 w) as (s2 & E2 & Hg2 & Hz2 & Hk2 & Hf); [by rewrite Hu1|done|done|congruence|lia|lia|].
    exists s2. cbn [replicate]. change (Key BACKSPACE :: ?l) with ([Key BACKSPACE] ++ l). rewrite run_app, E.
    cbn [mbind result_bind]. split; [done|]. split; [done|]. split; [|split; [|done]].
    + intros i Hi. destruct (decide (i = Z.of_nat n)) as [->|]; [|apply Hz2; lia].
      rewrite Hk2 by lia. rewrite <- Hz1. f_equal. lia.
    + intros i Hi. rewrite Hk2 by lia. apply Hrest; [unfold in_range; lia|lia].
Qed.

(** Backspace looks at [buff], not at the line: while [getLine] reads, as
    many Backspaces as the line has characters empty it, and if [buff] shows
    more than the line has - a character not taken yet, the remains of earlier
    lines - the next Backspace writes in front of [retstr]. *)
Theorem backspace_underruns p s w
  (Hm : ctrl (kbd_mod s) = false /\ alt (kbd_mod s) = false) (Hok : kbd_ok s)
  (Hx : holds (memory s) (buff s) (Text w)) (Hr : reading s = true)
  (Hg : 0 <= gi s < Z.of_nat (length w)) :
  (exists s', step (replicate (Z.to_nat (gi s)) (Key BACKSPACE)) (p, s) = Ret (p, s') /\ gi s' = 0 /\
     (forall i, 0 <= i < gi s -> memory s' (retstr + i) = 0)) /\
  step (replicate (Z.to_nat (gi s)) (Key BACKSPACE) ++ [Key BACKSPACE]) (p, s) = Fault.
Proof.
  destruct (backspaces_spec (Z.to_nat (gi s)) p s w Hm Hok Hx Hr) as (s' & E & Hg' & Hz & _ & Hf); [lia|lia|].
  split; [exists s'; split; [done|]; split; [done|]; intros i Hi; apply Hz; lia|].
  by rewrite run_app, E.
Qed.

End Handler.

(** ** The properties at a concrete state *)

(** Nothing typed yet; [retstr] at 0x2000, [c] at 0x1000 and [buff] at 0x4000. *)
Definition demo (pr : bool) (r : bool) : t :=
  mk true r 0 pr false no_mod 0x4000 false (fun _ => 0) (Terminal.mk 80 25 [] [] false) [].

Lemma zero_cells n p : cells n (fun _ => 0) p [].
Proof. by intros [|i]. Qed.

Lemma kbd_demo_ok pr r : kbd_ok 0x2000 0x1000 (demo pr r).
Proof.
  split; cbn; unfold disjoint; try lia; try done. exists []. split; [apply zero_cells|]. split; [constructor|cbn; lia].
Qed.

Lemma demo_holds : holds (fun _ => 0) 0x4000 (Cleared []).
Proof. split; [by intros [|[|i]]|]. split; [constructor|cbn; lia]. Qed.

Lemma demo_idle : idle 0x2000 0x1000 (demo false false) (Cleared []).
Proof. split; try done; [apply kbd_demo_ok|apply demo_holds]. Qed.

Lemma demo_collecting : collecting 0x2000 0x1000 (demo false true) (Cleared []) [].
Proof. split; try done; [apply kbd_demo_ok|apply demo_holds|apply zero_cells]. Qed.

(** The keys of ["ok"]. *)
Lemma demo_prints : Forall (prints no_mod) [(2%nat, 0x18); (0%nat, 0x25)].
Proof. repeat (apply Forall_cons; split; [split; [split; [cbn; lia|done..]|done]|]). by apply Forall_nil. Qed.


Lemma burst_keeps_last_witness :
  exists s', run 0x2000 0x1000 Acpi.initial 1024 ([Key 0x18; Key 0x25] ++ replicate 8 Main) (Test, demo false true) =
      Ret (Test, s') /\ collecting 0x2000 0x1000 s' (Text [111; 107]) [107].
Proof.
  destruct (burst_keeps_last 0x2000 0x1000 Acpi.initial 1024 (le_n _) [(2%nat, 0x18)] (0%nat, 0x25) (demo false true)
    (Cleared []) [] demo_collecting demo_prints) as (s' & E & Hc); [cbn; lia|cbn; lia|].
  exists s'. split; [exact E|exact Hc].
Defined.

(** After the line ["ok"] the key [o] makes the buffer ["ok"] again. *)
Lemma buff_accumulates_witness :
  exists s' s'', calls 0x2000 0x1000 Acpi.initial 1024 [[(2%nat, 0x18); (0%nat, 0x25)]] (demo false false) = Ret s' /\
    Keyboard_Handler 0x2000 0x1000 Acpi.initial 1024 (fun _ _ _ => 0x18) s' = Ret s'' /\
    Str.is_str (memory s'') (buff s'') [111; 107].
Proof.
  destruct (buff_accumulates 0x2000 0x1000 Acpi.initial 1024 (le_n _) [[(2%nat, 0x18); (0%nat, 0x25)]] (demo false false) []
    111 0x18 demo_idle) as (s' & s'' & E1 & _ & E2 & H);
    [apply Forall_cons; split; [split; [discriminate|exact demo_prints]|apply Forall_nil; exact I]
    |cbn; lia|exact (Forall_inv demo_prints)|reflexivity|].
  exists s', s''. split; [exact E1|]. split; [exact E2|exact H].
Defined.

(** A character not yet taken, and Backspace. *)
Definition untaken : t := with_memory (fun a => if a =? 0x4000 then 111 else 0) (demo true true).

Lemma untaken_ok : kbd_ok 0x2000 0x1000 untaken.
Proof.
  split; cbn; unfold disjoint; try lia; try done. exists []. split; [|by split; [constructor|cbn; lia]].
  intros i Hi. unfold untaken. cbn. destruct (Z.eqb_spec (4096 + Z.of_nat i) 16384); [lia|by destruct i].
Qed.

Lemma untaken_holds : holds (memory untaken) 0x4000 (Text [111]).
Proof.
  split; [|split; [by repeat constructor|cbn; lia]]. intros i Hi. unfold untaken. cbn -[nth].
  destruct (Z.eqb_spec (16384 + Z.of_nat i) 16384) as [|Hne]; destruct i as [|[|i]]; done || lia.
Qed.

Lemma backspace_underruns_witness :
  run 0x2000 0x1000 Acpi.initial 1024 [Key BACKSPACE] (Test, untaken) = Fault.
Proof.
  destruct (backspace_underruns 0x2000 0x1000 Acpi.initial 1024 (le_n _) Test untaken [111] (conj eq_refl eq_refl)
    untaken_ok untaken_holds eq_refl ltac:(cbn; lia)) as [_ H]. exact H.
Defined.

End Keyboard.
