(* ===== verification/Framebuffer.v ===== *)
(** * The framebuffer: [drivers/display/framebuffer/framebuffer.cpp]

    Pixels are 32-bit words of memory.  Nothing is clipped but in [drawLine]:
    a coordinate beyond the line lands in the next one, as the address
    arithmetic, modulo 2^32 and 2^64, makes it.  [int] arithmetic wraps. *)

From S2P Require Import Prelude Mem MathLib.
#[local] Open Scope Z_scope.
#[local] Open Scope machine_scope.

Module Framebuffer.

(** [struct point]. *)
Record point : Type := mkPoint { X : Z; Y : Z }.

(** The globals that [init] sets. *)
Record screen : Type := mkScreen {
  frm_addr : Z; frm_width : Z; frm_height : Z; frm_pitch : Z; frm_bpp : Z;
  frm_pixperscanline : Z; frm_size : Z;
}.

(** The memory, and the pixels saved under the cursor. *)
Record st : Type := mkSt {
  memory : mem; mousedrawn : bool; cursorbuffer : list Z; cursorbuffersecond : list Z;
}.

Definition set_memory (m : mem) (s : st) : st := mkSt m (mousedrawn s) (cursorbuffer s) (cursorbuffersecond s).
Definition set_drawn (b : bool) (s : st) : st := mkSt (memory s) b (cursorbuffer s) (cursorbuffersecond s).
Definition set_buffer (l : list Z) (s : st) : st := mkSt (memory s) (mousedrawn s) l (cursorbuffersecond s).
Definition set_second (l : list Z) (s : st) : st := mkSt (memory s) (mousedrawn s) (cursorbuffer s) l.

(** [init], from the fields of the loader's tag. *)
Definition init (addr width height pitch bpp : Z) : screen :=
  mkScreen (u64 addr) (u16 width) (u16 height) (u16 pitch) (u16 bpp) (u16 pitch / 4)
    (u32 (u16 height * u16 pitch)).

Section Screen.
Context (f : screen).

(** [(uint64_t)frm_addr + (x * 4) + (y * frm_pixperscanline * 4)] *)
Definition pixel_address (x y : Z) : Z :=
  frm_addr f +64 u32 (x * 4) +64 u32 (u32 (y * frm_pixperscanline f) * 4).

(** The arguments are converted to [uint32_t]. *)
Definition putPixel (x y colour : Z) (m : mem) : mem :=
  store32 m (pixel_address (u32 x) (u32 y)) (u32 colour).

Definition putPixelRGB (x y r g b : Z) (m : mem) : mem :=
  store32 m (pixel_address (u32 x) (u32 y))
    (u32 (Z.lor (Z.lor (u32 (Z.shiftl r 16)) (u32 (Z.shiftl g 8))) b)).

Definition getPixel (x y : Z) (m : mem) : Z := load32 m (pixel_address (u32 x) (u32 y)).

Section Heap.
Context (malloc : mem -> Z -> result (mem * Z)) (free : mem -> Z -> result mem).

Definition restoreFramebuffer (frm : Z) (m : mem) : result mem :=
  free (memcpy m (frm_addr f) frm (frm_height f * frm_pitch f)).1 frm.

Definition framebufferBackup (m : mem) : result (mem * Z) :=
  '(m, frm) ← malloc m (frm_height f * frm_pitch f);
  Ret ((memcpy m frm (frm_addr f) (frm_height f * frm_pitch f)).1, frm).

End Heap.

(** ** Lines *)

Definition drawVertLine (x y dy colour : Z) (m : mem) : mem :=
  for_each (Z.to_nat dy) 0 (fun i => putPixel x (s32 (y + i)) colour) m.

Definition drawHorLine (x y dx colour : Z) (m : mem) : mem :=
  for_each (Z.to_nat dx) 0 (fun i => putPixel (s32 (x + i)) y colour) m.

(** The loop of [drawDiagLine] along the longer side: the error term, the
    position and the memory. *)
Record diag : Type := mkDiag { e : Z; px : Z; py : Z; dm : mem }.

Definition diag_step_x (dxabs dyabs sdx sdy colour : Z) (s : diag) : diag :=
  let y := s32 (e s + dyabs) in
  let '(y, py) := if dxabs <=? y then (s32 (y - dxabs), s32 (py s + sdy)) else (y, py s) in
  let px := s32 (px s + sdx) in
  mkDiag y px py (putPixel px py colour (dm s)).

Definition diag_step_y (dxabs dyabs sdx sdy colour : Z) (s : diag) : diag :=
  let x := s32 (e s + dxabs) in
  let '(x, px) := if dyabs <=? x then (s32 (x - dyabs), s32 (px s + sdx)) else (x, px s) in
  let py := s32 (py s + sdy) in
  mkDiag x px py (putPixel px py colour (dm s)).

(** [x1] and [y1] are the extents. *)
Definition drawDiagLine (x0 y0 x1 y1 colour : Z) (m : mem) : mem :=
  let sdx := sign x1 in
  let sdy := sign y1 in
  let dxabs := abs x1 in
  let dyabs := abs y1 in
  let x := Z.shiftr dyabs 1 in
  let y := Z.shiftr dxabs 1 in
  if dyabs <=? dxabs then
    dm (for_each (Z.to_nat dxabs) 0 (fun _ => diag_step_x dxabs dyabs sdx sdy colour) (mkDiag y x0 y0 m))
  else
    dm (for_each (Z.to_nat dyabs) 0 (fun _ => diag_step_y dxabs dyabs sdx sdy colour) (mkDiag x x0 y0 m)).

(** A coordinate that equals the width or the height is kept. *)
Definition clip (v size : Z) : Z :=
  let v := if size <? v then size - 1 else v in
  if v <? -1 then -1 else v.

Definition drawLine (x0 y0 x1 y1 colour : Z) (m : mem) : mem :=
  let x0 := clip x0 (frm_width f) in
  let x1 := clip x1 (frm_width f) in
  let y0 := clip y0 (frm_height f) in
  let y1 := clip y1 (frm_height f) in
  let dx := s32 (x1 - x0) in
  let dy := s32 (y1 - y0) in
  if dy =? 0 then drawHorLine x0 y0 dx colour m
  else
    let m := if dx =? 0 then drawVertLine x0 y0 dy colour m else m in
    drawDiagLine x0 y0 dx dy colour m.

(** ** Rectangles *)

Definition drawRectangle (x y w h colour : Z) (m : mem) : mem :=
  let m := drawLine x y (s32 (x + w)) y colour m in
  let m := drawLine x (s32 (s32 (y + h) - 1)) (s32 (x + w)) (s32 (s32 (y + h) - 1)) colour m in
  let m := drawLine x y x (s32 (y + h)) colour m in
  drawLine (s32 (s32 (x + w) - 1)) y (s32 (s32 (x + w) - 1)) (s32 (y + h)) colour m.

Definition drawFilledRectangle (x y w h colour : Z) (m : mem) : mem :=
  for_each (Z.to_nat h) 0 (fun i => drawLine x (s32 (y + i)) (s32 (x + w)) (s32 (y + i)) colour) m.

(** ** Circles *)

Record circle : Type := mkCircle { cir_x : Z; cir_y : Z; cir_err : Z; cir_m : mem }.

(** The four pixels of a step. *)
Definition plot4 (cx cy x y colour : Z) (m : mem) : mem :=
  let m := putPixel (abs (s32 (cx - x))) (abs (s32 (cy + y))) colour m in
  let m := putPixel (abs (s32 (cx - y))) (abs (s32 (cy - x))) colour m in
  let m := putPixel (abs (s32 (cx + x))) (abs (s32 (cy - y))) colour m in
  putPixel (abs (s32 (cx + y))) (abs (s32 (cy + x))) colour m.

Definition circle_step (cx cy colour : Z) (s : circle) : circle :=
  let m := plot4 cx cy (cir_x s) (cir_y s) colour (cir_m s) in
  let radius := cir_err s in
  let '(x, err) :=
    if cir_x s <? radius then
      let x := s32 (cir_x s + 1) in (x, s32 (cir_err s + s32 (x * 2 + 1)))
    else (cir_x s, cir_err s) in
  let '(y, err) :=
    if radius <=? cir_y s then
      let y := s32 (cir_y s + 1) in (y, s32 (err + s32 (y * 2 + 1)))
    else (cir_y s, err) in
  mkCircle x y err m.

(** [do { ... } while (x < 0);] *)
Fixpoint circle_loop (fuel : nat) (cx cy colour : Z) (s : circle) : result mem :=
  match fuel with
  | O => Diverge
  | S fuel =>
      let s := circle_step cx cy colour s in
      if cir_x s <? 0 then circle_loop fuel cx cy colour s else Ret (cir_m s)
  end.

Definition drawCircle (fuel : nat) (cx cy radius colour : Z) (m : mem) : result mem :=
  circle_loop fuel cx cy colour
    (mkCircle (s32 (- radius)) 0 (s32 (2 - s32 (2 * radius))) m).

Record disc : Type := mkDisc { d_x : Z; d_y : Z; d_xC : Z; d_yC : Z; d_err : Z; d_m : mem }.

(** [for (int i = from; i <= to; i++)] over two pixels. *)
Definition two_rows (from to_ ya yb colour : Z) (m : mem) : mem :=
  for_each (Z.to_nat (to_ - from + 1)) from
    (fun i m => putPixel i yb colour (putPixel i ya colour m)) m.

Definition disc_step (cx cy colour : Z) (s : disc) : disc :=
  let x := d_x s in
  let y := d_y s in
  let m := two_rows (s32 (cx - x)) (s32 (cx + x)) (s32 (cy + y)) (s32 (cy - y)) colour (d_m s) in
  let m := two_rows (s32 (cx - y)) (s32 (cx + y)) (s32 (cy + x)) (s32 (cy - x)) colour m in
  let y := s32 (y + 1) in
  let err := s32 (d_err s + d_yC s) in
  let yC := s32 (d_yC s + 2) in
  if 0 <? s32 (s32 (Z.shiftl err 1) + d_xC s) then
    mkDisc (s32 (x - 1)) y (s32 (d_xC s + 2)) yC (s32 (err + d_xC s)) m
  else mkDisc x y (d_xC s) yC err m.

Fixpoint disc_loop (fuel : nat) (cx cy colour : Z) (s : disc) : result mem :=
  match fuel with
  | O => Diverge
  | S fuel =>
      if d_y s <=? d_x s then disc_loop fuel cx cy colour (disc_step cx cy colour s)
      else Ret (d_m s)
  end.

(** Both coordinates of the centre are moved when either is too small. *)
Definition drawFilledCircle (fuel : nat) (cx cy radius colour : Z) (m : mem) : result mem :=
  let '(cx, cy) := if (cx <? radius) || (cy <? radius) then (radius, radius) else (cx, cy) in
  disc_loop fuel cx cy colour (mkDisc radius 0 (s32 (1 - s32 (Z.shiftl radius 1))) 0 0 m).

(** ** The cursor *)

(** [cursor[byte] & (0b10000000 >> (x % 8))] *)
Definition cursor_bit (cursor : list Z) (x y : Z) : bool :=
  let bit := y * 16 + x in
  let byte := bit / 8 in
  negb (Z.land (default 0 (cursor !! Z.to_nat byte)) (Z.shiftr 128 (x mod 8)) =? 0).

(** The part of the cursor that is on the screen. *)
Definition xmax (pos : point) : Z := let dx := s32 (frm_width f - X pos) in if dx <? 16 then dx else 16.
Definition ymax (pos : point) : Z := let dy := s32 (frm_height f - Y pos) in if dy <? 19 then dy else 19.

(** The two nested loops. *)
Definition over_cursor {A} (pos : point) (body : Z -> Z -> A -> A) (s : A) : A :=
  for_each (Z.to_nat (ymax pos)) 0 (fun y => for_each (Z.to_nat (xmax pos)) 0 (fun x => body x y)) s.

Definition clearCursor (cursor : list Z) (pos : point) (s : st) : st :=
  if negb (mousedrawn s) then s else
  over_cursor pos (fun x y s =>
    if cursor_bit cursor x y then
      set_memory (putPixel (X pos + x) (Y pos + y)
        (default 0 (cursorbuffer s !! Z.to_nat (y * 16 + x))) (memory s)) s
    else s) s.

Definition draw_bit (cursor : list Z) (pos : point) (colour : Z) (back : bool) (x y : Z) (s : st) : st :=
  if cursor_bit cursor x y then
    let k := Z.to_nat (y * 16 + x) in
    let s := if back then
               set_buffer (<[k := getPixel (X pos + x) (Y pos + y) (memory s)]> (cursorbuffer s)) s else s in
    let s := set_memory (putPixel (X pos + x) (Y pos + y) colour (memory s)) s in
    if back then
      set_second (<[k := getPixel (X pos + x) (Y pos + y) (memory s)]> (cursorbuffersecond s)) s
    else s
  else s.

Definition drawOverCursor (cursor : list Z) (pos : point) (colour : Z) (back : bool) (s : st) : st :=
  set_drawn true (over_cursor pos (draw_bit cursor pos colour back) s).

End Screen.

(** ** Pixels

    A screen as the loader hands it over: the lines fit in the address space
    and in 32-bit offsets. *)
Record screen_ok (f : screen) : Prop := {
  so_addr : 0 <= frm_addr f;
  so_width : 0 <= frm_width f <= frm_pixperscanline f;
  so_height : 0 <= frm_height f;
  so_size : frm_pixperscanline f * frm_height f * 4 < 2 ^ 31;
  so_end : frm_addr f + frm_pixperscanline f * frm_height f * 4 <= 2 ^ 64;
}.

Definition on_screen (f : screen) (x y : Z) : Prop := 0 <= x < frm_width f /\ 0 <= y < frm_height f.

Lemma pixel_address_on f x y : screen_ok f -> on_screen f x y ->
  pixel_address f (u32 x) (u32 y) = frm_addr f + 4 * (y * frm_pixperscanline f + x) /\
  0 <= y * frm_pixperscanline f + x /\ (y * frm_pixperscanline f + x + 1) <= frm_pixperscanline f * frm_height f.
Proof.
  intros [Ha Hw Hh Hs He] [Hx Hy].
  assert (Hb : y * frm_pixperscanline f + frm_pixperscanline f <= frm_pixperscanline f * frm_height f) by nia.
  assert (0 <= y * frm_pixperscanline f) by nia. unfold pixel_address.
  assert (frm_height f <= frm_pixperscanline f * frm_height f) by nia.
  rewrite (wrap_small 32 x), (wrap_small 32 y), (wrap_small 32 (x * 4)), (wrap_small 32 (y * _)) by lia.
  rewrite (wrap_small 32 (_ * 4)), (wrap_small 64 (_ + x * 4)) by lia. rewrite wrap_small by lia. lia.
Qed.

(** Different pixels do not overlap. *)
Lemma pixels_apart f x y x' y' a : screen_ok f -> on_screen f x y -> on_screen f x' y' ->
  in_range (pixel_address f (u32 x) (u32 y)) 4 a -> in_range (pixel_address f (u32 x') (u32 y')) 4 a ->
  x = x' /\ y = y'.
Proof.
  intros Hf H1 H2. destruct (pixel_address_on f x y Hf H1) as (-> & _ & _).
  destruct (pixel_address_on f x' y' Hf H2) as (-> & _ & _). unfold in_range. intros Ha Ha'.
  destruct Hf as [_ Hw _ _ _], H1 as [Hx Hy], H2 as [Hx' Hy'].
  assert (Heq : y * frm_pixperscanline f + x = y' * frm_pixperscanline f + x') by lia.
  assert (y = y') as -> by nia. lia.
Qed.

Lemma getPixel_putPixel f x y x' y' c m : screen_ok f -> on_screen f x y -> on_screen f x' y' ->
  getPixel f x' y' (putPixel f x y c m) = if decide (x' = x /\ y' = y) then u32 c else getPixel f x' y' m.
Proof.
  intros Hf H1 H2. unfold getPixel, putPixel. destruct (decide (x' = x /\ y' = y)) as [[-> ->]|Hne].
  - apply load_store_eq. apply (wrap_range 32). lia.
  - apply load_ext. intros a Ha. apply store_ne. intros Ha'. apply Hne.
    destruct (pixels_apart f x y x' y' a Hf H1 H2 Ha' Ha); by subst.
Qed.

(** ** Painting a set of cells *)

Section Paint.
Context (f : screen) (Hf : screen_ok f) (pos : point) (cursor : list Z).

Definition bit (p : Z * Z) : bool := cursor_bit cursor p.1 p.2.
Definition cell (p : Z * Z) : Z := pixel_address f (u32 (X pos + p.1)) (u32 (Y pos + p.2)).

(** The cells of the cursor that are on the screen, in the loops' order. *)
Definition cells : list (Z * Z) :=
  y ← seqZ 0 (ymax f pos); (fun x => (x, y)) <$> seqZ 0 (xmax f pos).

Lemma over_cursor_cells {A} (body : Z -> Z -> A -> A) s :
  over_cursor f pos body s = foldl (fun s p => body p.1 p.2 s) s cells.
Proof.
  unfold over_cursor, cells. rewrite for_each_foldl, foldl_bind.
  assert (Hz : forall n, seqZ 0 (Z.of_nat (Z.to_nat n)) = seqZ 0 n).
  { intros n. destruct (Z_le_gt_dec 0 n); [by rewrite Z2Nat.id|]. by rewrite !seqZ_nil by lia. }
  rewrite Hz. generalize (seqZ 0 (ymax f pos)) as ys. intros ys. revert s.
  induction ys as [|y ys IH]; intros s; [done|]. cbn [foldl]. rewrite IH. f_equal.
  rewrite for_each_foldl, Hz. generalize (seqZ 0 (xmax f pos)) as xs. intros xs. clear. revert s.
  induction xs as [|x xs IH]; intros s; [done|]. cbn. apply IH.
Qed.

Lemma cells_elem p : p ∈ cells <-> 0 <= p.1 < xmax f pos /\ 0 <= p.2 < ymax f pos.
Proof.
  unfold cells. rewrite list_elem_of_bind. split.
  - intros (y & (x & -> & Hx)%list_elem_of_fmap & Hy). apply elem_of_seqZ in Hx, Hy. cbn. lia.
  - intros [Hx Hy]. exists p.2. split; [|apply elem_of_seqZ; lia]. apply list_elem_of_fmap. exists p.1.
    split; [by destruct p|]. apply elem_of_seqZ. lia.
Qed.

Lemma cells_NoDup : NoDup cells.
Proof.
  apply NoDup_bind.
  - intros y1 y2 p _ _ (x & -> & _)%list_elem_of_fmap (x' & E & _)%list_elem_of_fmap. congruence.
  - intros y _. apply NoDup_fmap_2; [|apply NoDup_seqZ]. intros x x' E. congruence.
  - apply NoDup_seqZ.
Qed.

(** The cursor's position is on the screen. *)
Context (Hpos : on_screen f (X pos) (Y pos)).

Lemma cell_on p : p ∈ cells ->
  on_screen f (X pos + p.1) (Y pos + p.2) /\ 0 <= p.1 < 16 /\ 0 <= p.2 < 19.
Proof.
  intros Hp. apply cells_elem in Hp as [Hx Hy]. unfold xmax, ymax in Hx, Hy. destruct Hpos as [HX HY].
  destruct Hf as [_ Hw Hh Hs _]. assert (frm_width f < 2 ^ 31) by nia. assert (frm_height f < 2 ^ 31) by nia.
  assert (Hs32 : forall v, 0 <= v < 2 ^ 31 -> s32 v = v).
  { intros v Hv. by apply swrap_small; lia. }
  rewrite !Hs32 in Hx, Hy by lia. unfold on_screen.
  destruct (Z.ltb_spec (frm_width f - X pos) 16), (Z.ltb_spec (frm_height f - Y pos) 19); lia.
Qed.

Lemma cells_apart p q a : p ∈ cells -> q ∈ cells -> in_range (cell p) 4 a -> in_range (cell q) 4 a -> p = q.
Proof.
  intros Hp Hq Ha Ha'. destruct (cell_on p Hp) as [Hop _], (cell_on q Hq) as [Hoq _].
  destruct (pixels_apart f _ _ _ _ a Hf Hop Hoq Ha Ha'). destruct p, q; cbn in *. f_equal; lia.
Qed.

(** Storing [v p] in every set cell of a list. *)
Definition paint (v : Z * Z -> Z) (l : list (Z * Z)) (m : mem) : mem :=
  foldl (fun m p => if bit p then store32 m (cell p) (u32 (v p)) else m) m l.

Definition covered (l : list (Z * Z)) (a : Z) : Prop :=
  exists p, p ∈ l /\ bit p = true /\ in_range (cell p) 4 a.

Lemma covered_dec l a : covered l a \/ ~ covered l a.
Proof.
  unfold covered. induction l as [|p l [IH|IH]].
  - right. intros (p & Hp & _). by apply not_elem_of_nil in Hp.
  - left. destruct IH as (q & Hq & Hr). exists q. split; [by right|done].
  - destruct (decide (bit p = true /\ in_range (cell p) 4 a)) as [Hd|Hd].
    + left. exists p. split; [by left|done].
    + right. intros (q & Hq & Hr). apply elem_of_cons in Hq as [->|Hq]; [done|]. apply IH. by exists q.
Qed.

Lemma paint_out v l m a : ~ covered l a -> paint v l m a = m a.
Proof.
  unfold paint, covered. revert m. induction l as [|p l IH]; intros m Ha; [done|]. cbn [foldl].
  rewrite IH; [|intros (q & Hq & Hr); apply Ha; exists q; split; [by right|done]].
  destruct (bit p) eqn:Hb; [|done]. apply store_ne. intros Hin. apply Ha. exists p. split; [by left|done].
Qed.

Lemma paint_in v l m p a : NoDup l -> (forall q, q ∈ l -> q ∈ cells) -> p ∈ l -> bit p = true ->
  in_range (cell p) 4 a -> exists m', paint v l m a = store32 m' (cell p) (u32 (v p)) a.
Proof.
  unfold paint. revert m. induction l as [|q l IH]; intros m Hnd Hl Hp Hb Ha; [by apply not_elem_of_nil in Hp|].
  apply NoDup_cons in Hnd as [Hq Hnd]. cbn [foldl]. apply elem_of_cons in Hp as [->|Hp].
  - rewrite Hb. exists m. apply paint_out. intros (r & Hr & Hbr & Har).
    assert (q = r) as -> by (eapply cells_apart; [apply Hl; by left|apply Hl; by right|done|done]). done.
  - apply IH; [done| |done..]. intros r Hr. apply Hl. by right.
Qed.

End Paint.

(** ** The cursor *)

Section Cursor.
Context (f : screen) (Hf : screen_ok f) (pos : point) (Hpos : on_screen f (X pos) (Y pos)).

(** The place of a cell in the buffers. *)
Definition slot (p : Z * Z) : nat := Z.to_nat (p.2 * 16 + p.1).

Lemma slot_inj p q : p ∈ cells f pos -> q ∈ cells f pos -> slot p = slot q -> p = q.
Proof.
  intros Hp Hq. destruct (cell_on f Hf pos Hpos p Hp) as [_ Hbp], (cell_on f Hf pos Hpos q Hq) as [_ Hbq].
  unfold slot. intros E. destruct p, q; cbn in *. f_equal; lia.
Qed.

Lemma slot_lt p : p ∈ cells f pos -> (slot p < 304)%nat.
Proof. intros Hp. destruct (cell_on f Hf pos Hpos p Hp) as [_ Hb]. unfold slot. lia. Qed.

Lemma clear_paint cursor s : mousedrawn s = true ->
  memory (clearCursor f cursor pos s) =
    paint f pos cursor (fun p => default 0 (cursorbuffer s !! slot p)) (cells f pos) (memory s).
Proof.
  intros Hd. unfold clearCursor. rewrite Hd. cbn [negb]. rewrite over_cursor_cells. unfold paint.
  generalize (cells f pos) as l. intros l. remember (cursorbuffer s) as b eqn:Eb. revert s Hd Eb.
  induction l as [|p l IH]; intros s Hd Eb; [done|]. cbn [foldl]. change (cursor_bit cursor p.1 p.2) with (bit cursor p).
  destruct (bit cursor p); rewrite IH by done; [|done]. cbn. by rewrite Eb.
Qed.

Lemma draw_over cursor colour s :
  drawOverCursor f cursor pos colour false s =
    set_drawn true (set_memory (paint f pos cursor (fun _ => colour) (cells f pos) (memory s)) s).
Proof.
  unfold drawOverCursor. rewrite over_cursor_cells. f_equal. unfold paint. generalize (cells f pos) as l.
  intros l. revert s. induction l as [|p l IH]; intros s; [by destruct s|]. cbn [foldl]. rewrite IH. unfold draw_bit.
  change (cursor_bit cursor p.1 p.2) with (bit cursor p). by destruct (bit cursor p).
Qed.

(** The loop that saves what it covers. *)
Lemma draw_back_loop cursor colour l s :
  NoDup l -> (forall q, q ∈ l -> q ∈ cells f pos) -> length (cursorbuffer s) = 304%nat ->
  let s' := foldl (fun s p => draw_bit f cursor pos colour true p.1 p.2 s) s l in
  memory s' = paint f pos cursor (fun _ => colour) l (memory s) /\
  length (cursorbuffer s') = 304%nat /\
  (forall k, (forall p, p ∈ l -> k <> slot p) -> cursorbuffer s' !! k = cursorbuffer s !! k) /\
  (forall p, p ∈ l -> bit cursor p = true ->
     cursorbuffer s' !! slot p = Some (load32 (memory s) (cell f pos p))).
Proof.
  revert s. induction l as [|q l IH]; intros s Hnd Hl Hlen; cbn zeta.
  { split_and!; try done. intros p Hp. by apply not_elem_of_nil in Hp. }
  apply NoDup_cons in Hnd as [Hq Hnd]. cbn [foldl].
  assert (Hl' : forall r, r ∈ l -> r ∈ cells f pos) by (intros r Hr; apply Hl; by right).
  assert (Hqc : q ∈ cells f pos) by (apply Hl; by left).
  assert (Hqk : forall r, r ∈ l -> slot q <> slot r).
  { intros r Hr E. apply slot_inj in E as ->; [done|done|by apply Hl']. }
  set (s1 := draw_bit f cursor pos colour true q.1 q.2 s).
  assert (Hs1 : memory s1 = (if bit cursor q then store32 (memory s) (cell f pos q) (u32 colour) else memory s) /\
    cursorbuffer s1 = (if bit cursor q then <[slot q := load32 (memory s) (cell f pos q)]> (cursorbuffer s)
                       else cursorbuffer s)).
  { unfold s1, draw_bit. change (cursor_bit cursor q.1 q.2) with (bit cursor q). by destruct (bit cursor q). }
  destruct Hs1 as [Hm1 Hb1].
  destruct (IH s1 Hnd Hl') as (Hm & Hlen' & Hk & Hv).
  { rewrite Hb1. destruct (bit cursor q); [by rewrite length_insert|done]. }
  split_and!; [by rewrite Hm, Hm1|done| |].
  - intros k Hkl. rewrite Hk by (intros r Hr; apply Hkl; by right). rewrite Hb1.
    destruct (bit cursor q); [|done]. apply list_lookup_insert_ne. apply not_eq_sym, Hkl. by left.
  - intros p Hp Hbp. apply elem_of_cons in Hp as [->|Hp].
    + rewrite Hk by (intros r Hr; by apply Hqk). rewrite Hb1, Hbp. apply list_lookup_insert_eq.
      rewrite Hlen. by apply slot_lt.
    + rewrite Hv by done. f_equal. rewrite Hm1. destruct (bit cursor q); [|done].
      apply load_ext. intros a Ha. apply store_ne. intros Ha'.
      assert (p = q) as -> by (eapply (cells_apart f Hf pos Hpos); [by apply Hl'|done|done|done]). done.
Qed.

End Cursor.

(** C30: drawing the cursor and clearing it leaves every byte of memory as it
    was: the saved pixels are those under the inside, and the border's are among
    them. *)
Theorem cursor_restored f pos inside border c1 c2 s
  (Hf : screen_ok f) (Hpos : on_screen f (X pos) (Y pos)) (Hm : mem_wf (memory s))
  (Hlen : length (cursorbuffer s) = 304%nat)
  (Hsub : forall x y, 0 <= x < 16 -> 0 <= y < 19 -> cursor_bit border x y = true -> cursor_bit inside x y = true) a :
  memory (clearCursor f inside pos
            (drawOverCursor f border pos c2 false (drawOverCursor f inside pos c1 true s))) a =
  memory s a.
Proof.
  set (s1 := drawOverCursor f inside pos c1 true s).
  assert (H1 : memory s1 = paint f pos inside (fun _ => c1) (cells f pos) (memory s) /\
    forall p, p ∈ cells f pos -> bit inside p = true ->
      cursorbuffer s1 !! slot p = Some (load32 (memory s) (cell f pos p))).
  { unfold s1, drawOverCursor. rewrite over_cursor_cells.
    destruct (draw_back_loop f Hf pos Hpos inside c1 (cells f pos) s) as (H1 & _ & _ & H2);
      [apply cells_NoDup|done|done|]. split; [exact H1|exact H2]. }
  destruct H1 as [Hm1 Hb1]. rewrite (draw_over f pos border c2 s1), (clear_paint f pos inside) by done.
  cbn [memory set_memory set_drawn cursorbuffer].
  destruct (covered_dec f pos inside (cells f pos) a) as [(p & Hp & Hb & Ha)|Hout].
  - destruct (paint_in f Hf pos inside Hpos (fun p => default 0 (cursorbuffer s1 !! slot p)) (cells f pos)
      (paint f pos border (fun _ => c2) (cells f pos) (memory s1)) p a) as (m' & ->); [apply cells_NoDup|done..|].
    rewrite Hb1 by done. cbn [default]. rewrite wrap_small by (apply (load_range 4); done).
    by apply store_load.
  - rewrite paint_out by done. rewrite paint_out.
    + rewrite Hm1. by apply paint_out.
    + intros (p & Hp & Hb & Ha). apply Hout. exists p. split; [done|]. split; [|done].
      destruct (cell_on f Hf pos Hpos p Hp) as (_ & Hx & Hy). by apply Hsub.
Qed.

(** An 8 by 8 screen, with the cursor near its corner. *)
Definition small : screen := mkScreen 0x1000 8 8 32 32 8 256.

Lemma small_ok : screen_ok small.
Proof. split; cbn; lia. Qed.

Definition block : list Z := replicate 38 255.

Lemma cursor_restored_witness :
  let s := mkSt (fun a => a mod 256) false (replicate 304 0) (replicate 304 0) in
  let shown := drawOverCursor small block (mkPoint 5 6) 0xFFFFFF true s in
  memory shown 0x10D8 <> memory s 0x10D8 /\
  memory (clearCursor small block (mkPoint 5 6)
    (drawOverCursor small block (mkPoint 5 6) 0x2D2D2D false shown)) 0x10D8 = memory s 0x10D8.
Proof.
  intros s shown. split; [vm_compute; congruence|].
  apply (cursor_restored small (mkPoint 5 6) block block 0xFFFFFF 0x2D2D2D s small_ok).
  - split; cbn; lia.
  - intros a. apply Z.mod_pos_bound. lia.
  - reflexivity.
  - done.
Defined.

(** ** Circles *)

Section Circle.
Context (cx cy colour : Z).

(** [s32] does nothing on the values of a circle of moderate radius. *)
Lemma s32_small v : - 2 ^ 31 <= v < 2 ^ 31 -> s32 v = v.
Proof. intros Hv. by apply swrap_small. Qed.

(** The step on the position alone: [err] is the error of the next diagonal
    point. *)
Definition err_of (r x y : Z) : Z := (x + 1) * (x + 1) + (y + 1) * (y + 1) - r * r.

Definition next_x (r x y : Z) : Z := if x <? err_of r x y then x + 1 else x.
Definition next_y (r x y : Z) : Z := if err_of r x y <=? y then y + 1 else y.

(** Position within the quadrant, and how far from the circle. *)
Definition near (r x y : Z) : Prop := - r <= x <= 0 /\ 0 <= y <= r /\ - r <= x * x + y * y - r * r <= r.

Lemma circle_step_spec f r x y m :
  0 < r < 2 ^ 14 -> near r x y -> x < 0 ->
  circle_step f cx cy colour (mkCircle x y (err_of r x y) m) =
    mkCircle (next_x r x y) (next_y r x y) (err_of r (next_x r x y) (next_y r x y)) (plot4 f cx cy x y colour m).
Proof.
  intros Hr (Hx & Hy & _) Hx0. unfold circle_step, next_x, next_y. cbn [cir_x cir_y cir_err cir_m].
  assert (He : - 2 ^ 29 < err_of r x y < 2 ^ 30) by (unfold err_of; nia).
  rewrite (s32_small (x + 1)), (s32_small ((x + 1) * 2 + 1)), (s32_small (y + 1)), (s32_small ((y + 1) * 2 + 1)) by lia.
  destruct (x <? err_of r x y), (err_of r x y <=? y); rewrite ?(s32_small (err_of r x y + _)) by lia;
    rewrite ?s32_small by lia; try done; f_equal; unfold err_of; ring.
Qed.

(** The next point is near again, and one of the coordinates has moved. *)
Lemma next_near r x y : 0 < r -> near r x y -> x < 0 ->
  near r (next_x r x y) (next_y r x y) /\
  1 <= (next_x r x y - x) + (next_y r x y - y) <= 2.
Proof.
  intros Hr (Hx & Hy & Hd) Hx0. unfold near, next_x, next_y.
  set (D := x * x + y * y - r * r) in *.
  assert (E : err_of r x y = D + 2 * x + 2 * y + 2) by (unfold err_of, D; ring).
  assert (Hyr : err_of r x y <= y -> y + 1 <= r) by (unfold err_of; nia).
  rewrite E in *.
  destruct (Z.ltb_spec x (D + 2 * x + 2 * y + 2)), (Z.leb_spec (D + 2 * x + 2 * y + 2) y); unfold D in *; lia.
Qed.

(** The loop plots a list of points near the circle and stops. *)
Lemma circle_loop_spec f r fuel x y m :
  0 < r < 2 ^ 14 -> near r x y -> x < 0 -> r - x - y <= Z.of_nat fuel ->
  exists pts, circle_loop f fuel cx cy colour (mkCircle x y (err_of r x y) m) =
      Ret (foldl (fun m p => plot4 f cx cy p.1 p.2 colour m) m ((x, y) :: pts)) /\
    Forall (fun p => near r p.1 p.2) pts.
Proof.
  intros Hr. revert x y m. induction fuel as [|fuel IH]; intros x y m Hn Hx0 Hf.
  { destruct Hn as (? & ? & _). lia. }
  cbn [circle_loop]. rewrite circle_step_spec by done. cbn [cir_x cir_m].
  destruct (next_near r x y) as (Hn' & Hmove); [lia|done|done|].
  destruct (Z.ltb_spec (next_x r x y) 0) as [Hlt|Hge].
  - destruct (IH (next_x r x y) (next_y r x y) (plot4 f cx cy x y colour m)) as (pts & E & Hp); [done|done|lia|].
    exists ((next_x r x y, next_y r x y) :: pts). split; [exact E|]. by apply Forall_cons.
  - exists []. split; [done|]. by apply Forall_nil.
Qed.

End Circle.

(** C32: for every radius below 2^14 [drawCircle] ends after at most twice the
    radius steps; it plots, four times by symmetry, a list of points of the
    second quadrant that starts at [(-r, 0)] and whose squared distance from
    the centre differs from the squared radius by at most the radius. *)
Theorem drawCircle_terminates f fuel cx cy r colour m (Hr : 0 < r < 2 ^ 14) (Hf : 2 * r <= Z.of_nat fuel) :
  exists pts,
    drawCircle f fuel cx cy r colour m =
      Ret (foldl (fun m p => plot4 f cx cy p.1 p.2 colour m) m ((- r, 0) :: pts)) /\
    Forall (fun p => - r <= p.1 <= 0 /\ 0 <= p.2 <= r /\
              - r <= p.1 * p.1 + p.2 * p.2 - r * r <= r) pts.
Proof.
  unfold drawCircle. rewrite (s32_small (- r)), (s32_small (2 * r)), (s32_small (2 - 2 * r)) by lia.
  replace (2 - 2 * r) with (err_of r (- r) 0) by (unfold err_of; ring).
  apply (circle_loop_spec cx cy colour f r fuel (- r) 0 m); [done| |lia|lia]. unfold near. lia.
Qed.

Lemma drawCircle_terminates_witness :
  exists pts, drawCircle small 10 3 3 2 0xFF0000 (fun _ => 0) =
    Ret (foldl (fun m p => plot4 small 3 3 p.1 p.2 0xFF0000 m) (fun _ => 0) ((- 2, 0) :: pts)).
Proof.
  destruct (drawCircle_terminates small 10 3 3 2 0xFF0000 (fun _ => 0)) as (pts & E & _); [lia|lia|].
  exists pts. exact E.
Defined.

(** ** Lines *)

(** The [i]-th point of a line of [n] steps over an extent [d] from [a], to the
    nearest pixel. *)
Definition along (a d n i : Z) : Z := a + sign d * ((n / 2 + i * abs d) / n).

Definition line_points (x0 y0 x1 y1 n : Z) : list (Z * Z) :=
  (fun i => (along x0 x1 n i, along y0 y1 n i)) <$> seqZ 1 n.

Definition plot_all (f : screen) (colour : Z) (l : list (Z * Z)) (m : mem) : mem :=
  foldl (fun m p => putPixel f p.1 p.2 colour m) m l.

Lemma abs_small d : - 2 ^ 29 < d < 2 ^ 29 -> abs d = Z.abs d.
Proof. intros Hd. unfold abs. destruct (Z.ltb_spec d 0); [rewrite s32_small by lia|]; lia. Qed.

Lemma sign_abs d : - 2 ^ 29 < d < 2 ^ 29 -> -1 <= sign d <= 1 /\ sign d * abs d = d.
Proof.
  intros Hd. rewrite abs_small by done. unfold sign. destruct (Z.ltb_spec 0 d); [lia|].
  destruct (Z.ltb_spec d 0); lia.
Qed.

(** One step of the error term. *)
Lemma error_step n d e i : 0 <= d <= n -> 0 < n -> 0 <= i -> e = (n / 2 + i * d) mod n ->
  let q := (n / 2 + i * d) / n in
  if n <=? e + d then e + d - n = (n / 2 + (i + 1) * d) mod n /\ (n / 2 + (i + 1) * d) / n = q + 1
  else e + d = (n / 2 + (i + 1) * d) mod n /\ (n / 2 + (i + 1) * d) / n = q.
Proof.
  intros Hd Hn Hi -> q. pose proof (Z.div_mod (n / 2 + i * d) n ltac:(lia)) as Hdm.
  pose proof (Z.mod_pos_bound (n / 2 + i * d) n Hn). fold q in Hdm.
  destruct (Z.leb_spec n ((n / 2 + i * d) mod n + d)).
  - split; [apply (Z.mod_unique _ _ (q + 1))|symmetry; apply (Z.div_unique _ _ _ ((n / 2 + i * d) mod n + d - n))]; lia.
  - split; [apply (Z.mod_unique _ _ q)|symmetry; apply (Z.div_unique _ _ _ ((n / 2 + i * d) mod n + d))]; lia.
Qed.

Lemma along_major a d i : - 2 ^ 29 < d < 2 ^ 29 -> d <> 0 -> along a d (abs d) i = a + sign d * i.
Proof.
  intros Hd Hne. unfold along. rewrite abs_small by done. f_equal. f_equal.
  rewrite Z.div_add by lia. rewrite Z.div_small; [lia|]. split; [apply Z.div_pos; lia|].
  apply Z.div_lt_upper_bound; lia.
Qed.

Lemma along_range a d n i : - 2 ^ 29 < d < 2 ^ 29 -> abs d <= n -> n < 2 ^ 29 -> 0 <= i <= n -> 0 < n ->
  a - 2 ^ 29 <= along a d n i <= a + 2 ^ 29.
Proof.
  intros Hd Hn Hn' Hi Hn0. unfold along. pose proof (sign_abs d Hd) as [Hs _]. rewrite abs_small in * by done.
  pose proof (Z.mul_div_le n 2). pose proof (Z.div_pos n 2). assert (0 <= i * Z.abs d <= n * n) by nia.
  assert (0 <= (n / 2 + i * Z.abs d) / n < n + 1).
  { split; [apply Z.div_pos; lia|]. apply Z.div_lt_upper_bound; nia. }
  nia.
Qed.

Lemma line_points_S x0 y0 x1 y1 n i : 0 <= i ->
  (fun i => (along x0 x1 n i, along y0 y1 n i)) <$> seqZ 1 (i + 1) =
  ((fun i => (along x0 x1 n i, along y0 y1 n i)) <$> seqZ 1 i) ++ [(along x0 x1 n (i + 1), along y0 y1 n (i + 1))].
Proof.
  intros Hi. rewrite seqZ_app by lia. rewrite fmap_app. f_equal. rewrite (seqZ_cons (1 + i)) by lia.
  rewrite seqZ_nil by lia. cbn. by replace (1 + i) with (i + 1) by lia.
Qed.

(** The loop's state after [i] of [n] steps, of an extent [d] across. *)
Definition diag_at (f : screen) (colour x0 y0 x1 y1 n d : Z) (m : mem) (i : Z) (s : diag) : Prop :=
  e s = (n / 2 + i * d) mod n /\ px s = along x0 x1 n i /\ py s = along y0 y1 n i /\
  dm s = plot_all f colour ((fun i => (along x0 x1 n i, along y0 y1 n i)) <$> seqZ 1 i) m.

Lemma along_S a d n i q : 
  (n / 2 + (i + 1) * abs d) / n = q -> along a d n (i + 1) = a + sign d * q.
Proof. intros <-. done. Qed.

Lemma plot_all_snoc f colour l p m : plot_all f colour (l ++ [p]) m = putPixel f p.1 p.2 colour (plot_all f colour l m).
Proof. unfold plot_all. by rewrite foldl_app. Qed.

Lemma diag_start f colour x0 y0 x1 y1 n d m : 0 < n ->
  diag_at f colour x0 y0 x1 y1 n d m 0 (mkDiag (n / 2) x0 y0 m).
Proof.
  intros Hn. assert (0 <= n / 2 < n) by (split; [apply Z.div_pos|apply Z.div_lt]; lia).
  unfold diag_at, along. cbn [e px py dm]. rewrite !Z.mul_0_l, !Z.add_0_r.
  rewrite Z.mod_small, (Z.div_small (n / 2) n) by lia. rewrite !Z.mul_0_r, !Z.add_0_r. done.
Qed.

Section Diag.
Context (f : screen) (colour x0 y0 x1 y1 : Z) (m : mem).
Context (Hx : - 2 ^ 29 < x1 < 2 ^ 29) (Hy : - 2 ^ 29 < y1 < 2 ^ 29).
Context (Hx0 : - 2 ^ 29 < x0 < 2 ^ 29) (Hy0 : - 2 ^ 29 < y0 < 2 ^ 29).

Lemma diag_step_x_at i s : abs y1 <= abs x1 -> 0 <= i < abs x1 ->
  diag_at f colour x0 y0 x1 y1 (abs x1) (abs y1) m i s ->
  diag_at f colour x0 y0 x1 y1 (abs x1) (abs y1) m (i + 1)
    (diag_step_x f (abs x1) (abs y1) (sign x1) (sign y1) colour s).
Proof.
  intros Hle Hi (He & Hpx & Hpy & Hm). unfold diag_step_x.
  assert (Hax := abs_small x1 Hx). assert (Hay := abs_small y1 Hy).
  set (n := abs x1) in *. set (d := abs y1) in *.
  pose proof (error_step n d (e s) i ltac:(lia) ltac:(lia) ltac:(lia) He) as Hs. cbn zeta in Hs.
  assert (0 <= e s < n) by (rewrite He; apply Z.mod_pos_bound; lia).
  rewrite (s32_small (e s + d)) by lia.
  assert (Hpx' : s32 (px s + sign x1) = along x0 x1 n (i + 1)).
  { rewrite Hpx. unfold n. rewrite !along_major by lia. destruct (sign_abs x1 Hx) as [Hsg _].
    rewrite s32_small; [lia|]. fold n. nia. }
  rewrite Hpx'. unfold diag_at. rewrite line_points_S, plot_all_snoc by lia. rewrite <- Hm. cbn [fst snd].
  destruct (n <=? e s + d); destruct Hs as [He' Hq].
  - rewrite s32_small by lia.
    assert (Hpy' : s32 (py s + sign y1) = along y0 y1 n (i + 1)).
    { rewrite (along_S y0 y1 n i _ Hq). pose proof (along_range y0 y1 n (i + 1) Hy ltac:(done) ltac:(lia) ltac:(lia) ltac:(lia)) as Hr.
      rewrite (along_S y0 y1 n i _ Hq) in Hr. rewrite Hpy. unfold along. fold d. rewrite s32_small; lia. }
    rewrite Hpy'. by split_and!.
  - assert (Hpy' : py s = along y0 y1 n (i + 1)) by (rewrite (along_S y0 y1 n i _ Hq), Hpy; done).
    rewrite <- Hpy'. by split_and!.
Qed.

Lemma diag_step_y_at i s : abs x1 < abs y1 -> 0 <= i < abs y1 ->
  diag_at f colour x0 y0 x1 y1 (abs y1) (abs x1) m i s ->
  diag_at f colour x0 y0 x1 y1 (abs y1) (abs x1) m (i + 1)
    (diag_step_y f (abs x1) (abs y1) (sign x1) (sign y1) colour s).
Proof.
  intros Hle Hi (He & Hpx & Hpy & Hm). unfold diag_step_y.
  assert (Hax := abs_small x1 Hx). assert (Hay := abs_small y1 Hy).
  set (n := abs y1) in *. set (d := abs x1) in *.
  pose proof (error_step n d (e s) i ltac:(lia) ltac:(lia) ltac:(lia) He) as Hs. cbn zeta in Hs.
  assert (0 <= e s < n) by (rewrite He; apply Z.mod_pos_bound; lia).
  rewrite (s32_small (e s + d)) by lia.
  assert (Hpy' : s32 (py s + sign y1) = along y0 y1 n (i + 1)).
  { rewrite Hpy. unfold n. rewrite !along_major by lia. destruct (sign_abs y1 Hy) as [Hsg _].
    rewrite s32_small; [lia|]. fold n. nia. }
  rewrite Hpy'. unfold diag_at. rewrite line_points_S, plot_all_snoc by lia. rewrite <- Hm. cbn [fst snd].
  destruct (n <=? e s + d); destruct Hs as [He' Hq].
  - rewrite s32_small by lia.
    assert (Hpx' : s32 (px s + sign x1) = along x0 x1 n (i + 1)).
    { rewrite (along_S x0 x1 n i _ Hq). pose proof (along_range x0 x1 n (i + 1) Hx ltac:(lia) ltac:(lia) ltac:(lia) ltac:(lia)) as Hr.
      rewrite (along_S x0 x1 n i _ Hq) in Hr. rewrite Hpx. unfold along. fold d. rewrite s32_small; lia. }
    rewrite Hpx'. by split_and!.
  - assert (Hpx' : px s = along x0 x1 n (i + 1)) by (rewrite (along_S x0 x1 n i _ Hq), Hpx; done).
    rewrite <- Hpx'. by split_and!.
Qed.

End Diag.

(** C31: [drawDiagLine] plots exactly the points at which the ideal line from
    the start (which it leaves out) to the end, taken in as many steps as the
    longer extent is long, is rounded to the nearest pixel; the last is the
    end. *)
Theorem drawDiagLine_points f x0 y0 x1 y1 colour m
  (Hx0 : - 2 ^ 29 < x0 < 2 ^ 29) (Hy0 : - 2 ^ 29 < y0 < 2 ^ 29)
  (Hx : - 2 ^ 29 < x1 < 2 ^ 29) (Hy : - 2 ^ 29 < y1 < 2 ^ 29) :
  let n := Z.max (Z.abs x1) (Z.abs y1) in
  drawDiagLine f x0 y0 x1 y1 colour m = plot_all f colour (line_points x0 y0 x1 y1 n) m /\
  (0 < n -> along x0 x1 n n = x0 + x1 /\ along y0 y1 n n = y0 + y1).
Proof.
  cbn zeta. assert (Hax := abs_small x1 Hx). assert (Hay := abs_small y1 Hy). split.
  - unfold drawDiagLine, line_points. rewrite !Z.shiftr_div_pow2 by lia. change (2 ^ 1) with 2.
    destruct (Z.leb_spec (abs y1) (abs x1)) as [Hle|Hlt].
    + replace (Z.max _ _) with (abs x1) by lia. destruct (Z.eq_dec (abs x1) 0) as [->|Hne]; [done|].
      edestruct (for_each_inv (diag_at f colour x0 y0 x1 y1 (abs x1) (abs y1) m) (Z.to_nat (abs x1)) 0
        (fun _ => diag_step_x f (abs x1) (abs y1) (sign x1) (sign y1) colour) (mkDiag (abs x1 / 2) x0 y0 m))
        as (_ & _ & _ & ->); [apply diag_start; lia| |by rewrite Z.add_0_l, Z2Nat.id by lia].
      intros i s Hi. apply diag_step_x_at; done || lia.
    + replace (Z.max _ _) with (abs y1) by lia.
      edestruct (for_each_inv (diag_at f colour x0 y0 x1 y1 (abs y1) (abs x1) m) (Z.to_nat (abs y1)) 0
        (fun _ => diag_step_y f (abs x1) (abs y1) (sign x1) (sign y1) colour) (mkDiag (abs y1 / 2) x0 y0 m))
        as (_ & _ & _ & ->); [apply diag_start; lia| |by rewrite Z.add_0_l, Z2Nat.id by lia].
      intros i s Hi. apply diag_step_y_at; done || lia.
  - set (n := Z.max _ _). intros Hn. unfold along.
    rewrite (Z.mul_comm n (abs x1)), (Z.mul_comm n (abs y1)), !Z.div_add by lia.
    rewrite (Z.div_small (n / 2) n) by (split; [apply Z.div_pos; lia|apply Z.div_lt; lia]).
    rewrite !Z.add_0_l. destruct (sign_abs x1 Hx) as [_ ->], (sign_abs y1 Hy) as [_ ->]. done.
Qed.

Lemma drawDiagLine_points_witness :
  drawDiagLine small 1 1 4 (-2) 0xFF (fun _ => 0) = plot_all small 0xFF [(2, 0); (3, 0); (4, -1); (5, -1)] (fun _ => 0).
Proof.
  destruct (drawDiagLine_points small 1 1 4 (-2) 0xFF (fun _ => 0)) as [E _]; [lia|lia|lia|lia|].
  rewrite E. reflexivity.
Defined.

(** ** Rectangles *)

(** The pixels that a fill of columns [x .. x + w) and rows [y .. y + h) sets. *)
Definition inside (x y w h px py : Z) : bool :=
  (x <=? px) && (px <? x + w) && (y <=? py) && (py <? y + h).

Lemma drawHorLine_pixel f x y dx c m px py :
  screen_ok f -> 0 <= x -> 0 <= dx -> x + dx <= frm_width f -> 0 <= y < frm_height f -> on_screen f px py ->
  getPixel f px py (drawHorLine f x y dx c m) = if inside x y dx 1 px py then u32 c else getPixel f px py m.
Proof.
  intros Hf Hx Hdx Hw Hy Hp. unfold drawHorLine.
  assert (Hw31 : frm_width f < 2 ^ 31) by (destruct Hf as [_ Hfw Hfh Hfs _]; nia).
  pose proof (for_each_inv (fun i s => getPixel f px py s = if inside x y i 1 px py then u32 c else getPixel f px py m)
    (Z.to_nat dx) 0 (fun i => putPixel f (s32 (x + i)) y c) m) as H.
  rewrite Z.add_0_l, Z2Nat.id in H by done. apply H.
  - unfold inside. by replace (px <? x + 0) with (negb (x <=? px)) by lia; destruct (x <=? px).
  - intros i s Hi Hs. rewrite s32_small by lia. rewrite getPixel_putPixel by (done || split; lia). rewrite Hs.
    unfold inside. destruct (decide (px = x + i /\ py = y)) as [[-> ->]|Hne].
    + by replace ((x <=? x + i) && (x + i <? x + (i + 1)) && (y <=? y) && (y <? y + 1)) with true by lia.
    + assert ((x <=? px) && (px <? x + (i + 1)) && (y <=? py) && (py <? y + 1) =
        (x <=? px) && (px <? x + i) && (y <=? py) && (py <? y + 1)) as -> by lia. done.
Qed.

Lemma drawLine_horizontal f x y w c m :
  screen_ok f -> 0 <= x -> 0 <= w -> x + w <= frm_width f -> 0 <= y < frm_height f ->
  drawLine f x y (x + w) y c m = drawHorLine f x y w c m.
Proof.
  intros Hf Hx Hw Hr Hy. unfold drawLine.
  assert (Hc : forall v n, 0 <= v <= n -> clip v n = v).
  { intros v n Hv. unfold clip. replace (n <? v) with false by lia. by replace (v <? -1) with false by lia. }
  rewrite !Hc by lia. rewrite Z.sub_diag. change (s32 0) with 0. cbn [Z.eqb].
  assert (frm_width f < 2 ^ 31) by (destruct Hf as [_ Hfw Hfh Hfs _]; nia).
  by rewrite s32_small by lia; replace (x + w - x) with w by lia.
Qed.

(** A filled rectangle that lies on the screen sets exactly its pixels. *)
Theorem drawFilledRectangle_fills f x y w h c m px py
  (Hf : screen_ok f) (Hx : 0 <= x) (Hy : 0 <= y) (Hw : 0 <= w) (Hh : 0 <= h)
  (Hxw : x + w <= frm_width f) (Hyh : y + h <= frm_height f) (Hp : on_screen f px py) :
  getPixel f px py (drawFilledRectangle f x y w h c m) =
    if inside x y w h px py then u32 c else getPixel f px py m.
Proof.
  unfold drawFilledRectangle.
  assert (frm_width f < 2 ^ 31 /\ frm_height f < 2 ^ 31).
  { destruct Hf as [_ Hfw Hfh Hfs _], Hp as [Hpx Hpy]. nia. }
  pose proof (for_each_inv (fun i s => getPixel f px py s = if inside x y w i px py then u32 c else getPixel f px py m)
    (Z.to_nat h) 0 (fun i => drawLine f x (s32 (y + i)) (s32 (x + w)) (s32 (y + i)) c) m) as H1.
  rewrite Z.add_0_l, Z2Nat.id in H1 by done. apply H1.
  - unfold inside. replace (py <? y + 0) with (negb (y <=? py)) by lia. by destruct (x <=? px), (px <? x + w), (y <=? py).
  - intros i s Hi Hs. rewrite (s32_small (y + i)), (s32_small (x + w)) by lia.
    rewrite drawLine_horizontal, drawHorLine_pixel by (done || lia). rewrite Hs. unfold inside.
    destruct (decide (x <= px < x + w /\ py = y + i)) as [[Hxx ->]|Hne].
    + by replace ((x <=? px) && (px <? x + w) && (y + i <=? y + i) && (y + i <? y + i + 1)) with true by lia;
        replace ((x <=? px) && (px <? x + w) && (y <=? y + i) && (y + i <? y + (i + 1))) with true by lia.
    + replace ((x <=? px) && (px <? x + w) && (y + i <=? py) && (py <? y + i + 1)) with false by lia.
      by replace ((x <=? px) && (px <? x + w) && (y <=? py) && (py <? y + (i + 1)))
        with ((x <=? px) && (px <? x + w) && (y <=? py) && (py <? y + i)) by lia.
Qed.

Lemma drawFilledRectangle_fills_witness :
  getPixel small 4 5 (drawFilledRectangle small 2 3 6 5 0x1fe079 (fun _ => 0)) = 0x1fe079 /\
  getPixel small 1 5 (drawFilledRectangle small 2 3 6 5 0x1fe079 (fun _ => 0)) = 0.
Proof.
  split.
  - rewrite (drawFilledRectangle_fills small 2 3 6 5 0x1fe079 (fun _ => 0) 4 5 small_ok); [reflexivity|try (cbn; lia)..].
    split; cbn; lia.
  - rewrite (drawFilledRectangle_fills small 2 3 6 5 0x1fe079 (fun _ => 0) 1 5 small_ok); [reflexivity|try (cbn; lia)..].
    split; cbn; lia.
Defined.

(** One that leaves the screen on the right misses the last column. *)
Example rectangle_misses_last_column :
  getPixel small 7 3 (drawFilledRectangle small 6 3 10 10 0x1fe079 (fun _ => 0)) = 0.
Proof. reflexivity. Qed.

(** ** Discs *)

Section Disc.
Context (f : screen) (cx cy colour r : Z) (Hr : 0 <= r < 2 ^ 14).
Context (Hcx : - 2 ^ 29 < cx < 2 ^ 29) (Hcy : - 2 ^ 29 < cy < 2 ^ 29).

(** Within the square around the disc. *)
Definition in_box (p : Z * Z) : Prop := cx - r <= p.1 <= cx + r /\ cy - r <= p.2 <= cy + r.

Lemma two_rows_plot from to_ ya yb m :
  cx - r <= from -> to_ <= cx + r -> cy - r <= ya <= cy + r -> cy - r <= yb <= cy + r ->
  exists l, two_rows f from to_ ya yb colour m = plot_all f colour l m /\ Forall in_box l.
Proof.
  intros Hfrom Hto Ha Hb. unfold two_rows.
  assert (forall n i s, cx - r <= i -> i + Z.of_nat n <= cx + r + 1 ->
    exists l, for_each n i (fun i m => putPixel f i yb colour (putPixel f i ya colour m)) s = plot_all f colour l s /\
      Forall in_box l) as Hgen.
  { induction n as [|n IH]; intros i s Hi Hn; [by exists []|]. cbn [for_each].
    destruct (IH (i + 1) (putPixel f i yb colour (putPixel f i ya colour s))) as (l & -> & Hl); [lia|lia|].
    exists ((i, ya) :: (i, yb) :: l). split; [done|]. apply Forall_cons. split; [unfold in_box; cbn; lia|].
    apply Forall_cons. split; [unfold in_box; cbn; lia|done]. }
  destruct (Z_le_gt_dec 0 (to_ - from + 1)).
  - apply Hgen; lia.
  - replace (Z.to_nat (to_ - from + 1)) with 0%nat by lia. by exists [].
Qed.

Lemma plot_all_app l1 l2 m : plot_all f colour (l1 ++ l2) m = plot_all f colour l2 (plot_all f colour l1 m).
Proof. unfold plot_all. by rewrite foldl_app. Qed.

(** The terms of the midpoint method in closed form. *)
Definition disc_at (s : disc) : Prop :=
  0 <= d_y s <= r + 1 /\ d_y s <= d_x s + 2 /\ d_x s <= r /\
  d_xC s = 1 - 2 * d_x s /\ d_yC s = 2 * d_y s /\
  d_err s = d_x s * d_x s + d_y s * d_y s - r * r - d_y s.

Lemma disc_step_at s : disc_at s -> d_y s <= d_x s ->
  exists l, d_m (disc_step f cx cy colour s) = plot_all f colour l (d_m s) /\ Forall in_box l /\
    disc_at (disc_step f cx cy colour s) /\ d_y (disc_step f cx cy colour s) = d_y s + 1.
Proof.
  intros (Hy & Hyx & Hx & HxC & HyC & He) Hle. unfold disc_step.
  rewrite (s32_small (cx - d_x s)), (s32_small (cx + d_x s)), (s32_small (cy + d_y s)), (s32_small (cy - d_y s)) by lia.
  rewrite (s32_small (cx - d_y s)), (s32_small (cx + d_y s)), (s32_small (cy + d_x s)), (s32_small (cy - d_x s)) by lia.
  destruct (two_rows_plot (cx - d_x s) (cx + d_x s) (cy + d_y s) (cy - d_y s) (d_m s)) as (l1 & -> & H1); [lia..|].
  destruct (two_rows_plot (cx - d_y s) (cx + d_y s) (cy + d_x s) (cy - d_x s) (plot_all f colour l1 (d_m s)))
    as (l2 & -> & H2); [lia..|].
  assert (Hb : - 2 ^ 28 < d_err s < 2 ^ 28 /\ d_err s + d_yC s = d_x s * d_x s + (d_y s + 1) * (d_y s + 1) - r * r - (d_y s + 1))
    by nia.
  destruct Hb as [Hb Hb']. rewrite (s32_small (d_err s + d_yC s)), (s32_small (d_yC s + 2)), (s32_small (d_y s + 1)) by lia.
  rewrite Z.shiftl_mul_pow2 by lia. rewrite (s32_small (_ * 2 ^ 1)) by lia. rewrite (s32_small (_ + d_xC s)) by lia.
  exists (l1 ++ l2). rewrite plot_all_app.
  destruct (Z.ltb_spec 0 ((d_err s + d_yC s) * 2 ^ 1 + d_xC s)); cbn [d_m d_y];
    (split; [done|]); (split; [by apply Forall_app|]); (split; [|done]); unfold disc_at; cbn.
  - rewrite (s32_small (d_x s - 1)), (s32_small (d_xC s + 2)), (s32_small (_ + d_xC s)) by lia. nia.
  - nia.
Qed.

Lemma disc_loop_plot fuel s : disc_at s -> r + 1 - d_y s < Z.of_nat fuel ->
  exists l, disc_loop f fuel cx cy colour s = Ret (plot_all f colour l (d_m s)) /\ Forall in_box l.
Proof.
  revert s. induction fuel as [|fuel IH]; intros s Hs Hf.
  { destruct Hs as (? & _). lia. }
  cbn [disc_loop]. destruct (Z.leb_spec (d_y s) (d_x s)) as [Hle|Hgt]; [|by exists []].
  destruct (disc_step_at s Hs Hle) as (l1 & Hm & H1 & Hs' & Hy').
  destruct (IH _ Hs') as (l2 & -> & H2); [lia|]. exists (l1 ++ l2). rewrite plot_all_app, Hm. split; [done|].
  by apply Forall_app.
Qed.

End Disc.

(** [drawFilledCircle] ends within [radius + 2] rounds and writes only
    pixels of the square around its centre; a centre nearer than the radius to
    the left or upper edge is replaced by the corner position in both
    coordinates. *)
Theorem drawFilledCircle_terminates f fuel cx cy r colour m
  (Hr : 0 <= r < 2 ^ 14) (Hcx : - 2 ^ 29 < cx < 2 ^ 29) (Hcy : - 2 ^ 29 < cy < 2 ^ 29)
  (Hf : r + 1 < Z.of_nat fuel) :
  let c := if (cx <? r) || (cy <? r) then (r, r) else (cx, cy) in
  exists l, drawFilledCircle f fuel cx cy r colour m = Ret (plot_all f colour l m) /\
    Forall (fun p => 0 <= c.1 - r <= p.1 /\ p.1 <= c.1 + r /\ 0 <= c.2 - r <= p.2 /\ p.2 <= c.2 + r) l.
Proof.
  cbn zeta. unfold drawFilledCircle. rewrite Z.shiftl_mul_pow2 by lia.
  rewrite (s32_small (r * 2 ^ 1)), (s32_small (1 - _)) by lia.
  destruct ((cx <? r) || (cy <? r)) eqn:Hc; cbn [fst snd].
  - destruct (disc_loop_plot f r r colour r Hr ltac:(lia) ltac:(lia) fuel (mkDisc r 0 (1 - r * 2 ^ 1) 0 0 m)) as (l & E & Hl);
      [unfold disc_at; cbn; lia|cbn; lia|].
    exists l. split; [exact E|]. eapply Forall_impl; [exact Hl|]. unfold in_box. intros p Hp. lia.
  - destruct (disc_loop_plot f cx cy colour r Hr Hcx Hcy fuel (mkDisc r 0 (1 - r * 2 ^ 1) 0 0 m)) as (l & E & Hl);
      [unfold disc_at; cbn; lia|cbn; lia|].
    exists l. split; [exact E|]. eapply Forall_impl; [exact Hl|]. unfold in_box. intros p Hp. lia.
Qed.

Lemma drawFilledCircle_terminates_witness :
  exists l, drawFilledCircle small 10 4 1 2 0xFF (fun _ => 0) = Ret (plot_all small 0xFF l (fun _ => 0)).
Proof.
  destruct (drawFilledCircle_terminates small 10 4 1 2 0xFF (fun _ => 0)) as (l & E & _); [lia..|].
  exists l. exact E.
Defined.

End Framebuffer.
