(* ===== verification/Ssfn.v ===== *)
(** * Text on the framebuffer: [drivers/display/ssfn/ssfn.cpp], and the console
    renderer [ssfn_putc] of [ssfn.h]

    [ssfn_putc] looks a character up in the font's compressed table and copies
    the bitmaps of its glyph to the screen.  The font and the pixels are in the
    same memory; the cursor and the sizes are 16-bit signed numbers.  Of
    [ssfn.h] only this renderer is compiled; [vfctprintf] hands it the
    characters of a text. *)

From S2P Require Import Prelude Mem Cpu Framebuffer.
#[local] Open Scope Z_scope.
#[local] Open Scope machine_scope.

Module Ssfn.

(** [ssfn_buf_t] *)
Record buf : Type := mkBuf { ptr : Z; w : Z; h : Z; p : Z; x : Z; y : Z; fg : Z; bg : Z }.

Definition with_xy (vx vy : Z) (d : buf) : buf := mkBuf (ptr d) (w d) (h d) (p d) vx vy (fg d) (bg d).
Definition with_colours (vf vb : Z) (d : buf) : buf := mkBuf (ptr d) (w d) (h d) (p d) (x d) (y d) vf vb.

(** The globals of [ssfn.cpp] and of the renderer, and the memory. *)
Record t : Type := mk {
  ssfn_src : Z; ssfn_dst : buf; bgcolor : Z; fgcolor : Z; pos : Framebuffer.point; memory : mem;
}.

Definition with_dst (d : buf) (s : t) : t := mk (ssfn_src s) d (bgcolor s) (fgcolor s) (pos s) (memory s).
Definition with_pos (vx vy : Z) (s : t) : t :=
  mk (ssfn_src s) (ssfn_dst s) (bgcolor s) (fgcolor s) (Framebuffer.mkPoint vx vy) (memory s).
Definition with_memory (m : mem) (s : t) : t := mk (ssfn_src s) (ssfn_dst s) (bgcolor s) (fgcolor s) (pos s) m.

Definition SSFN_OK : Z := 0.
Definition SSFN_ERR_INVINP : Z := -4.
Definition SSFN_ERR_NOGLYPH : Z := -7.

(** Fields of [ssfn_font_t]. *)
Definition font_height (m : mem) (src : Z) : Z := m (src + 11).
Definition characters_offs (m : mem) (src : Z) : Z := load32 m (src + 16).

(** ** The character table *)

(** The search for the glyph of [unicode], from the entry at [ptr], whose
    code is [i]; 0 if there is none. *)
Fixpoint find (fuel : nat) (m : mem) (ptr i unicode : Z) : result Z :=
  match fuel with
  | O => Diverge
  | S fuel =>
      if negb (i <? 0x110000) then Ret 0
      else if m ptr =? 0xFF then find fuel m (ptr + 1) (i + 65535 + 1) unicode
      else if Z.land (m ptr) 0xC0 =? 0xC0 then
        let j := Z.lor (Z.shiftl (Z.land (m ptr) 0x3F) 8) (m (ptr + 1)) in
        find fuel m (ptr + 2) (i + j + 1) unicode
      else if Z.land (m ptr) 0xC0 =? 0x80 then
        let j := Z.land (m ptr) 0x3F in
        find fuel m (ptr + 1) (i + j + 1) unicode
      else if i =? unicode then Ret ptr
      else find fuel m (ptr + 6 + m (ptr + 1) * (if Z.land (m ptr) 0x40 =? 0 then 5 else 6)) (i + 1) unicode
  end.

(** ** Drawing *)

Section Draw.
(** The destination, and the number of pixels in its lines. *)
Context (d : buf) (s : Z).

Definition row_visible (yy : Z) : bool := (h d =? 0) || (y d + yy <? h d).
Definition column_visible (j : Z) : bool := (Z.abs (w d) =? 0) || (x d + j <? Z.abs (w d)).

(** A line of background, as wide as the byte at [width] says, which is read
    again in every round; it is less than 256. *)
Fixpoint fill_row (n : nat) (width j o : Z) (m : mem) : mem :=
  match n with
  | O => m
  | S n =>
      if (j <? m width) && column_visible j then fill_row n width (j + 1) o (store32 m (o + 4 * j) (bg d))
      else m
  end.

(** Lines of background up to the one the byte at [last] says. *)
Fixpoint fill_rows (n : nat) (width last yy o : Z) (m : mem) : Z * Z * mem :=
  match n with
  | O => (yy, o, m)
  | S n =>
      if (yy <? m last) && row_visible yy then
        fill_rows n width last (yy + 1) (o + 4 * s) (fill_row 256 width 0 o m)
      else (yy, o, m)
  end.

(** [k] pixels of a bitmap's line, from the byte at [frg] and the bit [bit]. *)
Fixpoint pixels (n : nat) (l o frg bit : Z) (m : mem) : Z * Z * mem :=
  match n with
  | O => (frg, bit, m)
  | S n =>
      let '(frg, bit) := if 0x80 <? bit then (frg + 1, 1) else (frg, bit) in
      let m :=
        if (0 <=? x d + l) && column_visible l then
          if negb (Z.land (m frg) bit =? 0) then store32 m (o + 4 * l) (fg d)
          else if negb (bg d =? 0) then store32 m (o + 4 * l) (bg d)
          else m
        else m in
      pixels n (l + 1) o frg (Z.shiftl bit 1) m
  end.

(** [j] lines of a bitmap. *)
Fixpoint rows (j : nat) (k yy o frg bit : Z) (m : mem) : Z * Z * mem :=
  match j with
  | O => (yy, o, m)
  | S j =>
      if row_visible yy then
        let '(frg, bit, m) := pixels (Z.to_nat k) 0 o frg bit m in
        rows j k (yy + 1) (o + 4 * s) frg bit m
      else (yy, o, m)
  end.

(** The address of a fragment, from the entry at [ptr] of the glyph at [chr]. *)
Definition fragment_address (src chr ptr : Z) (m : mem) : Z :=
  src + if Z.land (m chr) 0x40 =? 0 then
    Z.lor (Z.lor (Z.shiftl (m (ptr + 4)) 16) (Z.shiftl (m (ptr + 3)) 8)) (m (ptr + 2))
  else s32 (Z.lor (Z.lor (Z.lor (Z.shiftl (m (ptr + 5)) 24) (Z.shiftl (m (ptr + 4)) 16)) (Z.shiftl (m (ptr + 3)) 8))
              (m (ptr + 2))).

Definition fragment_width (frg : Z) (m : mem) : Z := Z.shiftl (Z.land (m frg) 0x1F + 1) 3.

(** One fragment; [yy] is the line in the glyph and [o] the address of its
    first pixel. *)
Definition fragment (src chr ptr : Z) (st : Z * Z * mem) : Z * Z * mem :=
  let '(yy, o, m) := st in
  if (m ptr =? 255) && (m (ptr + 1) =? 255) then st else
  let frg := fragment_address src chr ptr m in
  if negb (Z.land (m frg) 0xE0 =? 0x80) then st else
  let '(yy, o, m) :=
    if negb (bg d =? 0) then fill_rows 256 (chr + 2) (ptr + 1) yy o m
    else (m (ptr + 1), o + 4 * ((m (ptr + 1) - yy) * s), m) in
  rows (Z.to_nat (m (frg + 1) + 1)) (fragment_width frg m) yy o (frg + 2) 1 m.

Definition entry_size (chr : Z) (m : mem) : Z := if Z.land (m chr) 0x40 =? 0 then 5 else 6.

(** The loop over the glyph's fragments; their number is a byte. *)
Fixpoint fragments (n : nat) (src chr i ptr : Z) (st : Z * Z * mem) : Z * Z * mem :=
  match n with
  | O => st
  | S n =>
      if i <? st.2 (chr + 1) then
        let st := fragment src chr ptr st in
        fragments n src chr (i + 1) (ptr + entry_size chr st.2) st
      else st
  end.

End Draw.

(** The address of the first pixel, in pointer arithmetic. *)
Definition origin (d : buf) : Z := u64 (ptr d + y d * p d + x d * 4).

Definition no_input (s : t) : bool :=
  let m := memory s in
  let src := ssfn_src s in
  (src =? 0) || negb (m src =? 83) || negb (m (src + 1) =? 70) || negb (m (src + 2) =? 78) || negb (m (src + 3) =? 50) ||
  (ptr (ssfn_dst s) =? 0) || (p (ssfn_dst s) =? 0).

Definition ssfn_putc (fuel : nat) (unicode : Z) (s : t) : result (Z * t) :=
  let d := ssfn_dst s in
  let src := ssfn_src s in
  let m := memory s in
  if no_input s then Ret (SSFN_ERR_INVINP, s)
  else if (unicode =? 13) || (unicode =? 10) then
    Ret (SSFN_OK, with_dst (with_xy 0 (if unicode =? 10 then s16 (y d + font_height m src) else y d) d) s)
  else
    chr ← find fuel m (src + characters_offs m src) 0 unicode;
    if chr =? 0 then Ret (SSFN_ERR_NOGLYPH, s) else
    let line := p d / 4 in
    let '(yy, o, m) := fragments d line 256 src chr 0 (chr + 6) (0, origin d, m) in
    let '(_, _, m) := if negb (bg d =? 0) then fill_rows d line 256 (chr + 2) (chr + 3) yy o m else (yy, o, m) in
    Ret (SSFN_OK, with_dst (with_xy (s16 (x d + m (chr + 4))) (s16 (y d + m (chr + 5))) d) (with_memory m s)).

(** ** [ssfn.cpp] *)

Section Text.
Context (fuel : nat).

Definition printc (c : Z) (s : t) : result t := '(_, s) ← ssfn_putc fuel (u32 (s8 c)) s; Ret s.

(** [vfctprintf(&printc, ...)] of a text. *)
Fixpoint put_text (l : list Z) (s : t) : result t :=
  match l with [] => Ret s | c :: l => s ← printc c s; put_text l s end.

Definition setColor (fg bg : Z) (s : t) : t :=
  mk (ssfn_src s) (with_colours (u32 fg) (u32 bg) (ssfn_dst s)) bg fg (pos s) (memory s).

(** The default arguments. *)
Definition setColor_fg (fg : Z) (s : t) : t := setColor fg (bgcolor s) s.

Definition set_xy (vx vy : Z) (s : t) : t := with_dst (with_xy (s16 vx) (s16 vy) (ssfn_dst s)) s.

Definition setPosition (vx vy : Z) (s : t) : t :=
  let px := s64 ((vx +64 1) *64 8 -64 8) in
  let py := s64 ((vy +64 1) *64 16 -64 16) in
  set_xy px py (with_pos px py s).

Definition setpPosition (vx vy : Z) (s : t) : t := set_xy vx vy (with_pos (s64 vx) (s64 vy) s).

(** [pos] in cells of 8 by 16 pixels; in pixels. *)
Definition cell_pos (s : t) : t := with_pos (Z.quot (x (ssfn_dst s)) 8) (Z.quot (y (ssfn_dst s)) 16) s.
Definition pixel_pos (s : t) : t := with_pos (x (ssfn_dst s)) (y (ssfn_dst s)) s.

Definition printf (l : list Z) (s : t) : result t := s ← put_text l s; Ret (cell_pos s).
Definition printfAt (vx vy : Z) (l : list Z) (s : t) : result t :=
  s ← put_text l (set_xy ((vx +64 1) *64 8 -64 8) ((vy +64 1) *64 16 -64 16) s); Ret (cell_pos s).
Definition ppintf (l : list Z) (s : t) : result t := s ← put_text l s; Ret (pixel_pos s).
Definition pprintfAt (vx vy : Z) (l : list Z) (s : t) : result t :=
  s ← put_text l (set_xy vx vy s); Ret (pixel_pos s).

End Text.

(** [init], over the framebuffer's globals and the address of the font. *)
Definition init (f : Framebuffer.screen) (font : Z) (s : t) : t :=
  mk font
    (mkBuf (Framebuffer.frm_addr f) (s16 (Framebuffer.frm_width f)) (s16 (Framebuffer.frm_height f))
       (u16 (Framebuffer.frm_pitch f)) 0 0 (u32 (fgcolor s)) (u32 (bgcolor s)))
    (bgcolor s) (fgcolor s) (Framebuffer.mkPoint 0 0) (memory s).

(** ** The character table

    A table is a run of entries: gaps of 65536, of [n + 1 <= 16128] and of
    [n + 1 <= 64] codes, and glyphs, with the size of their fragment list. *)

Inductive token : Type := Far | Long (n : Z) | Short (n : Z) | Glyph (wide : bool) (count : Z).

(** The entry at [p] is [k]. *)
Definition token_at (m : mem) (p : Z) (k : token) : Prop :=
  match k with
  | Far => m p = 0xFF
  | Long n => 0 <= n < 0x3F00 /\ m p = 0xC0 + n / 256 /\ m (p + 1) = n mod 256
  | Short n => 0 <= n < 64 /\ m p = 0x80 + n
  | Glyph wide count => 0 <= m p < 128 /\ Z.testbit (m p) 6 = wide /\ m (p + 1) = count /\ 0 <= count
  end.

Definition token_size (k : token) : Z :=
  match k with Far => 1 | Long _ => 2 | Short _ => 1 | Glyph wide count => 6 + count * (if wide then 6 else 5) end.

(** How many codes an entry stands for. *)
Definition token_codes (k : token) : Z :=
  match k with Far => 65536 | Long n => n + 1 | Short n => n + 1 | Glyph _ _ => 1 end.

Fixpoint table_at (m : mem) (p : Z) (l : list token) : Prop :=
  match l with [] => True | k :: l => token_at m p k /\ table_at m (p + token_size k) l end.

Definition codes (l : list token) : Z := foldr (fun k n => token_codes k + n) 0 l.

(** The address of the glyph of [u] in a table whose first code is [i]; 0 if
    it has none. *)
Fixpoint glyph_of (l : list token) (p i u : Z) : Z :=
  match l with
  | [] => 0
  | k :: l =>
      match k with
      | Glyph _ _ => if i =? u then p else glyph_of l (p + token_size k) (i + 1) u
      | _ => glyph_of l (p + token_size k) (i + token_codes k) u
      end
  end.

Lemma land_high b n : 0 <= n < 64 -> Z.land (b * 64 + n) 0xC0 = Z.land (b * 64) 0xC0.
Proof.
  intros Hn. apply Z.bits_inj'. intros i Hi. rewrite !Z.land_spec.
  destruct (Z.lt_ge_cases i 6) as [Hlt|Hge].
  - change 0xC0 with (Z.shiftl 3 6). by rewrite Z.shiftl_spec_low, !andb_false_r by lia.
  - f_equal. rewrite !Z.testbit_odd, !Z.shiftr_div_pow2 by lia. f_equal.
    replace (2 ^ i) with (64 * 2 ^ (i - 6)) by (rewrite <- (Z.pow_add_r 2 6) by lia; f_equal; lia).
    rewrite <- !Z.div_div by lia. f_equal. rewrite Z.div_mul, Z.div_add_l, Z.div_small by lia. lia.
Qed.

Lemma land_low b n : 0 <= n < 64 -> Z.land (b * 64 + n) 0x3F = n.
Proof.
  intros Hn. change 0x3F with (Z.ones 6). rewrite Z.land_ones by lia. change (2 ^ 6) with 64.
  rewrite Z.add_comm, Z.mod_add by lia. by apply Z.mod_small.
Qed.

(** Two bytes put together. *)
Lemma lor_bytes a b : 0 <= a -> 0 <= b < 256 -> Z.lor (Z.shiftl a 8) b = a * 256 + b.
Proof.
  intros Ha Hb. pose proof (Z.add_lor_land (Z.shiftl a 8) b) as H.
  assert (Z.land (Z.shiftl a 8) b = 0) as E.
  { apply Z.bits_inj'. intros i Hi. rewrite Z.land_spec, Z.bits_0. destruct (Z.lt_ge_cases i 8) as [Hlt|Hge].
    - by rewrite Z.shiftl_spec_low by lia.
    - rewrite (testbit_above b 8) by lia. apply andb_false_r. }
  rewrite E, Z.shiftl_mul_pow2 in H by lia. rewrite Z.shiftl_mul_pow2 by lia. lia.
Qed.

(** What [find] sees at an entry. *)
Definition step_at (m : mem) (p i u : Z) (k : token) : Prop :=
  forall fuel, find (S fuel) m p i u =
    if negb (i <? 0x110000) then Ret 0 else
    match k with
    | Glyph _ _ => if i =? u then Ret p else find fuel m (p + token_size k) (i + 1) u
    | _ => find fuel m (p + token_size k) (i + token_codes k) u
    end.

Lemma find_step m p i u k : token_at m p k -> step_at m p i u k.
Proof.
  intros Hk fuel. cbn [find]. destruct (negb (i <? 0x110000)); [done|].
  destruct k as [|n|n|wide count]; cbn [token_at token_size token_codes] in *.
  - rewrite Hk. cbn [Z.eqb]. f_equal. lia.
  - destruct Hk as (Hn & E & E1).
    assert (0 <= n / 256 < 63) by (split; [apply Z.div_pos; lia|apply Z.div_lt_upper_bound; lia]).
    assert (E' : m p = 3 * 64 + n / 256) by lia.
    replace (m p =? 0xFF) with false by lia. rewrite E', land_high, land_low, E1 by lia. cbn [Z.eqb].
    change (Z.land (3 * 64) 0xC0 =? 0xC0) with true. cbv iota.
    rewrite lor_bytes by first [lia|apply Z.mod_pos_bound; lia]. f_equal. pose proof (Z.div_mod n 256). lia.
  - destruct Hk as (Hn & E). assert (E' : m p = 2 * 64 + n) by lia.
    replace (m p =? 0xFF) with false by lia. rewrite E', land_high, land_low by lia.
    change (Z.land (2 * 64) 0xC0 =? 0xC0) with false. change (Z.land (2 * 64) 0xC0 =? 0x80) with true. cbv iota.
    f_equal. lia.
  - destruct Hk as (Hb & Hw & E & Hc). replace (m p =? 0xFF) with false by lia.
    assert (Hq : 0 <= m p / 64 < 2) by (split; [apply Z.div_pos; lia|apply Z.div_lt_upper_bound; lia]).
    pose proof (Z.div_mod (m p) 64). pose proof (Z.mod_pos_bound (m p) 64).
    assert (E' : m p = m p / 64 * 64 + m p mod 64) by lia.
    assert (Hh : Z.land (m p) 0xC0 = Z.land (m p / 64 * 64) 0xC0) by (rewrite E' at 1; apply land_high; lia).
    assert (Hh' : Z.land (m p) 0xC0 = 0 \/ Z.land (m p) 0xC0 = 0x40).
    { rewrite Hh. assert (m p / 64 = 0 \/ m p / 64 = 1) as [-> | ->] by lia; [by left|by right]. }
    replace (Z.land (m p) 0xC0 =? 0xC0) with false by lia. replace (Z.land (m p) 0xC0 =? 0x80) with false by lia.
    assert ((Z.land (m p) 0x40 =? 0) = negb wide) as ->.
    { pose proof (Cpu.test_flag (m p) 6 ltac:(lia)) as Ht. change (Z.shiftl 1 6) with 0x40 in Ht. rewrite Hw in Ht.
      by destruct (Z.land (m p) 0x40 =? 0), wide. }
    destruct (i =? u); [done|]. f_equal. rewrite E. destruct wide; cbn [negb]; lia.
Qed.

Lemma token_codes_pos m p k : token_at m p k -> 1 <= token_codes k.
Proof. destruct k; cbn; lia. Qed.

Lemma glyph_of_later m l p i u : table_at m p l -> u < i -> glyph_of l p i u = 0.
Proof.
  revert p i. induction l as [|k l IH]; intros p i Hl Hi; [done|]. destruct Hl as [Hk Hl].
  pose proof (token_codes_pos _ _ _ Hk). destruct k as [|n|n|wide count]; cbn [glyph_of];
    try (apply IH; [done|cbn in *; lia]).
  destruct (Z.eqb_spec i u); [lia|]. apply IH; [done|lia].
Qed.

Lemma find_table m u l fuel p i : table_at m p l -> 0x110000 <= i + codes l -> 0 <= u < 0x110000 ->
  (length l < fuel)%nat -> find fuel m p i u = Ret (glyph_of l p i u).
Proof.
  revert fuel p i. induction l as [|k l IH]; intros [|fuel] p i Hl Hc Hu Hf; cbn [length codes foldr] in *; try lia.
  - cbn [find]. by replace (i <? 0x110000) with false by lia.
  - fold (codes l) in Hc. pose proof Hl as Hl'. destruct Hl as [Hk Hl]. rewrite (find_step _ _ _ _ _ Hk).
    destruct (Z.ltb_spec i 0x110000) as [Hi|Hi]; cbn [negb].
    + destruct k as [|n|n|wide count]; cbn [glyph_of]; try (apply IH; [done|lia|done|lia]).
      destruct (Z.eqb_spec i u); [done|]. apply IH; [done|cbn in *; lia|done|lia].
    + by rewrite (glyph_of_later m) by (done || lia).
Qed.

(** The search goes forward in the codes whatever the bytes are. *)
Lemma find_returns m u fuel p i : mem_wf m -> (0 < fuel)%nat -> 0x110000 - i < Z.of_nat fuel ->
  exists a, find fuel m p i u = Ret a.
Proof.
  intros Hm. revert p i. induction fuel as [|fuel IH]; intros p i H0 Hf; cbn [find].
  - lia.
  - destruct (Z.ltb_spec i 0x110000); cbn [negb]; [|by eexists].
    destruct (m p =? 0xFF); [apply IH; lia|].
    assert (0 <= Z.land (m p) 0x3F) by (apply Z.land_nonneg; lia). pose proof (Hm (p + 1)).
    destruct (Z.land (m p) 0xC0 =? 0xC0); [apply IH; [lia|]|].
    { assert (0 <= Z.lor (Z.shiftl (Z.land (m p) 0x3F) 8) (m (p + 1))); [|lia].
      apply Z.lor_nonneg. split; [by apply Z.shiftl_nonneg|lia]. }
    destruct (Z.land (m p) 0xC0 =? 0x80); [apply IH; lia|].
    destruct (i =? u); [by eexists|apply IH; lia].
Qed.

(** The search for a character's glyph ends for every font, within as
    many steps as there are codes; in a table that covers them it finds exactly
    the glyph of the character, or null when the table skips it. *)
Theorem find_glyph m p u :
  (mem_wf m -> forall fuel, 0x110000 < Z.of_nat fuel -> exists a, find fuel m p 0 u = Ret a) /\
  (forall l fuel, table_at m p l -> 0x110000 <= codes l -> 0 <= u < 0x110000 -> (length l < fuel)%nat ->
     find fuel m p 0 u = Ret (glyph_of l p 0 u)).
Proof.
  split.
  - intros Hm fuel Hf. apply find_returns; [done|lia..].
  - intros l fuel Hl Hc Hu Hf. by apply find_table.
Qed.

(** ** Glyphs

    A glyph is a set of shapes: the first line, the width, the number of lines
    and the address of the bits, the least significant of a byte first. *)

Record shape : Type := mkShape { top : Z; across : Z; down : Z; bits : Z }.

Definition shape_at (m : mem) (src chr ptr : Z) : option shape :=
  if (m ptr =? 255) && (m (ptr + 1) =? 255) then None else
  let frg := fragment_address src chr ptr m in
  if negb (Z.land (m frg) 0xE0 =? 0x80) then None else
  Some (mkShape (m (ptr + 1)) (fragment_width frg m) (m (frg + 1) + 1) (frg + 2)).

Definition shapes (m : mem) (src chr : Z) : list shape :=
  omap (fun i => shape_at m src chr (chr + 6 + i * entry_size chr m)) (seqZ 0 (m (chr + 1))).

Definition shape_bit (m : mem) (sh : shape) (c r : Z) : bool :=
  Z.testbit (m (bits sh + (r * across sh + c) / 8)) ((r * across sh + c) mod 8).

(** Whether the glyph covers column [c] of its line [r]. *)
Definition lit (m : mem) (l : list shape) (c r : Z) : bool :=
  existsb (fun sh => (0 <=? c) && (c <? across sh) && (top sh <=? r) && (r <? top sh + down sh) &&
                     shape_bit m sh c (r - top sh)) l.

(** The byte and the bit that [pixels] holds before pixel [i] of a bitmap. *)
Definition cursor (b i : Z) : Z * Z := if i =? 0 then (b, 1) else (b + (i - 1) / 8, 2 * 2 ^ ((i - 1) mod 8)).

Lemma cursor_next b i : 0 <= i ->
  (if 0x80 <? (cursor b i).2 then ((cursor b i).1 + 1, 1) else cursor b i) = (b + i / 8, 2 ^ (i mod 8)).
Proof.
  intros Hi. unfold cursor. destruct (Z.eqb_spec i 0) as [->|Hne]; [change (0 / 8) with 0; rewrite Z.add_0_r; reflexivity|]. cbn [fst snd].
  pose proof (Z.div_mod (i - 1) 8 ltac:(lia)). pose proof (Z.mod_pos_bound (i - 1) 8 ltac:(lia)) as Hr.
  set (q := (i - 1) / 8) in *. set (r := (i - 1) mod 8) in *.
  assert (Hc : (i / 8 = q /\ i mod 8 = r + 1 /\ r < 7) \/ (i / 8 = q + 1 /\ i mod 8 = 0 /\ r = 7)).
  { destruct (Z.eq_dec r 7); [right|left].
    - split; [symmetry; apply (Z.div_unique _ _ _ 0); lia|]. split; [symmetry; apply (Z.mod_unique _ _ (q + 1)); lia|done].
    - split; [symmetry; apply (Z.div_unique _ _ _ (r + 1)); lia|].
      split; [symmetry; apply (Z.mod_unique _ _ q); lia|lia]. }
  destruct Hc as [(-> & -> & Hr7)|(-> & -> & Hr7)].
  - enum8 r; try lia; reflexivity.
  - rewrite Hr7. cbn. f_equal. lia.
Qed.

Lemma cursor_S b i : 0 <= i -> cursor b (i + 1) = (b + i / 8, Z.shiftl (2 ^ (i mod 8)) 1).
Proof.
  intros Hi. unfold cursor. replace (i + 1 =? 0) with false by lia. replace (i + 1 - 1) with i by lia.
  done.
Qed.

Section Drawing.
(** A screen, the destination on it, and the addresses of the font, whose bytes
    are those of [m0]. *)
Context (f : Framebuffer.screen) (d : buf) (font : Z -> Prop) (m0 : mem).

Abbreviation line := (Framebuffer.frm_pixperscanline f).
Abbreviation address := (fun X Y => Framebuffer.frm_addr f + 4 * (Y * line + X)).

(** The destination is the screen, without a background, and the font is
    somewhere else. *)
Record drawable : Prop := {
  dr_screen : Framebuffer.screen_ok f;
  dr_ptr : ptr d = Framebuffer.frm_addr f;
  dr_w : w d = Framebuffer.frm_width f /\ 0 < w d;
  dr_h : h d = Framebuffer.frm_height f /\ 0 < h d;
  dr_p : p d = 4 * line;
  dr_y : 0 <= y d;
  dr_origin : 0 <= address (x d) (y d) < 2 ^ 64;
  dr_fg : 0 <= fg d < 2 ^ 32;
  dr_bg : bg d = 0;
  dr_font : forall X Y a, Framebuffer.on_screen f X Y ->
    in_range (Framebuffer.pixel_address f (u32 X) (u32 Y)) 4 a -> ~ font a;
}.

Definition same (m : mem) : Prop := forall a, font a -> m a = m0 a.

(** The pixel of column [c], line [r] of a shape, if it is set and visible. *)
Definition point (sh : shape) (r c : Z) : list (Z * Z) :=
  let X := x d + c in
  let Y := y d + (top sh + r) in
  if bool_decide (Framebuffer.on_screen f X Y) && shape_bit m0 sh c r then [(X, Y)] else [].

Definition row_points (sh : shape) (n : Z) (r : Z) : list (Z * Z) := c ← seqZ 0 n; point sh r c.
Definition shape_points (sh : shape) : list (Z * Z) := r ← seqZ 0 (down sh); row_points sh (across sh) r.

Abbreviation plot := (Framebuffer.plot_all f (fg d)).

Context (Hd : drawable).

Lemma plot_app l1 l2 m : plot (l1 ++ l2) m = plot l2 (plot l1 m).
Proof. unfold Framebuffer.plot_all. by rewrite foldl_app. Qed.

(** Points on the screen leave the other bytes alone, the font's too. *)
Lemma plot_out l m a : (forall q, q ∈ l -> Framebuffer.on_screen f q.1 q.2) ->
  (forall X Y, Framebuffer.on_screen f X Y -> ~ in_range (Framebuffer.pixel_address f (u32 X) (u32 Y)) 4 a) ->
  plot l m a = m a.
Proof.
  intros Hl Ha. revert m. induction l as [|q l IH]; intros m; [done|]. change (plot (q :: l) m) with
    (plot l (Framebuffer.putPixel f q.1 q.2 (fg d) m)). rewrite IH by (intros; apply Hl; by right).
  apply store_ne. apply Ha, Hl. by left.
Qed.

Lemma point_on sh r c q : q ∈ point sh r c -> Framebuffer.on_screen f q.1 q.2.
Proof.
  unfold point. destruct (bool_decide_reflect (Framebuffer.on_screen f (x d + c) (y d + (top sh + r)))); cbn [andb].
  - destruct (shape_bit m0 sh c r); [|by intros ?%not_elem_of_nil]. by intros ->%list_elem_of_singleton.
  - by intros ?%not_elem_of_nil.
Qed.

Lemma row_on sh n r q : q ∈ row_points sh n r -> Framebuffer.on_screen f q.1 q.2.
Proof. intros (c & Hq & _)%list_elem_of_bind. by apply point_on in Hq. Qed.

Lemma plot_same l m : (forall q, q ∈ l -> Framebuffer.on_screen f q.1 q.2) -> same m -> same (plot l m).
Proof.
  intros Hl Hs a Ha. rewrite plot_out; [by apply Hs|done|]. intros X Y Hxy Hin. by apply (dr_font Hd X Y a).
Qed.

(** The address of line [yy] of the glyph. *)
Definition row_address (yy : Z) : Z := address (x d) (y d + yy).

Lemma seqZ_S from n : seqZ from (Z.of_nat (S n)) = from :: seqZ (from + 1) (Z.of_nat n).
Proof. rewrite seqZ_cons by lia. f_equal; f_equal; lia. Qed.

Lemma plot_point sh r c m : 0 <= top sh + r -> y d + (top sh + r) < h d -> 
  plot (point sh r c) m =
    if (0 <=? x d + c) && column_visible d c then
      if shape_bit m0 sh c r then store32 m (row_address (top sh + r) + 4 * c) (fg d) else m
    else m.
Proof.
  intros Hr Hv. unfold point, column_visible.
  destruct Hd as [Hs _ [Hw Hw0] [Hh _] _ Hy _ Hfg _ _]. rewrite Z.abs_eq by lia. rewrite Hw in *.
  replace (Framebuffer.frm_width f =? 0) with false by lia. cbn [orb].
  destruct (bool_decide_reflect (Framebuffer.on_screen f (x d + c) (y d + (top sh + r)))) as [Hon|Hoff]; cbn [andb].
  - destruct Hon as [Hx Hyy]. replace (0 <=? x d + c) with true by lia.
    replace (x d + c <? Framebuffer.frm_width f) with true by lia. cbn [andb].
    destruct (shape_bit m0 sh c r); [|done]. unfold Framebuffer.plot_all. cbn [foldl fst snd]. unfold Framebuffer.putPixel.
    rewrite (wrap_small 32 (fg d)) by done.
    destruct (Framebuffer.pixel_address_on f (x d + c) (y d + (top sh + r)) Hs (conj Hx Hyy)) as (-> & _ & _).
    unfold row_address. f_equal. lia.
  - destruct ((0 <=? x d + c) && (x d + c <? Framebuffer.frm_width f)) eqn:E; [|done].
    destruct Hoff. unfold Framebuffer.on_screen. lia.
Qed.

Lemma pixels_run sh r n c m : 0 <= r -> 0 <= top sh -> 0 <= c -> 0 <= r * across sh -> y d + (top sh + r) < h d -> same m ->
  (forall i, 0 <= i < Z.of_nat n -> font (bits sh + (r * across sh + c + i) / 8)) ->
  pixels d n c (row_address (top sh + r)) (cursor (bits sh) (r * across sh + c)).1
    (cursor (bits sh) (r * across sh + c)).2 m =
  ((cursor (bits sh) (r * across sh + c + Z.of_nat n)).1, (cursor (bits sh) (r * across sh + c + Z.of_nat n)).2,
   plot (c' ← seqZ c (Z.of_nat n); point sh r c') m).
Proof.
  intros Hr Ht Hc Hrk Hv. revert c m Hc. induction n as [|n IH]; intros c m Hc Hs Hfont.
  - cbn [pixels]. rewrite Z.add_0_r. done.
  - cbn [pixels]. rewrite <- surjective_pairing, cursor_next by lia.
    rewrite seqZ_S. cbn [mbind list_bind]. rewrite plot_app, plot_point by lia.
    set (i := r * across sh + c) in *.
    assert (Hb : negb (Z.land (m (bits sh + i / 8)) (2 ^ (i mod 8)) =? 0) = shape_bit m0 sh c r).
    { rewrite <- Z.shiftl_1_l, Cpu.test_flag by (apply Z.mod_pos_bound; lia). unfold shape_bit. fold i.
      rewrite (Hs (bits sh + i / 8)); [done|]. specialize (Hfont 0 ltac:(lia)). by rewrite Z.add_0_r in Hfont. }
    rewrite Hb, (dr_bg Hd). cbn [Z.eqb negb].
    assert (E1 : cursor (bits sh) (r * across sh + (c + 1)) = (bits sh + i / 8, Z.shiftl (2 ^ (i mod 8)) 1)).
    { replace (r * across sh + (c + 1)) with (i + 1) by (unfold i; lia). apply cursor_S. unfold i. lia. }
    set (m' := if (0 <=? x d + c) && column_visible d c then _ else m).
    assert (Hs' : same m').
    { unfold m'. rewrite <- plot_point by lia. apply plot_same; [|done]. intros q. apply point_on. }
    specialize (IH (c + 1) m' ltac:(lia) Hs'). rewrite E1 in IH. cbn [fst snd] in IH. rewrite IH.
    + replace (r * across sh + (c + 1) + Z.of_nat n) with (i + Z.of_nat (S n)) by (unfold i; lia). done.
    + intros j Hj. replace (r * across sh + (c + 1) + j) with (i + (j + 1)) by (unfold i; lia). apply Hfont. lia.
Qed.

Lemma row_address_S yy : row_address (yy + 1) = row_address yy + 4 * line.
Proof. unfold row_address. lia. Qed.

(** Nothing of a line below the screen is visible. *)
Lemma row_hidden sh n r : h d <= y d + (top sh + r) -> row_points sh n r = [].
Proof.
  intros Hv. unfold row_points. induction (seqZ 0 n) as [|c l IH]; [done|]. cbn [mbind list_bind].
  rewrite IH, app_nil_r. unfold point. rewrite bool_decide_eq_false_2; [done|].
  unfold Framebuffer.on_screen. destruct (dr_h Hd) as [<- _]. lia.
Qed.

Lemma rows_run sh j r m : 0 <= r -> 0 <= top sh -> 0 <= across sh -> same m ->
  (forall i, 0 <= i < (r + Z.of_nat j) * across sh -> font (bits sh + i / 8)) ->
  exists yy, 0 <= yy /\
    rows d line j (across sh) (top sh + r) (row_address (top sh + r)) (cursor (bits sh) (r * across sh)).1
      (cursor (bits sh) (r * across sh)).2 m =
    (yy, row_address yy, plot (r' ← seqZ r (Z.of_nat j); row_points sh (across sh) r') m).
Proof.
  intros Hr Ht Hk. revert r m Hr. induction j as [|j IH]; intros r m Hr Hs Hfont.
  - exists (top sh + r). split; [lia|done].
  - assert (Hrk : 0 <= r * across sh) by lia. rewrite seqZ_S. cbn [mbind list_bind rows]. unfold row_visible.
    destruct (dr_h Hd) as [_ Hh]. replace (h d =? 0) with false by lia. cbn [orb].
    destruct (Z.ltb_spec (y d + (top sh + r)) (h d)) as [Hv|Hv].
    + assert (Hp := pixels_run sh r (Z.to_nat (across sh)) 0 m Hr Ht (Z.le_refl 0) Hrk Hv Hs).
      rewrite Z2Nat.id, !Z.add_0_r in Hp by done. rewrite Hp by (intros i Hi; apply Hfont; nia).
      fold (row_points sh (across sh) r). rewrite plot_app, <- Z.add_assoc, <- row_address_S, <- Z.add_assoc.
      replace (r * across sh + across sh) with ((r + 1) * across sh) by lia.
      destruct (IH (r + 1) (plot (row_points sh (across sh) r) m)) as (yy & Hyy & E); [lia| |intros i Hi; apply Hfont; lia|].
      * apply plot_same; [|done]. intros q. apply row_on.
      * exists yy. split; [done|exact E].
    + exists (top sh + r). split; [lia|]. f_equal. rewrite (row_hidden sh (across sh) r) by lia. cbn [app].
      assert (Hnil : forall l, (forall r', In r' l -> r <= r') -> (r' ← l; row_points sh (across sh) r') = []).
      { induction l as [|r' l IHl]; intros Hl; [done|]. cbn [mbind list_bind].
        rewrite row_hidden by (pose proof (Hl r' ltac:(by left)); lia). apply IHl. intros; apply Hl; by right. }
      rewrite Hnil; [done|]. intros r' Hin%list_elem_of_In%elem_of_seqZ. lia.
Qed.

(** What a glyph's entry and its bitmap occupy belongs to the font. *)
Record entry_in (src chr p : Z) : Prop := {
  ei_entry : forall a, in_range p (entry_size chr m0) a -> font a;
  ei_head : (m0 p =? 255) && (m0 (p + 1) =? 255) = false ->
    font (fragment_address src chr p m0) /\ font (fragment_address src chr p m0 + 1);
  ei_bits : forall sh, shape_at m0 src chr p = Some sh ->
    forall i, 0 <= i < down sh * across sh -> font (bits sh + i / 8);
}.

Lemma entry_size_range chr m : 5 <= entry_size chr m <= 6.
Proof. unfold entry_size. destruct (_ =? _); lia. Qed.

Lemma fragment_address_same src chr p m : same m -> font chr -> entry_in src chr p ->
  fragment_address src chr p m = fragment_address src chr p m0.
Proof.
  intros Hs Hchr [He _ _]. unfold fragment_address, entry_size in *. rewrite (Hs chr) by done.
  destruct (Z.land (m0 chr) 0x40 =? 0); rewrite !Hs by (apply He; unfold in_range; lia); done.
Qed.

Lemma fragment_run src chr p yy m : mem_wf m0 -> same m -> font chr -> entry_in src chr p -> 0 <= yy ->
  exists yy', 0 <= yy' /\
    fragment d line src chr p (yy, row_address yy, m) =
    (yy', row_address yy', plot (from_option shape_points [] (shape_at m0 src chr p)) m).
Proof.
  intros Hm Hs Hchr He Hyy. pose proof (entry_size_range chr m0) as Hsz. unfold fragment, shape_at.
  rewrite !(Hs p), !(Hs (p + 1)) by (apply (ei_entry _ _ _ He); unfold in_range; lia).
  rewrite fragment_address_same by done.
  destruct ((m0 p =? 255) && (m0 (p + 1) =? 255)) eqn:Hskip; [by exists yy|].
  destruct (ei_head _ _ _ He Hskip) as [Hf0 Hf1]. set (frg := fragment_address src chr p m0) in *.
  rewrite (Hs frg) by done.
  destruct (negb (Z.land (m0 frg) 0xE0 =? 0x80)) eqn:Hkind; [by exists yy|]. rewrite (dr_bg Hd). cbn [Z.eqb negb from_option].
  rewrite (Hs (frg + 1)) by done.
  assert (Hw : fragment_width frg m = fragment_width frg m0) by (unfold fragment_width; by rewrite Hs).
  rewrite Hw. set (sh := mkShape (m0 (p + 1)) (fragment_width frg m0) (m0 (frg + 1) + 1) (frg + 2)).
  assert (Hsh : shape_at m0 src chr p = Some sh) by (unfold shape_at; rewrite Hskip; cbv zeta; fold frg; by rewrite Hkind).
  pose proof (Hm (p + 1)). pose proof (Hm (frg + 1)).
  assert (Hk : 0 <= across sh).
  { apply Z.shiftl_nonneg. assert (0 <= Z.land (m0 frg) 0x1F) by (apply Z.land_nonneg; lia). lia. }
  destruct (rows_run sh (Z.to_nat (down sh)) 0 m) as (yy' & Hyy' & E); [lia|cbn; lia|done|done| |].
  - intros i Hi. apply (ei_bits _ _ _ He sh Hsh). cbn [down sh] in *. lia.
  - exists yy'. split; [done|]. unfold shape_points. rewrite !Z.mul_0_l, Z2Nat.id, Z.add_0_r in E by (cbn; lia).
    cbn [fst snd cursor Z.eqb] in E. rewrite <- E.
    assert (row_address yy + 4 * ((m0 (p + 1) - yy) * line) = row_address (top sh)) as ->; [|done].
    change (top sh) with (m0 (p + 1)). unfold row_address. lia.
Qed.

(** Every entry of a glyph and its fixed part. *)
Record glyph_in (src chr : Z) : Prop := {
  gi_head : forall a, in_range chr 6 a -> font a;
  gi_entries : forall i, 0 <= i < m0 (chr + 1) -> entry_in src chr (chr + 6 + i * entry_size chr m0);
}.

Lemma gi_chr src chr : glyph_in src chr -> font chr /\ font (chr + 1) /\ font (chr + 4) /\ font (chr + 5).
Proof. intros [Hh _]. split_and!; apply Hh; unfold in_range; lia. Qed.

Lemma shape_points_on l q : q ∈ (sh ← l; shape_points sh) -> Framebuffer.on_screen f q.1 q.2.
Proof. intros (sh & (r & Hq%row_on & _)%list_elem_of_bind & _)%list_elem_of_bind. done. Qed.

Lemma fragments_run src chr n i yy m : mem_wf m0 -> same m -> glyph_in src chr -> 0 <= i -> 0 <= yy ->
  m0 (chr + 1) < i + Z.of_nat n ->
  exists yy', 0 <= yy' /\
    fragments d line n src chr i (chr + 6 + i * entry_size chr m0) (yy, row_address yy, m) =
    (yy', row_address yy',
     plot (sh ← omap (fun i => shape_at m0 src chr (chr + 6 + i * entry_size chr m0)) (seqZ i (m0 (chr + 1) - i));
           shape_points sh) m).
Proof.
  intros Hm Hs Hg Hi Hyy. destruct (gi_chr _ _ Hg) as (Hc & Hc1 & _).
  revert i yy m Hs Hi Hyy. induction n as [|n IH]; intros i yy m Hs Hi Hyy Hn; cbn [fragments snd].
  - exists yy. split; [done|]. by rewrite seqZ_nil by lia.
  - rewrite (Hs (chr + 1)) by done. destruct (Z.ltb_spec i (m0 (chr + 1))) as [Hlt|Hge].
    + destruct (fragment_run src chr (chr + 6 + i * entry_size chr m0) yy m Hm Hs Hc) as (yy1 & Hyy1 & E);
        [by apply (gi_entries _ _ Hg)|done|]. rewrite E. cbn [snd].
      set (sh := shape_at m0 src chr _) in *.
      assert (Hs1 : same (plot (from_option shape_points [] sh) m)).
      { apply plot_same; [|done]. intros q Hq. apply (shape_points_on (from_option (fun s => [s]) [] sh)).
        destruct sh; [|done]. cbn. by rewrite app_nil_r. }
      assert (Hsz : entry_size chr (plot (from_option shape_points [] sh) m) = entry_size chr m0)
        by (unfold entry_size; by rewrite Hs1). rewrite Hsz.
      destruct (IH (i + 1) yy1 _ Hs1 ltac:(lia) Hyy1 ltac:(lia)) as (yy' & Hyy' & E').
      exists yy'. split; [done|]. replace (chr + 6 + i * entry_size chr m0 + entry_size chr m0)
        with (chr + 6 + (i + 1) * entry_size chr m0) by lia. rewrite E'. f_equal.
      rewrite (seqZ_cons i) by lia. cbn [omap list_omap]. fold sh.
      replace (Z.pred (m0 (chr + 1) - i)) with (m0 (chr + 1) - (i + 1)) by lia. replace (Z.succ i) with (i + 1) by lia.
      destruct sh as [sh|]; [|done]. cbn [mbind list_bind from_option]. by rewrite plot_app.
    + exists yy. split; [done|]. by rewrite seqZ_nil by lia.
Qed.

Lemma plot_pixel l X Y m : (forall q, q ∈ l -> Framebuffer.on_screen f q.1 q.2) -> Framebuffer.on_screen f X Y ->
  Framebuffer.getPixel f X Y (plot l m) = if decide ((X, Y) ∈ l) then fg d else Framebuffer.getPixel f X Y m.
Proof.
  intros Hl Hxy. revert m. induction l as [|q l IH] using rev_ind; intros m.
  - by rewrite decide_False by (apply not_elem_of_nil).
  - rewrite plot_app. change (plot [q] (plot l m)) with (Framebuffer.putPixel f q.1 q.2 (fg d) (plot l m)).
    rewrite Framebuffer.getPixel_putPixel by (done || apply (dr_screen Hd) || (apply Hl, elem_of_app; right; by left)).
    rewrite IH by (intros; apply Hl, elem_of_app; by left). rewrite wrap_small by apply (dr_fg Hd).
    destruct (decide (X = q.1 /\ Y = q.2)) as [[-> ->]|Hne].
    + rewrite decide_True; [done|]. apply elem_of_app. right. apply list_elem_of_singleton. by destruct q.
    + apply decide_ext. rewrite elem_of_app, list_elem_of_singleton. split; [by left|]. intros [?|<-]; [done|]. by destruct Hne.
Qed.

(** The points of a glyph are the visible pixels it covers. *)
Lemma glyph_points l X Y : Framebuffer.on_screen f X Y ->
  (X, Y) ∈ (sh ← l; shape_points sh) <-> lit m0 l (X - x d) (Y - y d) = true.
Proof.
  intros Hxy. unfold lit. rewrite existsb_exists, list_elem_of_bind. apply exist_proper. intros sh.
  rewrite <- list_elem_of_In, !andb_true_iff, !Z.leb_le, !Z.ltb_lt. rewrite (and_comm ((X, Y) ∈ _)). apply and_iff_compat_l.
  unfold shape_points, row_points. rewrite list_elem_of_bind. split.
  - intros (r & (c & Hp & Hc%elem_of_seqZ)%list_elem_of_bind & Hr%elem_of_seqZ). unfold point in Hp.
    destruct (bool_decide _ && shape_bit m0 sh c r) eqn:E; [|by apply not_elem_of_nil in Hp].
    apply list_elem_of_singleton in Hp. injection Hp as -> ->. apply andb_true_iff in E as [_ E].
    replace (x d + c - x d) with c by lia. replace (y d + (top sh + r) - y d - top sh) with r by lia.
    split; [lia|done].
  - intros [Hin Hb]. exists (Y - y d - top sh). split; [|apply elem_of_seqZ; lia].
    apply list_elem_of_bind. exists (X - x d). split; [|apply elem_of_seqZ; lia]. unfold point.
    replace (x d + (X - x d)) with X by lia. replace (y d + (top sh + (Y - y d - top sh))) with Y by lia.
    rewrite bool_decide_eq_true_2, Hb by done. by left.
Qed.

Lemma origin_row : origin d = row_address 0.
Proof.
  unfold origin, row_address. rewrite Z.add_0_r, (dr_ptr Hd), (dr_p Hd). rewrite wrap_small; [lia|].
  pose proof (dr_origin Hd). lia.
Qed.

End Drawing.


(** A font with one glyph, an "A" whose bitmap has two lines of eight pixels,
    the first in line 2, behind the small screen of [Framebuffer]. *)
Definition small_font : list Z :=
  [83; 70; 78; 50; 68; 0; 0; 0; 0; 0; 8; 16; 0; 0; 0; 0; 32; 0; 0; 0] ++ replicate 12 0 ++
  [0xBF; 0x80] ++ [0; 1; 8; 16; 8; 0] ++ [0; 2; 0x40; 0; 0] ++ replicate 17 0xFF ++ [0; 0] ++ [0x80; 1; 0x81; 0x7E].

Definition small_memory : mem := fun a => if a <? 0x2000 then 0 else default 0 (small_font !! Z.to_nat (a - 0x2000)).
Definition small_table : list token := [Short 63; Short 0; Glyph false 1] ++ replicate 17 Far.

Definition ssfn_demo : t :=
  mk 0x2000 (mkBuf 0x1000 8 8 32 0 0 0xFFFFFF 0) 0 0xFFFFFF (Framebuffer.mkPoint 0 0) small_memory.

Lemma find_glyph_witness :
  find 100 small_memory 0x2020 0 65 = Ret 0x2022 /\ find 100 small_memory 0x2020 0 66 = Ret 0.
Proof.
  assert (Ht : table_at small_memory 0x2020 small_table) by (cbn; split_and!; (lia || done)).
  split.
  - apply (proj2 (find_glyph small_memory 0x2020 65) small_table); [exact Ht|vm_compute; congruence|lia|cbn; lia].
  - apply (proj2 (find_glyph small_memory 0x2020 66) small_table); [exact Ht|vm_compute; congruence|lia|cbn; lia].
Defined.

Lemma small_memory_wf : mem_wf small_memory.
Proof.
  intros a. unfold small_memory. destruct (a <? 0x2000); [lia|].
  assert (Hall : Forall (fun b => 0 <= b < 256) small_font) by (repeat constructor; lia).
  destruct (small_font !! Z.to_nat (a - 0x2000)) as [b|] eqn:E; cbn [default from_option id]; [|lia].
  by apply (Forall_lookup_1 _ _ _ _ Hall E).
Qed.

Lemma ssfn_demo_drawable : drawable Framebuffer.small (ssfn_dst ssfn_demo) (in_range 0x2000 68).
Proof.
  split; cbn; try lia; [apply Framebuffer.small_ok|].
  intros X Y a Hxy. destruct (Framebuffer.pixel_address_on _ X Y Framebuffer.small_ok Hxy) as (-> & _ & _).
  destruct Hxy as [Hx Hy]. cbn in *. unfold in_range. lia.
Qed.

Lemma ssfn_demo_glyph : glyph_in (in_range 0x2000 68) small_memory 0x2000 0x2022.
Proof.
  split; [unfold in_range; lia|]. intros i Hi. change (small_memory (0x2022 + 1)) with 1 in Hi.
  assert (i = 0) as -> by lia. split.
  - change (entry_size 0x2022 small_memory) with 5. unfold in_range. lia.
  - intros _. change (fragment_address 0x2000 0x2022 _ small_memory) with 0x2040. unfold in_range. lia.
  - intros sh Hsh j Hj. change (shape_at _ _ _ _) with (Some (mkShape 2 8 2 0x2042)) in Hsh. injection Hsh as <-.
    cbn in *. unfold in_range. assert (0 <= j / 8 < 2) by (split; [apply Z.div_pos; lia|apply Z.div_lt_upper_bound; lia]). lia.
Qed.


End Ssfn.
