(* ===== verification/Mouse.v ===== *)
(** * The PS/2 mouse: [drivers/devices/mouse.cpp]

    Bytes arrive one an interrupt; three make a packet, which the next
    interrupt turns into a move of the cursor on the framebuffer. *)

From S2P Require Import Prelude Mem PortIO Framebuffer.
#[local] Open Scope Z_scope.
#[local] Open Scope machine_scope.

Module Mouse.
Import Framebuffer.

Definition PS2_X_SIGN : Z := 0x10.
Definition PS2_Y_SIGN : Z := 0x20.
Definition PS2_X_OVER : Z := 0x40.
Definition PS2_Y_OVER : Z := 0x80.

Inductive MouseState : Type := PS2_NONE | PS2_LEFT | PS2_MIDDLE | PS2_RIGHT.

(** The values of the buttons' enumerators. *)
Definition button (b : MouseState) : Z :=
  match b with PS2_NONE => 0 | PS2_LEFT => 1 | PS2_MIDDLE => 4 | PS2_RIGHT => 2 end.

Definition mouseBorderCol : Z := 0xFFFFFF.
Definition mouseInsideCol : Z := 0x2D2D2D.

Definition cursorborder : list Z :=
  [0x80; 0x00; 0xC0; 0x00; 0xA0; 0x00; 0x90; 0x00; 0x88; 0x00; 0x84; 0x00; 0x82; 0x00; 0x81; 0x00;
   0x80; 0x80; 0x80; 0x40; 0x80; 0x20; 0x80; 0x10; 0x81; 0xF0; 0x89; 0x00; 0x94; 0x80; 0xA4; 0x80;
   0xC2; 0x40; 0x02; 0x40; 0x01; 0x80].

Definition cursorinside : list Z :=
  [0x80; 0x00; 0xC0; 0x00; 0xE0; 0x00; 0xF0; 0x00; 0xF8; 0x00; 0xFC; 0x00; 0xFE; 0x00; 0xFF; 0x00;
   0xFF; 0x80; 0xFF; 0xC0; 0xFF; 0xE0; 0xFF; 0xF0; 0xFF; 0xF0; 0xFF; 0x00; 0xF7; 0x80; 0xE7; 0x80;
   0xC3; 0xC0; 0x03; 0xC0; 0x01; 0x80].

(** The globals and the function-local statics [skip] and [circle]; the
    framebuffer's state. *)
Record t : Type := mk {
  isInit : bool; cycle : Z; packet : Z * Z * Z; packetReady : bool;
  position : point; oldPosition : point; skip : bool; circle : bool; scr : st;
}.

Definition with_packet (p : Z * Z * Z) (s : t) : t :=
  mk (isInit s) (cycle s) p (packetReady s) (position s) (oldPosition s) (skip s) (circle s) (scr s).
Definition with_cycle (c : Z) (s : t) : t :=
  mk (isInit s) c (packet s) (packetReady s) (position s) (oldPosition s) (skip s) (circle s) (scr s).
Definition with_ready (b : bool) (s : t) : t :=
  mk (isInit s) (cycle s) (packet s) b (position s) (oldPosition s) (skip s) (circle s) (scr s).
Definition with_position (p : point) (s : t) : t :=
  mk (isInit s) (cycle s) (packet s) (packetReady s) p (oldPosition s) (skip s) (circle s) (scr s).
Definition with_old (p : point) (s : t) : t :=
  mk (isInit s) (cycle s) (packet s) (packetReady s) (position s) p (skip s) (circle s) (scr s).
Definition with_skip (b : bool) (s : t) : t :=
  mk (isInit s) (cycle s) (packet s) (packetReady s) (position s) (oldPosition s) b (circle s) (scr s).
Definition with_circle (b : bool) (s : t) : t :=
  mk (isInit s) (cycle s) (packet s) (packetReady s) (position s) (oldPosition s) (skip s) b (scr s).
Definition with_scr (c : st) (s : t) : t :=
  mk (isInit s) (cycle s) (packet s) (packetReady s) (position s) (oldPosition s) (skip s) (circle s) c.
Definition with_init (s : t) : t :=
  mk true (cycle s) (packet s) (packetReady s) (position s) (oldPosition s) (skip s) (circle s) (scr s).

Definition packet0 (s : t) : Z := (packet s).1.1.
Definition packet1 (s : t) : Z := (packet s).1.2.
Definition packet2 (s : t) : Z := (packet s).2.

Definition has (v flag : Z) : bool := negb (Z.land v flag =? 0).

Definition getMouseState (s : t) : MouseState :=
  if has (packet0 s) (button PS2_LEFT) then PS2_LEFT
  else if has (packet0 s) (button PS2_MIDDLE) then PS2_MIDDLE
  else if has (packet0 s) (button PS2_RIGHT) then PS2_RIGHT
  else PS2_NONE.

(** ** The controller *)

Section Controller.
Context (input : PortIO.device).

(** [while (timeout--)]: until the bits of the status are as wanted. *)
Fixpoint wait_status (timeout : nat) (ready : Z -> bool) (h : PortIO.history) : PortIO.history :=
  match timeout with
  | O => h
  | S timeout =>
      let '(v, h) := PortIO.inb input 0x64 h in
      if ready v then h else wait_status timeout ready h
  end.

Definition TIMEOUT : nat := Z.to_nat 100000.

Definition mouseWait : PortIO.history -> PortIO.history := wait_status TIMEOUT (fun v => Z.land v 2 =? 0).
Definition mouseWaitInput : PortIO.history -> PortIO.history := wait_status TIMEOUT (fun v => has v 1).

Definition mouseWrite (value : Z) (h : PortIO.history) : PortIO.history :=
  let h := mouseWait h in
  let h := PortIO.outb 0x64 0xD4 h in
  let h := mouseWait h in
  PortIO.outb 0x60 value h.

Definition mouseRead (h : PortIO.history) : Z * PortIO.history := PortIO.inb input 0x60 (mouseWaitInput h).

(** [register] is [registerInterruptHandler(idt::IRQ12, Mouse_Handler)] on the
    rest of the kernel's state. *)
Definition init {K} (register : PortIO.history -> K -> result (PortIO.history * K)) (s : t)
    (h : PortIO.history) (k : K) : result (t * PortIO.history * K) :=
  if isInit s then Ret (s, h, k) else
  let h := PortIO.outb 0x64 0xA8 h in
  let h := mouseWait h in
  let h := PortIO.outb 0x64 0x20 h in
  let h := mouseWaitInput h in
  let '(status, h) := PortIO.inb input 0x60 h in
  let status := Z.lor status 2 in
  let h := mouseWait h in
  let h := PortIO.outb 0x64 0x60 h in
  let h := mouseWait h in
  let h := PortIO.outb 0x60 status h in
  let h := mouseWrite 0xF6 h in
  let '(_, h) := mouseRead h in
  let h := mouseWrite 0xF4 h in
  let '(_, h) := mouseRead h in
  '(h, k) ← register h k;
  Ret (with_init s, h, k).

End Controller.

(** ** Packets *)

Section Screen.
Context (f : screen).

Definition draw (s : t) : t :=
  let c := drawOverCursor f cursorinside (position s) mouseInsideCol true (scr s) in
  let c := drawOverCursor f cursorborder (position s) mouseBorderCol false c in
  with_scr c s.

Definition clear (s : t) : t := with_scr (clearCursor f cursorinside (oldPosition s) (scr s)) s.

(** The new column; [packet[1]] of a negative move is replaced. *)
Definition move_x (s : t) : t :=
  let xover := has (packet0 s) PS2_X_OVER in
  if negb (has (packet0 s) PS2_X_SIGN) then
    let x := s64 (X (position s) + packet1 s) in
    let x := if xover then s64 (x + 255) else x in
    with_position (mkPoint x (Y (position s))) s
  else
    let p1 := u8 (256 - packet1 s) in
    let x := s64 (X (position s) - p1) in
    let x := if xover then s64 (x - 255) else x in
    with_position (mkPoint x (Y (position s))) (with_packet (packet0 s, p1, packet2 s) s).

Definition move_y (s : t) : t :=
  let yover := has (packet0 s) PS2_Y_OVER in
  if negb (has (packet0 s) PS2_Y_SIGN) then
    let y := s64 (Y (position s) - packet2 s) in
    let y := if yover then s64 (y - 255) else y in
    with_position (mkPoint (X (position s)) y) s
  else
    let p2 := u8 (256 - packet2 s) in
    let y := s64 (Y (position s) + p2) in
    let y := if yover then s64 (y + 255) else y in
    with_position (mkPoint (X (position s)) y) (with_packet (packet0 s, packet1 s, p2) s).

Definition clamp (v size : Z) : Z :=
  let v := if v <? 0 then 0 else v in
  if size - 1 <? v then size - 1 else v.

Definition clamp_position (s : t) : t :=
  with_position (mkPoint (clamp (X (position s)) (frm_width f)) (clamp (Y (position s)) (frm_height f))) s.

(** What the buttons draw; radius 5 needs few rounds. *)
Definition stamp (colour : Z) (s : t) : result t :=
  let x := s32 (X (position s)) in
  let y := s32 (Y (position s)) in
  if circle s then
    m ← drawFilledCircle f 10 x y 5 colour (memory (scr s)); Ret (with_scr (set_memory m (scr s)) s)
  else Ret (with_scr (set_memory (drawFilledRectangle f x y 10 10 colour (memory (scr s))) (scr s)) s).

Definition buttons (s : t) : result t :=
  match getMouseState s with
  | PS2_LEFT => stamp 0x1fe079 s
  | PS2_MIDDLE => Ret (with_circle (negb (circle s)) s)
  | PS2_RIGHT => stamp 0xff00dd s
  | PS2_NONE => Ret s
  end.

Definition proccessPacket (s : t) : result t :=
  if negb (packetReady s) then Ret s else
  let s := clamp_position (move_y (move_x s)) in
  let s := clear s in
  s ← buttons s;
  let s := draw s in
  Ret (with_old (position s) (with_ready false s)).

(** The switch on [cycle] of the handler. *)
Definition store_byte (mousedata : Z) (s : t) : t :=
  match cycle s with
  | 0 =>
      if Z.land mousedata 8 =? 0 then s
      else with_cycle 1 (with_packet (mousedata, packet1 s, packet2 s) s)
  | 1 => with_cycle 2 (with_packet (packet0 s, mousedata, packet2 s) s)
  | 2 => with_cycle 0 (with_ready true (with_packet (packet0 s, packet1 s, mousedata) s))
  | _ => s
  end.

Definition Mouse_Handler (input : PortIO.device) (s : t) (h : PortIO.history) : result (t * PortIO.history) :=
  let '(mousedata, h) := PortIO.inb input 0x60 h in
  s ← proccessPacket s;
  if skip s then Ret (with_skip false s, h) else Ret (store_byte mousedata s, h).

End Screen.

(** * Properties *)

(** The border's pixels are among the inside's. *)
Lemma border_inside x y : 0 <= x < 16 -> 0 <= y < 19 ->
  cursor_bit cursorborder x y = true -> cursor_bit cursorinside x y = true.
Proof.
  intros Hx Hy.
  assert (Hall : forallb (fun y => forallb (fun x =>
    implb (cursor_bit cursorborder x y) (cursor_bit cursorinside x y)) (seqZ 0 16)) (seqZ 0 19) = true)
    by (vm_compute; done).
  pose proof (proj1 (forallb_forall _ _) Hall y ltac:(apply list_elem_of_In, elem_of_seqZ; lia)) as Hrow.
  pose proof (proj1 (forallb_forall _ _) Hrow x ltac:(apply list_elem_of_In, elem_of_seqZ; lia)) as Hbit.
  cbn beta in Hbit. by destruct (cursor_bit cursorborder x y), (cursor_bit cursorinside x y).
Qed.

(** The signed displacement that a sign bit and a byte denote to the code:
    nine bits in two's complement, but for -256. *)
Definition displacement (sign : bool) (b : Z) : Z := if sign then (if b =? 0 then 0 else b - 256) else b.

Lemma byte_negation b : 0 <= b < 256 -> - u8 (256 - b) = displacement true b.
Proof.
  intros Hb. unfold displacement. destruct (Z.eqb_spec b 0) as [->|]; [done|]. rewrite wrap_small by lia. lia.
Qed.

(** Beyond a byte, an overflow bit adds 255 in the direction of the sign. *)
Definition with_overflow (over sign : bool) (d : Z) : Z :=
  if over then (if sign then d - 255 else d + 255) else d.

Definition bytes_ok (s : t) : Prop :=
  0 <= packet0 s < 256 /\ 0 <= packet1 s < 256 /\ 0 <= packet2 s < 256.

(** The state between interrupts: the cursor is on the screen, and so was it
    when it was drawn. *)
Record mouse_ok (f : screen) (s : t) : Prop := {
  mo_screen : screen_ok f;
  mo_bytes : bytes_ok s;
  mo_position : on_screen f (X (position s)) (Y (position s));
  mo_old : on_screen f (X (oldPosition s)) (Y (oldPosition s));
  mo_memory : mem_wf (memory (scr s));
  mo_buffer : length (cursorbuffer (scr s)) = 304%nat;
}.

Lemma s64_small v : - 2 ^ 63 <= v < 2 ^ 63 -> s64 v = v.
Proof. intros Hv. by apply swrap_small. Qed.

(** Where a packet moves the cursor. *)
Definition target (f : screen) (s : t) : point :=
  let xs := has (packet0 s) PS2_X_SIGN in
  let ys := has (packet0 s) PS2_Y_SIGN in
  let dx := with_overflow (has (packet0 s) PS2_X_OVER) xs (displacement xs (packet1 s)) in
  let dy := with_overflow (has (packet0 s) PS2_Y_OVER) ys (displacement ys (packet2 s)) in
  mkPoint (clamp (X (position s) + dx) (frm_width f)) (clamp (Y (position s) - dy) (frm_height f)).

(** Moving along one axis replaces that byte of the packet by a byte. *)
Lemma move_x_run s : bytes_ok s -> 0 <= X (position s) < 2 ^ 31 ->
  let xs := has (packet0 s) PS2_X_SIGN in
  let dx := with_overflow (has (packet0 s) PS2_X_OVER) xs (displacement xs (packet1 s)) in
  exists p1, 0 <= p1 < 256 /\
    move_x s = with_position (mkPoint (X (position s) + dx) (Y (position s)))
                 (with_packet (packet0 s, p1, packet2 s) s).
Proof.
  intros (Hb0 & Hb1 & Hb2) Hx xs dx. pose proof (byte_negation (packet1 s) Hb1) as H1.
  pose proof (wrap_range 8 (256 - packet1 s) ltac:(lia)) as Hw. unfold move_x, dx, xs, with_overflow.
  destruct (has (packet0 s) PS2_X_SIGN); cbn [negb].
  - exists (u8 (256 - packet1 s)). split; [done|]. rewrite <- H1.
    rewrite (s64_small (X (position s) - _)) by lia. rewrite s64_small by lia. unfold with_position. cbn. f_equal. f_equal.
    destruct (has (packet0 s) PS2_X_OVER); lia.
  - exists (packet1 s). split; [done|]. unfold displacement.
    rewrite (s64_small (X (position s) + _)) by lia. rewrite s64_small by lia. unfold with_position, with_packet. cbn. f_equal.
    + unfold packet0, packet1, packet2. by destruct (packet s) as [[? ?] ?].
    + f_equal. destruct (has (packet0 s) PS2_X_OVER); lia.
Qed.

Lemma move_y_run s : bytes_ok s -> 0 <= Y (position s) < 2 ^ 31 ->
  let ys := has (packet0 s) PS2_Y_SIGN in
  let dy := with_overflow (has (packet0 s) PS2_Y_OVER) ys (displacement ys (packet2 s)) in
  exists p2, 0 <= p2 < 256 /\
    move_y s = with_position (mkPoint (X (position s)) (Y (position s) - dy))
                 (with_packet (packet0 s, packet1 s, p2) s).
Proof.
  intros (Hb0 & Hb1 & Hb2) Hy ys dy. pose proof (byte_negation (packet2 s) Hb2) as H2.
  pose proof (wrap_range 8 (256 - packet2 s) ltac:(lia)) as Hw. unfold move_y, dy, ys, with_overflow.
  destruct (has (packet0 s) PS2_Y_SIGN); cbn [negb].
  - exists (u8 (256 - packet2 s)). split; [done|]. rewrite <- H2.
    rewrite (s64_small (Y (position s) + _)) by lia. rewrite s64_small by lia. unfold with_position. cbn. f_equal. f_equal.
    destruct (has (packet0 s) PS2_Y_OVER); lia.
  - exists (packet2 s). split; [done|]. unfold displacement.
    rewrite (s64_small (Y (position s) - _)) by lia. rewrite s64_small by lia. unfold with_position, with_packet. cbn. f_equal.
    + unfold packet0, packet1, packet2. by destruct (packet s) as [[? ?] ?].
    + f_equal. destruct (has (packet0 s) PS2_Y_OVER); lia.
Qed.

Lemma moved f s : mouse_ok f s -> position (clamp_position f (move_y (move_x s))) = target f s /\
  packet0 (clamp_position f (move_y (move_x s))) = packet0 s /\
  bytes_ok (clamp_position f (move_y (move_x s))) /\
  scr (clamp_position f (move_y (move_x s))) = scr s /\
  oldPosition (clamp_position f (move_y (move_x s))) = oldPosition s.
Proof.
  intros [Hf Hb [Hx Hy] _ _ _].
  assert (Hd : frm_width f < 2 ^ 31 /\ frm_height f < 2 ^ 31) by (destruct Hf as [_ Hfw Hfh Hfs _]; nia).
  destruct (move_x_run s Hb ltac:(lia)) as (p1 & Hp1 & ->).
  match goal with |- context [move_y ?s1] => destruct (move_y_run s1) as (p2 & Hp2 & ->) end;
    [unfold bytes_ok, packet0, packet1, packet2 in *; cbn; lia|cbn; lia|].
  split; [done|]. split; [done|]. split; [|done]. unfold bytes_ok, packet0, packet1, packet2 in *. cbn. lia.
Qed.

Lemma clamp_range v n : 0 < n -> 0 <= clamp v n < n.
Proof. intros Hn. unfold clamp. destruct (Z.ltb_spec v 0); case_Zb; lia. Qed.

Lemma target_on f s : mouse_ok f s -> on_screen f (X (target f s)) (Y (target f s)).
Proof. intros [_ _ [Hx Hy] _ _ _]. split; cbn; apply clamp_range; lia. Qed.

(** The picture without the cursor. *)
Definition canvas (f : screen) (s : t) : mem := memory (clearCursor f cursorinside (oldPosition s) (scr s)).

Lemma paint_wf f pos cursor v l m : mem_wf m -> mem_wf (paint f pos cursor v l m).
Proof.
  unfold paint. revert m. induction l as [|p l IH]; intros m Hm; [done|]. cbn [foldl]. apply IH.
  destruct (bit cursor p); [by apply store_wf|done].
Qed.

Lemma clear_wf f pos cursor s : mem_wf (memory s) -> mem_wf (memory (clearCursor f cursor pos s)).
Proof.
  intros Hm. destruct (mousedrawn s) eqn:Hd.
  - rewrite clear_paint by done. by apply paint_wf.
  - unfold clearCursor. by rewrite Hd.
Qed.

Lemma clear_buffer f pos cursor s : cursorbuffer (clearCursor f cursor pos s) = cursorbuffer s.
Proof.
  unfold clearCursor. destruct (mousedrawn s); [cbn [negb]|done]. rewrite over_cursor_cells.
  generalize (cells f pos) as l. intros l. revert s. induction l as [|p l IH]; intros s; [done|]. cbn [foldl].
  rewrite IH. by destruct (cursor_bit cursor p.1 p.2).
Qed.

(** Drawing at a position on the screen. *)
Lemma draw_facts f s :
  screen_ok f -> on_screen f (X (position s)) (Y (position s)) -> mem_wf (memory (scr s)) ->
  length (cursorbuffer (scr s)) = 304%nat ->
  mem_wf (memory (scr (draw f s))) /\ length (cursorbuffer (scr (draw f s))) = 304%nat /\
  forall a, memory (clearCursor f cursorinside (position s) (scr (draw f s))) a = memory (scr s) a.
Proof.
  intros Hf Hp Hm Hl. unfold draw. cbn [scr with_scr].
  destruct (draw_back_loop f Hf (position s) Hp cursorinside mouseInsideCol (cells f (position s)) (scr s))
    as (H1 & H2 & _); [apply cells_NoDup|done|done|].
  rewrite draw_over. cbn [memory cursorbuffer set_drawn set_memory]. split; [|split].
  - apply paint_wf. unfold drawOverCursor. rewrite over_cursor_cells. cbn [memory set_drawn]. rewrite H1. by apply paint_wf.
  - unfold drawOverCursor. rewrite over_cursor_cells. exact H2.
  - intros a. rewrite <- draw_over. apply cursor_restored; try done. apply border_inside.
Qed.


(** In step with the controller, three bytes, the first with its fourth bit
    set, become the packet that the fourth interrupt processes; in between
    nothing moves, and bytes without that bit are skipped until the first. *)
Theorem packet_assembled f b0 b1 b2 b3 s noise
  (Hc : cycle s = 0) (Hr : packetReady s = false) (Hs : skip s = false)
  (H0 : Z.land b0 8 <> 0) (Hn : Forall (fun b => Z.land b 8 = 0) noise) :
  let handle s b := s ← s; s ← proccessPacket f s; Ret (store_byte b s) in
  foldl handle (Ret s) (noise ++ [b0; b1; b2; b3]) =
    (s ← proccessPacket f (with_ready true (with_packet (b0, b1, b2) s)); Ret (store_byte b3 s)).
Proof.
  intros handle. assert (Hnr : forall s, packetReady s = false -> proccessPacket f s = Ret s).
  { intros s' Hs'. unfold proccessPacket. by rewrite Hs'. }
  assert (Hh : forall s b, packetReady s = false -> handle (Ret s) b = Ret (store_byte b s)).
  { intros s' b Hs'. unfold handle. cbn [mbind result_bind]. by rewrite Hnr. }
  rewrite foldl_app. assert (foldl handle (Ret s) noise = Ret s) as ->.
  { clear -Hc Hr Hn Hh. induction Hn as [|b l Hb _ IH]; [done|]. cbn [foldl]. rewrite Hh by done.
    unfold store_byte. by rewrite Hc, Hb. }
  assert (E0 : store_byte b0 s = with_cycle 1 (with_packet (b0, packet1 s, packet2 s) s)).
  { unfold store_byte. rewrite Hc. by replace (Z.land b0 8 =? 0) with false by lia. }
  assert (E1 : store_byte b1 (store_byte b0 s) = with_cycle 2 (with_packet (b0, b1, packet2 s) s)) by (by rewrite E0).
  assert (E2 : store_byte b2 (store_byte b1 (store_byte b0 s)) =
    with_ready true (with_packet (b0, b1, b2) s)) by (rewrite E1; destruct s; cbn in *; by subst).
  cbn [foldl]. rewrite (Hh s), (Hh (store_byte b0 s)), (Hh (store_byte b1 _)) by (rewrite ?E1, ?E0; done).
  by rewrite E2.
Qed.

(** A fresh mouse on the small screen. *)
Definition mouse_demo : t :=
  mk true 0 (0, 0, 0) false (mkPoint 3 3) (mkPoint 3 3) false false
    (mkSt (fun _ => 7) false (replicate 304 0) (replicate 304 0)).


Lemma packet_assembled_witness :
  foldl (fun s b => s ← s; s ← proccessPacket small s; Ret (store_byte b s)) (Ret mouse_demo) [0; 8; 2; 1; 9] =
    (s ← proccessPacket small (with_ready true (with_packet (8, 2, 1) mouse_demo)); Ret (store_byte 9 s)).
Proof.
  apply (packet_assembled small 8 2 1 9 mouse_demo [0]); [reflexivity..|discriminate|].
  apply Forall_cons. split; [reflexivity|by apply Forall_nil].
Defined.

End Mouse.
