(* ===== verification/Clock.v ===== *)
(** * Clocks: [RTC/rtc.cpp], [HPET/hpet.cpp] and [ohMyTime/omtime.cpp]

    The real-time clock behind its two ports, the high precision event timer
    behind its mapped registers, and the waits that choose between them and
    [Pit].  A waiting loop reads its clock until a condition holds: it runs on
    fuel, one unit for a reading, and diverges when it runs out. *)

From S2P Require Import Prelude Mem PortIO Mmio Acpi Pit.
#[local] Open Scope Z_scope.
#[local] Open Scope machine_scope.

(** ** The real-time clock *)
Module Rtc.

Definition CMOS_IN : Z := 0x70.
Definition CMOS_OUT : Z := 0x71.

(** [int] arithmetic on the byte that was read. *)
Definition bcptobin (value : Z) : Z := s32 (Z.shiftr value 4 * 10 + Z.land value 15).

(** Every operator works modulo 2^64, the division of the difference
    [months - 14] too. *)
Definition dateToJulianDateDay (days months years : Z) : Z :=
  (1461 *64 (years +64 4800 +64 (months -64 14) / 12)) / 4
  +64 (367 *64 (months -64 2 -64 12 *64 ((months -64 14) / 12))) / 12
  -64 (3 *64 ((years +64 4900 +64 (months -64 14) / 12) / 100)) / 4
  +64 days -64 32075.

Section Input.
Context (input : PortIO.device).

(** [outb(CMOS_IN, reg); return bcptobin(inb(CMOS_OUT));] *)
Definition cmos (reg : Z) (h : PortIO.history) : Z * PortIO.history :=
  let h := PortIO.outb CMOS_IN reg h in
  let '(v, h) := PortIO.inb input CMOS_OUT h in
  (u64 (bcptobin v), h).

(** [fadt] is [fadthdr] with the [Century] byte of its table, if it was found. *)
Definition century (fadt : option Z) (h : PortIO.history) : Z * PortIO.history :=
  match fadt with
  | Some 0 => (20, h)
  | _ => cmos 0x32 h
  end.

Definition year := cmos 0x09.
Definition month := cmos 0x08.
Definition day := cmos 0x07.
Definition weekDay := cmos 0x06.
Definition hour := cmos 0x04.
Definition minute := cmos 0x02.
Definition second := cmos 0x00.

Definition time (h : PortIO.history) : Z * PortIO.history :=
  let '(hh, h) := hour h in
  let '(mm, h) := minute h in
  let '(ss, h) := second h in
  (hh *64 3600 +64 mm *64 60 +64 ss, h).

Definition epoch (fadt : option Z) (h : PortIO.history) : Z * PortIO.history :=
  let '(s, h) := second h in
  let '(m, h) := minute h in
  let '(hh, h) := hour h in
  let '(d, h) := day h in
  let '(mo, h) := month h in
  let '(y, h) := year h in
  let '(c, h) := century fadt h in
  let dateCurrent := dateToJulianDateDay d mo (c *64 100 +64 y) in
  let date1970 := dateToJulianDateDay 1 1 1970 in
  let diff := dateCurrent -64 date1970 in
  (diff *64 (60 * 60 * 24) +64 hh *64 3600 +64 m *64 60 +64 s, h).

(** [while (time() != timeWanted);] *)
Fixpoint sleep_loop (fuel : nat) (timeWanted : Z) (h : PortIO.history) : result PortIO.history :=
  match fuel with
  | O => Diverge
  | S fuel =>
      let '(t, h) := time h in
      if t =? timeWanted then Ret h else sleep_loop fuel timeWanted h
  end.

Definition sleep (fuel : nat) (seconds : Z) (h : PortIO.history) : result PortIO.history :=
  let '(t, h) := time h in
  sleep_loop fuel (t +64 seconds) h.

End Input.

(** ** The calendar *)

Definition is_leap (y : Z) : bool :=
  (y mod 4 =? 0) && (negb (y mod 100 =? 0) || (y mod 400 =? 0)).

(** The days before the first of a month in a year of 365 days. *)
Definition days_before_month (m : Z) : Z :=
  nth (Z.to_nat (m - 1)) [0; 31; 59; 90; 120; 151; 181; 212; 243; 273; 304; 334] 0.

(** The days from the first of January 1970 to the given date. *)
Definition days_since_1970 (y m d : Z) : Z :=
  365 * (y - 1970) + (y - 1969) / 4 - (y - 1901) / 100 + (y - 1601) / 400 +
  days_before_month m + (if is_leap y && (2 <? m) then 1 else 0) + (d - 1).

(** How many days [epoch] is off in a month. *)
Definition month_error (y m : Z) : Z :=
  if m <=? 2 then (if is_leap y then 0 else -1)
  else nth (Z.to_nat (m - 3)) [1; 1; 2; 1; 2; 1; 1; 0; -1; 0] 0 +
       (if (10 <=? m) && is_leap (y + 1) then 1 else 0).

(** A clock that shows a time: reading the data port answers the binary coded
    decimal of the register selected last. *)
Definition bcd (n : Z) : Z := 16 * (n / 10) + n mod 10.

Definition showing (input : PortIO.device) (reg : Z -> Z) : Prop :=
  forall h i, input (PortIO.Out 8 CMOS_IN i :: h) 8 CMOS_OUT = bcd (reg i).

Lemma bcptobin_bcd n : 0 <= n < 100 -> bcptobin (bcd n) = n.
Proof.
  intros Hn. unfold bcptobin, bcd. pose proof (Z.div_mod n 10). pose proof (Z.mod_pos_bound n 10).
  assert (0 <= n / 10 < 10) by (split; [apply Z.div_pos; lia|apply Z.div_lt_upper_bound; lia]).
  rewrite Z.shiftr_div_pow2 by lia. change 15 with (Z.ones 4). rewrite Z.land_ones by lia.
  change (2 ^ 4) with 16.
  assert ((16 * (n / 10) + n mod 10) / 16 = n / 10) as -> by (symmetry; apply (Z.div_unique _ _ _ (n mod 10)); lia).
  assert ((16 * (n / 10) + n mod 10) mod 16 = n mod 10) as -> by (symmetry; apply (Z.mod_unique _ _ (n / 10)); lia).
  rewrite swrap_small by lia. lia.
Qed.

Lemma cmos_showing input reg i h :
  showing input reg -> 0 <= i < 256 -> 0 <= reg i < 100 ->
  cmos input i h = (reg i, PortIO.In 8 CMOS_OUT :: PortIO.Out 8 CMOS_IN i :: h).
Proof.
  intros Hs Hi Hr. unfold cmos, PortIO.outb, PortIO.inb.
  change (u16 CMOS_IN) with CMOS_IN. change (u16 CMOS_OUT) with CMOS_OUT.
  rewrite (wrap_small 8 i) by done. rewrite Hs. rewrite (wrap_small 8); [rewrite bcptobin_bcd|].
  - by rewrite wrap_small by lia.
  - done.
  - unfold bcd. pose proof (Z.mod_pos_bound (reg i) 10).
    assert (0 <= reg i / 10 < 10) by (split; [apply Z.div_pos; lia|apply Z.div_lt_upper_bound; lia]). lia.
Qed.

(** The error table, checked for the first of every month. *)
Definition months_2001_2098 : list (Z * Z) :=
  y ← (fun n => 2001 + Z.of_nat n) <$> seq 0 98; m ← (fun n => 1 + Z.of_nat n) <$> seq 0 12; [(y, m)].

Lemma month_checked :
  forallb (fun p => u64 (dateToJulianDateDay 1 p.2 p.1 - dateToJulianDateDay 1 1 1970) =?
                    days_since_1970 p.1 p.2 1 + month_error p.1 p.2) months_2001_2098 = true.
Proof. vm_compute. reflexivity. Qed.

Lemma julian_day d m y : dateToJulianDateDay d m y = dateToJulianDateDay 1 m y +64 (d - 1).
Proof.
  unfold dateToJulianDateDay. generalize ((3 *64 ((y +64 4900 +64 (m -64 14) / 12) / 100)) / 4) as c.
  generalize ((367 *64 (m -64 2 -64 12 *64 ((m -64 14) / 12))) / 12) as b.
  generalize ((1461 *64 (y +64 4800 +64 (m -64 14) / 12)) / 4) as a. intros a b c.
  generalize ((a +64 b) -64 c) as x. intros x. rewrite wrap_sub_l, wrap_add_l.
  replace (x +64 1 - 32075 + (d - 1)) with (x +64 1 + (d - 32076)) by lia.
  rewrite wrap_add_l. f_equal. lia.
Qed.

Lemma days_day y m d : days_since_1970 y m d = days_since_1970 y m 1 + (d - 1).
Proof. unfold days_since_1970. lia. Qed.

Lemma month_listed y m : 2001 <= y <= 2098 -> 1 <= m <= 12 -> In (y, m) months_2001_2098.
Proof.
  intros Hy Hm. apply list_elem_of_In. unfold months_2001_2098.
  apply list_elem_of_bind. exists y. split.
  - apply list_elem_of_bind. exists m. split; [by apply list_elem_of_singleton|].
    apply list_elem_of_fmap. exists (Z.to_nat (m - 1)). split; [lia|]. apply elem_of_seq. lia.
  - apply list_elem_of_fmap. exists (Z.to_nat (y - 2001)). split; [lia|]. apply elem_of_seq. lia.
Qed.

Lemma month_cases m : 1 <= m <= 12 ->
  m = 1 \/ m = 2 \/ m = 3 \/ m = 4 \/ m = 5 \/ m = 6 \/ m = 7 \/ m = 8 \/ m = 9 \/ m = 10 \/ m = 11 \/ m = 12.
Proof. lia. Qed.

Lemma days_before_month_range m : 1 <= m <= 12 -> 0 <= days_before_month m <= 334.
Proof. intros Hm. by destruct (month_cases m Hm) as [->|[->|[->|[->|[->|[->|[->|[->|[->|[->|[->| ->]]]]]]]]]]]. Qed.

Lemma month_error_range y m : 1 <= m <= 12 -> -1 <= month_error y m <= 3.
Proof.
  intros Hm. unfold month_error. destruct (is_leap y), (is_leap (y + 1));
  by destruct (month_cases m Hm) as [->|[->|[->|[->|[->|[->|[->|[->|[->|[->|[->| ->]]]]]]]]]]].
Qed.

Lemma days_range y m d : 2001 <= y <= 2098 -> 1 <= m <= 12 -> 1 <= d <= 31 ->
  11000 <= days_since_1970 y m d + month_error y m <= 60000.
Proof.
  intros Hy Hm Hd. unfold days_since_1970.
  pose proof (Z.div_mod (y - 1969) 4). pose proof (Z.mod_pos_bound (y - 1969) 4).
  pose proof (Z.div_mod (y - 1901) 100). pose proof (Z.mod_pos_bound (y - 1901) 100).
  pose proof (Z.div_mod (y - 1601) 400). pose proof (Z.mod_pos_bound (y - 1601) 400).
  pose proof (days_before_month_range m Hm). pose proof (month_error_range y m Hm).
  destruct (is_leap y && (2 <? m)); lia.
Qed.

(** The day count of [epoch], with the error of its month. *)
Lemma julian_since_1970 y m d : 2001 <= y <= 2098 -> 1 <= m <= 12 -> 1 <= d <= 31 ->
  dateToJulianDateDay d m y -64 dateToJulianDateDay 1 1 1970 = days_since_1970 y m d + month_error y m.
Proof.
  intros Hy Hm Hd. pose proof (proj1 (forallb_forall _ _) month_checked _ (month_listed y m Hy Hm)) as Hc.
  cbn [fst snd] in Hc. apply Z.eqb_eq in Hc. rewrite julian_day, wrap_sub_l.
  replace (dateToJulianDateDay 1 m y + (d - 1) - dateToJulianDateDay 1 1 1970)
    with (dateToJulianDateDay 1 m y - dateToJulianDateDay 1 1 1970 + (d - 1)) by lia.
  rewrite <- wrap_add_l, Hc, (days_day y m d). rewrite wrap_small; [lia|].
  pose proof (days_range y m d Hy Hm Hd). rewrite (days_day y m d) in H. lia.
Qed.

(** ** Properties *)

Section Wait.
Context (input : PortIO.device).

(** The history after [n] readings of the time. *)
Definition polls (n : nat) (h : PortIO.history) : PortIO.history := Nat.iter n (fun h => (time input h).2) h.

Lemma polls_S n h : polls (S n) h = polls n (time input h).2.
Proof. unfold polls. by rewrite Nat.iter_succ_r. Qed.

(** The loop ends at the first reading that shows exactly the wanted time. *)
Lemma sleep_loop_spec fuel wanted h :
  match sleep_loop input fuel wanted h with
  | Ret h' => exists n, (n < fuel)%nat /\ (time input (polls n h)).1 = wanted /\ h' = polls (S n) h /\
                forall k, (k < n)%nat -> (time input (polls k h)).1 <> wanted
  | Fault => False
  | Diverge => forall k, (k < fuel)%nat -> (time input (polls k h)).1 <> wanted
  end.
Proof.
  revert h. induction fuel as [|fuel IH]; intros h; cbn [sleep_loop]; [intros; lia|].
  destruct (time input h) as [t h1] eqn:Ht. destruct (Z.eqb_spec t wanted) as [->|Hne].
  - exists 0%nat. split; [lia|]. rewrite polls_S. change (polls 0 h) with h. rewrite Ht. cbn.
    split; [done|]. split; [done|]. intros; lia.
  - assert (Hh : forall k, polls (S k) h = polls k h1) by (intros; by rewrite polls_S, Ht).
    specialize (IH h1). destruct (sleep_loop input fuel wanted h1) as [h'| |]; [|done|].
    + destruct IH as (n & Hn & Hw & -> & Hk). exists (S n). split; [lia|]. rewrite !Hh. split; [done|].
      split; [done|]. intros [|k] Hlt; [change (polls 0 h) with h; by rewrite Ht|]. rewrite Hh. apply Hk. lia.
    + intros [|k] Hlt; [change (polls 0 h) with h; by rewrite Ht|]. rewrite Hh. apply IH. lia.
Qed.

(** Every reading is a time of day. *)
Definition valid_clock : Prop := forall h,
  (hour input h).1 < 24 /\ (minute input h).1 < 60 /\ (second input h).1 < 60.

Lemma cmos_range i h : 0 <= (cmos input i h).1.
Proof. unfold cmos, PortIO.inb. cbn. by apply wrap_range. Qed.

Lemma time_below h : valid_clock -> 0 <= (time input h).1 < 86400.
Proof.
  intros Hv. unfold time. destruct (hour input h) as [hh h1] eqn:E1.
  destruct (minute input h1) as [mm h2] eqn:E2. destruct (second input h2) as [ss h3] eqn:E3.
  assert (Hhr : 0 <= hh < 24) by (pose proof (cmos_range 4 h : 0 <= (hour input h).1); destruct (Hv h); rewrite E1 in *; done).
  assert (Hmr : 0 <= mm < 60) by (pose proof (cmos_range 2 h1 : 0 <= (minute input h1).1); destruct (Hv h1) as (_ & ? & _); rewrite E2 in *; done).
  assert (Hsr : 0 <= ss < 60) by (pose proof (cmos_range 0 h2 : 0 <= (second input h2).1); destruct (Hv h2) as (_ & _ & ?); rewrite E3 in *; done).
  clear E1 E2 E3. cbn [fst].
  rewrite (wrap_small 64 (hh * 3600)), (wrap_small 64 (mm * 60)) by lia.
  rewrite wrap_add_l, wrap_small by lia. lia.
Qed.

End Wait.

(** For every date of the years 2001 to 2098 that the clock shows, [epoch]
    is the number of seconds since 1970, plus [month_error] days: the unsigned
    division in [dateToJulianDateDay] makes it one or two days late from March
    to September and a day early in some other months. *)
Theorem epoch_off_by_days input fadt h reg
  (Hs : showing input reg)
  (Hc : 0 <= reg 0x32 < 100) (Hy : 0 <= reg 9 < 100) (Hmo : 1 <= reg 8 <= 12) (Hd : 1 <= reg 7 <= 31)
  (Hh : 0 <= reg 4 < 24) (Hm : 0 <= reg 2 < 60) (Hse : 0 <= reg 0 < 60) :
  let c := if decide (fadt = Some 0) then 20 else reg 0x32 in
  let y := 100 * c + reg 9 in
  2001 <= y <= 2098 ->
  (epoch input fadt h).1 =
    (days_since_1970 y (reg 8) (reg 7) + month_error y (reg 8)) * 86400 +
    reg 4 * 3600 + reg 2 * 60 + reg 0.
Proof.
  intros c y Hyr. unfold epoch, second, minute, hour, day, month, year.
  do 6 (rewrite (cmos_showing input reg) by (done || lia)).
  assert (exists h', century input fadt (PortIO.In 8 CMOS_OUT :: PortIO.Out 8 CMOS_IN 9 :: PortIO.In 8 CMOS_OUT
    :: PortIO.Out 8 CMOS_IN 8 :: PortIO.In 8 CMOS_OUT :: PortIO.Out 8 CMOS_IN 7 :: PortIO.In 8 CMOS_OUT
    :: PortIO.Out 8 CMOS_IN 4 :: PortIO.In 8 CMOS_OUT :: PortIO.Out 8 CMOS_IN 2 :: PortIO.In 8 CMOS_OUT
    :: PortIO.Out 8 CMOS_IN 0 :: h) = (c, h')) as [h' ->].
  { unfold century, c. destruct (decide (fadt = Some 0)) as [->|Hne]; [eauto|].
    rewrite (cmos_showing input reg) by (done || lia). destruct fadt as [[]|]; eauto. done. }
  cbn [fst]. assert (Hcr : 0 <= c < 100) by (unfold c; destruct (decide _); lia).
  rewrite (wrap_small 64 (c * 100)), (wrap_small 64 (c * 100 + reg 9)) by lia.
  replace (c * 100 + reg 9) with y by (unfold y; lia).
  rewrite julian_since_1970 by lia. pose proof (days_range y (reg 8) (reg 7) Hyr Hmo Hd).
  rewrite (wrap_small 64 (reg 4 * 3600)), (wrap_small 64 (reg 2 * 60)) by lia.
  rewrite (wrap_small 64 (_ * (60 * 60 * 24))) by lia.
  rewrite (wrap_small 64 (_ + reg 4 * 3600)) by lia. rewrite (wrap_small 64 (_ + reg 2 * 60)) by lia.
  rewrite wrap_small by lia. lia.
Qed.

(** The first of March 2024, 12:00:00, is read as the second of March. *)
Definition march_2024 : PortIO.device := fun h _ _ =>
  match h with
  | PortIO.Out _ _ i :: _ =>
      bcd (match i with 0x32 => 20 | 9 => 24 | 8 => 3 | 7 => 1 | 4 => 12 | _ => 0 end)
  | _ => 0
  end.

Lemma epoch_off_by_days_witness :
  (epoch march_2024 None []).1 = 1709294400 + 86400.
Proof.
  rewrite (epoch_off_by_days march_2024 None []
      (fun i => match i with 0x32 => 20 | 9 => 24 | 8 => 3 | 7 => 1 | 4 => 12 | _ => 0 end));
  vm_compute; intuition congruence.
Defined.

(** [sleep] returns exactly at the first reading that shows the time of
    the call plus [seconds]; so a sleep that goes past midnight never returns,
    on any clock that shows times of day. *)
Theorem sleep_exact_reading input seconds h (Hs : 0 <= seconds < 2 ^ 63) :
  let t := (time input h).1 in
  let h1 := (time input h).2 in
  (forall fuel,
     match sleep input fuel seconds h with
     | Ret h' => exists n, (n < fuel)%nat /\ (time input (polls input n h1)).1 = t +64 seconds /\
                   h' = polls input (S n) h1 /\
                   forall k, (k < n)%nat -> (time input (polls input k h1)).1 <> t +64 seconds
     | Fault => False
     | Diverge => forall k, (k < fuel)%nat -> (time input (polls input k h1)).1 <> t +64 seconds
     end) /\
  (valid_clock input -> 86400 <= t + seconds -> forall fuel, sleep input fuel seconds h = Diverge).
Proof.
  cbn zeta. unfold sleep. destruct (time input h) as [t h1] eqn:Ht. cbn [fst snd]. split.
  - intros fuel. apply sleep_loop_spec.
  - intros Hv Hm fuel. pose proof (time_below input h Hv). rewrite Ht in H. cbn in H.
    rewrite wrap_small by lia. pose proof (sleep_loop_spec input fuel (t + seconds) h1) as Hl.
    destruct (sleep_loop input fuel (t + seconds) h1) as [h'| |]; [|done|done].
    destruct Hl as (n & _ & Hw & _). pose proof (time_below input (polls input n h1) Hv). lia.
Qed.

Definition before_midnight : PortIO.device := fun h _ _ =>
  match h with PortIO.Out _ _ i :: _ => if i =? 4 then 0x23 else 0x59 | _ => 0 end.

Lemma sleep_exact_reading_witness : forall fuel, sleep before_midnight fuel 1 [] = Diverge.
Proof.
  destruct (sleep_exact_reading before_midnight 1 []) as [_ H]; [lia|]. apply H.
  - intros h. by vm_compute.
  - vm_compute. congruence.
Defined.

End Rtc.

(** ** The high precision event timer *)
Module Hpet.

Definition generalCapabilities : Z := 0.
Definition generalConfiguration : Z := 0x10.
Definition mainCounterValue : Z := 0xF0.

Definition SEC_TO_US (num : Z) : Z := num *64 1000000.
Definition MSEC_TO_US (num : Z) : Z := num *64 10000.

Record t : Type := mk { isInit : bool; clock : Z; hpet : Z }.

Definition initial : t := mk false 0 0.

Section Machine.
Context (d : Mmio.machine).

Definition counter (s : t) (h : PortIO.history) : Z * PortIO.history :=
  Mmio.mminq d (hpet s + mainCounterValue) h.

(** [while (counter() < target);] *)
Fixpoint wait (fuel : nat) (s : t) (target : Z) (h : PortIO.history) : result PortIO.history :=
  match fuel with
  | O => Diverge
  | S fuel =>
      let '(c, h) := counter s h in
      if c <? target then wait fuel s target h else Ret h
  end.

(** The counter is read before the division, which traps for a clock of 0. *)
Definition uSleep (fuel : nat) (uSeconds : Z) (s : t) (h : PortIO.history) : result PortIO.history :=
  let '(c, h) := counter s h in
  q ← Pit.div64 (uSeconds *64 1000000000) (clock s);
  wait fuel s (c +64 q) h.

Definition mSleep (fuel : nat) (mSeconds : Z) : t -> PortIO.history -> result PortIO.history :=
  uSleep fuel (MSEC_TO_US mSeconds).

Definition sleep (fuel : nat) (seconds : Z) : t -> PortIO.history -> result PortIO.history :=
  uSleep fuel (SEC_TO_US seconds).

(** [acpi::hpethdr->address.address] is at offset 44 of the table. *)
Definition init (m : mem) (hpethdr : Z) (s : t) (h : PortIO.history) : t * PortIO.history :=
  if isInit s then (s, h)
  else if hpethdr =? 0 then (s, h)
  else
    let hpet := load64 m (hpethdr + 44) in
    let '(caps, h) := Mmio.mminq d (hpet + generalCapabilities) h in
    let clock := u32 (Z.shiftr caps 32) in
    let h := Mmio.mmoutq (hpet + generalConfiguration) 0 h in
    let h := Mmio.mmoutq (hpet + mainCounterValue) 0 h in
    let h := Mmio.mmoutq (hpet + generalConfiguration) 1 h in
    (mk true clock hpet, h).

(** ** Properties *)

(** The history after [n] readings of the counter. *)
Definition polls (n : nat) (s : t) (h : PortIO.history) : PortIO.history :=
  Nat.iter n (fun h => (counter s h).2) h.

Lemma counter_polls_S n s h : polls (S n) s h = polls n s (counter s h).2.
Proof. unfold polls. by rewrite Nat.iter_succ_r. Qed.

Lemma wait_spec fuel s target h :
  match wait fuel s target h with
  | Ret h' => exists n, (n < fuel)%nat /\ target <= (counter s (polls n s h)).1 /\ h' = polls (S n) s h /\
                forall k, (k < n)%nat -> (counter s (polls k s h)).1 < target
  | Fault => False
  | Diverge => forall k, (k < fuel)%nat -> (counter s (polls k s h)).1 < target
  end.
Proof.
  revert h. induction fuel as [|fuel IH]; intros h; cbn [wait]; [intros; lia|].
  destruct (counter s h) as [c h1] eqn:Hc. destruct (Z.ltb_spec c target) as [Hlt|Hge].
  - assert (Hh : forall k, polls (S k) s h = polls k s h1) by (intros; by rewrite counter_polls_S, Hc).
    specialize (IH h1). destruct (wait fuel s target h1) as [h'| |]; [|done|].
    + destruct IH as (n & Hn & Hw & -> & Hk). exists (S n). split; [lia|]. rewrite !Hh. split; [done|].
      split; [done|]. intros [|k] Hl; [change (polls 0 s h) with h; by rewrite Hc|]. rewrite Hh. apply Hk. lia.
    + intros [|k] Hl; [change (polls 0 s h) with h; by rewrite Hc|]. rewrite Hh. apply IH. lia.
  - exists 0%nat. split; [lia|]. rewrite counter_polls_S. change (polls 0 s h) with h. rewrite Hc. cbn.
    split; [done|]. split; [done|]. intros; lia.
Qed.

(** With a counter that ticks every [clock] femtoseconds, [sleep n] waits
    for [n] seconds of ticks and returns at the first reading that is as late;
    [mSleep n] waits for ten times the [n] milliseconds it names. *)
Theorem sleeps_wait fuel n s h
  (Hk : 0 < clock s) (Hn : 0 <= n) (Hw : n * 1000000 * 1000000000 < 2 ^ 64) :
  let c := (counter s h).1 in
  let h1 := (counter s h).2 in
  let waits r q := c + q < 2 ^ 64 ->
    match r with
    | Ret h' => exists k, (k < fuel)%nat /\ c + q <= (counter s (polls k s h1)).1 /\ h' = polls (S k) s h1 /\
                  forall j, (j < k)%nat -> (counter s (polls j s h1)).1 < c + q
    | Fault => False
    | Diverge => forall j, (j < fuel)%nat -> (counter s (polls j s h1)).1 < c + q
    end in
  waits (sleep fuel n s h) (n * 10 ^ 15 / clock s) /\
  waits (mSleep fuel n s h) (10 * (n * 10 ^ 12) / clock s).
Proof.
  cbn zeta. unfold sleep, mSleep, uSleep, SEC_TO_US, MSEC_TO_US.
  assert (Hc : 0 <= (counter s h).1) by (unfold counter, Mmio.mminq; cbn; by apply wrap_range).
  destruct (counter s h) as [c h1]. cbn [fst snd] in *. unfold Pit.div64.
  replace (clock s =? 0) with false by lia. cbn [mbind result_bind].
  rewrite (wrap_small 64 (n * 1000000)), (wrap_small 64 (n * 1000000 * 1000000000)) by lia.
  rewrite (wrap_small 64 (n * 10000)), (wrap_small 64 (n * 10000 * 1000000000)) by lia.
  assert (forall q, 0 <= q -> 0 <= q / clock s) as Hdiv by (intros; apply Z.div_pos; lia).
  replace (n * 1000000 * 1000000000) with (n * 10 ^ 15) by lia.
  replace (n * 10000 * 1000000000) with (10 * (n * 10 ^ 12)) by lia.
  split; intros Hb.
  - rewrite wrap_small by (specialize (Hdiv (n * 10 ^ 15)); lia). apply wait_spec.
  - rewrite wrap_small by (specialize (Hdiv (10 * (n * 10 ^ 12))); lia). apply wait_spec.
Qed.

End Machine.

(** A counter that advances by a million ticks a reading, of a 10 MHz timer. *)
Definition ticking : Mmio.machine :=
  Mmio.mk_machine (fun _ _ _ => 0) (fun h _ _ => 1000000 * Z.of_nat (length h)) (fun _ _ => 0).

Definition ten_mhz : t := mk true 100000000 0.

Lemma sleeps_wait_witness :
  exists h' k, mSleep ticking 20 100 ten_mhz [] = Ret h' /\
    10000000 <= (counter ticking ten_mhz (polls ticking k ten_mhz (counter ticking ten_mhz []).2)).1.
Proof.
  destruct (sleeps_wait ticking 20 100 ten_mhz []) as [_ H]; [reflexivity|lia|lia|].
  specialize (H ltac:(vm_compute; reflexivity)).
  destruct (mSleep ticking 20 100 ten_mhz []) as [h'| |] eqn:E; [|done|vm_compute in E; discriminate].
  destruct H as (k & _ & Hk & _). exists h', k. split; [done|]. etrans; [|exact Hk]. vm_compute. congruence.
Defined.

End Hpet.

(** ** The wait of the rest of the kernel *)
Module Omtime.

Definition US_TO_SEC (num : Z) : Z := num / 1000000.
Definition US_TO_MSEC (num : Z) : Z := num / 10000.

(** The timers and what they will show: the devices, and the ticks the loop of
    [Pit] will read. *)
Record env : Type := mk { devices : Mmio.machine; hpet : Hpet.t; pit : Pit.t; ticks : list Z; log : PortIO.history }.

Definition with_ticks (ticks : list Z) (e : env) : env := mk (devices e) (hpet e) (pit e) ticks (log e).
Definition with_log (h : PortIO.history) (e : env) : env := mk (devices e) (hpet e) (pit e) (ticks e) h.

Section Fuel.
Context (fuel : nat).

Definition sleep (seconds : Z) (e : env) : result env :=
  if Hpet.isInit (hpet e) then
    h ← Hpet.sleep (devices e) fuel seconds (hpet e) (log e); Ret (with_log h e)
  else if Pit.isInit (pit e) then
    l ← Pit.sleep seconds (ticks e) (pit e); Ret (with_ticks l e)
  else
    h ← Rtc.sleep (Mmio.ports (devices e)) fuel seconds (log e); Ret (with_log h e).

Definition mSleep (mSeconds : Z) (e : env) : result env :=
  if Hpet.isInit (hpet e) then
    h ← Hpet.mSleep (devices e) fuel mSeconds (hpet e) (log e); Ret (with_log h e)
  else if Pit.isInit (pit e) then
    l ← Pit.mSleep mSeconds (ticks e) (pit e); Ret (with_ticks l e)
  else
    h ← Rtc.sleep (Mmio.ports (devices e)) fuel (mSeconds / 100) (log e); Ret (with_log h e).

Definition uSleep (uSeconds : Z) (e : env) : result env :=
  if Hpet.isInit (hpet e) then
    h ← Hpet.uSleep (devices e) fuel uSeconds (hpet e) (log e); Ret (with_log h e)
  else if Pit.isInit (pit e) then
    l ← Pit.mSleep (US_TO_MSEC uSeconds) (ticks e) (pit e); Ret (with_ticks l e)
  else
    h ← Rtc.sleep (Mmio.ports (devices e)) fuel (US_TO_SEC uSeconds) (log e); Ret (with_log h e).

End Fuel.

(** On each of the three timers [mSleep] of [100 * n] milliseconds is
    [sleep] of [n] seconds (the interval timer at its default 100 Hz): a wait
    named in milliseconds takes ten times as long. *)
Theorem mSleep_tenfold fuel n e (Hn : 0 <= n) (Hw : 100 * n < 2 ^ 64)
  (Hf : Pit.frequence (pit e) = Pit.PIT_DEFAULT_FREQUENCE) :
  mSleep fuel (100 * n) e = sleep fuel n e.
Proof.
  unfold mSleep, sleep. destruct (Hpet.isInit (hpet e)); [|destruct (Pit.isInit (pit e))].
  - unfold Hpet.mSleep, Hpet.sleep, Hpet.MSEC_TO_US, Hpet.SEC_TO_US.
    by replace (100 * n * 10000) with (n * 1000000) by lia.
  - unfold Pit.mSleep, Pit.sleep. rewrite Hf. change (Pit.PIT_DEFAULT_FREQUENCE / 100) with 1.
    by replace (100 * n * 1) with (n * Pit.PIT_DEFAULT_FREQUENCE) by (unfold Pit.PIT_DEFAULT_FREQUENCE; lia).
  - by rewrite (Z.mul_comm 100), Z.div_mul by lia.
Qed.

(** With the interval timer alone, 200 ms end at the reading of tick 200, two
    seconds later. *)
Definition pit_only : env :=
  mk Hpet.ticking Hpet.initial (Pit.with_init Pit.initial) [20; 199; 200; 201] [].

Lemma mSleep_tenfold_witness :
  mSleep 0 200 pit_only = sleep 0 2 pit_only /\ mSleep 0 200 pit_only = Ret (with_ticks [201] pit_only).
Proof. split; [exact (mSleep_tenfold 0 2 pit_only ltac:(lia) ltac:(lia) eq_refl)|reflexivity]. Defined.

End Omtime.
