(* ===== verification/Datetime.v ===== *)
(** * The date as a text: [getTime] of [system/CPU/scheduling/RTC/rtc.cpp]

    The six values of the real-time clock through [sprintf] into the array
    [theTIME] of 30 bytes.  C++ leaves open in which order the arguments are
    read; here the last one is first. *)

From S2P Require Import Prelude Mem PortIO Str Printf Terminal Clock.
#[local] Open Scope Z_scope.
#[local] Open Scope machine_scope.

Module Datetime.

(** The format, a literal, from address 1 of a memory of its own. *)
Definition time_text : list Z := Str.string_bytes "%.4ld/%.2ld/%.2ld %.2ld:%.2ld:%.2ld".
Definition time_format : mem := fun a => if a <? 1 then 0 else default 0 (time_text !! Z.to_nat (a - 1)).
Definition THE_TIME_SIZE : Z := 30.

(** The loop over the format takes one unit of fuel for each character outside
    of the conversions, each conversion and the end, 12 in all; a conversion
    needs three of those that are left. *)
Definition getTime (input : PortIO.device) (fadt : option Z) (theTIME : Z) (m : mem) (h : PortIO.history) :
    result (Z * mem * PortIO.history) :=
  let '(s, h) := Rtc.second input h in
  let '(mi, h) := Rtc.minute input h in
  let '(hh, h) := Rtc.hour input h in
  let '(d, h) := Rtc.day input h in
  let '(mo, h) := Rtc.month input h in
  let '(y, h) := Rtc.year input h in
  let '(c, h) := Rtc.century input fadt h in
  '(m, _) ← Printf._vsnprintf 16 time_format Printf._out_buffer theTIME (2 ^ 64 - 1) 1
              [c *64 100 +64 y; mo; d; hh; mi; s] m;
  Ret (theTIME, m, h).

(** [init], without its log lines. *)
Definition init (input : PortIO.device) (fadt : option Z) (theTIME : Z) (m : mem) (t : Terminal.t) (h : PortIO.history) :
    result (mem * Terminal.t * PortIO.history) :=
  t ← Terminal.puts (Str.string_bytes "Lancement init RTC" ++ [10]) t;
  '(_, m, h) ← getTime input fadt theTIME m h;
  Ret (m, t, h).

(** ** The text *)

(** One number, of at least [w] digits. *)
Definition num_text (w v : Z) : result (list Z) :=
  let '(value, negative) := Printf.integer_value 100 (Z.lor Printf.FLAGS_PRECISION Printf.FLAGS_LONG) v in
  Printf.integer_text value negative 10 w 0 (Z.lor Printf.FLAGS_PRECISION Printf.FLAGS_LONG).

Lemma conv_text k p w v va : In (p, w) [(2, 4); (8, 2); (14, 2); (20, 2); (26, 2); (32, 2)] ->
  Printf.conversion_text (S (S (S k))) time_format p (v :: va) = l ← num_text w v; Ret (l, p + 4, va).
Proof.
  intros Hp. repeat (destruct Hp as [[= <- <-]|Hp]); [..|destruct Hp];
    cbv -[Printf.integer_text Printf.integer_value]; destruct (Printf.integer_value _ _ _) as [? ?];
    by destruct (Printf.integer_text _ _ _ _ _ _).
Qed.

(** A number below [10^k], of [w] digits or more: its digits, at most [k] or
    [w] of them. *)
Lemma num_text_spec w v k : 0 <= w < 32 -> (0 < k < 10)%nat -> 0 <= v < 10 ^ Z.of_nat k ->
  exists l, num_text w v = Ret l /\ Printf.no_nul l /\ Printf.digits_value 10 l = v /\
    w <= Z.of_nat (length l) <= Z.max w (Z.of_nat k).
Proof.
  intros Hw Hk Hv. assert (Hk9 : 10 ^ Z.of_nat k <= 10 ^ 9) by (apply Z.pow_le_mono_r; lia).
  unfold num_text, Printf.integer_value. change ((100 =? 105) || (100 =? 100)) with true.
  change (Printf.has _ Printf.FLAGS_LONG_LONG) with false. change (Printf.has _ Printf.FLAGS_LONG) with true. cbv iota zeta.
  rewrite swrap_small by lia. replace (v <? 0) with false by lia.
  assert (Printf.ABS_FOR_PRINTING v = v) as ->.
  { unfold Printf.ABS_FOR_PRINTING. destruct (Z.ltb_spec 0 v); rewrite wrap_small; lia. }
  destruct (Printf.integer_text_spec v false 10 w 0 (Z.lor Printf.FLAGS_PRECISION Printf.FLAGS_LONG))
    as (left & zeros & ds & right & Ht & Hval & _ & Hlen & Hmin & Hz & _ & Hr & _); [done|done|lia|lia|lia|lia|].
  specialize (Hmin k ltac:(lia) ltac:(lia)).
  change (Printf.sign_text _ _) with (@nil Z) in Ht, Hlen.
  rewrite Hz in Ht, Hval, Hlen by (by right). rewrite Hr in Ht, Hlen by done. cbn [app] in Ht, Hlen.
  unfold Printf.spaces in Ht, Hlen. rewrite !length_app, !length_replicate in Hlen. cbn [length] in Hlen.
  replace (Z.to_nat left) with 0%nat in Ht by lia. cbn [replicate app Z.to_nat] in Ht. rewrite app_nil_r in Ht.
  eexists. split; [exact Ht|]. split; [by eapply Printf.integer_text_no_nul, Ht|]. split; [done|].
  rewrite length_app, length_replicate. lia.
Qed.

Lemma text_conv k p q w v va : In (q, w) [(1, 4); (7, 2); (13, 2); (19, 2); (25, 2); (31, 2)] -> p = q ->
  Printf.format_text (S (S (S (S k)))) time_format p (v :: va) =
    l1 ← num_text w v; l2 ← Printf.format_text (S (S (S k))) time_format (q + 5) va; Ret (l1 ++ l2).
Proof.
  intros Hp ->. cbn [Printf.format_text].
  assert (time_format q = 37) as -> by (repeat (destruct Hp as [[= <- <-]|Hp]); [reflexivity..|destruct Hp]).
  cbn [Z.eqb Pos.eqb negb]. rewrite (conv_text k (q + 1) w).
  - replace (q + 1 + 4) with (q + 5) by lia. by destruct (num_text w v).
  - repeat (destruct Hp as [[= <- <-]|Hp]; [cbn; tauto|]). destruct Hp.
Qed.

Lemma text_char k p q c va : In (q, c) [(6, 47); (12, 47); (18, 32); (24, 58); (30, 58)] -> p = q ->
  Printf.format_text (S k) time_format p va = l ← Printf.format_text k time_format (q + 1) va; Ret (c :: l).
Proof.
  intros Hp ->. cbn [Printf.format_text].
  repeat (destruct Hp as [[= <- <-]|Hp]); [reflexivity..|destruct Hp].
Qed.

#[local] Opaque Printf.format_text num_text.

Lemma format_time y mo d hh mi s k :
  Printf.format_text (16 + k) time_format 1 [y; mo; d; hh; mi; s] =
    l1 ← num_text 4 y; l2 ← num_text 2 mo; l3 ← num_text 2 d;
    l4 ← num_text 2 hh; l5 ← num_text 2 mi; l6 ← num_text 2 s;
    l ← Printf.format_text (5 + k) time_format 36 [];
    Ret (l1 ++ 47 :: l2 ++ 47 :: l3 ++ 32 :: l4 ++ 58 :: l5 ++ 58 :: l6 ++ l).
Proof.
  cbn [Nat.add].
  rewrite (text_conv _ _ 1 4) by (cbn; tauto || done). destruct (num_text 4 y) as [l1| |]; cbn [mbind result_bind]; [|done..].
  rewrite (text_char _ _ 6 47) by (cbn; tauto || done).
  rewrite (text_conv _ _ 7 2) by (cbn; tauto || done). destruct (num_text 2 mo) as [l2| |]; cbn [mbind result_bind]; [|done..].
  rewrite (text_char _ _ 12 47) by (cbn; tauto || done).
  rewrite (text_conv _ _ 13 2) by (cbn; tauto || done). destruct (num_text 2 d) as [l3| |]; cbn [mbind result_bind]; [|done..].
  rewrite (text_char _ _ 18 32) by (cbn; tauto || done).
  rewrite (text_conv _ _ 19 2) by (cbn; tauto || done). destruct (num_text 2 hh) as [l4| |]; cbn [mbind result_bind]; [|done..].
  rewrite (text_char _ _ 24 58) by (cbn; tauto || done).
  rewrite (text_conv _ _ 25 2) by (cbn; tauto || done). destruct (num_text 2 mi) as [l5| |]; cbn [mbind result_bind]; [|done..].
  rewrite (text_char _ _ 30 58) by (cbn; tauto || done).
  rewrite (text_conv _ _ 31 2) by (cbn; tauto || done). destruct (num_text 2 s) as [l6| |]; cbn [mbind result_bind]; [|done..].
  change (31 + 5) with 36. by destruct (Printf.format_text _ _ 36 []).
Qed.

(** ** The date *)

(** [l] is the decimal numeral of [v] in [n] digits. *)
Definition numeral (n : nat) (v : Z) (l : list Z) : Prop := length l = n /\ Printf.digits_value 10 l = v.

Lemma cmos_below input i h : 0 <= (Rtc.cmos input i h).1 < 166.
Proof.
  unfold Rtc.cmos. pose proof (PortIO.inb_range input Rtc.CMOS_OUT (PortIO.outb Rtc.CMOS_IN i h)) as Hb.
  destruct (PortIO.inb _ _ _) as [b h']. cbn [fst] in *. unfold Rtc.bcptobin.
  assert (0 <= Z.shiftr b 4 < 16).
  { rewrite Z.shiftr_div_pow2 by lia. change (2 ^ 4) with 16. split; [apply Z.div_pos; lia|apply Z.div_lt_upper_bound; lia]. }
  assert (0 <= Z.land b 15 < 16).
  { change 15 with (Z.ones 4). rewrite Z.land_ones by lia. apply Z.mod_pos_bound. lia. }
  rewrite swrap_small, wrap_small by lia. lia.
Qed.

Lemma century_range input fadt h : 0 <= (Rtc.century input fadt h).1 < 166.
Proof. destruct fadt as [[]|]; cbn [Rtc.century fst]; [lia|apply cmos_below..]. Qed.

(** The text of six values that a clock can answer fits the array. *)
Lemma date_text c y mo d hh mi s : 0 <= c < 166 -> 0 <= y < 166 -> 0 <= mo < 166 -> 0 <= d < 166 -> 0 <= hh < 166 ->
  0 <= mi < 166 -> 0 <= s < 166 ->
  exists ly lmo ld lh lmi ls,
    let l := ly ++ 47 :: lmo ++ 47 :: ld ++ 32 :: lh ++ 58 :: lmi ++ 58 :: ls in
    Printf.format_text 16 time_format 1 [c *64 100 +64 y; mo; d; hh; mi; s] = Ret l /\
    Printf.no_nul l /\ Z.of_nat (length l) < THE_TIME_SIZE /\
    (c < 100 /\ y < 100 /\ mo < 100 /\ d < 100 /\ hh < 100 /\ mi < 100 /\ s < 100 ->
     numeral 4 (100 * c + y) ly /\ numeral 2 mo lmo /\ numeral 2 d ld /\ numeral 2 hh lh /\ numeral 2 mi lmi /\
     numeral 2 s ls).
Proof.
  intros Hc Hy Hmo Hd Hh Hmi Hs. rewrite !wrap_small by (rewrite ?wrap_small; lia).
  assert (Htwo : forall v, 0 <= v < 166 -> exists l, num_text 2 v = Ret l /\ Printf.no_nul l /\
    Z.of_nat (length l) <= 3 /\ (v < 100 -> numeral 2 v l)).
  { intros v Hv. destruct (num_text_spec 2 v 3 ltac:(lia) ltac:(lia) ltac:(cbn; lia)) as (l & E & Hn & Hval & Hlen).
    exists l. split; [done|]. split; [done|]. split; [lia|]. intros Hv'. split; [|done].
    destruct (num_text_spec 2 v 2 ltac:(lia) ltac:(lia) ltac:(cbn; lia)) as (l' & E' & _ & _ & Hlen').
    rewrite E in E'. injection E' as <-. lia. }
  assert (Hfour : exists l, num_text 4 (c * 100 + y) = Ret l /\ Printf.no_nul l /\ Z.of_nat (length l) <= 5 /\
    (c < 100 /\ y < 100 -> numeral 4 (100 * c + y) l)).
  { destruct (num_text_spec 4 (c * 100 + y) 5 ltac:(lia) ltac:(lia) ltac:(cbn; lia)) as (l & E & Hn & Hval & Hlen).
    exists l. split; [done|]. split; [done|]. split; [lia|]. intros Hv'. split; [|lia].
    destruct (num_text_spec 4 (c * 100 + y) 4 ltac:(lia) ltac:(lia) ltac:(cbn; lia)) as (l' & E' & _ & _ & Hlen').
    rewrite E in E'. injection E' as <-. lia. }
  destruct Hfour as (ly & Ey & Hny & Hly & Hvy).
  destruct (Htwo mo Hmo) as (lmo & Emo & Hnmo & Hlmo & Hvmo). destruct (Htwo d Hd) as (ld & Ed & Hnd & Hld & Hvd).
  destruct (Htwo hh Hh) as (lh & Eh & Hnh & Hlh & Hvh). destruct (Htwo mi Hmi) as (lmi & Emi & Hnmi & Hlmi & Hvmi).
  destruct (Htwo s Hs) as (ls & Es & Hns & Hls & Hvs).
  exists ly, lmo, ld, lh, lmi, ls. cbv zeta. split; [|split; [|split]].
  - rewrite (format_time _ _ _ _ _ _ 0), Ey, Emo, Ed, Eh, Emi, Es. cbn [mbind result_bind].
    change (Printf.format_text (5 + 0) time_format 36 []) with (Ret (A := list Z) []). cbn [mbind result_bind].
    by rewrite app_nil_r.
  - unfold Printf.no_nul in *. repeat (apply Forall_app; split; [done|]; apply Forall_cons; split; [done|]). done.
  - unfold THE_TIME_SIZE. repeat (rewrite length_app; cbn [length]). lia.
  - tauto.
Qed.

(** C39: whatever the clock answers, [getTime] writes a string within the thirty
    bytes of [theTIME] and nothing else.  For a clock that shows a date the
    string is the year in four digits, and month, day, hour, minute and second
    in two. *)
Theorem getTime_writes input fadt theTIME m h (Hp : theTIME <> 0) :
  exists l m' h', getTime input fadt theTIME m h = Ret (theTIME, m', h') /\
    Str.is_str m' theTIME l /\ Z.of_nat (length l) < THE_TIME_SIZE /\
    (forall a, ~ in_range theTIME THE_TIME_SIZE a -> m' a = m a) /\
    (forall reg, Rtc.showing input reg -> (forall i, 0 <= i < 256 -> 0 <= reg i < 100) ->
       exists ly lmo ld lh lmi ls,
         l = ly ++ 47 :: lmo ++ 47 :: ld ++ 32 :: lh ++ 58 :: lmi ++ 58 :: ls /\
         numeral 4 (100 * (if decide (fadt = Some 0) then 20 else reg 0x32) + reg 9) ly /\ numeral 2 (reg 8) lmo /\
         numeral 2 (reg 7) ld /\ numeral 2 (reg 4) lh /\ numeral 2 (reg 2) lmi /\ numeral 2 (reg 0) ls).
Proof.
  unfold getTime. unfold Rtc.second, Rtc.minute, Rtc.hour, Rtc.day, Rtc.month, Rtc.year.
  pose proof (cmos_below input 0x00 h) as Hs. destruct (Rtc.cmos input 0x00 h) as [s h1] eqn:Es.
  pose proof (cmos_below input 0x02 h1) as Hmi. destruct (Rtc.cmos input 0x02 h1) as [mi h2] eqn:Emi.
  pose proof (cmos_below input 0x04 h2) as Hh. destruct (Rtc.cmos input 0x04 h2) as [hh h3] eqn:Eh.
  pose proof (cmos_below input 0x07 h3) as Hd. destruct (Rtc.cmos input 0x07 h3) as [d h4] eqn:Ed.
  pose proof (cmos_below input 0x08 h4) as Hmo. destruct (Rtc.cmos input 0x08 h4) as [mo h5] eqn:Emo.
  pose proof (cmos_below input 0x09 h5) as Hy. destruct (Rtc.cmos input 0x09 h5) as [y h6] eqn:Ey.
  pose proof (century_range input fadt h6) as Hc. destruct (Rtc.century input fadt h6) as [c h7] eqn:Ec. cbn [fst] in *.
  destruct (date_text c y mo d hh mi s Hc Hy Hmo Hd Hh Hmi Hs) as (ly & lmo & ld & lh & lmi & ls & Ht & Hn & Hlen & Hv).
  remember (ly ++ 47 :: _) as l eqn:El. exists l. unfold THE_TIME_SIZE in *.
  destruct (Printf.vsnprintf_buffer 16 time_format theTIME (2 ^ 64 - 1) 1 [c *64 100 +64 y; mo; d; hh; mi; s] l m)
    as (m' & E & Hi & H0 & Ha); [done|lia|done|lia|].
  cbv zeta in Hi, H0, Ha. rewrite Z.min_l in Hi, H0, Ha by lia. exists m', h7. rewrite E. split; [done|].
  split; [apply Str.is_str_intro; [exact Hi|apply H0; lia|exact Hn]|]. split; [done|].
  split; [intros a Hna; apply Ha; unfold in_range in *; lia|].
  intros reg Hr Hb. exists ly, lmo, ld, lh, lmi, ls. split; [exact El|].
  rewrite (Rtc.cmos_showing input reg) in Es, Emi, Eh, Ed, Emo, Ey by (done || lia || (apply Hb; lia)).
  injection Es as <- _. injection Emi as <- _. injection Eh as <- _. injection Ed as <- _. injection Emo as <- _.
  injection Ey as <- _.
  assert (Hcv : c = if decide (fadt = Some 0) then 20 else reg 0x32).
  { destruct fadt as [[| |]|]; cbn [Rtc.century] in Ec;
      try (rewrite (Rtc.cmos_showing input reg) in Ec by (done || lia || (apply Hb; lia)));
      injection Ec as <- _; by case_decide. }
  rewrite <- Hcv. apply Hv. split_and!; try (apply Hb; lia). rewrite Hcv. case_decide; [lia|apply Hb; lia].
Qed.


(** New Year's Eve of 1999, a second before midnight, with a century register. *)
Definition eve (i : Z) : Z :=
  match i with 0x32 => 19 | 9 => 99 | 8 => 12 | 7 => 31 | 4 => 23 | 2 => 59 | 0 => 59 | _ => 0 end.

Definition eve_clock : PortIO.device := fun h _ _ => match h with PortIO.Out _ _ i :: _ => Rtc.bcd (eve i) | _ => 0 end.

Lemma getTime_writes_witness :
  exists l m' h', getTime eve_clock (Some 0x32) 0x100 (fun _ => 7) [] = Ret (0x100, m', h') /\
    Str.is_str m' 0x100 l /\ m' 0x11E = 7 /\
    exists ly rest, l = ly ++ 47 :: rest /\ numeral 4 1999 ly.
Proof.
  destruct (getTime_writes eve_clock (Some 0x32) 0x100 (fun _ => 7) [] ltac:(lia)) as (l & m' & h' & E & Hs & _ & Ha & Hr).
  exists l, m', h'. split; [exact E|]. split; [exact Hs|]. split; [apply Ha; unfold in_range, THE_TIME_SIZE; lia|].
  destruct (Hr eve) as (ly & lmo & ld & lh & lmi & ls & El & Hy & _).
  - intros h i. reflexivity.
  - intros i _. unfold eve. repeat case_match; lia.
  - exists ly. eexists. split; [exact El|exact Hy].
Defined.

End Datetime.
