(* ===== verification/Apic.v ===== *)
(** * The interrupt controllers of the APIC: [system/CPU/APIC/apic.cpp]

    The local APIC through its mapped registers or, in x2APIC mode, through
    model-specific registers; the I/O APICs that the MADT lists, whose entries
    are read from the tables in memory; the timer, calibrated with a wait of
    [Omtime].  [init] and the power-button handler, which also use the
    interrupt table, are in [Idt]. *)

From S2P Require Import Prelude Mem PortIO Mmio Cpu Acpi Clock.
#[local] Open Scope Z_scope.
#[local] Open Scope machine_scope.

Module Apic.

Definition INTERRUPT_COMMAND_REGISTER : Z := 0x310.
Definition LVT_TIMER_REGISTER : Z := 0x320.
Definition INITIAL_COUNT_REGISTER : Z := 0x380.
Definition CURRENT_COUNT_REGISTER : Z := 0x390.
Definition DIVIDE_CONF_REGISTER : Z := 0x3E0.

(** The statics: [isInit], [x2apic], [tickCountInMS] and the timer's lock. *)
Record t : Type := mk { isInit : bool; x2apic : bool; tickCountInMS : Z; lapicTimerLock : bool }.

Definition initial : t := mk false false 0 false.

Definition with_init (s : t) : t := mk true (x2apic s) (tickCountInMS s) (lapicTimerLock s).
Definition with_x2apic (b : bool) (s : t) : t := mk (isInit s) b (tickCountInMS s) (lapicTimerLock s).
Definition with_ticks (n : Z) (s : t) : t := mk (isInit s) (x2apic s) n (lapicTimerLock s).
Definition with_lock (b : bool) (s : t) : t := mk (isInit s) (x2apic s) (tickCountInMS s) b.

(** ** Fields of the MADT's entries *)

Section Entries.
Context (m : mem) (p : Z).

Definition lapic_processorID : Z := m (p + 2).
Definition ioapic_addr : Z := load32 m (p + 4).
Definition ioapic_gsib : Z := load32 m (p + 8).
Definition iso_irqSource : Z := m (p + 3).
Definition iso_gsi : Z := load32 m (p + 4).
Definition iso_flags : Z := load 2 m (p + 8).
Definition nmi_processor : Z := m (p + 2).
Definition nmi_flags : Z := load 2 m (p + 3).
Definition nmi_lint : Z := m (p + 5).

End Entries.

Definition reg2x2apic (reg : Z) : Z :=
  let x2apic_reg := if reg =? INTERRUPT_COMMAND_REGISTER then 0x30 else Z.shiftr reg 4 in
  u32 (x2apic_reg + 0x800).

Section Machine.
Context (d : Mmio.machine) (m : mem) (acpi : Acpi.t).

(** ** The local APIC *)

Definition lapicRead (s : t) (reg : Z) (h : PortIO.history) : Z * PortIO.history :=
  if x2apic s then
    let '(v, h) := Mmio.rdmsr d (reg2x2apic reg) h in (u32 v, h)
  else Mmio.mmind d (Acpi.lapicAddress acpi +64 reg) h.

Definition lapicWrite (s : t) (reg value : Z) (h : PortIO.history) : PortIO.history :=
  if x2apic s then Mmio.wrmsr (reg2x2apic reg) (u32 value) h
  else Mmio.mmoutd (Acpi.lapicAddress acpi +64 reg) value h.

Definition lapicSetNMaskInt (s : t) (vec currentProcessorID processorID flags lint : Z)
    (h : PortIO.history) : PortIO.history :=
  if negb (processorID =? 0xFF) && negb (currentProcessorID =? processorID) then h else
  let nmi := Z.lor 0x400 vec in
  let nmi := if negb (Z.land flags 2 =? 0) then Z.lor nmi (Z.shiftl 1 13) else nmi in
  let nmi := if negb (Z.land flags 8 =? 0) then Z.lor nmi (Z.shiftl 1 15) else nmi in
  if lint =? 0 then lapicWrite s 0x350 nmi h
  else if lint =? 1 then lapicWrite s 0x360 nmi h
  else h.

(** [lapicWrite(reg, f(lapicRead(from)))] *)
Definition lapicUpdate (s : t) (reg from : Z) (f : Z -> Z) (h : PortIO.history) : PortIO.history :=
  let '(v, h) := lapicRead s from h in lapicWrite s reg (f v) h.

Definition set_nmis (s : t) (processorID : Z) (h : PortIO.history) : PortIO.history :=
  foldl (fun h nmi =>
    lapicSetNMaskInt s 2 processorID (nmi_processor m nmi) (nmi_flags m nmi) (nmi_lint m nmi) h)
    h (Acpi.nmis acpi).

Definition lapicInit (cpuid : Z -> option Cpu.leaf) (processorID : Z) (s : t) (h : PortIO.history) :
    t * PortIO.history :=
  let '(v, h) := Mmio.rdmsr d 0x1B h in
  let apic_msr := Z.lor v (Z.shiftl 1 11) in
  let '(s, apic_msr) :=
    match cpuid 1 with
    | Some l =>
        if negb (Z.land (Cpu.ecx l) (Z.shiftl 1 21) =? 0)
        then (with_x2apic true s, Z.lor apic_msr (Z.shiftl 1 10)) else (s, apic_msr)
    | None => (s, apic_msr)
    end in
  let h := Mmio.wrmsr 0x1B apic_msr h in
  let h := lapicWrite s 0x80 0 h in
  let h := lapicUpdate s 0xF0 0xF0 (fun v => Z.lor v 0x100) h in
  let h := if negb (x2apic s) then
             let h := lapicWrite s 0xE0 0xF0000000 h in
             lapicUpdate s 0xD0 0x20 (fun v => v) h
           else h in
  (s, set_nmis s processorID h).

(** ** The I/O APICs *)

Definition ioapicRead (ioapicAddress reg : Z) (h : PortIO.history) : Z * PortIO.history :=
  let h := Mmio.mmoutd ioapicAddress (Z.land reg 0xFF) h in
  Mmio.mmind d (ioapicAddress +64 16) h.

Definition ioapicWrite (ioapicAddress reg data : Z) (h : PortIO.history) : PortIO.history :=
  let h := Mmio.mmoutd ioapicAddress (Z.land reg 0xFF) h in
  Mmio.mmoutd (ioapicAddress +64 16) data h.

Definition getGSICount (ioapicAddress : Z) (h : PortIO.history) : Z * PortIO.history :=
  let '(v, h) := ioapicRead ioapicAddress 1 h in
  (Z.shiftr (Z.land v 0xFF0000) 16, h).

(** The loop over [acpi::ioapics]; a null pointer is [None]. *)
Fixpoint find_ioapic (l : list Z) (gsi : Z) (h : PortIO.history) : option Z * PortIO.history :=
  match l with
  | [] => (None, h)
  | ioapic :: l =>
      if ioapic_gsib m ioapic <=? gsi then
        let '(n, h) := getGSICount (ioapic_addr m ioapic) h in
        if gsi <? u32 (ioapic_gsib m ioapic + n) then (Some ioapic, h) else find_ioapic l gsi h
      else find_ioapic l gsi h
  end.

Definition getIOapicGSI (gsi : Z) (h : PortIO.history) : result (Z * PortIO.history) :=
  match find_ioapic (Acpi.ioapics acpi) gsi h with
  | (Some ioapic, h) => Ret (ioapic, h)
  | (None, h) => Fault
  end.

(** The new low word of an entry. *)
Definition redirect_low (low vec flags : Z) : Z :=
  let low := Z.land low (u32 (Z.lnot (Z.shiftl 1 16))) in
  let low := Z.land low (u32 (Z.lnot (Z.shiftl 1 11))) in
  let low := Z.land low (u32 (Z.lnot 0x700)) in
  let low := Z.land low (u32 (Z.lnot 0xFF)) in
  let low := Z.lor low vec in
  let low := if negb (Z.land flags 2 =? 0) then Z.lor low (Z.shiftl 1 13) else low in
  if negb (Z.land flags 8 =? 0) then Z.lor low (Z.shiftl 1 15) else low.

(** Dereferences what [getIOapicGSI] answers, twice. *)
Definition ioapicRedirectGSI (gsi vec flags : Z) (h : PortIO.history) : result PortIO.history :=
  '(p, h) ← getIOapicGSI gsi h;
  let io_apic := ioapic_addr m p in
  '(p, h) ← getIOapicGSI gsi h;
  let low_index := u32 (0x10 + (gsi - ioapic_gsib m p) * 2) in
  let high_index := u32 (low_index + 1) in
  let '(high, h) := ioapicRead io_apic high_index h in
  let high := Z.land high (u32 (Z.lnot 0xFF000000)) in
  let '(id, h) := ioapicRead io_apic 0 h in
  let high := Z.lor high (u32 (Z.shiftl id 24)) in
  let h := ioapicWrite io_apic high_index high h in
  let '(low, h) := ioapicRead io_apic low_index h in
  Ret (ioapicWrite io_apic low_index (redirect_low low vec flags) h).

(** The loop over [acpi::isos]. *)
Definition iso_of (irq : Z) : option Z :=
  List.find (fun iso => iso_irqSource m iso =? irq) (Acpi.isos acpi).

Definition ioapicRedirectIRQ (irq vector : Z) (h : PortIO.history) : result PortIO.history :=
  match iso_of irq with
  | Some iso => ioapicRedirectGSI (iso_gsi m iso) vector (iso_flags m iso) h
  | None => ioapicRedirectGSI irq vector 0 h
  end.

(** ** Interrupts between processors and their end *)

Definition apicSendIPI (s : t) (lapic_id flags : Z) (h : PortIO.history) : PortIO.history :=
  if x2apic s then Mmio.wrmsr 0x830 (Z.lor (Z.shiftl lapic_id 32) flags) h
  else
    let h := lapicWrite s INTERRUPT_COMMAND_REGISTER (u32 (Z.shiftl lapic_id 24)) h in
    lapicWrite s 0x300 flags h.

Definition endOfInterrupt (s : t) (h : PortIO.history) : PortIO.history := lapicWrite s 0xB0 0 h.

(** ** The timer *)

Definition lapicTimerMask (s : t) (isMasked : bool) (h : PortIO.history) : PortIO.history :=
  if isMasked then lapicUpdate s LVT_TIMER_REGISTER LVT_TIMER_REGISTER (fun v => Z.lor v (Z.shiftl 1 0x10)) h
  else lapicUpdate s LVT_TIMER_REGISTER LVT_TIMER_REGISTER
         (fun v => Z.land v (u32 (Z.lnot (Z.shiftl 1 0x10)))) h.

Section Wait.
Context (fuel : nat).

Definition lapicTimerInit (s : t) (e : Omtime.env) : result (t * Omtime.env) :=
  if tickCountInMS s =? 0 then
    let h := Omtime.log e in
    let h := lapicWrite s DIVIDE_CONF_REGISTER 0x03 h in
    let h := lapicWrite s INITIAL_COUNT_REGISTER 0xFFFFFFFF h in
    let h := lapicTimerMask s false h in
    e ← Omtime.mSleep fuel 1 (Omtime.with_log h e);
    let h := lapicTimerMask s true (Omtime.log e) in
    let '(v, h) := lapicRead s CURRENT_COUNT_REGISTER h in
    Ret (with_ticks (u32 (0xFFFFFFFF - v)) s, Omtime.with_log h e)
  else Ret (s, e).

(** The timer's entry with its mode in bits 17 and 18. *)
Definition lvt_timer (mode vector v : Z) : Z :=
  Z.lor (Z.land (Z.lor (Z.land v (u32 (Z.lnot (Z.shiftl 0x03 17)))) (Z.shiftl mode 17)) 0xFFFFFF00) vector.

(** [lapicOneShot] and [lapicPeriodic] differ in the mode only. *)
Definition lapicTimer (mode vector mSeconds : Z) (s : t) (e : Omtime.env) : result (t * Omtime.env) :=
  held ← spin_lock (lapicTimerLock s);
  let s := with_lock held s in
  '(s, e) ← lapicTimerInit s e;
  let h := lapicTimerMask s true (Omtime.log e) in
  let h := lapicWrite s DIVIDE_CONF_REGISTER 0x03 h in
  let h := lapicUpdate s LVT_TIMER_REGISTER LVT_TIMER_REGISTER (lvt_timer mode vector) h in
  let h := lapicWrite s INITIAL_COUNT_REGISTER (tickCountInMS s *64 mSeconds) h in
  let h := lapicTimerMask s false h in
  Ret (with_lock false s, Omtime.with_log h e).

Definition lapicOneShot := lapicTimer 0x00.
Definition lapicPeriodic := lapicTimer 0x01.

End Wait.

(** ** Power-management events *)

Definition PM1aEventBlock : Z := load32 m (Acpi.fadthdr acpi + 56).
Definition PM1bEventBlock : Z := load32 m (Acpi.fadthdr acpi + 60).
Definition PM1EventLength : Z := m (Acpi.fadthdr acpi + 88).
Definition SCI_Interrupt : Z := load 2 m (Acpi.fadthdr acpi + 46).

Definition getSCIevent (h : PortIO.history) : Z * PortIO.history :=
  let event block h :=
    if block =? 0 then (0, h)
    else let '(v, h) := PortIO.inw (Mmio.ports d) block h in (v, PortIO.outw block v h) in
  let '(a, h) := event PM1aEventBlock h in
  let '(b, h) := event PM1bEventBlock h in
  (Z.lor a b, h).

Definition setSCIevent (value : Z) (h : PortIO.history) : PortIO.history :=
  let a := u16 (PM1aEventBlock + PM1EventLength / 2) in
  let b := u16 (PM1bEventBlock + PM1EventLength / 2) in
  let h := if PM1aEventBlock =? 0 then h else PortIO.outw a value h in
  if PM1bEventBlock =? 0 then h else PortIO.outw b value h.

End Machine.

(** ** The registers of an I/O APIC

    What the documentation of the controller says of its two mapped registers:
    the first selects a register, the second is that register. *)

Definition data_register (base : Z) : Z := base +64 16.

Fixpoint selected (base : Z) (h : PortIO.history) : Z :=
  match h with
  | [] => 0
  | PortIO.Store _ a v :: h => if a =? base then v else selected base h
  | _ :: h => selected base h
  end.

Fixpoint contents (base : Z) (init : Z -> Z) (h : PortIO.history) (reg : Z) : Z :=
  match h with
  | [] => init reg
  | PortIO.Store _ a v :: h =>
      if (a =? data_register base) && (selected base h =? reg) then v else contents base init h reg
  | _ :: h => contents base init h reg
  end.

(** The device at [base] answers so, whatever the kernel did before. *)
Definition behaves (d : Mmio.machine) (base : Z) (init : Z -> Z) : Prop :=
  forall h, Mmio.registers d h 32 (data_register base) = contents base init h (selected base h).

(** All the accesses so far fit in 32 bits. *)
Definition access32 (base : Z) (init : Z -> Z) (h : PortIO.history) : Prop :=
  forall reg, 0 <= contents base init h reg < 2 ^ 32.

Definition read_log (base reg : Z) (h : PortIO.history) : PortIO.history :=
  PortIO.Load 32 (data_register base) :: PortIO.Store 32 base reg :: h.

Definition write_log (base reg v : Z) (h : PortIO.history) : PortIO.history :=
  PortIO.Store 32 (data_register base) v :: PortIO.Store 32 base reg :: h.

Section Device.
Context (d : Mmio.machine) (base : Z) (init : Z -> Z).
Context (Hbase : 0 <= base < 2 ^ 32) (Hd : behaves d base init).

Lemma data_ne : (base =? data_register base) = false.
Proof. unfold data_register. rewrite wrap_small by lia. lia. Qed.

Lemma select_contents reg h x : contents base init (PortIO.Store 32 base reg :: h) x = contents base init h x.
Proof. cbn [contents]. by rewrite data_ne. Qed.

Lemma read_contents reg h x : contents base init (read_log base reg h) x = contents base init h x.
Proof. apply select_contents. Qed.

Lemma write_contents reg v h x :
  contents base init (write_log base reg v h) x = if x =? reg then v else contents base init h x.
Proof.
  unfold write_log. cbn [contents selected]. rewrite !Z.eqb_refl, data_ne. cbn [andb].
  by rewrite Z.eqb_sym.
Qed.

Lemma read_32 reg h : access32 base init h -> access32 base init (read_log base reg h).
Proof. intros H x. rewrite read_contents. apply H. Qed.

Lemma write_32 reg v h : access32 base init h -> 0 <= v < 2 ^ 32 -> access32 base init (write_log base reg v h).
Proof. intros H Hv x. rewrite write_contents. destruct (x =? reg); [done|apply H]. Qed.

Lemma reg_byte reg : 0 <= reg < 256 -> Z.land reg 0xFF = reg.
Proof. intros H. change 0xFF with (Z.ones 8). rewrite Z.land_ones by lia. by apply Z.mod_small. Qed.

Lemma ioapicRead_behaves reg h : 0 <= reg < 256 -> access32 base init h ->
  ioapicRead d base reg h = (contents base init h reg, read_log base reg h).
Proof.
  intros Hr Hh. unfold ioapicRead, Mmio.mmoutd, Mmio.mmind. rewrite reg_byte by done.
  rewrite (wrap_small 32 reg) by lia. change (base +64 16) with (data_register base).
  rewrite (Hd (PortIO.Store 32 base reg :: h)), select_contents. cbn [selected]. rewrite Z.eqb_refl.
  by rewrite wrap_small by apply Hh.
Qed.

Lemma ioapicWrite_log reg v h : 0 <= reg < 256 -> 0 <= v < 2 ^ 32 ->
  ioapicWrite base reg v h = write_log base reg v h.
Proof.
  intros Hr Hv. unfold ioapicWrite, Mmio.mmoutd, write_log. rewrite reg_byte by done.
  by rewrite (wrap_small 32 reg), (wrap_small 32 v) by lia.
Qed.

End Device.

(** The last redirection entry, in the version register. *)
Definition last_entry (v : Z) : Z := Z.land (Z.shiftr v 16) 0xFF.

Lemma gsi_count v : Z.shiftr (Z.land v 0xFF0000) 16 = last_entry v.
Proof. unfold last_entry. by rewrite Z.shiftr_land. Qed.

Lemma last_entry_range v : 0 <= last_entry v < 256.
Proof. unfold last_entry. change 0xFF with (Z.ones 8). rewrite Z.land_ones by lia. apply Z.mod_pos_bound. lia. Qed.

(** Every bit of the low word that [redirect_low] leaves. *)
Lemma redirect_low_bits low vec flags i :
  0 <= low < 2 ^ 32 -> 0 <= vec < 256 -> 0 <= i < 32 ->
  Z.testbit (redirect_low low vec flags) i =
    if i <? 8 then Z.testbit vec i
    else if (i <=? 11) || (i =? 16) then false
    else if i =? 13 then Z.testbit low 13 || Z.testbit flags 1
    else if i =? 15 then Z.testbit low 15 || Z.testbit flags 3
    else Z.testbit low i.
Proof.
  intros Hl Hv Hi. unfold redirect_low.
  change (Z.land flags 2) with (Z.land flags (Z.shiftl 1 1)). change (Z.land flags 8) with (Z.land flags (Z.shiftl 1 3)).
  rewrite !Cpu.test_flag by lia.
  set (l := Z.lor (Z.land (Z.land _ _) _) vec).
  assert (Hlb : Z.testbit l i = if i <? 8 then Z.testbit vec i
                                else if (i <=? 11) || (i =? 16) then false else Z.testbit low i).
  { unfold l. bits_simpl. replace (i <? 32) with true by lia. cbn [andb].
    assert (Hc : i < 8 \/ 8 <= i) by lia. destruct Hc as [Hc|Hc].
    - replace (i <? 8) with true by lia. change 0xFF with (Z.ones 8). rewrite Z.ones_spec_low by lia.
      cbn [negb]. by rewrite andb_false_r.
    - replace (i <? 8) with false by lia. rewrite (testbit_above vec 8 i) by lia. rewrite orb_false_r.
      destruct (decide (i <= 11 \/ i = 16)) as [Hz|Hz].
      + replace ((i <=? 11) || (i =? 16)) with true by lia.
        assert (i = 8 \/ i = 9 \/ i = 10 \/ i = 11 \/ i = 16) as [->|[->|[->|[->| ->]]]] by lia;
          cbn -[Z.testbit]; by rewrite ?andb_false_r.
      + replace ((i <=? 11) || (i =? 16)) with false by lia. assert (Z.testbit 1 (i - 16) = false) as ->.
        { destruct (decide (i < 16)); [by rewrite Z.testbit_neg_r by lia|by rewrite (testbit_above 1 1) by lia]. }
        rewrite (testbit_above 1 1 (i - 11)) by lia.
        rewrite (testbit_above 0x700 11 i), (testbit_above 0xFF 8 i) by lia. cbn [negb]. by rewrite !andb_true_r. }
  clearbody l. destruct (Z.testbit flags 1), (Z.testbit flags 3); rewrite ?Cpu.set_bit, Hlb by lia;
    repeat case_Zb; subst; try lia; cbn [orb]; rewrite ?orb_true_r, ?orb_false_r; try done; lia.
Qed.

Section Redirect.
Context (d : Mmio.machine) (m : mem) (acpi : Acpi.t) (inits : Z -> Z -> Z).

(** What the I/O APIC of the table entry [p] holds. *)
Definition view (p : Z) : PortIO.history -> Z -> Z := contents (ioapic_addr m p) (inits p).

(** The I/O APICs of the MADT: each behaves as documented, their registers are
    apart, and a version register leaves room for two 8-bit indices an entry. *)
Record ioapics_ok (h : PortIO.history) : Prop := mk_ok {
  ok_range p : In p (Acpi.ioapics acpi) -> 0 <= ioapic_addr m p < 2 ^ 32 /\ 0 <= ioapic_gsib m p < 2 ^ 31;
  ok_behaves p : In p (Acpi.ioapics acpi) -> behaves d (ioapic_addr m p) (inits p);
  ok_apart p q : In p (Acpi.ioapics acpi) -> In q (Acpi.ioapics acpi) ->
    ioapic_addr m p <> data_register (ioapic_addr m q) /\
    (p <> q -> data_register (ioapic_addr m p) <> data_register (ioapic_addr m q));
  ok_32 p : In p (Acpi.ioapics acpi) -> access32 (ioapic_addr m p) (inits p) h;
  ok_entries p : In p (Acpi.ioapics acpi) -> last_entry (view p h 1) < 120;
}.

(** The interrupts an I/O APIC is taken to have. *)
Definition covers (h : PortIO.history) (gsi p : Z) : bool :=
  (ioapic_gsib m p <=? gsi) && (gsi <? ioapic_gsib m p + last_entry (view p h 1)).

Definition owner (h : PortIO.history) (gsi : Z) : option Z :=
  List.find (covers h gsi) (Acpi.ioapics acpi).

Definition same_view (h h' : PortIO.history) : Prop :=
  forall p, In p (Acpi.ioapics acpi) -> forall x, view p h' x = view p h x.

Lemma same_view_ok h h' : same_view h h' -> ioapics_ok h -> ioapics_ok h'.
Proof.
  intros Hs [H1 H2 H3 H4 H5]. split; try done.
  - intros p Hp x. pose proof (Hs p Hp x) as Hx. unfold view in Hx. rewrite Hx. by apply H4.
  - intros p Hp. rewrite Hs by done. by apply H5.
Qed.

Lemma same_view_find h h' gsi l :
  same_view h h' -> (forall p, In p l -> In p (Acpi.ioapics acpi)) ->
  List.find (covers h' gsi) l = List.find (covers h gsi) l.
Proof.
  intros Hs. induction l as [|p l IH]; intros Hl; [done|]. cbn [List.find].
  assert (covers h' gsi p = covers h gsi p) as ->.
  { unfold covers. by rewrite Hs by (apply Hl; by left). }
  destruct (covers h gsi p); [done|]. apply IH. intros q Hq. apply Hl. by right.
Qed.

Lemma same_view_trans h1 h2 h3 : same_view h1 h2 -> same_view h2 h3 -> same_view h1 h3.
Proof. intros H1 H2 p Hp x. by rewrite H2, H1. Qed.

Lemma read_same h p reg : ioapics_ok h -> In p (Acpi.ioapics acpi) ->
  same_view h (read_log (ioapic_addr m p) reg h).
Proof.
  intros Hok Hp q Hq x. unfold view, read_log. cbn [contents].
  destruct (ok_apart h Hok p q Hp Hq) as [Hne _].
  by replace (ioapic_addr m p =? data_register (ioapic_addr m q)) with false by lia.
Qed.

Lemma read_view h p reg : ioapics_ok h -> In p (Acpi.ioapics acpi) -> 0 <= reg < 256 ->
  ioapicRead d (ioapic_addr m p) reg h = (view p h reg, read_log (ioapic_addr m p) reg h).
Proof.
  intros Hok Hp Hr. apply ioapicRead_behaves; [|by apply (ok_behaves h)|done|by apply ok_32].
  by apply (ok_range h).
Qed.

Lemma getGSICount_view h p : ioapics_ok h -> In p (Acpi.ioapics acpi) ->
  getGSICount d (ioapic_addr m p) h = (last_entry (view p h 1), read_log (ioapic_addr m p) 1 h).
Proof. intros Hok Hp. unfold getGSICount. rewrite read_view by (done || lia). by rewrite gsi_count. Qed.

(** Looking for an I/O APIC finds the owner and only reads. *)
Lemma find_ioapic_spec gsi l h : ioapics_ok h -> (forall p, In p l -> In p (Acpi.ioapics acpi)) ->
  exists h', find_ioapic d m l gsi h = (List.find (covers h gsi) l, h') /\ same_view h h'.
Proof.
  revert h. induction l as [|p l IH]; intros h Hok Hl.
  - exists h. split; [done|]. intros p _ x. done.
  - cbn [find_ioapic List.find]. assert (Hp : In p (Acpi.ioapics acpi)) by (apply Hl; by left).
    assert (Hl' : forall q, In q l -> In q (Acpi.ioapics acpi)) by (intros q Hq; apply Hl; by right).
    unfold covers at 1. destruct (ioapic_gsib m p <=? gsi) eqn:Hle; cbn [andb]; [|by apply IH].
    rewrite getGSICount_view by done. destruct (ok_range h Hok p Hp) as [_ Hg].
    pose proof (last_entry_range (view p h 1)). rewrite (wrap_small 32) by lia.
    pose proof (read_same h p 1 Hok Hp) as Hsame.
    destruct (gsi <? ioapic_gsib m p + last_entry (view p h 1)); [by eexists|].
    destruct (IH (read_log (ioapic_addr m p) 1 h)) as (h' & He & Hs'); [by apply (same_view_ok h)|done|].
    exists h'. split; [|by apply (same_view_trans _ _ _ Hsame)].
    rewrite He. f_equal. by apply same_view_find.
Qed.

Lemma getIOapicGSI_spec gsi h : ioapics_ok h ->
  match owner h gsi with
  | Some p => exists h', getIOapicGSI d m acpi gsi h = Ret (p, h') /\ same_view h h' /\ In p (Acpi.ioapics acpi) /\
                covers h gsi p = true
  | None => getIOapicGSI d m acpi gsi h = Fault
  end.
Proof.
  intros Hok. destruct (find_ioapic_spec gsi (Acpi.ioapics acpi) h Hok) as (h' & He & Hs); [done|].
  unfold getIOapicGSI, owner. rewrite He. destruct (List.find _ _) as [p|] eqn:Hf; [|done].
  exists h'. apply List.find_some in Hf as [Hin Hc]. done.
Qed.

(** A write changes one register of one I/O APIC. *)
Lemma write_view h p reg v q x : ioapics_ok h -> In p (Acpi.ioapics acpi) -> In q (Acpi.ioapics acpi) ->
  view q (write_log (ioapic_addr m p) reg v h) x = if decide (q = p /\ x = reg) then v else view q h x.
Proof.
  intros Hok Hp Hq. unfold view. destruct (decide (q = p)) as [->|Hne].
  - rewrite write_contents by (by apply (ok_range h)). destruct (Z.eqb_spec x reg) as [->|].
    + by rewrite decide_True by done.
    + by rewrite decide_False by (intros [_ ?]; done).
  - rewrite decide_False by (intros [? _]; done). unfold write_log. cbn [contents].
    destruct (ok_apart h Hok p q Hp Hq) as [H1 H2]. specialize (H2 (not_eq_sym Hne)).
    replace (data_register (ioapic_addr m p) =? data_register (ioapic_addr m q)) with false by lia.
    by replace (ioapic_addr m p =? data_register (ioapic_addr m q)) with false by lia.
Qed.

(** A write of any register but the version keeps the I/O APICs well described. *)
Lemma write_ok h p reg v : ioapics_ok h -> In p (Acpi.ioapics acpi) -> 0 <= v < 2 ^ 32 -> reg <> 1 ->
  ioapics_ok (write_log (ioapic_addr m p) reg v h).
Proof.
  intros Hok Hp Hv Hr. pose proof (write_view h p reg v) as Hw. destruct Hok as [H1 H2 H3 H4 H5] eqn:E. split; try done.
  - intros q Hq x. pose proof (Hw q x Hok Hp Hq) as Hx. unfold view in Hx. rewrite Hx.
    destruct (decide _); [done|by apply H4].
  - intros q Hq. rewrite Hw by done. rewrite decide_False by (intros [_ ?]; lia). by apply H5.
Qed.

Lemma redirect_low_range low vec flags : 0 <= low < 2 ^ 32 -> 0 <= vec < 256 ->
  0 <= redirect_low low vec flags < 2 ^ 32.
Proof.
  intros Hl Hv. unfold redirect_low.
  assert (H : 0 <= Z.lor (Z.land (Z.land (Z.land (Z.land low (u32 (Z.lnot (1 ≪ 16)))) (u32 (Z.lnot (1 ≪ 11))))
    (u32 (Z.lnot 0x700))) (u32 (Z.lnot 0xFF))) vec < 2 ^ 32).
  { apply lor_below; [lia| |lia]. repeat (apply land_below; [lia|]). done. }
  destruct (negb (Z.land flags 2 =? 0)), (negb (Z.land flags 8 =? 0)); repeat (apply lor_below; [lia| |done]); done.
Qed.

(** The new high word of an entry: the destination from the identification
    register, shifted out of its place. *)
Definition redirect_high (high id : Z) : Z := Z.lor (Z.land high 0xFFFFFF) (u32 (Z.shiftl id 24)).

Lemma redirect_high_range high id : 0 <= high < 2 ^ 32 -> 0 <= redirect_high high id < 2 ^ 32.
Proof.
  intros Hh. apply lor_below; [lia| |apply (wrap_range 32); lia]. by apply land_below.
Qed.

(** The accesses that program entry words [k] and [k + 1] of [p]. *)
Lemma program_entry h p k vec flags : ioapics_ok h -> In p (Acpi.ioapics acpi) -> 0x10 <= k < 255 ->
  0 <= vec < 256 ->
  exists h',
    (let '(high, h) := ioapicRead d (ioapic_addr m p) (k + 1) h in
     let high := Z.land high 0xFFFFFF in
     let '(id, h) := ioapicRead d (ioapic_addr m p) 0 h in
     let high := Z.lor high (u32 (Z.shiftl id 24)) in
     let h := ioapicWrite (ioapic_addr m p) (k + 1) high h in
     let '(low, h) := ioapicRead d (ioapic_addr m p) k h in
     Ret (ioapicWrite (ioapic_addr m p) k (redirect_low low vec flags) h)) = Ret h' /\
    forall q x, In q (Acpi.ioapics acpi) ->
      view q h' x =
        if decide (q = p /\ x = k) then redirect_low (view p h k) vec flags
        else if decide (q = p /\ x = k + 1) then redirect_high (view p h (k + 1)) (view p h 0)
        else view q h x.
Proof.
  intros Hok Hp Hk Hv. rewrite read_view by (done || lia).
  pose proof (read_same h p (k + 1) Hok Hp) as S1. set (h1 := read_log _ (k + 1) h) in *.
  pose proof (same_view_ok _ _ S1 Hok) as Hok1. rewrite read_view by (done || lia).
  pose proof (same_view_trans _ _ _ S1 (read_same h1 p 0 Hok1 Hp)) as S2. set (h2 := read_log _ 0 h1) in *.
  pose proof (same_view_ok _ _ S2 Hok) as Hok2. rewrite S1 by done.
  change (Z.lor (Z.land ?a _) ?b) with (redirect_high (view p h (k + 1)) (view p h 0)).
  pose proof (redirect_high_range (view p h (k + 1)) (view p h 0) (ok_32 h Hok p Hp (k + 1))) as Hhr.
  cbv zeta. rewrite ioapicWrite_log by (lia || done). set (h3 := write_log _ (k + 1) _ h2).
  assert (Hok3 : ioapics_ok h3) by (apply write_ok; done || lia).
  assert (V3 : forall q x, In q (Acpi.ioapics acpi) -> view q h3 x =
    if decide (q = p /\ x = k + 1) then redirect_high (view p h (k + 1)) (view p h 0) else view q h x).
  { intros q x Hq. unfold h3. rewrite (write_view h2) by done. by rewrite S2. }
  rewrite read_view by (done || lia). rewrite (V3 p k Hp), decide_False by (intros [_ ?]; lia).
  pose proof (read_same h3 p k Hok3 Hp) as S4. set (h4 := read_log _ k h3) in *.
  rewrite ioapicWrite_log by first [lia | apply redirect_low_range; [apply (ok_32 h Hok p Hp k)|done]].
  eexists. split; [reflexivity|]. intros q x Hq.
  rewrite (write_view h4) by (done || by apply (same_view_ok h3)).
  destruct (decide (q = p /\ x = k)); [done|]. rewrite S4 by done. by apply V3.
Qed.

End Redirect.

(** C34: an interrupt is programmed in the first I/O APIC that has it, and in
    that entry only: its low word gets the vector, fixed delivery to a physical
    destination, unmasked, active low and level triggered as the flags ask, and
    keeps its other bits; its high word gets the destination; every other
    register of every I/O APIC stays.  When no I/O APIC has the interrupt, a
    null pointer is dereferenced. *)
Theorem ioapicRedirectGSI_programs d m acpi inits gsi vec flags h
  (Hok : ioapics_ok d m acpi inits h) (Hv : 0 <= vec < 256) :
  match owner m acpi inits h gsi with
  | None => ioapicRedirectGSI d m acpi gsi vec flags h = Fault
  | Some p =>
      let k := 0x10 + 2 * (gsi - ioapic_gsib m p) in
      exists h', ioapicRedirectGSI d m acpi gsi vec flags h = Ret h' /\
        (forall i, 0 <= i < 32 ->
           Z.testbit (view m inits p h' k) i =
             if i <? 8 then Z.testbit vec i
             else if (i <=? 11) || (i =? 16) then false
             else if i =? 13 then Z.testbit (view m inits p h k) 13 || Z.testbit flags 1
             else if i =? 15 then Z.testbit (view m inits p h k) 15 || Z.testbit flags 3
             else Z.testbit (view m inits p h k) i) /\
        view m inits p h' (k + 1) = redirect_high (view m inits p h (k + 1)) (view m inits p h 0) /\
        forall q x, In q (Acpi.ioapics acpi) -> ~ (q = p /\ (x = k \/ x = k + 1)) ->
          view m inits q h' x = view m inits q h x
  end.
Proof.
  pose proof (getIOapicGSI_spec d m acpi inits gsi h Hok) as H1. unfold ioapicRedirectGSI.
  destruct (owner m acpi inits h gsi) as [p|] eqn:Ho; [|by rewrite H1].
  destruct H1 as (h1 & E1 & S1 & Hp & Hc). rewrite E1. cbn [mbind result_bind].
  pose proof (same_view_ok _ _ _ _ _ _ S1 Hok) as Hok1. pose proof (getIOapicGSI_spec d m acpi inits gsi h1 Hok1) as H2.
  unfold owner in H2. rewrite (same_view_find m acpi inits h h1) in H2 by done.
  unfold owner in Ho. rewrite Ho in H2. destruct H2 as (h2 & E2 & S2 & _ & _). rewrite E2. cbn [mbind result_bind].
  pose proof (same_view_trans _ _ _ _ _ _ S1 S2) as S. pose proof (same_view_ok _ _ _ _ _ _ S2 Hok1) as Hok2.
  apply andb_prop in Hc as [Hc1 Hc2]. destruct (ok_range _ _ _ _ h Hok p Hp) as [Ha Hg].
  pose proof (ok_entries _ _ _ _ h Hok p Hp) as He. set (k := 0x10 + 2 * (gsi - ioapic_gsib m p)).
  assert (Hk : 0x10 <= k < 255) by (unfold k; lia).
  rewrite (wrap_small 32 (0x10 + _ * 2)) by lia. replace (0x10 + (gsi - ioapic_gsib m p) * 2) with k by (unfold k; lia).
  rewrite (wrap_small 32 (k + 1)) by lia. change (u32 (Z.lnot 0xFF000000)) with 0xFFFFFF.
  destruct (program_entry d m acpi inits h2 p k vec flags Hok2 Hp Hk Hv) as (h' & E & V).
  exists h'. split; [exact E|]. split; [|split].
  - intros i Hi. rewrite V, decide_True, S by done. apply redirect_low_bits; [|done..].
    apply (ok_32 _ _ _ _ h Hok p Hp).
  - rewrite V, decide_False, decide_True by (done || intros [_ ?]; lia). by rewrite !S.
  - intros q x Hq Hne. rewrite V, !decide_False, S by (done || intuition). done.
Qed.

(** The version register names the last entry, and the search takes it for the
    number of entries: the interrupt of the last pin has no I/O APIC. *)
Lemma last_pin_faults d m acpi inits vec flags h p :
  ioapics_ok d m acpi inits h -> Acpi.ioapics acpi = [p] -> 0 <= vec < 256 ->
  ioapicRedirectGSI d m acpi (ioapic_gsib m p + last_entry (view m inits p h 1)) vec flags h = Fault.
Proof.
  intros Hok Hp Hv. unfold ioapicRedirectGSI.
  pose proof (getIOapicGSI_spec d m acpi inits (ioapic_gsib m p + last_entry (view m inits p h 1)) h Hok) as H1.
  assert (owner m acpi inits h (ioapic_gsib m p + last_entry (view m inits p h 1)) = None) as Ho.
  { unfold owner, covers. rewrite Hp. cbn [List.find]. rewrite Z.ltb_irrefl. by rewrite andb_false_r. }
  rewrite Ho in H1. by rewrite H1.
Qed.

(** A machine with one I/O APIC of 24 entries, all masked. *)
Definition apic_demo_m : mem := fun a => if a =? 106 then 0xC0 else if a =? 107 then 0xFE else 0.
Definition apic_demo_acpi : Acpi.t := Acpi.with_madt [] [100] [] [] 0 Acpi.initial.
Definition apic_demo_inits (p reg : Z) : Z := if reg =? 1 then 0x170000 else 0x10000.
Definition apic_demo : Mmio.machine :=
  Mmio.mk_machine (fun _ _ _ => 0)
    (fun h _ a => if a =? data_register 0xFEC00000
                  then contents 0xFEC00000 (apic_demo_inits 100) h (selected 0xFEC00000 h) else 0)
    (fun _ _ => 0).

Lemma apic_demo_ok : ioapics_ok apic_demo apic_demo_m apic_demo_acpi apic_demo_inits [].
Proof.
  split.
  - intros p [<-|[]]. vm_compute. intuition congruence.
  - intros p [<-|[]] h. reflexivity.
  - intros p q [<-|[]] [<-|[]]. split; [vm_compute; congruence|done].
  - intros p [<-|[]] reg. unfold contents, apic_demo_inits. destruct (reg =? 1); lia.
  - intros p [<-|[]]. reflexivity.
Qed.

Lemma ioapicRedirectGSI_programs_witness :
  exists h', ioapicRedirectGSI apic_demo apic_demo_m apic_demo_acpi 1 33 0 [] = Ret h' /\
    Z.testbit (view apic_demo_m apic_demo_inits 100 h' 0x12) 0 = true /\
    Z.testbit (view apic_demo_m apic_demo_inits 100 h' 0x12) 16 = false /\
    view apic_demo_m apic_demo_inits 100 h' 0x14 = 0x10000.
Proof.
  destruct (ioapicRedirectGSI_programs apic_demo apic_demo_m apic_demo_acpi apic_demo_inits 1 33 0 []
    apic_demo_ok ltac:(lia)) as (h' & E & Hb & _ & Hf).
  exists h'. split; [exact E|]. split; [exact (Hb 0 ltac:(lia))|]. split; [exact (Hb 16 ltac:(lia))|].
  refine (Hf 100 0x14 (or_introl eq_refl) _). intros [_ [H|H]]; discriminate H.
Defined.

(** ** The timer *)

(** Every access of [lapicTimer] but the calibration, in their order. *)
Lemma lapicTimer_run d acpi fuel mode vector ms s e :
  tickCountInMS s <> 0 -> lapicTimerLock s = false ->
  exists e', lapicTimer d acpi fuel mode vector ms s e = Ret (s, e') /\
    let h1 := lapicTimerMask d acpi s true (Omtime.log e) in
    let h2 := lapicWrite acpi s DIVIDE_CONF_REGISTER 0x03 h1 in
    let h3 := lapicUpdate d acpi s LVT_TIMER_REGISTER LVT_TIMER_REGISTER (lvt_timer mode vector) h2 in
    let h4 := lapicWrite acpi s INITIAL_COUNT_REGISTER (u32 (tickCountInMS s * ms)) h3 in
    Omtime.log e' = lapicTimerMask d acpi s false h4.
Proof.
  intros Ht Hl. unfold lapicTimer, lapicTimerInit. rewrite Hl. cbn [spin_lock mbind result_bind].
  assert (Hs : (tickCountInMS (with_lock true s) =? 0) = false) by (destruct s; cbn in *; lia).
  rewrite Hs. cbn [mbind result_bind]. eexists. split.
  - destruct s; cbn in Hl. subst. reflexivity.
  - cbn zeta. destruct s as [i x t l]. cbn in *. unfold lapicWrite, Mmio.mmoutd. cbn.
    assert (u32 (t *64 ms) = u32 (t * ms)) as Hw.
    { unfold wrap. apply Z.mod_mod_divide. exists (2 ^ 32). lia. }
    destruct x; by rewrite Hw, ?wrap_idemp.
Qed.

End Apic.
