(* ===== verification/Gdt.v ===== *)
(** * Segments and task state: [system/CPU/GDT/gdt.cpp] and [gdt.asm]

    The descriptor table is a record, as in the code; the task-state segments
    are an array in memory.  A processor's registers are what [lgdt], the
    segment loads and [ltr] leave in them. *)

From S2P Require Import Prelude Mem.
#[local] Open Scope Z_scope.
#[local] Open Scope machine_scope.

Module Gdt.

Record GDTEntry : Type := mkEntry {
  limit0 : Z; base0 : Z; base1 : Z; accessByte : Z; granularity : Z; base2 : Z;
}.

Record TSSEntry : Type := mkTss {
  length : Z; tbase0 : Z; tbase1 : Z; flag1 : Z; flag2 : Z; tbase2 : Z; tbase3 : Z; Reserved : Z;
}.

(** The entries [Null] to [UserCode] in their order, and [Tss]. *)
Record GDT : Type := mkGDT { entries : list GDTEntry; Tss : TSSEntry }.

Definition DefaultGDT : GDT := mkGDT
  [ mkEntry 0x0000 0 0 0x00 0x00 0;
    mkEntry 0xFFFF 0 0 0x9A 0x00 0;
    mkEntry 0xFFFF 0 0 0x92 0x00 0;
    mkEntry 0xFFFF 0 0 0x9A 0xCF 0;
    mkEntry 0xFFFF 0 0 0x92 0xCF 0;
    mkEntry 0x0000 0 0 0x9A 0x20 0;
    mkEntry 0x0000 0 0 0x92 0x00 0;
    mkEntry 0x0000 0 0 0xF2 0x00 0;
    mkEntry 0x0000 0 0 0xFA 0x20 0 ]
  (mkTss 0x0000 0 0 0x89 0x00 0 0 0).

(** Nine entries of 8 bytes and one of 16. *)
Definition GDT_SIZE : Z := 9 * 8 + 16.

Definition TSS_SIZE : Z := 104.
Definition RSP0 : Z := 4.
Definition IST0 : Z := 36.

(** [GDTDescriptor]: size and offset. *)
Record descriptor : Type := mkDescriptor { size : Z; offset : Z }.

(** What a processor has loaded: its table, its code and data selectors, and
    the base and limit of its task register. *)
Record cpu : Type := mkCpu { gdtr : option descriptor; cs : Z; data : Z; tr : option (Z * Z) }.

Record t : Type := mk {
  isInit : bool; gdt_lock : bool; gdt : GDT; gdtDescriptor : descriptor; tss : Z;
}.

Definition initial : t := mk false false DefaultGDT (mkDescriptor 0 0) 0.

Definition with_lock (b : bool) (s : t) : t := mk (isInit s) b (gdt s) (gdtDescriptor s) (tss s).
Definition with_gdt (g : GDT) (s : t) : t := mk (isInit s) (gdt_lock s) g (gdtDescriptor s) (tss s).
Definition with_init (s : t) : t := mk true (gdt_lock s) (gdt s) (gdtDescriptor s) (tss s).
Definition with_tables (d : descriptor) (tss : Z) (s : t) : t := mk (isInit s) (gdt_lock s) (gdt s) d tss.

(** [loadGDT]: the table, then selector 0x30 in the data registers and a far
    return to selector 0x28. *)
Definition reloadGDT (s : t) (c : cpu) : cpu := mkCpu (Some (gdtDescriptor s)) 0x28 0x30 (tr c).

(** The base and the limit that the fields of a descriptor denote. *)
Definition tss_base (e : TSSEntry) : Z :=
  tbase0 e + Z.shiftl (tbase1 e) 16 + Z.shiftl (tbase2 e) 24 + Z.shiftl (tbase3 e) 32.
Definition tss_limit (e : TSSEntry) : Z := length e + Z.shiftl (Z.land (flag2 e) 0xF) 16.

(** [loadTSS]: [ltr] with selector 9 * 8 wants an available task-state segment
    and marks it busy. *)
Definition reloadTSS (s : t) (c : cpu) : result (t * cpu) :=
  let e := Tss (gdt s) in
  if negb (flag1 e =? 0x89) then Fault else
  let e' := mkTss (length e) (tbase0 e) (tbase1 e) 0x8B (flag2 e) (tbase2 e) (tbase3 e) (Reserved e) in
  Ret (with_gdt (mkGDT (entries (gdt s)) e') s, mkCpu (gdtr c) (cs c) (data c) (Some (tss_base e, tss_limit e))).

(** [&tss[cpu]]. *)
Definition tss_at (s : t) (i : Z) : Z := tss s +64 i * TSS_SIZE.

Definition reloadAll (i : Z) (s : t) (c : cpu) : result (t * cpu) :=
  held ← spin_lock (gdt_lock s);
  let s := with_lock held s in
  let base := tss_at s i in
  let limit := base +64 TSS_SIZE in
  let e := mkTss (u16 limit) (u16 base) (u8 (Z.shiftr base 16)) 0x89 0x00
             (u8 (Z.shiftr base 24)) (u32 (Z.shiftr base 32)) 0x00 in
  let s := with_gdt (mkGDT (entries (gdt s)) e) s in
  let c := reloadGDT s c in
  '(s, c) ← reloadTSS s c;
  Ret (with_lock false s, c).

Definition setStack (i stack : Z) (s : t) (m : mem) : mem := store64 m (tss_at s i + RSP0) stack.
Definition getStack (i : Z) (s : t) (m : mem) : Z := load64 m (tss_at s i + RSP0).

Section Init.
(** The heap's [calloc], on the memory and the rest of the kernel's state, the
    address of the table in the image, the processor count and the boot
    processor's APIC number of the loader's tag, and the address of the kernel
    stack. *)
Context {K : Type} (calloc : mem -> K -> Z -> Z -> result (mem * Z * K)).
Context (DefaultGDT_address cpu_count bsp_lapic_id kernelStack : Z).

Definition init (s : t) (c : cpu) (m : mem) (k : K) : result (t * cpu * mem * K) :=
  if isInit s then Ret (s, c, m, k) else
  '(m, p, k) ← calloc m k cpu_count TSS_SIZE;
  let s := with_tables (mkDescriptor (GDT_SIZE - 1) DefaultGDT_address) p s in
  '(s, c) ← reloadAll bsp_lapic_id s c;
  let m := store64 m (tss_at s 0 + RSP0) kernelStack in
  Ret (with_init s, c, m, k).

End Init.

(** ** Properties *)

(** The four pieces of an address are the address. *)
Lemma split_base b : 0 <= b < 2 ^ 64 ->
  u16 b + Z.shiftl (u8 (Z.shiftr b 16)) 16 + Z.shiftl (u8 (Z.shiftr b 24)) 24 +
  Z.shiftl (u32 (Z.shiftr b 32)) 32 = b.
Proof.
  intros Hb. rewrite !Z.shiftl_mul_pow2, !Z.shiftr_div_pow2 by lia. unfold wrap.
  pose proof (Z.div_mod b (2 ^ 16)). pose proof (Z.div_mod (b / 2 ^ 16) (2 ^ 8)).
  pose proof (Z.div_mod (b / 2 ^ 24) (2 ^ 8)).
  assert (E1 : b / 2 ^ 16 / 2 ^ 8 = b / 2 ^ 24) by (rewrite Z.div_div by lia; done).
  assert (E2 : b / 2 ^ 24 / 2 ^ 8 = b / 2 ^ 32) by (rewrite Z.div_div by lia; done).
  rewrite (Z.mod_small (b / 2 ^ 32)).
  - rewrite E1 in *. rewrite E2 in *. lia.
  - split; [apply Z.div_pos; lia|apply Z.div_lt_upper_bound; lia].
Qed.

(** One [reloadAll]. *)
Lemma reloadAll_run i s c : gdt_lock s = false ->
  exists s' c', reloadAll i s c = Ret (s', c') /\
    tr c' = Some (tss_at s i, u16 (tss_at s i + TSS_SIZE)) /\
    gdtr c' = Some (gdtDescriptor s) /\ cs c' = 0x28 /\ data c' = 0x30 /\
    entries (gdt s') = entries (gdt s) /\ tss_base (Tss (gdt s')) = tss_at s i /\
    gdt_lock s' = false /\ tss s' = tss s /\ gdtDescriptor s' = gdtDescriptor s.
Proof.
  intros Hl. unfold reloadAll. rewrite Hl. eexists _, _. split; [reflexivity|].
  assert (Hb : 0 <= tss_at s i < 2 ^ 64) by (apply wrap_range; lia).
  assert (tss_at (with_lock true s) i = tss_at s i) as -> by done.
  cbn -[wrap Z.shiftr Z.shiftl Z.add Z.land]. unfold tss_base, tss_limit. cbn -[wrap Z.shiftr Z.shiftl Z.add Z.land].
  rewrite !split_base by done. repeat split. f_equal. f_equal.
  change (Z.land 0 0xF ≪ 16) with 0. rewrite Z.add_0_r. unfold wrap. apply Z.mod_mod_divide. by exists (2 ^ 48).
Qed.

(** [reloadAll] gives the processor its table, selectors 0x28 and 0x30 and
    a task register whose base is the processor's segment, for every 64-bit
    address, and releases the lock; the limit is the low half of the segment's
    end address instead of 103.  Loading again works, because the descriptor
    is made available first. *)
Theorem reloadAll_loads i s c (Hl : gdt_lock s = false) :
  exists s' c', reloadAll i s c = Ret (s', c') /\
    gdtr c' = Some (gdtDescriptor s) /\ cs c' = 0x28 /\ data c' = 0x30 /\
    tr c' = Some (tss_at s i, u16 (tss_at s i + TSS_SIZE)) /\
    entries (gdt s') = entries (gdt s) /\ tss_base (Tss (gdt s')) = tss_at s i /\
    gdt_lock s' = false /\ tss s' = tss s /\ gdtDescriptor s' = gdtDescriptor s /\
    exists s'' c'', reloadAll i s' c' = Ret (s'', c'').
Proof.
  destruct (reloadAll_run i s c Hl) as (s' & c' & E & H1 & H2 & H3 & H4 & H5 & H6 & H7 & H8 & H9).
  destruct (reloadAll_run i s' c' H7) as (s'' & c'' & E' & _).
  exists s', c'. repeat (split; [done|]). by exists s'', c''.
Qed.

Lemma reloadAll_loads_witness :
  exists s' c', reloadAll 2 (with_tables (mkDescriptor 87 0x1000) 0xFFFF8000000FFF80 initial)
                  (mkCpu None 0 0 None) = Ret (s', c') /\
    tr c' = Some (0xFFFF800000100050, 0xB8).
Proof.
  destruct (reloadAll_loads 2 (with_tables (mkDescriptor 87 0x1000) 0xFFFF8000000FFF80 initial)
    (mkCpu None 0 0 None) eq_refl) as (s' & c' & E & _ & _ & _ & Ht & _).
  exists s', c'. split; [exact E|]. rewrite Ht. reflexivity.
Defined.

(** A stack that is set is read back, and no other processor's is changed. *)
Lemma setStack_getStack i j stack s m :
  0 <= stack < 2 ^ 64 -> 0 <= i -> 0 <= j -> 0 <= tss s -> tss s + (i + 1) * TSS_SIZE <= 2 ^ 64 ->
  tss s + (j + 1) * TSS_SIZE <= 2 ^ 64 ->
  getStack j s (setStack i stack s m) = if i =? j then stack else getStack j s m.
Proof.
  unfold TSS_SIZE. intros Hs Hi Hj Ht Hbi Hbj. unfold getStack, setStack, tss_at, TSS_SIZE, RSP0.
  rewrite !wrap_small by lia. destruct (Z.eqb_spec i j) as [->|Hne].
  - by apply load_store_eq.
  - apply load_store_ne. lia.
Qed.

(** The segments are as many as the processors but are indexed by APIC number:
    for a number that is not below the count, the boot processor's task
    register points behind the array. *)
Lemma init_past_array {K} calloc addr cpu_count id stack s c m (k k' : K) m' p :
  isInit s = false -> gdt_lock s = false -> calloc m k cpu_count TSS_SIZE = Ret (m', p, k') ->
  0 <= p -> 0 <= cpu_count <= id -> p + id * TSS_SIZE < 2 ^ 64 ->
  exists s' c' m'', init calloc addr cpu_count id stack s c m k = Ret (s', c', m'', k') /\
    exists base limit, tr c' = Some (base, limit) /\ p + cpu_count * TSS_SIZE <= base.
Proof.
  unfold TSS_SIZE. intros Hi Hl Hc Hp Hn Hb. unfold init, TSS_SIZE. rewrite Hi, Hc. cbn [mbind result_bind].
  destruct (reloadAll_run id (with_tables (mkDescriptor (GDT_SIZE - 1) addr) p s) c Hl) as (s' & c' & E & Ht & _).
  rewrite E. eexists _, c', _. split; [reflexivity|]. eexists _, _. split; [exact Ht|].
  unfold tss_at, TSS_SIZE. cbn [tss with_tables]. rewrite wrap_small by lia. lia.
Qed.

End Gdt.
