(* ===== verification/Scheduler.v ===== *)
(** * The scheduler: [system/CPU/scheduling/scheduler/scheduler.cpp]

    One processor with its interrupt flag.  Threads and processes are heap
    objects found by address; a freed address is absent, and using it is a
    [Fault].  The heap calls succeed with fresh addresses.  The vectors of
    pointers are lists with the behaviour [Vector] proves of the template:
    [push_back] appends, [find] answers 0 for every element and [remove(find(x))]
    drops the first and the last element and repeats the one before.
    [_yield] programs the timer and returns; the switch itself is the return
    from the interrupt with the registers [switchTask] leaves.  Waiting loops
    of [hlt] after an exit are the interrupt's to end and are left out. *)

From S2P Require Import Prelude Mem PortIO Pit.
#[local] Open Scope Z_scope.
#[local] Open Scope machine_scope.

Module Scheduler.

Definition DEFAULT_TIMESLICE : Z := 5.
Definition STACK_SIZE : Z := 0x2000.

Inductive state_t : Type :=
| INITIAL_STATE | READY | RUNNING | BLOCKED | SLEEPING | KILLED.

#[export] Instance state_t_eq_dec : EqDecision state_t.
Proof. solve_decision. Defined.

Definition is_state (a b : state_t) : bool := bool_decide (a = b).

(** [registers_t] of [lib/cpu/cpu.hpp]. *)
Record registers_t : Type := mkRegs {
  r15 : Z;
  r14 : Z;
  r13 : Z;
  r12 : Z;
  r11 : Z;
  r10 : Z;
  r9 : Z;
  r8 : Z;
  rbp : Z;
  rdi : Z;
  rsi : Z;
  rdx : Z;
  rcx : Z;
  rbx : Z;
  rax : Z;
  int_no : Z;
  error_code : Z;
  rip : Z;
  cs : Z;
  rflags : Z;
  rsp : Z;
  ss : Z;
}.

Record thread_t : Type := mkThread {
  TID : Z;
  tstate : state_t;
  thread_stack : Z;
  thread_regs : registers_t;
  parent_proc : Z;
  sliceOfTime : Z;
}.

Record process_t : Type := mkProcess {
  name : list Z;
  PID : Z;
  nextTID : Z;
  pstate : state_t;
  pagemap : Z;
  threadsVec : list Z;
  children : list Z;
  parent : Z;
}.

Definition set_TID (v : Z) (s : thread_t) : thread_t :=
  mkThread v (tstate s) (thread_stack s) (thread_regs s) (parent_proc s) (sliceOfTime s).
Definition set_tstate (v : state_t) (s : thread_t) : thread_t :=
  mkThread (TID s) v (thread_stack s) (thread_regs s) (parent_proc s) (sliceOfTime s).
Definition set_thread_regs (v : registers_t) (s : thread_t) : thread_t :=
  mkThread (TID s) (tstate s) (thread_stack s) v (parent_proc s) (sliceOfTime s).
Definition set_parent_proc (v : Z) (s : thread_t) : thread_t :=
  mkThread (TID s) (tstate s) (thread_stack s) (thread_regs s) v (sliceOfTime s).

Definition set_nextTID (v : Z) (s : process_t) : process_t :=
  mkProcess (name s) (PID s) v (pstate s) (pagemap s) (threadsVec s) (children s) (parent s).
Definition set_pstate (v : state_t) (s : process_t) : process_t :=
  mkProcess (name s) (PID s) (nextTID s) v (pagemap s) (threadsVec s) (children s) (parent s).
Definition set_threadsVec (v : list Z) (s : process_t) : process_t :=
  mkProcess (name s) (PID s) (nextTID s) (pstate s) (pagemap s) v (children s) (parent s).
Definition set_children (v : list Z) (s : process_t) : process_t :=
  mkProcess (name s) (PID s) (nextTID s) (pstate s) (pagemap s) (threadsVec s) v (parent s).

(** The statics of the scheduler, the heap objects it points to ([threads] and
    [procs], by address), the current processor's fields, its interrupt flag and
    page-table register, and what the timers were told. *)
Record st : Type := mkSt {
  isInit : bool;
  next_pid : Z;
  sched_vector : Z;
  proc_table : list Z;
  initproc : Z;
  proc_count : Z;
  thread_count : Z;
  thread_lock : bool;
  sched_lock : bool;
  proc_lock : bool;
  threads : gmap Z thread_t;
  procs : gmap Z process_t;
  next_ptr : Z;
  currentThread : Z;
  currentProcess : Z;
  idleP : Z;
  IF : bool;
  cr3 : Z;
  apicInit : bool;
  oneshots : list (Z * Z);
  pit : Pit.t;
  ports : PortIO.history;
}.

Definition set_isInit (v : bool) (s : st) : st :=
  mkSt v (next_pid s) (sched_vector s) (proc_table s) (initproc s) (proc_count s) (thread_count s) (thread_lock s) (sched_lock s) (proc_lock s) (threads s) (procs s) (next_ptr s) (currentThread s) (currentProcess s) (idleP s) (IF s) (cr3 s) (apicInit s) (oneshots s) (pit s) (ports s).
Definition set_next_pid (v : Z) (s : st) : st :=
  mkSt (isInit s) v (sched_vector s) (proc_table s) (initproc s) (proc_count s) (thread_count s) (thread_lock s) (sched_lock s) (proc_lock s) (threads s) (procs s) (next_ptr s) (currentThread s) (currentProcess s) (idleP s) (IF s) (cr3 s) (apicInit s) (oneshots s) (pit s) (ports s).
Definition set_sched_vector (v : Z) (s : st) : st :=
  mkSt (isInit s) (next_pid s) v (proc_table s) (initproc s) (proc_count s) (thread_count s) (thread_lock s) (sched_lock s) (proc_lock s) (threads s) (procs s) (next_ptr s) (currentThread s) (currentProcess s) (idleP s) (IF s) (cr3 s) (apicInit s) (oneshots s) (pit s) (ports s).
Definition set_proc_table (v : list Z) (s : st) : st :=
  mkSt (isInit s) (next_pid s) (sched_vector s) v (initproc s) (proc_count s) (thread_count s) (thread_lock s) (sched_lock s) (proc_lock s) (threads s) (procs s) (next_ptr s) (currentThread s) (currentProcess s) (idleP s) (IF s) (cr3 s) (apicInit s) (oneshots s) (pit s) (ports s).
Definition set_initproc (v : Z) (s : st) : st :=
  mkSt (isInit s) (next_pid s) (sched_vector s) (proc_table s) v (proc_count s) (thread_count s) (thread_lock s) (sched_lock s) (proc_lock s) (threads s) (procs s) (next_ptr s) (currentThread s) (currentProcess s) (idleP s) (IF s) (cr3 s) (apicInit s) (oneshots s) (pit s) (ports s).
Definition set_proc_count (v : Z) (s : st) : st :=
  mkSt (isInit s) (next_pid s) (sched_vector s) (proc_table s) (initproc s) v (thread_count s) (thread_lock s) (sched_lock s) (proc_lock s) (threads s) (procs s) (next_ptr s) (currentThread s) (currentProcess s) (idleP s) (IF s) (cr3 s) (apicInit s) (oneshots s) (pit s) (ports s).
Definition set_thread_count (v : Z) (s : st) : st :=
  mkSt (isInit s) (next_pid s) (sched_vector s) (proc_table s) (initproc s) (proc_count s) v (thread_lock s) (sched_lock s) (proc_lock s) (threads s) (procs s) (next_ptr s) (currentThread s) (currentProcess s) (idleP s) (IF s) (cr3 s) (apicInit s) (oneshots s) (pit s) (ports s).
Definition set_thread_lock (v : bool) (s : st) : st :=
  mkSt (isInit s) (next_pid s) (sched_vector s) (proc_table s) (initproc s) (proc_count s) (thread_count s) v (sched_lock s) (proc_lock s) (threads s) (procs s) (next_ptr s) (currentThread s) (currentProcess s) (idleP s) (IF s) (cr3 s) (apicInit s) (oneshots s) (pit s) (ports s).
Definition set_sched_lock (v : bool) (s : st) : st :=
  mkSt (isInit s) (next_pid s) (sched_vector s) (proc_table s) (initproc s) (proc_count s) (thread_count s) (thread_lock s) v (proc_lock s) (threads s) (procs s) (next_ptr s) (currentThread s) (currentProcess s) (idleP s) (IF s) (cr3 s) (apicInit s) (oneshots s) (pit s) (ports s).
Definition set_proc_lock (v : bool) (s : st) : st :=
  mkSt (isInit s) (next_pid s) (sched_vector s) (proc_table s) (initproc s) (proc_count s) (thread_count s) (thread_lock s) (sched_lock s) v (threads s) (procs s) (next_ptr s) (currentThread s) (currentProcess s) (idleP s) (IF s) (cr3 s) (apicInit s) (oneshots s) (pit s) (ports s).
Definition set_threads (v : gmap Z thread_t) (s : st) : st :=
  mkSt (isInit s) (next_pid s) (sched_vector s) (proc_table s) (initproc s) (proc_count s) (thread_count s) (thread_lock s) (sched_lock s) (proc_lock s) v (procs s) (next_ptr s) (currentThread s) (currentProcess s) (idleP s) (IF s) (cr3 s) (apicInit s) (oneshots s) (pit s) (ports s).
Definition set_procs (v : gmap Z process_t) (s : st) : st :=
  mkSt (isInit s) (next_pid s) (sched_vector s) (proc_table s) (initproc s) (proc_count s) (thread_count s) (thread_lock s) (sched_lock s) (proc_lock s) (threads s) v (next_ptr s) (currentThread s) (currentProcess s) (idleP s) (IF s) (cr3 s) (apicInit s) (oneshots s) (pit s) (ports s).
Definition set_next_ptr (v : Z) (s : st) : st :=
  mkSt (isInit s) (next_pid s) (sched_vector s) (proc_table s) (initproc s) (proc_count s) (thread_count s) (thread_lock s) (sched_lock s) (proc_lock s) (threads s) (procs s) v (currentThread s) (currentProcess s) (idleP s) (IF s) (cr3 s) (apicInit s) (oneshots s) (pit s) (ports s).
Definition set_currentThread (v : Z) (s : st) : st :=
  mkSt (isInit s) (next_pid s) (sched_vector s) (proc_table s) (initproc s) (proc_count s) (thread_count s) (thread_lock s) (sched_lock s) (proc_lock s) (threads s) (procs s) (next_ptr s) v (currentProcess s) (idleP s) (IF s) (cr3 s) (apicInit s) (oneshots s) (pit s) (ports s).
Definition set_currentProcess (v : Z) (s : st) : st :=
  mkSt (isInit s) (next_pid s) (sched_vector s) (proc_table s) (initproc s) (proc_count s) (thread_count s) (thread_lock s) (sched_lock s) (proc_lock s) (threads s) (procs s) (next_ptr s) (currentThread s) v (idleP s) (IF s) (cr3 s) (apicInit s) (oneshots s) (pit s) (ports s).
Definition set_idleP (v : Z) (s : st) : st :=
  mkSt (isInit s) (next_pid s) (sched_vector s) (proc_table s) (initproc s) (proc_count s) (thread_count s) (thread_lock s) (sched_lock s) (proc_lock s) (threads s) (procs s) (next_ptr s) (currentThread s) (currentProcess s) v (IF s) (cr3 s) (apicInit s) (oneshots s) (pit s) (ports s).
Definition set_IF (v : bool) (s : st) : st :=
  mkSt (isInit s) (next_pid s) (sched_vector s) (proc_table s) (initproc s) (proc_count s) (thread_count s) (thread_lock s) (sched_lock s) (proc_lock s) (threads s) (procs s) (next_ptr s) (currentThread s) (currentProcess s) (idleP s) v (cr3 s) (apicInit s) (oneshots s) (pit s) (ports s).
Definition set_cr3 (v : Z) (s : st) : st :=
  mkSt (isInit s) (next_pid s) (sched_vector s) (proc_table s) (initproc s) (proc_count s) (thread_count s) (thread_lock s) (sched_lock s) (proc_lock s) (threads s) (procs s) (next_ptr s) (currentThread s) (currentProcess s) (idleP s) (IF s) v (apicInit s) (oneshots s) (pit s) (ports s).
Definition set_apicInit (v : bool) (s : st) : st :=
  mkSt (isInit s) (next_pid s) (sched_vector s) (proc_table s) (initproc s) (proc_count s) (thread_count s) (thread_lock s) (sched_lock s) (proc_lock s) (threads s) (procs s) (next_ptr s) (currentThread s) (currentProcess s) (idleP s) (IF s) (cr3 s) v (oneshots s) (pit s) (ports s).
Definition set_oneshots (v : list (Z * Z)) (s : st) : st :=
  mkSt (isInit s) (next_pid s) (sched_vector s) (proc_table s) (initproc s) (proc_count s) (thread_count s) (thread_lock s) (sched_lock s) (proc_lock s) (threads s) (procs s) (next_ptr s) (currentThread s) (currentProcess s) (idleP s) (IF s) (cr3 s) (apicInit s) v (pit s) (ports s).
Definition set_pit (v : Pit.t) (s : st) : st :=
  mkSt (isInit s) (next_pid s) (sched_vector s) (proc_table s) (initproc s) (proc_count s) (thread_count s) (thread_lock s) (sched_lock s) (proc_lock s) (threads s) (procs s) (next_ptr s) (currentThread s) (currentProcess s) (idleP s) (IF s) (cr3 s) (apicInit s) (oneshots s) v (ports s).
Definition set_ports (v : PortIO.history) (s : st) : st :=
  mkSt (isInit s) (next_pid s) (sched_vector s) (proc_table s) (initproc s) (proc_count s) (thread_count s) (thread_lock s) (sched_lock s) (proc_lock s) (threads s) (procs s) (next_ptr s) (currentThread s) (currentProcess s) (idleP s) (IF s) (cr3 s) (apicInit s) (oneshots s) (pit s) v.


(** ** The monad of the code: state, and a [result] *)

Definition M (A : Type) : Type := st -> result (A * st).

Definition ret {A} (a : A) : M A := fun s => Ret (a, s).
#[export] Instance M_bind : MBind M := fun A B f m s =>
  match m s with Ret (a, s) => f a s | Fault => Fault | Diverge => Diverge end.

Definition get {A} (f : st -> A) : M A := fun s => Ret (f s, s).
Definition modify (f : st -> st) : M unit := fun s => Ret (tt, f s).
Definition lift {A} (r : result A) : M A := fun s => a ← r; Ret (a, s).

Definition get_thread (p : Z) : M thread_t := fun s =>
  match threads s !! p with Some t => Ret (t, s) | None => Fault end.
Definition get_proc (p : Z) : M process_t := fun s =>
  match procs s !! p with Some t => Ret (t, s) | None => Fault end.
Definition upd_thread (p : Z) (f : thread_t -> thread_t) : M unit :=
  t ← get_thread p; modify (fun s => set_threads (<[p := f t]> (threads s)) s).
Definition upd_proc (p : Z) (f : process_t -> process_t) : M unit :=
  t ← get_proc p; modify (fun s => set_procs (<[p := f t]> (procs s)) s).

Definition cli : M unit := modify (set_IF false).
Definition sti : M unit := modify (set_IF true).

Definition take (held : st -> bool) (set : bool -> st -> st) : M unit := fun s =>
  b ← spin_lock (held s); Ret (tt, set b s).
Definition release (set : bool -> st -> st) : M unit := modify (set false).

(** [malloc] and [new]: a fresh address. *)
Definition alloc (size : Z) : M Z := fun s => Ret (next_ptr s, set_next_ptr (next_ptr s + size) s).

(** ** The vectors *)

Definition vec_find (l : list Z) (x : Z) : Z := match l with [] => 2 ^ 64 - 1 | _ => 0 end.

(** [remove(0)]; the length of an empty vector would wrap around and the shift
    run over all of memory. *)
Definition vec_remove (position : Z) (l : list Z) : result (list Z) :=
  if negb (position =? 0) then Fault
  else match l with
  | [] => Fault
  | [x] => Ret []
  | _ => Ret (let l := removelast l in match rev l with z :: _ => tail l ++ [z] | [] => [] end)
  end.

Section Code.
(** The registers of a thread object before they are written. *)
Context (junk : registers_t).

(** ** Threads and processes *)

Definition new_thread : M Z :=
  p ← alloc 0x100;
  _ ← modify (fun s => set_threads (<[p := mkThread 1 INITIAL_STATE 0 junk 0 DEFAULT_TIMESLICE]> (threads s)) s);
  ret p.

Definition set_entry (addr args stack : Z) (r : registers_t) : registers_t :=
  mkRegs (r15 r) (r14 r) (r13 r) (r12 r) (r11 r) (r10 r) (r9 r) (r8 r) (rbp r) args (rsi r) (rdx r)
    (rcx r) (rbx r) (rax r) (int_no r) (error_code r) addr 0x28 0x202 (stack +64 STACK_SIZE) 0x30.

Definition allocThread (addr args : Z) : M Z :=
  _ ← take thread_lock set_thread_lock;
  thread ← new_thread;
  stack ← alloc STACK_SIZE;
  _ ← upd_thread thread (fun t =>
        mkThread (TID t) INITIAL_STATE stack (set_entry addr args stack (thread_regs t)) 0 (sliceOfTime t));
  _ ← release set_thread_lock;
  ret thread.

Definition createThread (addr args parent : Z) : M Z :=
  thread ← allocThread addr args;
  _ ← (if parent =? 0 then ret tt else
         p ← get_proc parent;
         _ ← upd_proc parent (set_nextTID (s32 (nextTID p + 1)));
         _ ← upd_thread thread (fun t => set_parent_proc parent (set_TID (nextTID p) t));
         upd_proc parent (fun p => set_threadsVec (threadsVec p ++ [thread]) p));
  _ ← modify (fun s => set_thread_count (thread_count s +64 1) s);
  _ ← take thread_lock set_thread_lock;
  _ ← upd_thread thread (set_tstate READY);
  _ ← release set_thread_lock;
  ret thread.

(** [name] is the string's characters; 128 of them are kept. *)
Definition allocProc (name : list Z) (addr args : Z) : M Z :=
  proc ← alloc 0x100;
  _ ← take proc_lock set_proc_lock;
  pid ← get next_pid;
  _ ← modify (set_next_pid (pid +64 1));
  pagemap ← alloc 0x10;
  _ ← modify (fun s => set_procs (<[proc :=
        mkProcess (firstn 128 name) (s32 pid) 1 INITIAL_STATE pagemap [] [] 0]> (procs s)) s);
  _ ← (if addr =? 0 then ret tt else _ ← createThread addr args proc; ret tt);
  i ← get isInit;
  _ ← (if (i : bool) then ret tt else _ ← modify (set_initproc proc); modify (set_isInit true));
  _ ← release set_proc_lock;
  ret proc.

Definition createProc (name : list Z) (addr args : Z) : M Z :=
  proc ← allocProc name addr args;
  _ ← modify (fun s => set_proc_table (proc_table s ++ [proc]) s);
  _ ← modify (fun s => set_proc_count (proc_count s +64 1) s);
  _ ← take proc_lock set_proc_lock;
  _ ← upd_proc proc (set_pstate READY);
  _ ← release set_proc_lock;
  ret proc.

Definition this_thread : M Z := _ ← cli; t ← get currentThread; _ ← sti; ret t.
Definition this_proc : M Z := _ ← cli; p ← get currentProcess; _ ← sti; ret p.

Definition getPID : M Z := p ← this_proc; p ← get_proc p; ret (PID p).
Definition getTID : M Z := t ← this_thread; t ← get_thread t; ret (TID t).

Definition _yield (ms : Z) : M unit := fun s =>
  if apicInit s then Ret (tt, set_oneshots (oneshots s ++ [(sched_vector s, ms)]) s)
  else
    f ← Pit.MS_TO_PIT ms;
    '(p, h) ← Pit.setFrequence f (pit s) (ports s);
    Ret (tt, set_ports h (set_pit p s)).

(** ** Blocking *)

Definition runnable (x : state_t) : bool := is_state x READY || is_state x RUNNING.

Definition blockThread : M unit :=
  _ ← cli;
  t ← this_thread;
  th ← get_thread t;
  _ ← (if runnable (tstate th) then upd_thread t (set_tstate BLOCKED) else ret tt);
  _ ← sti;
  _yield 1.

(** The state tested is the current thread's. *)
Definition blockThread_other (thread : Z) : M unit :=
  _ ← cli;
  t ← this_thread;
  th ← get_thread t;
  _ ← (if runnable (tstate th) then upd_thread thread (set_tstate BLOCKED) else ret tt);
  sti.

Definition blockProc : M unit :=
  _ ← cli;
  p ← this_proc;
  i ← get initproc;
  if p =? i then sti
  else
    pr ← get_proc p;
    _ ← (if runnable (pstate pr) then upd_proc p (set_pstate BLOCKED) else ret tt);
    _ ← sti;
    _yield 1.

Definition blockProc_other (proc : Z) : M unit :=
  _ ← cli;
  p ← this_proc;
  pr ← get_proc p;
  _ ← (if runnable (pstate pr) then upd_proc proc (set_pstate BLOCKED) else ret tt);
  sti.

Definition thread_unblock (thread : Z) : M unit :=
  _ ← cli;
  th ← get_thread thread;
  _ ← (if is_state (tstate th) BLOCKED then upd_thread thread (set_tstate READY) else ret tt);
  sti.

Definition proc_unblock (proc : Z) : M unit :=
  _ ← cli;
  pr ← get_proc proc;
  _ ← (if is_state (pstate pr) BLOCKED then upd_proc proc (set_pstate READY) else ret tt);
  sti.

(** Up to the [hlt] loop. *)
Definition exitThread : M unit :=
  _ ← cli;
  p ← this_proc;
  i ← get initproc;
  pr ← get_proc p;
  if (p =? i) && (Z.of_nat (length (threadsVec pr)) =? 1) && (Z.of_nat (length (children pr)) =? 0)
  then ret tt
  else
    t ← this_thread;
    _ ← upd_thread t (set_tstate KILLED);
    _ ← sti;
    _yield 1.

Definition exitProc : M unit :=
  _ ← cli;
  p ← this_proc;
  i ← get initproc;
  if p =? i then ret tt
  else
    _ ← upd_proc p (set_pstate KILLED);
    _ ← sti;
    _yield 1.

(** ** Cleaning up *)

Definition free_thread (t : Z) : M unit := modify (fun s => set_threads (delete t (threads s)) s).
Definition free_proc (p : Z) : M unit := modify (fun s => set_procs (delete p (procs s)) s).
Definition diverge {A} : M A := fun _ => Diverge.

(** [thread = threadsVec[i]; threadsVec.remove(threadsVec.find(thread));
    free(thread->thread_stack); free(thread); thread_count--] *)
Definition reap (p thread : Z) : M unit :=
  pr ← get_proc p;
  l ← lift (vec_remove (vec_find (threadsVec pr) thread) (threadsVec pr));
  _ ← upd_proc p (set_threadsVec l);
  _ ← get_thread thread;
  _ ← free_thread thread;
  modify (fun s => set_thread_count (thread_count s -64 1) s).

(** The loops over [threadsVec]: of a killed process, and of a live one. *)
Fixpoint reap_all (fuel : nat) (p : Z) (i : nat) : M unit :=
  match fuel with
  | O => diverge
  | S fuel =>
      pr ← get_proc p;
      match threadsVec pr !! i with
      | None => ret tt
      | Some thread => _ ← reap p thread; reap_all fuel p (S i)
      end
  end.

Fixpoint reap_killed (fuel : nat) (p : Z) (i : nat) : M unit :=
  match fuel with
  | O => diverge
  | S fuel =>
      pr ← get_proc p;
      match threadsVec pr !! i with
      | None => ret tt
      | Some thread =>
          th ← get_thread thread;
          _ ← (if is_state (tstate th) KILLED then reap p thread else ret tt);
          reap_killed fuel p (S i)
      end
  end.

Fixpoint clean_children (fuel : nat) (clean_proc : Z -> M unit) (p : Z) (i : nat) : M unit :=
  match fuel with
  | O => diverge
  | S fuel =>
      pr ← get_proc p;
      match children pr !! i with
      | None => ret tt
      | Some childproc =>
          _ ← upd_proc childproc (set_pstate KILLED);
          _ ← clean_proc childproc;
          clean_children fuel clean_proc p (S i)
      end
  end.

Definition orphan_check (clean_proc : Z -> M unit) (proc : Z) : M unit :=
  pr ← get_proc proc;
  if negb (parent pr =? 0) then
    pp ← get_proc (parent pr);
    l ← lift (vec_remove (vec_find (children pp) proc) (children pp));
    _ ← upd_proc (parent pr) (set_children l);
    if (Z.of_nat (length l) =? 0) && (Z.of_nat (length (threadsVec pr)) =? 0) then
      _ ← upd_proc (parent pr) (set_pstate KILLED);
      clean_proc (parent pr)
    else ret tt
  else ret tt.

Fixpoint clean_proc (fuel : nat) (proc : Z) : M unit :=
  match fuel with
  | O => diverge
  | S fuel =>
      if proc =? 0 then ret tt else
      pr ← get_proc proc;
      if is_state (pstate pr) KILLED then
        _ ← clean_children fuel (clean_proc fuel) proc 0;
        _ ← reap_all fuel proc 0;
        _ ← orphan_check (clean_proc fuel) proc;
        _ ← get_proc proc;
        _ ← free_proc proc;
        modify (fun s => set_proc_count (proc_count s -64 1) s)
      else
        _ ← reap_killed fuel proc 0;
        pr ← get_proc proc;
        if (Z.of_nat (length (children pr)) =? 0) && (Z.of_nat (length (threadsVec pr)) =? 0) then
          _ ← upd_proc proc (set_pstate KILLED);
          clean_proc fuel proc
        else ret tt
  end.

(** ** The switch *)

(** The first ready thread of a list. *)
Fixpoint find_ready (l : list Z) : M (option Z) :=
  match l with
  | [] => ret None
  | t :: l => th ← get_thread t; if is_state (tstate th) READY then ret (Some t) else find_ready l
  end.

(** The scan when nothing runs: processes that are not ready are cleaned. *)
Fixpoint scan_clean (fuel : nat) (l : list Z) : M (option (Z * Z)) :=
  match l with
  | [] => ret None
  | p :: l =>
      pr ← get_proc p;
      if negb (is_state (pstate pr) READY) then _ ← clean_proc fuel p; scan_clean fuel l
      else
        r ← find_ready (threadsVec pr);
        match (r : option Z) with Some t => ret (Some (p, t)) | None => scan_clean fuel l end
  end.

Fixpoint scan (l : list Z) : M (option (Z * Z)) :=
  match l with
  | [] => ret None
  | p :: l =>
      pr ← get_proc p;
      if negb (is_state (pstate pr) READY) then scan l
      else
        r ← find_ready (threadsVec pr);
        match (r : option Z) with Some t => ret (Some (p, t)) | None => scan l end
  end.

(** [v[find(x) + 1 ..]] *)
Definition after (l : list Z) (x : Z) : list Z := drop (Z.to_nat (vec_find l x +64 1)) l.

(** The next thread, after the interrupted one: of its own process, of a later
    process. *)
Definition next (fuel : nat) (p t : Z) : M (option (Z * Z)) :=
  pr ← get_proc p;
  own ← (if is_state (pstate pr) READY then find_ready (after (threadsVec pr) t) else ret None);
  match (own : option Z) with
  | Some t => ret (Some (p, t))
  | None =>
      table ← get proc_table;
      r ← scan (after table p);
      match (r : option (Z * Z)) with
      | Some pt => _ ← clean_proc fuel p; ret (Some pt)
      | None => ret None
      end
  end.

(** [thisCPU] gets the process and the thread, which runs; its registers. *)
Definition dispatch (p t : Z) : M (Z * registers_t) :=
  _ ← modify (set_currentProcess p);
  _ ← modify (set_currentThread t);
  th ← get_thread t;
  _ ← upd_thread t (set_tstate RUNNING);
  pr ← get_proc p;
  _ ← modify (set_cr3 (pagemap pr));
  _ ← release set_sched_lock;
  ret (sliceOfTime th, thread_regs th).

(** The address of [idle] in the image is a parameter. *)
Context (idle : Z).

Definition run_idle (fuel : nat) : M registers_t :=
  p ← this_proc;
  _ ← clean_proc fuel p;
  i ← get idleP;
  _ ← (if i =? 0 then
         i ← allocProc [73; 100; 108; 101] idle 0;
         _ ← modify (set_idleP i);
         modify (fun s => set_thread_count (thread_count s -64 1) s)
       else ret tt);
  i ← get idleP;
  pr ← get_proc i;
  t ← lift (match threadsVec pr with t :: _ => Ret t | [] => Fault end);
  '(_, regs) ← dispatch i t;
  _ ← _yield 1;
  ret regs.

Definition switchTask (fuel : nat) (regs : registers_t) : M registers_t :=
  i ← get isInit;
  if negb (i : bool) then ret regs else
  _ ← take sched_lock set_sched_lock;
  p ← this_proc;
  t ← this_thread;
  r ← (if (p =? 0) || (t =? 0) then
         table ← get proc_table;
         scan_clean fuel table
       else
         _ ← upd_thread t (set_thread_regs regs);
         _ ← upd_thread t (fun th => if is_state (tstate th) RUNNING then set_tstate READY th else th);
         next fuel p t);
  match (r : option (Z * Z)) with
  | Some (p, t) => '(timeslice, regs) ← dispatch p t; _ ← _yield timeslice; ret regs
  | None => run_idle fuel
  end.

(** [init]: with the local APIC, the vector that [idt::allocVector] gives (a
    parameter) once; otherwise the PIT calls the scheduler. *)
Definition init (allocVector : Z) : M unit := fun s =>
  if apicInit s then
    Ret (tt, if sched_vector s =? 0 then set_sched_vector allocVector s else s)
  else Ret (tt, set_pit (Pit.with_scheduling (pit s)) s).

End Code.

(** * What the code does, on the maps *)

(** [p] is alive: it and its threads exist, none was killed, and it has one. *)
Definition live (s : st) (p : Z) : Prop :=
  exists pr, procs s !! p = Some pr /\ pstate pr <> KILLED /\ threadsVec pr <> [] /\
    Forall (fun t => exists th, threads s !! t = Some th /\ tstate th <> KILLED) (threadsVec pr).

Definition ready (s : st) (t : Z) : bool :=
  match threads s !! t with Some th => is_state (tstate th) READY | None => false end.

Fixpoint first_ready (s : st) (l : list Z) : option Z :=
  match l with [] => None | t :: l => if ready s t then Some t else first_ready s l end.

(** The first ready thread of the first ready process that has one. *)
Fixpoint first_proc (s : st) (l : list Z) : option (Z * Z) :=
  match l with
  | [] => None
  | p :: l =>
      match procs s !! p with
      | Some pr =>
          if is_state (pstate pr) READY then
            match first_ready s (threadsVec pr) with Some t => Some (p, t) | None => first_proc s l end
          else first_proc s l
      | None => first_proc s l
      end
  end.

(** What [next] chooses: [find(...) + 1] is 1, so the scans of the own threads
    and of the process table both start at their second element. *)
Definition pick (s : st) (p : Z) : option (Z * Z) :=
  match procs s !! p with
  | Some pr =>
      match (if is_state (pstate pr) READY then first_ready s (drop 1 (threadsVec pr)) else None) with
      | Some t => Some (p, t)
      | None => first_proc s (drop 1 (proc_table s))
      end
  | None => None
  end.

(** The interrupted thread keeps its registers and is ready again. *)
Definition preempt (regs : registers_t) (th : thread_t) : thread_t :=
  let th := set_thread_regs regs th in
  if is_state (tstate th) RUNNING then set_tstate READY th else th.

Definition interrupted (regs : registers_t) (s : st) : st :=
  match threads s !! currentThread s with
  | Some th => set_threads (<[currentThread s := preempt regs th]> (threads s)) s
  | None => s
  end.

(** The state after the switch to thread [t], that is [th], of [p], that is
    [pr], with the one-shot timer set. *)
Definition switched (p t : Z) (th : thread_t) (pr : process_t) (slice : Z) (s : st) : st :=
  set_oneshots (oneshots s ++ [(sched_vector s, slice)])
    (set_sched_lock false (set_cr3 (pagemap pr)
      (set_threads (<[t := set_tstate RUNNING th]> (threads s))
        (set_currentThread t (set_currentProcess p (set_IF true s)))))).

(** Unfolds the code's operations on the state and runs them. *)
Ltac run_code :=
  cbn; repeat (progress unfold upd_thread, upd_proc, get_thread, get_proc, release, take, modify, lift, get, ret,
    alloc, cli, sti, this_thread, this_proc, mbind, M_bind, result_bind, spin_lock; cbn).

(** Looks the known objects up. *)
Ltac look_up :=
  repeat (match goal with H : ?m !! ?k = Some _ |- context [?m !! ?k] => rewrite H end; cbn).

Lemma is_state_true a b : is_state a b = true <-> a = b.
Proof. apply bool_decide_eq_true. Qed.

Lemma is_state_false a b : is_state a b = false <-> a <> b.
Proof. apply bool_decide_eq_false. Qed.

Lemma find_ready_spec l s :
  Forall (fun t => is_Some (threads s !! t)) l -> find_ready l s = Ret (first_ready s l, s).
Proof.
  induction 1 as [|t l [th Ht] _ IH]; [done|]. cbn [find_ready first_ready]. unfold ready.
  unfold mbind, M_bind, get_thread. rewrite Ht. by destruct (is_state (tstate th) READY).
Qed.

Lemma live_threads s p pr :
  live s p -> procs s !! p = Some pr -> Forall (fun t => is_Some (threads s !! t)) (threadsVec pr).
Proof.
  intros (pr' & Hp & _ & _ & Hf) Hp'. simplify_eq. eapply Forall_impl; [exact Hf|].
  intros t (th & Ht & _). eauto.
Qed.

Lemma scan_finds l s : Forall (live s) l -> scan l s = Ret (first_proc s l, s).
Proof.
  induction 1 as [|p l Hp _ IH]; [done|]. cbn [scan first_proc].
  pose proof Hp as (pr & Hpr & _). unfold mbind, M_bind, get_proc. rewrite Hpr.
  destruct (is_state (pstate pr) READY); cbn [negb]; [|done].
  rewrite find_ready_spec by (by eapply live_threads). by destruct (first_ready s (threadsVec pr)).
Qed.

(** Fuel for the loops over the threads of any process. *)
Definition enough (fuel : nat) (s : st) : Prop :=
  forall p pr, procs s !! p = Some pr -> (length (threadsVec pr) + 2 <= fuel)%nat.

Lemma reap_killed_none fuel p pr i s :
  live s p -> procs s !! p = Some pr -> (length (threadsVec pr) - i < fuel)%nat ->
  reap_killed fuel p i s = Ret (tt, s).
Proof.
  intros (pr' & Hp' & _ & _ & Hf) Hp. rewrite Hp in Hp'. injection Hp' as <-. revert i.
  induction fuel as [|fuel IH]; intros i Hlen; [lia|].
  cbn [reap_killed]; unfold mbind, M_bind, get_proc; rewrite Hp.
  destruct (threadsVec pr !! i) as [t|] eqn:Hi; [|done].
  pose proof (lookup_lt_Some _ _ _ Hi).
  apply (Forall_lookup_1 _ _ _ _ Hf) in Hi as (th & Ht & Hk).
  unfold get_thread. rewrite Ht. apply is_state_false in Hk as ->. cbn. apply IH. lia.
Qed.

Lemma clean_proc_live fuel p s : live s p -> enough fuel s -> clean_proc fuel p s = Ret (tt, s).
Proof.
  intros Hl He. pose proof Hl as (pr & Hp & Hk & Hn & _). specialize (He p pr Hp).
  destruct fuel as [|fuel]; [lia|]. cbn [clean_proc].
  destruct (p =? 0); [done|]. unfold mbind, M_bind. unfold get_proc at 1. rewrite Hp.
  apply is_state_false in Hk as ->. rewrite (reap_killed_none _ _ pr) by (done || lia).
  unfold get_proc. rewrite Hp. destruct (threadsVec pr) as [|x l] eqn:E; [done|]. cbn [length].
  replace (Z.of_nat (S (length l)) =? 0) with false by (symmetry; apply Z.eqb_neq; lia).
  by rewrite andb_false_r.
Qed.

Lemma next_spec fuel p t pr s :
  procs s !! p = Some pr -> live s p -> Forall (live s) (proc_table s) -> proc_table s <> [] ->
  enough fuel s -> next fuel p t s = Ret (pick s p, s).
Proof.
  intros Hp Hl Hall Hne He. unfold next, pick, mbind, M_bind. unfold get_proc at 1. rewrite Hp.
  pose proof (live_threads s p pr Hl Hp) as Hth.
  assert (Ha : after (threadsVec pr) t = drop 1 (threadsVec pr)).
  { unfold after, vec_find. destruct Hl as (pr' & Hp' & _ & Hn & _). simplify_eq. by destruct (threadsVec pr). }
  assert (Hb : after (proc_table s) p = drop 1 (proc_table s)).
  { unfold after, vec_find. destruct (proc_table s); done. }
  rewrite Ha.
  assert (H1 : (if is_state (pstate pr) READY then find_ready (drop 1 (threadsVec pr)) else ret None) s =
    Ret (if is_state (pstate pr) READY then first_ready s (drop 1 (threadsVec pr)) else None, s)).
  { case_match; [|done]. apply find_ready_spec. by apply Forall_drop. }
  rewrite H1. destruct (if is_state (pstate pr) READY then first_ready s (drop 1 (threadsVec pr)) else None);
    [done|]. unfold get. rewrite Hb, scan_finds by (by apply Forall_drop).
  destruct (first_proc s (drop 1 (proc_table s))) as [pt|]; [|done].
  by rewrite clean_proc_live.
Qed.

(** The state between interrupts: locks free, the current thread one of a live
    current process, all processes live, the idle process made, the timer the
    local APIC's. *)
Record wf (s : st) : Prop := {
  wf_init : isInit s = true;
  wf_locks : sched_lock s = false;
  wf_apic : apicInit s = true;
  wf_table : Forall (live s) (proc_table s);
  wf_some : proc_table s <> [];
  wf_null : procs s !! 0 = None /\ threads s !! 0 = None;
  wf_idle : live s (idleP s);
  wf_current : live s (currentProcess s) /\ is_Some (threads s !! currentThread s);
}.

Lemma live_not_null s p : procs s !! 0 = None -> live s p -> p <> 0.
Proof. intros H (pr & Hp & _) ->. congruence. Qed.

Lemma preempt_state regs th : tstate th <> KILLED -> tstate (preempt regs th) <> KILLED.
Proof. unfold preempt. by case_match. Qed.

(** Updates of the threads that keep their number alive keep processes live. *)
Lemma live_update s s' p :
  procs s' = procs s ->
  (forall t th, threads s !! t = Some th -> tstate th <> KILLED ->
     exists th', threads s' !! t = Some th' /\ tstate th' <> KILLED) ->
  live s p -> live s' p.
Proof.
  intros Hp Ht (pr & Hpr & Hk & Hn & Hf). exists pr. rewrite Hp. split_and!; [done..|].
  eapply Forall_impl; [exact Hf|]. intros t (th & Hth & Hs). eauto.
Qed.

Lemma live_insert s s' t th p :
  procs s' = procs s -> threads s' = <[t := th]> (threads s) -> tstate th <> KILLED -> live s p -> live s' p.
Proof.
  intros Hp Ht Hk. apply live_update; [done|]. intros t' th' Ht' Hk'. rewrite Ht.
  destruct (decide (t = t')) as [->|]; [exists th; by rewrite lookup_insert_eq|exists th'; by rewrite lookup_insert_ne].
Qed.

Lemma elem_of_drop {A} n (l : list A) x : x ∈ drop n l -> x ∈ l.
Proof. intros H. rewrite <- (take_drop n l). apply elem_of_app. by right. Qed.

Lemma first_ready_Some s l t :
  first_ready s l = Some t -> t ∈ l /\ exists th, threads s !! t = Some th /\ tstate th = READY.
Proof.
  induction l as [|x l IH]; [done|]. cbn [first_ready]. unfold ready.
  destruct (threads s !! x) as [th|] eqn:Hx.
  - destruct (is_state (tstate th) READY) eqn:Hr; [|intros H; apply IH in H as [? ?]; split; [by right|done]].
    intros [= ->]. split; [by left|]. exists th. split; [done|]. by apply is_state_true.
  - intros H. apply IH in H as [? ?]. split; [by right|done].
Qed.

Lemma first_proc_Some s l p t :
  first_proc s l = Some (p, t) ->
  p ∈ l /\ exists pr, procs s !! p = Some pr /\ pstate pr = READY /\ first_ready s (threadsVec pr) = Some t.
Proof.
  induction l as [|x l IH]; [done|]. cbn [first_proc]. intros H.
  assert (Hrec : first_proc s l = Some (p, t) -> p ∈ x :: l /\ exists pr, procs s !! p = Some pr /\
    pstate pr = READY /\ first_ready s (threadsVec pr) = Some t)
    by (intros Hl; apply IH in Hl as [? ?]; split; [by right|done]).
  destruct (procs s !! x) as [pr|] eqn:Hx; [|auto].
  destruct (is_state (pstate pr) READY) eqn:Hr; [|auto].
  destruct (first_ready s (threadsVec pr)) as [t'|] eqn:Ht; [|auto].
  injection H as -> ->. split; [by left|]. exists pr. split; [done|]. split; [by apply is_state_true|done].
Qed.

(** A choice is a ready thread of a ready process, the current one or one
    behind the first of the table. *)
Lemma pick_Some s q p t :
  pick s q = Some (p, t) ->
  (p = q \/ p ∈ drop 1 (proc_table s)) /\
  exists pr th, procs s !! p = Some pr /\ pstate pr = READY /\ t ∈ threadsVec pr /\
    threads s !! t = Some th /\ tstate th = READY.
Proof.
  unfold pick. destruct (procs s !! q) as [pr|] eqn:Hq; [|done]. intros H.
  destruct (if is_state (pstate pr) READY then _ else None) as [t'|] eqn:Ht.
  - destruct (is_state (pstate pr) READY) eqn:Hr; [|done]. injection H as -> ->. split; [by left|].
    apply first_ready_Some in Ht as [Hin (th & Hth & Hs)]. exists pr, th. split_and!; [done| | |done..].
    + by apply is_state_true.
    + by eapply elem_of_drop.
  - apply first_proc_Some in H as [Hin (pr' & Hp & Hr & Hf)]. split; [by right|].
    apply first_ready_Some in Hf as [Ht' (th & Hth & Hs)]. exists pr', th. by split_and!.
Qed.

Lemma dispatch_spec p t th pr s :
  threads s !! t = Some th -> procs s !! p = Some pr ->
  dispatch p t s = Ret ((sliceOfTime th, thread_regs th),
    set_sched_lock false (set_cr3 (pagemap pr)
      (set_threads (<[t := set_tstate RUNNING th]> (threads s)) (set_currentThread t (set_currentProcess p s))))).
Proof.
  intros Ht Hp. unfold dispatch. run_code. look_up. done.
Qed.

Lemma yield_apic ms s : apicInit s = true -> _yield ms s = Ret (tt, set_oneshots (oneshots s ++ [(sched_vector s, ms)]) s).
Proof. intros H. unfold _yield. by rewrite H. Qed.

Lemma interrupted_live regs s p : live s p -> live (interrupted regs s) p.
Proof.
  intros Hl. unfold interrupted. destruct (threads s !! currentThread s) as [th|] eqn:Ht; [|done].
  eapply live_update; [| |exact Hl]; [done|]. intros t th' Ht' Hk. cbn.
  destruct (decide (currentThread s = t)) as [<-|].
  - exists (preempt regs th). rewrite lookup_insert_eq. simplify_eq. split; [done|]. by apply preempt_state.
  - exists th'. by rewrite lookup_insert_ne.
Qed.

(** The beginning of [switchTask], up to the choice, when a thread runs. *)
Lemma switchTask_begin junk idle fuel regs s :
  isInit s = true -> sched_lock s = false -> threads s !! 0 = None ->
  currentProcess s <> 0 -> is_Some (threads s !! currentThread s) ->
  switchTask junk idle fuel regs s =
    let s1 := set_IF true (set_sched_lock true (interrupted regs s)) in
    match next fuel (currentProcess s) (currentThread s) s1 with
    | Ret (Some (p, t), s2) =>
        match dispatch p t s2 with
        | Ret ((timeslice, regs), s3) => match _yield timeslice s3 with
                                         | Ret (_, s4) => Ret (regs, s4) | Fault => Fault | Diverge => Diverge end
        | Fault => Fault | Diverge => Diverge end
    | Ret (None, s2) => run_idle junk idle fuel s2
    | Fault => Fault | Diverge => Diverge end.
Proof.
  intros Hi Hl Hn2 Hp [th Hth].
  assert (Ht : currentThread s <> 0) by congruence.
  unfold switchTask, interrupted. rewrite Hth. cbv zeta. run_code. rewrite Hi. cbn. rewrite Hl. cbn.
  destruct (Z.eqb_spec (currentProcess s) 0); [done|]. destruct (Z.eqb_spec (currentThread s) 0); [done|]. cbn.
  look_up. rewrite lookup_insert_eq. cbn. rewrite insert_insert_eq.
  match goal with |- match next _ _ _ ?a with _ => _ end = match next _ _ _ ?b with _ => _ end =>
    replace a with b by (destruct s; reflexivity) end.
  destruct (next _ _ _ _) as [[[[p t]|] s2]| |]; [|done..].
  by destruct (dispatch p t s2) as [[[? ?] ?]| |].
Qed.

Lemma switchTask_start junk idle fuel regs s :
  isInit s = true -> sched_lock s = false -> procs s !! 0 = None /\ threads s !! 0 = None ->
  live s (currentProcess s) /\ is_Some (threads s !! currentThread s) ->
  switchTask junk idle fuel regs s =
    let s1 := set_IF true (set_sched_lock true (interrupted regs s)) in
    match next fuel (currentProcess s) (currentThread s) s1 with
    | Ret (Some (p, t), s2) =>
        match dispatch p t s2 with
        | Ret ((timeslice, regs), s3) => match _yield timeslice s3 with
                                         | Ret (_, s4) => Ret (regs, s4) | Fault => Fault | Diverge => Diverge end
        | Fault => Fault | Diverge => Diverge end
    | Ret (None, s2) => run_idle junk idle fuel s2
    | Fault => Fault | Diverge => Diverge end.
Proof. intros Hi Hl [Hn1 Hn2] (Hpl & Hth). apply switchTask_begin; [done..| |done]. by apply (live_not_null s). Qed.

Lemma first_ready_ext s s' l : threads s' = threads s -> first_ready s' l = first_ready s l.
Proof. intros H. induction l as [|t l IH]; [done|]. cbn [first_ready]. unfold ready. by rewrite H, IH. Qed.

Lemma first_proc_ext s s' l : threads s' = threads s -> procs s' = procs s -> first_proc s' l = first_proc s l.
Proof.
  intros Ht Hp. induction l as [|q l IH]; [done|]. cbn [first_proc]. rewrite Hp.
  destruct (procs s !! q); [|done]. by rewrite (first_ready_ext s s'), IH.
Qed.

Lemma pick_ext s s' p :
  threads s' = threads s -> procs s' = procs s -> proc_table s' = proc_table s -> pick s' p = pick s p.
Proof.
  intros Ht Hp Hl. unfold pick. rewrite Hp, Hl. destruct (procs s !! p) as [pr|]; [|done].
  by rewrite (first_ready_ext s s'), (first_proc_ext s s').
Qed.

(** The thread the idle process runs. *)
Definition idle_thread (s : st) (p t : Z) : Prop :=
  p = idleP s /\ exists pr, procs s !! p = Some pr /\ head (threadsVec pr) = Some t.

(** Cleaning what is not there or alive does nothing. *)
Lemma clean_proc_current fuel p s :
  enough fuel s -> (exists q pr, procs s !! q = Some pr) -> p = 0 \/ live s p -> clean_proc fuel p s = Ret (tt, s).
Proof.
  intros He (q & pr & Hq) [->|Hl]; [|by apply clean_proc_live]. specialize (He q pr Hq). by destruct fuel as [|fuel]; [lia|].
Qed.

Lemma run_idle_spec junk idle fuel s :
  apicInit s = true -> currentProcess s = 0 \/ live s (currentProcess s) -> idleP s <> 0 -> live s (idleP s) -> enough fuel s ->
  exists t th pr, procs s !! idleP s = Some pr /\ head (threadsVec pr) = Some t /\ threads s !! t = Some th /\
    run_idle junk idle fuel s = Ret (thread_regs th, switched (idleP s) t th pr 1 s).
Proof.
  intros Ha Hc Hi Hl He. pose proof Hl as (pr & Hp & _ & Hn & Hf).
  destruct (threadsVec pr) as [|t l] eqn:Ev; [done|]. apply Forall_cons in Hf as [(th & Hth & _) _].
  exists t, th, pr. rewrite Ev. split_and!; [done..|]. unfold run_idle. run_code.
  rewrite clean_proc_current; [|exact He|by eexists _, _|destruct Hc as [|Hc]; [by left|right]; exact Hc].
  cbn. destruct (Z.eqb_spec (idleP s) 0); [done|]. cbn. look_up. rewrite Ev. cbn.
  rewrite (dispatch_spec _ _ th pr) by done. cbn. rewrite yield_apic by done. cbn. by destruct s.
Qed.

Lemma switchTask_spec junk idle fuel regs s (Hw : wf s) (He : enough fuel s) :
  exists p t th pr slice,
    let s1 := interrupted regs s in
    (pick s1 (currentProcess s) = Some (p, t) /\ slice = sliceOfTime th \/
     pick s1 (currentProcess s) = None /\ idle_thread s1 p t /\ slice = 1) /\
    threads s1 !! t = Some th /\ procs s1 !! p = Some pr /\
    switchTask junk idle fuel regs s = Ret (thread_regs th, switched p t th pr slice s1).
Proof.
  rewrite switchTask_start by apply Hw. cbv zeta. destruct Hw as [Hi Hl Ha Htab Hsome [Hn1 Hn2] Hidl (Hpl & [th0 Hth0])].
  assert (Hlive : forall p, live s p -> live (set_IF true (set_sched_lock true (interrupted regs s))) p).
  { intros p Hlp. eapply live_update; [| |by eapply interrupted_live]; [done|]. eauto. }
  assert (Hk : procs (interrupted regs s) = procs s /\ proc_table (interrupted regs s) = proc_table s /\
    currentProcess (interrupted regs s) = currentProcess s /\ idleP (interrupted regs s) = idleP s /\
    apicInit (interrupted regs s) = apicInit s) by (unfold interrupted; by rewrite Hth0).
  destruct Hk as (Hkp & Hkt & Hkc & Hki & Hka).
  pose proof Hpl as (pr0 & Hpr0 & _).
  rewrite (next_spec _ _ _ pr0).
  2: { cbn. by rewrite Hkp. } 2: { by apply Hlive. }
  2: { cbn. rewrite Hkt. eapply Forall_impl; [exact Htab|]. apply Hlive. }
  2: { cbn. by rewrite Hkt. } 2: { unfold enough. cbn. by rewrite Hkp. }
  rewrite (pick_ext (interrupted regs s) (set_IF true (set_sched_lock true (interrupted regs s)))) by done.
  destruct (pick (interrupted regs s) (currentProcess s)) as [[p t]|] eqn:Epick.
  - destruct (pick_Some _ _ _ _ Epick) as (_ & pr & th & Hpr & _ & _ & Hth & _).
    exists p, t, th, pr, (sliceOfTime th). split; [by left|]. split; [done|]. split; [done|].
    rewrite (dispatch_spec _ _ th pr) by done. cbn [sliceOfTime thread_regs].
    rewrite yield_apic by (cbn; by rewrite Hka). by destruct (interrupted regs s).
  - destruct (run_idle_spec junk idle fuel (set_IF true (set_sched_lock true (interrupted regs s))))
      as (t & th & pr & Hpr & Hhd & Hth & ->); cbn.
    + by rewrite Hka. + rewrite Hkc. right. by apply Hlive.
    + rewrite Hki. by apply (live_not_null s). + rewrite Hki. by apply Hlive.
    + unfold enough. cbn. by rewrite Hkp.
    + exists (idleP s), t, th, pr, 1. cbn in *. rewrite Hki in *. split; [right; split; [done|]; split; [|done]|].
      { split; [done|]. eauto. }
      split; [done|]. split; [done|]. by destruct (interrupted regs s).
Qed.

Lemma switched_wf s p t th pr slice :
  wf s -> threads s !! t = Some th -> procs s !! p = Some pr -> live s p -> wf (switched p t th pr slice s).
Proof.
  intros [Hi Hl Ha Htab Hsome [Hn1 Hn2] Hidl (Hpl & Hth0)] Ht Hp Hlp.
  assert (Hlive : forall q, live s q -> live (switched p t th pr slice s) q)
    by (intros q; eapply live_insert; [done|done|done]).
  split; cbn; [done..| |done| |by apply Hlive|].
  - eapply Forall_impl; [exact Htab|apply Hlive].
  - split; [done|]. rewrite lookup_insert_ne; [done|congruence].
  - split; [by apply Hlive|]. rewrite lookup_insert_eq. eauto.
Qed.

Lemma interrupted_wf regs s : wf s -> wf (interrupted regs s).
Proof.
  intros Hw. pose proof (interrupted_live regs s) as Hlive. destruct Hw as [Hi Hl Ha Htab Hsome [Hn1 Hn2] Hidl (Hpl & [th Hth])].
  unfold interrupted in *. rewrite Hth in *. split; cbn; [done..| |done| |by apply Hlive|].
  - eapply Forall_impl; [exact Htab|apply Hlive].
  - split; [done|]. rewrite lookup_insert_ne; [done|congruence].
  - split; [by apply Hlive|]. rewrite lookup_insert_eq. eauto.
Qed.

(** A switch keeps the invariant, and its new process is not the first of the
    table unless it is the old or the idle one. *)
Lemma switchTask_wf junk idle fuel regs s :
  wf s -> enough fuel s ->
  exists regs' s', switchTask junk idle fuel regs s = Ret (regs', s') /\ wf s' /\ enough fuel s' /\
    proc_table s' = proc_table s /\ idleP s' = idleP s /\
    (currentProcess s' = currentProcess s \/ currentProcess s' = idleP s \/
     currentProcess s' ∈ drop 1 (proc_table s)).
Proof.
  intros Hw He. destruct (switchTask_spec junk idle fuel regs s Hw He) as (p & t & th & pr & slice & Hpick & Hth & Hpr & ->).
  assert (Hk : procs (interrupted regs s) = procs s /\ proc_table (interrupted regs s) = proc_table s /\
    idleP (interrupted regs s) = idleP s).
  { unfold interrupted. by case_match. }
  destruct Hk as (Hkp & Hkt & Hki). eexists _, _. split; [done|].
  assert (Hor : p = currentProcess s \/ p = idleP s \/ p ∈ drop 1 (proc_table s)).
  { destruct Hpick as [[Hpk _]|(_ & [Hpk _] & _)].
    - apply pick_Some in Hpk as [[?|Hin] _]; [by left|]. rewrite Hkt in Hin. tauto.
    - rewrite Hki in Hpk. tauto. }
  split; [|cbn; split_and!; [unfold enough; cbn; by rewrite Hkp|done|done|done]].
  apply switched_wf; [by apply interrupted_wf|done..|]. apply interrupted_live.
  destruct Hw as [_ _ _ Htab _ _ Hidl (Hpl & _)].
  destruct Hor as [->|[->|Hin]]; [done..|]. rewrite Forall_forall in Htab. eapply Htab, elem_of_drop, Hin.
Qed.

(** Time goes on in timer interrupts and in whatever the running code does in
    between to threads and processes, short of changing the process table and
    the current process itself. *)
Inductive later (junk : registers_t) (idle : Z) (fuel : nat) : st -> st -> Prop :=
| later_refl s : later junk idle fuel s s
| later_switch s s1 regs regs' s2 :
    later junk idle fuel s s1 -> switchTask junk idle fuel regs s1 = Ret (regs', s2) -> later junk idle fuel s s2
| later_code s s1 s2 :
    later junk idle fuel s s1 -> wf s2 -> enough fuel s2 -> proc_table s2 = proc_table s1 ->
    idleP s2 = idleP s1 -> currentProcess s2 = currentProcess s1 -> later junk idle fuel s s2.



(** Addresses from [next_ptr] on are free. *)
Definition fresh (s : st) : Prop :=
  0 < next_ptr s /\ forall q, next_ptr s <= q -> procs s !! q = None /\ threads s !! q = None.

(** Process numbers are below [next_pid] and differ. *)
Definition pids_ok (s : st) : Prop :=
  (forall p pr, procs s !! p = Some pr -> PID pr < next_pid s) /\
  (forall p q pr qr, procs s !! p = Some pr -> procs s !! q = Some qr -> PID pr = PID qr -> p = q).

(** What a new process and its thread hold. *)
Definition created_proc (name : list Z) (pid pagemap t : Z) : process_t :=
  mkProcess (firstn 128 name) pid 2 READY pagemap [t] [] 0.

Definition created_thread (junk : registers_t) (addr args stack p : Z) : thread_t :=
  mkThread 1 READY stack (set_entry addr args stack junk) p DEFAULT_TIMESLICE.

Lemma createProc_run junk name addr args s :
  thread_lock s = false -> proc_lock s = false -> addr <> 0 -> 0 < next_ptr s ->
  let p := next_ptr s in let t := p + 0x100 + 0x10 in let stack := t + 0x100 in
  createProc junk name addr args s = Ret (p,
    mkSt true (next_pid s +64 1) (sched_vector s) (proc_table s ++ [p]) (if isInit s then initproc s else p)
      (proc_count s +64 1) (thread_count s +64 1) false (sched_lock s) false
      (<[t := created_thread junk addr args stack p]> (threads s))
      (<[p := created_proc name (s32 (next_pid s)) (p + 0x100) t]> (procs s))
      (stack + STACK_SIZE) (currentThread s) (currentProcess s) (idleP s) (IF s) (cr3 s) (apicInit s)
      (oneshots s) (pit s) (ports s)).
Proof.
  intros Hl1 Hl2 Ha Hn. destruct s. cbn in Hl1, Hl2, Hn. subst. cbv zeta.
  unfold createProc, allocProc, createThread, allocThread, new_thread. run_code.
  destruct (Z.eqb_spec addr 0); [done|]. run_code.
  destruct (Z.eqb_spec next_ptr0 0); [lia|].
  repeat (rewrite ?lookup_insert_eq, ?insert_insert_eq; run_code).
  destruct isInit0; repeat (rewrite ?lookup_insert_eq, ?insert_insert_eq; run_code); reflexivity.
Qed.

(** C17: [createProc] adds one ready process with one ready thread: it returns a
    fresh address under which the process has the next number, a page map and
    the thread; the thread starts at [addr] with [args], on its own stack; both
    are the only objects that change, the process is the last of the table, and
    the numbers of all processes stay different. *)
Theorem createProc_adds junk name addr args s
    (Hl1 : thread_lock s = false) (Hl2 : proc_lock s = false) (Ha : addr <> 0)
    (Hf : fresh s) (Hp : pids_ok s) (Hb : 0 <= next_pid s < 2 ^ 31 - 1) :
  exists p t stack pagemap s', createProc junk name addr args s = Ret (p, s') /\
    procs s !! p = None /\ threads s !! t = None /\
    procs s' = <[p := created_proc name (next_pid s) pagemap t]> (procs s) /\
    threads s' = <[t := created_thread junk addr args stack p]> (threads s) /\
    proc_table s' = proc_table s ++ [p] /\ initproc s' = (if isInit s then initproc s else p) /\
    isInit s' = true /\ thread_lock s' = false /\ proc_lock s' = false /\
    fresh s' /\ pids_ok s'.
Proof.
  destruct Hf as [Hn Hfree].
  exists (next_ptr s), (next_ptr s + 0x100 + 0x10), (next_ptr s + 0x100 + 0x10 + 0x100), (next_ptr s + 0x100).
  eexists. split; [by apply createProc_run|]. cbn.
  assert (Hs : s32 (next_pid s) = next_pid s).
  { by apply swrap_small; lia. }
  rewrite Hs. split_and!; [apply Hfree; lia|apply Hfree; lia|done..| |].
  - unfold fresh, STACK_SIZE. cbn. split; [lia|]. intros q Hq.
    split; (rewrite lookup_insert_ne; [apply Hfree; lia|lia]).
  - destruct Hp as [Hlt Hinj]. unfold pids_ok. cbn. rewrite wrap_small by lia.
    split.
    + intros q pr. destruct (decide (next_ptr s = q)) as [<-|].
      * rewrite lookup_insert_eq. intros [= <-]. cbn. lia.
      * rewrite lookup_insert_ne by done. intros Hq. apply Hlt in Hq. lia.
    + intros q r pr qr. destruct (decide (next_ptr s = q)) as [<-|], (decide (next_ptr s = r)) as [<-|]; [done| | |].
      * rewrite lookup_insert_eq, lookup_insert_ne by done. intros [= <-] Hr He. apply Hlt in Hr. cbn in He. lia.
      * rewrite lookup_insert_eq, lookup_insert_ne by done. intros Hr [= <-] He. apply Hlt in Hr. cbn in He. lia.
      * rewrite !lookup_insert_ne by done. apply Hinj.
Qed.

(** [blockThread(thread)] looks at the current thread's state: it turns even a
    killed thread into a blocked one, which can be unblocked again. *)
Theorem block_revives_killed thread t th s :
  threads s !! thread = Some t -> tstate t = KILLED ->
  threads s !! currentThread s = Some th -> tstate th = RUNNING -> thread <> currentThread s ->
  exists s', (_ ← blockThread_other thread; thread_unblock thread) s = Ret (tt, s') /\
    threads s' !! thread = Some (set_tstate READY (set_tstate BLOCKED t)).
Proof.
  intros Ht Hk Hc Hr Hne. assert (Hrun : runnable (tstate th) = true) by (by rewrite Hr).
  unfold blockThread_other, thread_unblock. run_code. look_up. rewrite Hrun. run_code. look_up.
  rewrite lookup_insert_eq. run_code. change (is_state BLOCKED BLOCKED) with true. run_code.
  rewrite lookup_insert_eq. eexists. split; [done|]. cbn. by rewrite lookup_insert_eq.
Qed.

(** The early return of [exitThread] leaves the interrupts as [this_proc] set
    them. *)
Example exit_of_init_returns s pr :
  initproc s = currentProcess s -> procs s !! currentProcess s = Some pr ->
  length (threadsVec pr) = 1%nat -> children pr = [] ->
  exitThread s = Ret (tt, set_IF true (set_IF false (set_IF false s))).
Proof. intros Hi Hp Ht Hc. unfold exitThread. run_code. look_up. by rewrite Hi, Z.eqb_refl, Ht, Hc. Qed.

(** ** A concrete machine *)

Definition no_regs : registers_t := mkRegs 0 0 0 0 0 0 0 0 0 0 0 0 0 0 0 0 0 0 0 0 0 0.

Definition empty : st :=
  mkSt false 1 0x20 [] 0 0 0 false false false ∅ ∅ 0x1000 0 0 0 true 0 true [] Pit.initial [].

Lemma createProc_adds_witness :
  exists p s', createProc no_regs [65] 0x400 7 empty = Ret (p, s') /\ proc_table s' = [p] /\ pids_ok s'.
Proof.
  destruct (createProc_adds no_regs [65] 0x400 7 empty) as
    (p & t & stack & pagemap & s' & H1 & _ & _ & _ & _ & H2 & _ & _ & _ & _ & _ & H3).
  - reflexivity.
  - reflexivity.
  - lia.
  - split; [cbn; lia|]. intros q _. split; apply lookup_empty.
  - split; [intros p pr H|intros p q pr qr H]; cbn [procs empty] in H; rewrite lookup_empty in H; discriminate H.
  - cbn. lia.
  - exists p, s'. split; [exact H1|]. split; [exact H2|exact H3].
Defined.

(** Two processes and the idle one: the second process runs, the first is
    ready. *)
Definition demo_thread (s : state_t) (p : Z) : thread_t := mkThread 1 s 0 no_regs p DEFAULT_TIMESLICE.

Definition demo : st :=
  mkSt true 4 0x20 [1; 2] 1 2 2 false false false
    (<[11 := demo_thread READY 1]> (<[12 := demo_thread RUNNING 2]> (<[13 := demo_thread READY 3]> ∅)))
    (<[1 := created_proc [65] 1 0x100 11]> (<[2 := created_proc [66] 2 0x200 12]>
       (<[3 := mkProcess [67] 3 2 INITIAL_STATE 0x300 [13] [] 0]> ∅)))
    0x1000 12 2 3 true 0x200 true [] Pit.initial [].

Lemma sched_demo_wf : wf demo.
Proof.
  split; cbn; try done.
  - repeat (apply Forall_cons; split); [..|by apply Forall_nil];
      (eexists; split; [reflexivity|]; split; [done|]; split; [done|];
       apply Forall_cons; split; [eexists; split; [reflexivity|done]|by apply Forall_nil]).
  - eexists; split; [reflexivity|]; split; [done|]; split; [done|];
      apply Forall_cons; split; [eexists; split; [reflexivity|done]|by apply Forall_nil].
  - split; [|by eexists]. eexists; split; [reflexivity|]; split; [done|]; split; [done|];
      apply Forall_cons; split; [eexists; split; [reflexivity|done]|by apply Forall_nil].
Qed.

Lemma demo_enough : enough 3 demo.
Proof.
  intros p pr Hp. cbn in Hp. rewrite !lookup_insert in Hp.
  repeat case_decide; simplify_eq/=; lia.
Qed.



End Scheduler.
