(* ===== verification/Cores.v ===== *)
(** * The scheduler on several processors

    [switchTask] runs on every processor, with the processor's own record
    ([thisCPU]) and the threads and processes that all share; it holds
    [sched_lock] from its beginning to the switch, so that a switch is one step.
    In between the code on any processor creates, blocks and unblocks processes
    and threads; each is one step here too, although these functions do not take
    [sched_lock] and [createProc]'s and [createThread]'s changes of the vectors
    race with a switch on another processor.  The order of the steps is free. *)

From S2P Require Import Prelude PortIO Pit Scheduler.
#[local] Open Scope Z_scope.
#[local] Open Scope machine_scope.
#[local] Existing Instance result_bind.

Module Cores.
Import Scheduler.

(** The scheduler's part of a processor's record, and the processor's flag,
    page map and timer. *)
Record local : Type := mkLocal {
  thread : Z; process : Z; idle_proc : Z; interrupts : bool; page_map : Z; timer : list (Z * Z);
}.

Record t : Type := mk { shared : st; cores : list local }.

(** The state as the code on a processor sees it. *)
Definition view (c : local) (s : st) : st :=
  set_currentThread (thread c) (set_currentProcess (process c) (set_idleP (idle_proc c)
    (set_IF (interrupts c) (set_cr3 (page_map c) (set_oneshots (timer c) s))))).

Definition local_of (s : st) : local :=
  mkLocal (currentThread s) (currentProcess s) (idleP s) (IF s) (cr3 s) (oneshots s).

Section Machine.
(** The contents of a new object, and the address of [idle]. *)
Context (junk : registers_t) (idle : Z).

(** The timer interrupts what runs on processor [k] with registers [regs]. *)
Definition tick (fuel k : nat) (regs : registers_t) (s : t) : result (registers_t * t) :=
  match cores s !! k with
  | None => Fault
  | Some c =>
      match switchTask junk idle fuel regs (view c (shared s)) with
      | Ret (regs, st) => Ret (regs, mk st (<[k := local_of st]> (cores s)))
      | Fault => Fault
      | Diverge => Diverge
      end
  end.

(** What the code on a processor may ask for besides. *)
Inductive request : Type :=
| BlockThread
| BlockThreadOther (u : Z)
| BlockProc
| BlockProcOther (p : Z)
| UnblockThread (u : Z)
| UnblockProc (p : Z).

Definition serve (r : request) : M unit :=
  match r with
  | BlockThread => blockThread
  | BlockThreadOther u => blockThread_other u
  | BlockProc => blockProc
  | BlockProcOther p => blockProc_other p
  | UnblockThread u => thread_unblock u
  | UnblockProc p => proc_unblock p
  end.

Definition call (k : nat) (r : request) (s : t) : result t :=
  match cores s !! k with
  | None => Fault
  | Some c =>
      match serve r (view c (shared s)) with
      | Ret (_, st) => Ret (mk st (<[k := local_of st]> (cores s)))
      | Fault => Fault
      | Diverge => Diverge
      end
  end.

(** [blockProc(proc)] is for a process of the table, and a thread is unblocked
    when no processor has it any more: [unblocked_twice] is what happens
    otherwise. *)
Definition allowed (r : request) (s : t) : Prop :=
  match r with
  | BlockProcOther p => p ∈ proc_table (shared s)
  | UnblockThread u => forall k c, cores s !! k = Some c -> thread c <> u
  | _ => True
  end.

Inductive step : t -> t -> Prop :=
| step_call k r s s' : allowed r s -> call k r s = Ret s' -> step s s'
| step_tick fuel k regs regs' s s' :
    enough fuel (shared s) -> tick fuel k regs s = Ret (regs', s') -> step s s'
| step_proc name addr args p st s :
    addr <> 0 -> createProc junk name addr args (shared s) = Ret (p, st) -> step s (mk st (cores s))
| step_thread addr args p u st s :
    p ∈ proc_table (shared s) -> createThread junk addr args p (shared s) = Ret (u, st) -> step s (mk st (cores s)).

(** ** The choice on any processor *)

Definition choose (s : st) : option (Z * Z) :=
  if currentProcess s =? 0 then first_proc s (proc_table s) else pick s (currentProcess s).

(** [allocProc] of the idle process: the address of its thread, the objects. *)
Definition idle_address (s : st) : Z := next_ptr s + 0x100 + 0x10.
Definition idle_process (s : st) : process_t :=
  mkProcess [73; 100; 108; 101] (s32 (next_pid s)) 2 INITIAL_STATE (next_ptr s + 0x100) [idle_address s] [] 0.
Definition idle_thread_of (s : st) : thread_t :=
  created_thread junk idle 0 (idle_address s + 0x100) (next_ptr s).

Definition allocated (s : st) : st :=
  mkSt (isInit s) (next_pid s +64 1) (sched_vector s) (proc_table s) (initproc s) (proc_count s)
    (thread_count s +64 1) false (sched_lock s) false
    (<[idle_address s := idle_thread_of s]> (threads s)) (<[next_ptr s := idle_process s]> (procs s))
    (idle_address s + 0x100 + STACK_SIZE) (currentThread s) (currentProcess s) (idleP s) (IF s) (cr3 s) (apicInit s)
    (oneshots s) (pit s) (ports s).
Definition with_idle (s : st) : st :=
  set_thread_count (thread_count s +64 1 -64 1) (set_idleP (next_ptr s) (allocated s)).

Lemma idleP_with_idle s : idleP (with_idle s) = next_ptr s.
Proof. done. Qed.

Lemma sched_lock_with_idle s : sched_lock (with_idle s) = sched_lock s.
Proof. done. Qed.

(** The shared state between steps. *)
Record shared_ok (s : st) : Prop := {
  so_locks : sched_lock s = false /\ thread_lock s = false /\ proc_lock s = false;
  so_apic : apicInit s = true;
  so_table : Forall (live s) (proc_table s);
  so_some : isInit s = true -> proc_table s <> [];
  so_null : procs s !! 0 = None /\ threads s !! 0 = None;
  so_members p pr u : procs s !! p = Some pr -> u ∈ threadsVec pr -> is_Some (threads s !! u);
  so_fresh : fresh s;
}.

(** What runs on the processor whose view is [s], and its idle process. *)
Definition runs (s : st) : Prop :=
  (currentThread s = 0 /\ currentProcess s = 0) \/ (live s (currentProcess s) /\ is_Some (threads s !! currentThread s)).
Definition has_idle (s : st) : Prop := idleP s = 0 \/ live s (idleP s).

Lemma scan_clean_finds fuel l s :
  Forall (live s) l -> enough fuel s -> scan_clean fuel l s = Ret (first_proc s l, s).
Proof.
  intros Hl He. induction Hl as [|p l Hp _ IH]; [done|]. cbn [scan_clean first_proc].
  pose proof Hp as (pr & Hpr & _). unfold mbind, M_bind, get_proc. rewrite Hpr.
  destruct (is_state (pstate pr) READY); cbn [negb]; [|by rewrite clean_proc_live].
  rewrite find_ready_spec by (by eapply live_threads). by destruct (first_ready s (threadsVec pr)).
Qed.

Lemma allocProc_idle s :
  isInit s = true -> thread_lock s = false -> proc_lock s = false -> idle <> 0 -> 0 < next_ptr s ->
  allocProc junk [73; 100; 108; 101] idle 0 s = Ret (next_ptr s, allocated s).
Proof.
  intros Hi Hl1 Hl2 Hidle Hn. destruct s. cbn in Hi, Hl1, Hl2, Hn. subst.
  unfold allocProc, createThread, allocThread, new_thread. run_code.
  destruct (Z.eqb_spec idle 0); [done|]. run_code. destruct (Z.eqb_spec next_ptr0 0); [lia|].
  repeat (rewrite ?lookup_insert_eq, ?insert_insert_eq; run_code). reflexivity.
Qed.

(** The first idle process of a processor. *)
Lemma run_idle_new fuel s :
  apicInit s = true -> isInit s = true -> thread_lock s = false -> proc_lock s = false -> idle <> 0 -> 0 < next_ptr s ->
  currentProcess s = 0 \/ live s (currentProcess s) -> idleP s = 0 -> enough fuel s -> proc_table s <> [] ->
  Forall (live s) (proc_table s) ->
  run_idle junk idle fuel s = Ret (thread_regs (idle_thread_of s),
    switched (next_ptr s) (idle_address s) (idle_thread_of s) (idle_process s) 1 (with_idle s)).
Proof.
  intros Ha Hi Hl1 Hl2 Hidle Hn Hc Hz He Hne Hall. unfold run_idle. run_code.
  rewrite clean_proc_current; [|exact He| |destruct Hc as [|Hc]; [by left|right; exact Hc]].
  2: { destruct (proc_table s) as [|p l]; [done|]. apply Forall_cons in Hall as [(pr & Hp & _) _]. by exists p, pr. }
  cbn. rewrite Hz. cbn.
  rewrite allocProc_idle by done. cbn.
  destruct (Z.eqb_spec (next_ptr s) 0); [lia|]. cbn. unfold idle_process at 1. rewrite lookup_insert_eq. cbn.
  rewrite (dispatch_spec _ _ (idle_thread_of s) (idle_process s)) by (cbn; by rewrite lookup_insert_eq). cbn.
  rewrite yield_apic by done. cbn. by destruct s.
Qed.

(** ** A switch *)

Definition locked (s : st) : st := set_IF true (set_sched_lock true s).

Lemma interrupted_null regs s : threads s !! currentThread s = None -> interrupted regs s = s.
Proof. intros H. unfold interrupted. by rewrite H. Qed.

(** The fields that an interrupt does not touch. *)
Lemma interrupted_same regs s :
  procs (interrupted regs s) = procs s /\ proc_table (interrupted regs s) = proc_table s /\
  currentProcess (interrupted regs s) = currentProcess s /\ currentThread (interrupted regs s) = currentThread s /\
  idleP (interrupted regs s) = idleP s /\ apicInit (interrupted regs s) = apicInit s /\
  isInit (interrupted regs s) = isInit s /\ next_ptr (interrupted regs s) = next_ptr s /\
  sched_lock (interrupted regs s) = sched_lock s /\ thread_lock (interrupted regs s) = thread_lock s /\
  proc_lock (interrupted regs s) = proc_lock s.
Proof. unfold interrupted. by case_match. Qed.

(** With or without a current thread, the switch takes [choose]'s choice. *)
Lemma switch_chooses fuel regs s :
  shared_ok s -> isInit s = true -> runs s -> enough fuel s ->
  switchTask junk idle fuel regs s =
    match choose (interrupted regs s) with
    | Some (p, u) =>
        match dispatch p u (locked (interrupted regs s)) with
        | Ret ((timeslice, regs), s3) => match _yield timeslice s3 with
                                         | Ret (_, s4) => Ret (regs, s4) | Fault => Fault | Diverge => Diverge end
        | Fault => Fault | Diverge => Diverge end
    | None => run_idle junk idle fuel (locked (interrupted regs s))
    end.
Proof.
  intros [(Hl & _) _ Htab Hsome Hnull _ _] Hi [[Ht Hp]|Hr] He.
  - rewrite interrupted_null by (rewrite Ht; apply Hnull). unfold choose. rewrite Hp. cbn [Z.eqb].
    unfold switchTask. run_code. rewrite Hi. cbn. rewrite Hl. cbn. rewrite Hp, Ht. cbn.
    change (set_IF true _) with (locked s). rewrite scan_clean_finds; [|exact Htab|exact He].
    rewrite (first_proc_ext s (locked s)) by done. cbn.
    destruct (first_proc s (proc_table s)) as [[p u]|]; [|done].
    by destruct (dispatch p u (locked s)) as [[[? ?] ?]| |].
  - rewrite switchTask_start by done. cbv zeta.
    destruct Hr as [Hpl [th Hth]]. pose proof Hpl as (pr0 & Hpr0 & _).
    destruct (interrupted_same regs s) as (Hkp & Hkt & Hkc & Hku & _).
    assert (Hlive : forall p, live s p -> live (locked (interrupted regs s)) p).
    { intros p Hlp. eapply live_update; [| |by eapply interrupted_live]; [done|]. eauto. }
    change (set_IF true (set_sched_lock true (interrupted regs s))) with (locked (interrupted regs s)).
    rewrite (next_spec _ _ _ pr0).
    2: { cbn. by rewrite Hkp. } 2: { by apply Hlive. }
    2: { cbn. rewrite Hkt. eapply Forall_impl; [exact Htab|]. apply Hlive. }
    2: { cbn. rewrite Hkt. by apply Hsome. } 2: { unfold enough. cbn. by rewrite Hkp. }
    rewrite (pick_ext (interrupted regs s) (locked (interrupted regs s))) by done.
    unfold choose. rewrite Hkc. destruct (Z.eqb_spec (currentProcess s) 0) as [E|_]; [|done].
    by destruct (live_not_null s (currentProcess s) (proj1 Hnull) Hpl).
Qed.

(** Where the state before the switch comes from, and the choice in it. *)
Definition chosen (regs : registers_t) (s : st) (p u : Z) (pr : process_t) (s1 : st) : Prop :=
  (s1 = interrupted regs s /\ choose s1 = Some (p, u)) \/
  (s1 = interrupted regs s /\ idleP s <> 0 /\ p = idleP s /\ head (threadsVec pr) = Some u) \/
  (s1 = with_idle (interrupted regs s) /\ idleP s = 0 /\ p = next_ptr s /\ u = idle_address s).

Lemma choose_Some s p u : choose s = Some (p, u) ->
  (p = currentProcess s \/ p ∈ proc_table s) /\
  exists pr th, procs s !! p = Some pr /\ pstate pr = READY /\ u ∈ threadsVec pr /\
    threads s !! u = Some th /\ tstate th = READY.
Proof.
  unfold choose. destruct (_ =? 0).
  - intros [Hin (pr & Hp & Hr & Hf)]%first_proc_Some. split; [by right|].
    apply first_ready_Some in Hf as [Hu (th & Hth & Hs)]. exists pr, th. by split_and!.
  - intros [Hor H]%pick_Some. split; [|exact H]. destruct Hor as [|Hin]; [by left|right]. by eapply elem_of_drop.
Qed.

Lemma switch_runs fuel regs s :
  idle <> 0 -> shared_ok s -> isInit s = true -> runs s -> has_idle s -> enough fuel s ->
  exists p u th pr slice s1,
    switchTask junk idle fuel regs s = Ret (thread_regs th, switched p u th pr slice s1) /\
    threads s1 !! u = Some th /\ procs s1 !! p = Some pr /\ chosen regs s p u pr s1.
Proof.
  intros Hidle Hs Hi Hr Hd He. rewrite switch_chooses by done. pose proof Hs as [(Hl & Htl & Hpl) Ha Htab Hsome [Hn1 Hn2] _ [Hnp _]].
  destruct (interrupted_same regs s) as (Hkp & Hkt & Hkc & Hku & Hki & Hka & Hkn & Hkx & _ & Hktl & Hkpl).
  assert (Hlive : forall p, live s p -> live (interrupted regs s) p) by (intros; by apply interrupted_live).
  assert (Hcur : currentProcess (interrupted regs s) = 0 \/ live (interrupted regs s) (currentProcess (interrupted regs s))).
  { rewrite Hkc. destruct Hr as [[_ ?]|[? _]]; [by left|right; auto]. }
  assert (He' : enough fuel (interrupted regs s)) by (unfold enough; by rewrite Hkp).
  destruct (choose (interrupted regs s)) as [[p u]|] eqn:Ec.
  - destruct (choose_Some _ _ _ Ec) as (_ & pr & th & Hpr & _ & _ & Hth & _).
    exists p, u, th, pr, (sliceOfTime th), (interrupted regs s). split; [|by split_and!; [..|left]].
    rewrite (dispatch_spec _ _ th pr) by done. rewrite yield_apic by (cbn; by rewrite Hka). reflexivity.
  - destruct Hd as [Hz|Hd].
    + set (s2 := interrupted regs s) in *. assert (E : idle_address s2 = idle_address s) by (unfold idle_address; by rewrite Hkx).
      exists (next_ptr s2), (idle_address s2), (idle_thread_of s2), (idle_process s2), 1, (with_idle s2). split.
      * rewrite run_idle_new; [by destruct s2| | | | |done| | | | | |]; cbn; try congruence; try done.
        -- rewrite Hkt. by apply Hsome.
        -- rewrite Hkt. eapply Forall_impl; [exact Htab|exact Hlive].
      * cbn. rewrite !lookup_insert_eq. split; [done|]. split; [done|]. right. right. rewrite Hkx, E. by split_and!.
    + destruct (run_idle_spec junk idle fuel (locked (interrupted regs s))) as (u & th & pr & Hpr & Hhd & Hth & ->); cbn.
      * by rewrite Hka.
      * destruct Hcur as [|Hc]; [by left|right; exact Hc].
      * rewrite Hki. by apply (live_not_null s).
      * rewrite Hki. by apply Hlive.
      * exact He'.
      * cbn in Hpr, Hth. exists (idleP s), u, th, pr, 1, (interrupted regs s). rewrite Hki in *.
        split; [by destruct (interrupted regs s)|]. split; [done|]. split; [done|]. right. left.
        split_and!; [done|by apply (live_not_null s)|done|done].
Qed.

(** ** The invariant *)

(** [u] is the one thread of [c]'s idle process. *)
Definition idle_of (s : st) (c : local) (u : Z) : Prop :=
  exists pr, procs s !! idle_proc c = Some pr /\ threadsVec pr = [u].

(** A processor's thread runs, or was blocked and waits for the next switch. *)
Definition held (x : state_t) : Prop := x = RUNNING \/ x = BLOCKED.

(** What a processor has is held; the idle process is not in the table and never
    ready. *)
Record core_ok (s : st) (c : local) : Prop := {
  co_current : (thread c = 0 /\ process c = 0) \/
    (live s (process c) /\ exists th, threads s !! thread c = Some th /\ held (tstate th));
  co_idle : idle_proc c = 0 \/ (live s (idle_proc c) /\ (idle_proc c ∉ proc_table s) /\
    exists pr u, procs s !! idle_proc c = Some pr /\ pstate pr = INITIAL_STATE /\ threadsVec pr = [u]);
}.

Record ok (s : st) (cs : list local) : Prop := {
  ok_shared : shared_ok s;
  ok_cores k c : cs !! k = Some c -> core_ok s c;
  ok_apart j k c c' : j <> k -> cs !! j = Some c -> cs !! k = Some c' -> thread c <> 0 -> thread c <> thread c';
  ok_running u th : threads s !! u = Some th -> tstate th = RUNNING -> exists k c, cs !! k = Some c /\ thread c = u;
  ok_idle j k c c' u : j <> k -> cs !! j = Some c -> cs !! k = Some c' -> idle_of s c' u -> thread c <> u;
  ok_idles j k c c' : j <> k -> cs !! j = Some c -> cs !! k = Some c' -> idle_proc c' <> 0 -> idle_proc c <> idle_proc c';
  ok_owned k c u p pr : cs !! k = Some c -> idle_of s c u -> procs s !! p = Some pr -> u ∈ threadsVec pr -> p = idle_proc c;
}.

(** What the invariant reads of the shared state. *)
Record same (s s' : st) : Prop := {
  sa_procs : procs s' = procs s; sa_threads : threads s' = threads s; sa_table : proc_table s' = proc_table s;
  sa_locks : sched_lock s' = sched_lock s /\ thread_lock s' = thread_lock s /\ proc_lock s' = proc_lock s;
  sa_flags : isInit s' = isInit s /\ apicInit s' = apicInit s; sa_next : next_ptr s' = next_ptr s;
}.

Lemma live_mono s s' p :
  (forall q pr, procs s !! q = Some pr -> procs s' !! q = Some pr) ->
  (forall u th, threads s !! u = Some th -> tstate th <> KILLED -> exists th', threads s' !! u = Some th' /\ tstate th' <> KILLED) ->
  live s p -> live s' p.
Proof.
  intros Hp Ht (pr & Hpr & Hk & Hn & Hf). exists pr. split_and!; [by apply Hp|done..|].
  eapply Forall_impl; [exact Hf|]. intros u (th & Hth & Hs). eauto.
Qed.

Lemma ok_ext s s' cs : same s s' -> ok s cs -> ok s' cs.
Proof.
  intros [Ep Et El (E1 & E2 & E3) [E4 E5] En] [[Hl Ha Htab Hsome Hnull Hmem Hf] Hc H1 H2 H3 H4 H5].
  assert (Hlive : forall p, live s p -> live s' p) by (intros p; apply live_mono; rewrite ?Ep, ?Et; eauto).
  assert (Hi : forall c u, idle_of s' c u -> idle_of s c u) by (unfold idle_of; by rewrite Ep).
  split; [split|..]; rewrite ?E1, ?E2, ?E3, ?E4, ?E5, ?El, ?Et, ?Ep; try done; eauto.
  - eapply Forall_impl; [exact Htab|exact Hlive].
  - unfold fresh. by rewrite En, Ep, Et.
  - intros k c Hk. destruct (Hc k c Hk) as [Hcur Hid]. split; rewrite ?Ep, ?Et, ?El.
    + destruct Hcur as [|[? ?]]; [by left|right; eauto].
    + destruct Hid as [|(? & ? & ?)]; [by left|right; eauto].
Qed.

(** The thread of an idle process exists. *)
Lemma idle_exists s c u : core_ok s c -> procs s !! 0 = None -> idle_of s c u ->
  exists th, threads s !! u = Some th /\ tstate th <> KILLED.
Proof.
  intros [_ [Hz|((pr & Hpr & _ & _ & Hf) & _)]] Hn (pr' & Hpr' & Hv); [rewrite Hz in Hpr'; congruence|].
  simplify_eq. rewrite Hv in Hf. by apply Forall_cons in Hf as [? _].
Qed.

(** [c] without a current thread; with an idle process. *)
Definition rest (c : local) : local := mkLocal 0 0 (idle_proc c) (interrupts c) (page_map c) (timer c).
Definition idles (p : Z) (c : local) : local := mkLocal (thread c) (process c) p (interrupts c) (page_map c) (timer c).

(** A thread's update keeps what does not depend on the running threads. *)
Lemma update_thread s u th th' :
  shared_ok s -> threads s !! u = Some th -> tstate th' <> KILLED ->
  let s' := set_threads (<[u := th']> (threads s)) s in
  shared_ok s' /\ (forall p, live s p -> live s' p).
Proof.
  intros [Hl Ha Htab Hsome [Hn1 Hn2] Hmem [Hx Hf]] Hu Hk s'.
  assert (Hlive : forall p, live s p -> live s' p) by (intros p; by apply (live_insert s s' u th')).
  split; [|done]. split; try done.
  - eapply Forall_impl; [exact Htab|exact Hlive].
  - split; [done|]. cbn. rewrite lookup_insert_ne; [done|congruence].
  - intros p pr v Hp Hv. cbn. apply lookup_insert_is_Some. destruct (decide (u = v)); [by left|right]. split; [done|by eapply Hmem].
  - split; [done|]. intros q Hq. destruct (Hf q Hq) as [? Hq2]. split; [done|]. cbn. rewrite lookup_insert_ne; [done|congruence].
Qed.

(** A place of the list after a place's update. *)
Lemma place_cases {A} (l : list A) k x j y :
  <[k := x]> l !! j = Some y -> (j = k /\ y = x) \/ (j <> k /\ l !! j = Some y).
Proof. intros [(-> & -> & _)|[? ?]]%list_lookup_insert_Some; [by left|right]. by split. Qed.

(** ** The three parts of a tick *)

(** The interrupted thread becomes ready. *)
Lemma preempt_ok s cs k c regs th :
  ok s cs -> cs !! k = Some c -> threads s !! thread c = Some th ->
  ok (set_threads (<[thread c := preempt regs th]> (threads s)) s) (<[k := rest c]> cs).
Proof.
  intros [Hs Hc H1 H2 H3 H4 H5] Hk Hth. pose proof (so_null _ Hs) as [Hn1 Hn2].
  assert (Hheld : held (tstate th)).
  { destruct (Hc k c Hk) as [[[E _]|(_ & th' & Hth' & E)] _]; [rewrite E in Hth|]; congruence. }
  assert (Hpre : tstate (preempt regs th) <> RUNNING /\ tstate (preempt regs th) <> KILLED)
    by (unfold preempt; cbn; destruct (is_state _ RUNNING) eqn:Er; [done|apply is_state_false in Er];
        cbn; destruct Hheld as [E|E]; split; congruence).
  destruct Hpre as [Hnr Hnk].
  destruct (update_thread s (thread c) th (preempt regs th) Hs Hth Hnk) as [Hs' Hlive].
  split; [exact Hs'|..].
  - intros j x [[-> ->]|[Hne Hj]]%place_cases.
    + destruct (Hc k c Hk) as [_ Hid]. split; [by left|]. cbn. destruct Hid as [|(? & ? & ?)]; [by left|right]. split_and!; auto.
    + destruct (Hc j x Hj) as [Hcur Hid]. split.
      * destruct Hcur as [|(? & th' & Ht' & ?)]; [by left|right]. split; [auto|]. exists th'. cbn.
        rewrite lookup_insert_ne; [done|]. intros E. apply (H1 j k x c); [done|done|done|congruence|done].
      * destruct Hid as [|(? & ? & ?)]; [by left|right]. split_and!; auto.
  - intros i j x y Hne [[-> ->]|[Hni Hi]]%place_cases [[-> ->]|[Hnj Hj]]%place_cases; cbn; [done|done|auto|by apply (H1 i j)].
  - intros u x. cbn. intros [(<- & <-)|[Hne Hu]]%lookup_insert_Some Hx; [congruence|].
    destruct (H2 u x Hu Hx) as (j & y & Hj & <-). destruct (decide (j = k)) as [->|Hjk]; [congruence|].
    exists j, y. by rewrite list_lookup_insert_ne.
  - intros i j x y u Hne [[-> ->]|[Hni Hi]]%place_cases [[-> ->]|[Hnj Hj]]%place_cases Hu; cbn.
    + done.
    + intros <-. destruct Hu as (pr & Hpr & Hv).
      assert (Hlv : is_Some (threads s !! 0)); [|by rewrite Hn2 in Hlv; destruct Hlv].
      destruct (idle_exists s y 0 (Hc j y Hj) Hn1) as (th0 & ? & _); [by exists pr|by exists th0].
    + by eapply (H3 i k).
    + by eapply (H3 i j).
  - intros i j x y Hne [[-> ->]|[Hni Hi]]%place_cases [[-> ->]|[Hnj Hj]]%place_cases; cbn; [done|..]; [by apply (H4 k j)|by apply (H4 i k)|by apply (H4 i j)].
  - intros j x u p pr [[-> ->]|[Hne Hj]]%place_cases; [exact (H5 k c u p pr Hk)|exact (H5 j x u p pr Hj)].
Qed.

(** A thread that runs nowhere is chosen. *)
Lemma run_ok s cs k c c1 p u th :
  thread c1 = u -> process c1 = p -> idle_proc c1 = idle_proc c -> ok s cs -> cs !! k = Some c -> thread c = 0 -> live s p -> threads s !! u = Some th ->
  (forall j c', j <> k -> cs !! j = Some c' -> thread c' <> u /\ ~ idle_of s c' u) ->
  ok (set_threads (<[u := set_tstate RUNNING th]> (threads s)) s) (<[k := c1]> cs).
Proof.
  intros E1 E2 E3. destruct c1 as [a b e]. cbn in E1, E2, E3. subst a b e. intros [Hs Hc H1 H2 H3 H4 H5] Hk Hz Hp Hu Hfree. pose proof (so_null _ Hs) as [Hn1 Hn2].
  destruct (update_thread s u th (set_tstate RUNNING th) Hs Hu) as [Hs' Hlive]; [done|].
  assert (Hother : forall j x, cs !! j = Some x -> thread x <> u).
  { intros j x Hj. destruct (decide (j = k)) as [->|Hne]; [|by apply (Hfree j)]. congruence. }
  split; [exact Hs'|..].
  - intros j x [[-> ->]|[Hne Hj]]%place_cases.
    + destruct (Hc k c Hk) as [_ Hid]. split.
      * right. split; [by apply Hlive|]. eexists. cbn. rewrite lookup_insert_eq. split; [done|by left].
      * cbn. destruct Hid as [|(? & ? & ?)]; [by left|right]. split_and!; auto.
    + destruct (Hc j x Hj) as [Hcur Hid]. split.
      * destruct Hcur as [|(? & th' & Ht' & ?)]; [by left|right]. split; [auto|]. exists th'. cbn.
        rewrite lookup_insert_ne; [done|]. intros E. by apply (Hother j x).
      * destruct Hid as [|(? & ? & ?)]; [by left|right]. split_and!; auto.
  - intros i j x y Hne [[-> ->]|[Hni Hi]]%place_cases [[-> ->]|[Hnj Hj]]%place_cases; cbn; [done|..].
    + intros _ E. by apply (Hother j y).
    + intros _. by apply (Hother i x).
    + by apply (H1 i j).
  - intros v x. cbn. intros [(<- & <-)|[Hne Hv]]%lookup_insert_Some Hx.
    + eexists k, _. rewrite list_lookup_insert_eq by (by eapply lookup_lt_Some). by split.
    + destruct (H2 v x Hv Hx) as (j & y & Hj & <-). destruct (decide (j = k)) as [->|Hjk]; [congruence|].
      exists j, y. by rewrite list_lookup_insert_ne.
  - intros i j x y v Hne [[-> ->]|[Hni Hi]]%place_cases [[-> ->]|[Hnj Hj]]%place_cases Hv; cbn; [done|..].
    + intros ->. by apply (Hfree j y).
    + by eapply (H3 i k).
    + by eapply (H3 i j).
  - intros i j x y Hne [[-> ->]|[Hni Hi]]%place_cases [[-> ->]|[Hnj Hj]]%place_cases; cbn; [done|..]; [by apply (H4 k j)|by apply (H4 i k)|by apply (H4 i j)].
  - intros j x v q pr [[-> ->]|[Hne Hj]]%place_cases; [exact (H5 k c v q pr Hk)|exact (H5 j x v q pr Hj)].
Qed.

(** ** New objects *)

(** The locks, flags and addresses after a step that creates. *)
Definition unlocked (s : st) : Prop :=
  (sched_lock s = false /\ thread_lock s = false /\ proc_lock s = false) /\ apicInit s = true /\ fresh s.

Lemma fresh_address s p : fresh s -> next_ptr s <= p -> procs s !! p = None /\ threads s !! p = None.
Proof. intros [_ H]. apply H. Qed.

(** What happens to the process that gets the thread [u]: it is new, or it is one
    of the table. *)
Definition receives (s s' : st) (p : Z) (pr : process_t) (u : Z) : Prop :=
  (procs s !! p = None /\ 0 < p /\ threadsVec pr = [u] /\ pstate pr <> KILLED /\
   (proc_table s' = proc_table s \/ proc_table s' = proc_table s ++ [p])) \/
  (p ∈ proc_table s /\ proc_table s' = proc_table s /\
   exists pr0, procs s !! p = Some pr0 /\ threadsVec pr = threadsVec pr0 ++ [u] /\ pstate pr = pstate pr0).

Section Create.
Context (s s' : st) (p : Z) (pr : process_t) (u : Z) (th : thread_t).
Context (Hs : shared_ok s) (Hu : next_ptr s <= u) (Hs' : unlocked s').
Context (Ep : procs s' = <[p := pr]> (procs s)) (Et : threads s' = <[u := th]> (threads s)) (Hth : tstate th = READY).
Context (Hr : receives s s' p pr u) (Hsome : isInit s' = true -> proc_table s' <> []).

Lemma create_fresh : threads s !! u = None.
Proof. by apply (so_fresh _ Hs). Qed.

Lemma create_thread v x : threads s !! v = Some x -> threads s' !! v = Some x.
Proof. intros H. rewrite Et, lookup_insert_ne; [done|]. intros E. by rewrite <- E, create_fresh in H. Qed.

(** A member of a process is [u] or was one before. *)
Lemma create_member q pr1 v : procs s' !! q = Some pr1 -> v ∈ threadsVec pr1 ->
  (q = p /\ v = u) \/ exists pr0, procs s !! q = Some pr0 /\ v ∈ threadsVec pr0.
Proof.
  rewrite Ep. intros [(<- & <-)|[Hne Hq]]%lookup_insert_Some Hv; [|right; eauto].
  pose proof Hr as [(_ & _ & E & _)|(_ & _ & pr0 & Hp & E & _)]; rewrite E in Hv.
  - left. split; [done|]. by apply list_elem_of_singleton in Hv.
  - apply elem_of_app in Hv as [Hv| ->%list_elem_of_singleton]; [right; eauto|by left].
Qed.

Lemma create_live q : live s q -> live s' q.
Proof.
  intros (pr0 & Hq & Hk & Hn & Hf).
  assert (Hf' : Forall (fun v => exists x, threads s' !! v = Some x /\ tstate x <> KILLED) (threadsVec pr0)).
  { eapply Forall_impl; [exact Hf|]. intros v (x & Hx & ?). exists x. split; [by apply create_thread|done]. }
  destruct (decide (q = p)) as [->|Hne]; [|exists pr0; rewrite Ep, lookup_insert_ne by done; by split_and!].
  pose proof Hr as [(E & _)|(_ & _ & pr1 & Hp & E & E2)]; [congruence|]. simplify_eq.
  exists pr. rewrite Ep, lookup_insert_eq, E, E2. split_and!; [done|done|by destruct (threadsVec pr0)|].
  apply Forall_app. split; [done|]. apply Forall_singleton. exists th. rewrite Et, lookup_insert_eq, Hth. done.
Qed.

Lemma create_live_new : live s' p.
Proof.
  pose proof Hr as [(_ & _ & E & Hk & _)|(Hin & _)].
  - exists pr. rewrite Ep, lookup_insert_eq, E. split_and!; [done..|]. apply Forall_singleton.
    exists th. by rewrite Et, lookup_insert_eq, Hth.
  - apply create_live. pose proof (so_table _ Hs) as Htab. rewrite Forall_forall in Htab. by apply Htab.
Qed.

Lemma create_null : p <> 0.
Proof.
  pose proof Hr as [(_ & ? & _)|(_ & _ & pr0 & Hp & _)]; [lia|]. intros E. by rewrite E, (proj1 (so_null _ Hs)) in Hp.
Qed.

Lemma create_shared : shared_ok s'.
Proof.
  pose proof Hs as [_ _ Htab _ [Hn1 Hn2] Hmem [Hx _]]. pose proof Hs' as (Hl & Ha & Hf). split; try done.
  - assert (Forall (live s') (proc_table s)) by (eapply Forall_impl; [exact Htab|exact create_live]).
    pose proof Hr as [(_ & _ & _ & _ & [->| ->])|(_ & -> & _)]; [done| |done].
    apply Forall_app. split; [done|]. apply Forall_singleton. exact create_live_new.
  - split; [rewrite Ep, lookup_insert_ne by exact create_null; done|]. rewrite Et, lookup_insert_ne by lia. done.
  - intros q pr1 v Hq Hv. destruct (create_member q pr1 v Hq Hv) as [[_ ->]|(pr0 & Hp0 & Hv0)].
    + rewrite Et, lookup_insert_eq. eauto.
    + destruct (Hmem q pr0 v Hp0 Hv0) as [x Hx0]. exists x. by apply create_thread.
Qed.

(** An idle process is another one. *)
Lemma create_idle_ne c : core_ok s c -> idle_proc c <> p.
Proof.
  intros [_ [->|((pr0 & Hp0 & _) & Hnin & _)]]; [by apply not_eq_sym, create_null|]. intros E. rewrite E in Hp0, Hnin.
  pose proof Hr as [(Hp & _)|(Hin & _)]; [congruence|done].
Qed.

Lemma create_idle_of c v : core_ok s c -> idle_of s' c v -> idle_of s c v.
Proof.
  intros Hc (pr0 & Hp0 & Hv). exists pr0. split; [|done]. rewrite Ep, lookup_insert_ne in Hp0; [done|].
  by apply not_eq_sym, create_idle_ne.
Qed.

Lemma create_core c : core_ok s c -> core_ok s' c.
Proof.
  intros Hc. pose proof (create_idle_ne c Hc) as Hne. destruct Hc as [Hcur Hid]. split.
  - destruct Hcur as [|(? & x & Hx & ?)]; [by left|right]. split; [by apply create_live|]. exists x.
    split; [by apply create_thread|done].
  - destruct Hid as [|(? & Hnin & pr0 & v & Hp0 & ?)]; [by left|right]. split; [by apply create_live|]. split.
    + pose proof Hr as [(_ & _ & _ & _ & [->| ->])|(_ & -> & _)]; [done| |done].
      rewrite elem_of_app, list_elem_of_singleton. tauto.
    + exists pr0, v. split; [|done]. rewrite Ep, lookup_insert_ne; [done|congruence].
Qed.

Lemma create_ok cs : ok s cs -> ok s' cs.
Proof.
  intros [_ Hc H1 H2 H3 H4 H5]. split; [exact create_shared| |done| | |done|].
  - intros k c Hk. by apply create_core, (Hc k).
  - intros v x. rewrite Et. intros [(<- & <-)|[Hne Hv]]%lookup_insert_Some Hx; [congruence|by apply (H2 v x)].
  - intros j k c c' v Hne Hj Hk Hv. apply (H3 j k c c' v Hne Hj Hk). by apply create_idle_of; [apply (Hc k)|].
  - intros k c v q pr1 Hk Hv Hq Hin. pose proof (Hc k c Hk) as Hck. apply create_idle_of in Hv; [|done].
    destruct (create_member q pr1 v Hq Hin) as [[_ ->]|(pr0 & Hp0 & Hv0)]; [|by apply (H5 k c v q pr0)].
    destruct (idle_exists s c u Hck (proj1 (so_null _ Hs)) Hv) as (x & Hx & _). by rewrite create_fresh in Hx.
Qed.

End Create.

(** A process that no processor knows becomes the idle process of one. *)
Lemma idles_ok s cs k c p u :
  ok s cs -> cs !! k = Some c -> live s p -> p ∉ proc_table s ->
  (exists pr, procs s !! p = Some pr /\ pstate pr = INITIAL_STATE /\ threadsVec pr = [u]) ->
  (forall j x, cs !! j = Some x -> thread x <> u /\ idle_proc x <> p) ->
  (forall q pr, procs s !! q = Some pr -> u ∈ threadsVec pr -> q = p) ->
  ok s (<[k := idles p c]> cs).
Proof.
  intros [Hs Hc H1 H2 H3 H4 H5] Hk Hl Hnin (pr & Hpr & Hi & Hv) Hnew Hown.
  assert (Hid : forall v, idle_of s (idles p c) v -> v = u).
  { intros v (pr' & Hp' & E). cbn in Hp'. simplify_eq. congruence. }
  split; [exact Hs|..].
  - intros j x [[-> ->]|[Hne Hj]]%place_cases; [|by apply (Hc j)]. destruct (Hc k c Hk) as [Hcur _]. split; [exact Hcur|].
    right. split; [exact Hl|]. split; [exact Hnin|]. by exists pr, u.
  - intros i j x y Hne [[-> ->]|[Hni Hi']]%place_cases [[-> ->]|[Hnj Hj]]%place_cases; cbn;
      [done|by apply (H1 k j)|by apply (H1 i k)|by apply (H1 i j)].
  - intros v x Hx Hr. destruct (H2 v x Hx Hr) as (j & y & Hj & <-). destruct (decide (j = k)) as [->|Hjk].
    + exists k, (idles p c). rewrite list_lookup_insert_eq by (by eapply lookup_lt_Some). simplify_eq. done.
    + exists j, y. by rewrite list_lookup_insert_ne.
  - intros i j x y v Hne [[-> ->]|[Hni Hi']]%place_cases [[-> ->]|[Hnj Hj]]%place_cases Hv'.
    + done.
    + exact (H3 k j c y v Hne Hk Hj Hv').
    + rewrite (Hid v Hv'). by apply (Hnew i x).
    + exact (H3 i j x y v Hne Hi' Hj Hv').
  - intros i j x y Hne [[-> ->]|[Hni Hi']]%place_cases [[-> ->]|[Hnj Hj]]%place_cases; cbn; [done|..].
    + intros _ E. by apply (proj2 (Hnew j y Hj)).
    + intros _. by apply (Hnew i x).
    + by apply (H4 i j).
  - intros j x v q pr' [[-> ->]|[Hne Hj]]%place_cases Hv' Hq Hin; [|by apply (H5 j x v q pr')].
    rewrite (Hid v Hv') in Hin. exact (Hown q pr' Hq Hin).
Qed.


(** ** A tick *)

Lemma view_same c s : same s (view c s).
Proof. by split. Qed.

Lemma switched_same p u th pr slice s : sched_lock s = false ->
  same (set_threads (<[u := set_tstate RUNNING th]> (threads s)) s) (switched p u th pr slice s).
Proof. by intros Hl; split. Qed.

(** The first part: the processor has no thread any more. *)
Lemma interrupted_ok regs s cs k c :
  ok s cs -> cs !! k = Some c -> ok (interrupted regs (view c s)) (<[k := rest c]> cs).
Proof.
  intros H Hk. pose proof (co_current _ _ (ok_cores _ _ H k c Hk)) as Hcur.
  pose proof (ok_ext _ _ _ (view_same c s) H) as Hv. destruct Hcur as [[E1 E2]|(_ & th & Hth & _)].
  - rewrite interrupted_null by (cbn; rewrite E1; apply (so_null _ (ok_shared _ _ H))).
    rewrite list_insert_id; [exact Hv|]. rewrite Hk. destruct c. cbn in E1, E2. by subst.
  - unfold interrupted. change (threads (view c s) !! currentThread (view c s)) with (threads s !! thread c).
    rewrite Hth. exact (preempt_ok (view c s) cs k c regs th Hv Hk Hth).
Qed.

Lemma with_idle_unlocked s : shared_ok s -> unlocked (with_idle s).
Proof.
  intros Hs. split; [by split; [apply Hs|]|]. split; [apply Hs|]. destruct (so_fresh _ Hs) as [Hx Hf].
  split; cbn; [unfold idle_address, STACK_SIZE; lia|]. unfold idle_address, STACK_SIZE. intros q Hq.
  destruct (Hf q) as [? ?]; [lia|]. by rewrite !lookup_insert_ne by lia.
Qed.

Lemma with_idle_receives s : shared_ok s -> receives s (with_idle s) (next_ptr s) (idle_process s) (idle_address s).
Proof. intros Hs. destruct (so_fresh _ Hs) as [Hx Hf]. left. split_and!; try done; [apply Hf; lia|by left]. Qed.

(** The new idle process of a processor is taken at once. *)
Lemma new_idle_ok s cs k c c1 th :
  ok s cs -> cs !! k = Some c -> thread c = 0 -> threads (with_idle s) !! idle_address s = Some th ->
  thread c1 = idle_address s -> process c1 = next_ptr s -> idle_proc c1 = next_ptr s ->
  ok (set_threads (<[idle_address s := set_tstate RUNNING th]> (threads (with_idle s))) (with_idle s)) (<[k := c1]> cs).
Proof.
  intros H Hk Hz Hth E1 E2 E3. set (p := next_ptr s) in *. set (u := idle_address s) in *.
  pose proof (ok_shared _ _ H) as Hs. pose proof (so_fresh _ Hs) as Hf. pose proof (so_null _ Hs) as [Hn1 Hn2].
  assert (Hpu : 0 < p /\ p < u) by (unfold u, idle_address; destruct Hf; lia).
  assert (Hpn : procs s !! p = None) by (apply Hf; lia). assert (Hun : threads s !! u = None) by (apply Hf; lia).
  pose proof (with_idle_unlocked s Hs) as Hunl. pose proof (with_idle_receives s Hs) as Hrec. fold p u in Hrec.
  assert (Hsome : isInit (with_idle s) = true -> proc_table (with_idle s) <> []) by apply Hs.
  assert (Hle : next_ptr s <= u) by lia.
  pose proof (create_ok s (with_idle s) p (idle_process s) u (idle_thread_of s) Hs Hle Hunl eq_refl eq_refl eq_refl Hrec Hsome cs H) as H'.
  pose proof (create_live_new s (with_idle s) p (idle_process s) u (idle_thread_of s) Hs Hle eq_refl eq_refl eq_refl Hrec) as Hlp.
  assert (Hown : forall q pr, procs (with_idle s) !! q = Some pr -> u ∈ threadsVec pr -> q = p).
  { intros q pr Hq Hin.
    destruct (create_member s (with_idle s) p (idle_process s) u eq_refl Hrec q pr u Hq Hin) as [[? _]|(pr0 & Hp0 & Hv0)]; [done|].
    destruct (so_members _ Hs q pr0 u Hp0 Hv0). congruence. }
  assert (Hnew : forall j x, cs !! j = Some x -> thread x <> u /\ idle_proc x <> p).
  { intros j x Hj. destruct (ok_cores _ _ H j x Hj) as [Hcur Hid]. split; intros E.
    - destruct Hcur as [[? _]|(_ & y & Hy & _)]; [lia|congruence].
    - destruct Hid as [|((pr & Hpr & _) & _)]; [lia|congruence]. }
  assert (Hidles : ok (with_idle s) (<[k := idles p c]> cs)).
  { apply (idles_ok (with_idle s) cs k c p u); try done.
    - cbn. intros Hin. pose proof (so_table _ Hs) as Htab. rewrite Forall_forall in Htab.
      destruct (Htab p Hin) as (pr & Hpr & _). congruence.
    - exists (idle_process s). cbn. by rewrite lookup_insert_eq. }
  assert (Hkl : <[k := idles p c]> cs !! k = Some (idles p c)) by (apply list_lookup_insert_eq; by eapply lookup_lt_Some).
  rewrite <- (list_insert_insert_eq cs k c1 (idles p c)).
  apply (run_ok (with_idle s) _ k (idles p c) c1 p u th); try done.
  - intros j c' Hne Hj. apply list_lookup_insert_Some in Hj as [(? & _)|[_ Hj]]; [by destruct Hne|].
    destruct (Hnew j c' Hj) as [? Hni]. split; [done|]. intros (pr & Hpr & Hv). apply Hni. apply (Hown _ pr Hpr). rewrite Hv. by apply list_elem_of_singleton.
Qed.

(** The last part, for each of the three choices. *)
Lemma chosen_ok regs s cs k c c1 p u th pr s1 :
  idle <> 0 -> ok s cs -> cs !! k = Some c ->
  chosen regs (view c s) p u pr s1 -> threads s1 !! u = Some th -> procs s1 !! p = Some pr ->
  thread c1 = u -> process c1 = p -> idle_proc c1 = idleP s1 ->
  ok (set_threads (<[u := set_tstate RUNNING th]> (threads s1)) s1) (<[k := c1]> cs).
Proof.
  intros Hidle H Hk Hch Hth Hpr E1 E2 E3. pose proof (interrupted_ok regs s cs k c H Hk) as Hi.
  destruct (interrupted_same regs (view c s)) as (Hkp & Hkt & Hkc & Hku & Hki & Hka & Hkn & Hkx & _).
  pose proof (interrupted_live regs (view c s)) as Hlive. unfold chosen in Hch.
  remember (interrupted regs (view c s)) as s0 eqn:Es0. clear Es0.
  assert (Hkl : <[k := rest c]> cs !! k = Some (rest c)) by (apply list_lookup_insert_eq; by eapply lookup_lt_Some).
  rewrite <- (list_insert_insert_eq cs k c1 (rest c)). destruct Hch as [[Ex Hch]|[(Ex & Hnz & -> & Hhd)|(Ex & Hz & -> & ->)]]; subst s1.
  - apply choose_Some in Hch as (Hor & pr' & th' & Hpr' & Hready & Hin & Hth' & Hst). simplify_eq.
    assert (E3' : idle_proc c1 = idle_proc (rest c)) by (rewrite E3; exact Hki).
    apply (run_ok s0 _ k (rest c) c1 _ _ th eq_refl eq_refl E3' Hi Hkl eq_refl); [|done|].
    + destruct Hor as [E|Hin']; [|pose proof (so_table _ (ok_shared _ _ Hi)) as Htab; rewrite Forall_forall in Htab; by apply Htab].
      rewrite E, Hkc. destruct (co_current _ _ (ok_cores _ _ H k c Hk)) as [[_ Ez]|[Hl _]]; [|by apply Hlive].
      rewrite E, Hkc in Hpr. change (currentProcess (view c s)) with (process c) in Hpr.
      by rewrite Ez, (proj1 (so_null _ (ok_shared _ _ Hi))) in Hpr.
    + intros j c' Hne Hj. split.
      { intros Ec. destruct (co_current _ _ (ok_cores _ _ Hi j c' Hj)) as [[Ez _]|(_ & x & Hx & [Hh|Hh])]; [|congruence..].
        rewrite <- Ec, Ez in Hth. by rewrite (proj2 (so_null _ (ok_shared _ _ Hi))) in Hth. }
      intros Hu. pose proof (ok_owned _ _ Hi j c' _ _ _ Hj Hu Hpr Hin) as Hown.
      destruct (co_idle _ _ (ok_cores _ _ Hi j c' Hj)) as [E|(_ & _ & pr0 & v & Hp0 & Hin0 & _)].
      * rewrite E in Hown. rewrite Hown in Hpr. by rewrite (proj1 (so_null _ (ok_shared _ _ Hi))) in Hpr.
      * rewrite <- Hown in Hp0. congruence.
  - (* the idle process *)
    assert (E3' : idle_proc c1 = idle_proc (rest c)) by (rewrite E3; exact Hki).
    destruct (co_idle _ _ (ok_cores _ _ Hi k _ Hkl)) as [E|(Hl & _ & pr0 & v & Hp0 & _ & Hv)]; [done|].
    change (idle_proc (rest c)) with (idleP (view c s)) in Hp0. assert (pr0 = pr) as -> by congruence.
    rewrite Hv in Hhd. cbn in Hhd. injection Hhd as ->.
    assert (Hidl : idle_of s0 (rest c) u) by (exists pr; by split).
    apply (run_ok s0 _ k (rest c) c1 _ u th E1 E2 E3' Hi Hkl eq_refl); [exact Hl|exact Hth|].
    intros j c' Hne Hj. split; [by apply (ok_idle _ _ Hi j k c' (rest c) u)|]. intros Hu.
    pose proof (ok_owned _ _ Hi j c' u _ pr Hj Hu Hpr ltac:(rewrite Hv; by apply list_elem_of_singleton)) as Hown.
    by apply (ok_idles _ _ Hi k j (rest c) c' (not_eq_sym Hne) Hkl Hj); [rewrite <- Hown|].
  - assert (Ea : idle_address (view c s) = idle_address s0) by (unfold idle_address; by rewrite Hkx).
    rewrite idleP_with_idle in E3. rewrite <- Hkx in E2. rewrite Ea in E1, Hth |- *.
    by apply (new_idle_ok s0 (<[k := rest c]> cs) k (rest c) c1 th).
Qed.

Lemma chosen_unlocked regs s p u pr s1 : chosen regs s p u pr s1 -> sched_lock s1 = sched_lock s.
Proof.
  pose proof (interrupted_same regs s) as (_ & _ & _ & _ & _ & _ & _ & _ & Hl & _).
  intros [[-> _]|[[-> _]|[-> _]]]; [done|done|]. by rewrite sched_lock_with_idle.
Qed.

Lemma local_of_switched p u th pr slice s :
  thread (local_of (switched p u th pr slice s)) = u /\ process (local_of (switched p u th pr slice s)) = p /\
  idle_proc (local_of (switched p u th pr slice s)) = idleP s.
Proof. done. Qed.

Lemma tick_ok fuel k regs s c :
  idle <> 0 -> ok (shared s) (cores s) -> isInit (shared s) = true -> enough fuel (shared s) -> cores s !! k = Some c ->
  exists regs' s' c', tick fuel k regs s = Ret (regs', s') /\ ok (shared s') (cores s') /\
    length (cores s') = length (cores s) /\ cores s' !! k = Some c' /\
    exists th, threads (shared s') !! thread c' = Some th /\ tstate th = RUNNING.
Proof.
  intros Hidle H Hi He Hk. pose proof (ok_cores _ _ H k c Hk) as Hc.
  assert (Hr : runs (view c (shared s))).
  { destruct (co_current _ _ Hc) as [[? ?]|(? & th & ? & _)]; [by left|right]. split; [done|by exists th]. }
  assert (Hd : has_idle (view c (shared s))) by (destruct (co_idle _ _ Hc) as [?|(? & _)]; [by left|by right]).
  pose proof (ok_shared _ _ (ok_ext _ _ _ (view_same c (shared s)) H)) as Hs.
  destruct (switch_runs fuel regs (view c (shared s)) Hidle Hs Hi Hr Hd He) as (p & u & th & pr & slice & s1 & E & Hth & Hpr & Hch).
  destruct (local_of_switched p u th pr slice s1) as (F1 & F2 & F3).
  pose proof (chosen_ok regs (shared s) (cores s) k c _ p u th pr s1 Hidle H Hk Hch Hth Hpr F1 F2 F3) as Hok.
  unfold tick. rewrite Hk, E. eexists _, _, _. split; [reflexivity|]. cbn [shared cores].
  split; [eapply ok_ext; [apply switched_same|exact Hok]|].
  { rewrite (chosen_unlocked _ _ _ _ _ _ Hch). apply (so_locks _ Hs). }
  split; [by rewrite length_insert|]. split; [apply list_lookup_insert_eq; by eapply lookup_lt_Some|].
  exists (set_tstate RUNNING th). rewrite F1. split; [|done]. cbn. by rewrite lookup_insert_eq.
Qed.

(** ** The other steps *)

Lemma createThread_run addr args p pr s :
  thread_lock s = false -> p <> 0 -> procs s !! p = Some pr ->
  let u := next_ptr s in let stack := u + 0x100 in
  createThread junk addr args p s = Ret (u,
    mkSt (isInit s) (next_pid s) (sched_vector s) (proc_table s) (initproc s) (proc_count s) (thread_count s +64 1)
      false (sched_lock s) (proc_lock s)
      (<[u := mkThread (nextTID pr) READY stack (set_entry addr args stack junk) p DEFAULT_TIMESLICE]> (threads s))
      (<[p := set_threadsVec (threadsVec pr ++ [u]) (set_nextTID (s32 (nextTID pr + 1)) pr)]> (procs s))
      (stack + STACK_SIZE) (currentThread s) (currentProcess s) (idleP s) (IF s) (cr3 s) (apicInit s)
      (oneshots s) (pit s) (ports s)).
Proof.
  intros Hl Hp Hpr. destruct s. cbn in Hl, Hpr. subst. cbv zeta.
  unfold createThread, allocThread, new_thread. run_code.
  destruct (Z.eqb_spec p 0); [done|]. repeat (rewrite ?lookup_insert_eq, ?insert_insert_eq, ?Hpr; run_code). reflexivity.
Qed.

Lemma proc_ok name addr args p st s :
  addr <> 0 -> ok (shared s) (cores s) -> createProc junk name addr args (shared s) = Ret (p, st) -> ok st (cores s).
Proof.
  intros Haddr H E. pose proof (ok_shared _ _ H) as Hs. destruct (so_locks _ Hs) as (Hl & Htl & Hpl).
  pose proof (so_fresh _ Hs) as [Hx Hf].
  rewrite createProc_run in E by done. cbv zeta in E. injection E as <- <-.
  eapply (create_ok (shared s) _ (next_ptr (shared s)) _ (next_ptr (shared s) + 0x100 + 0x10) _ Hs);
    [lia| |reflexivity|reflexivity|reflexivity| | |exact H].
  - split; [by split|]. split; [apply Hs|]. split; cbn; [unfold STACK_SIZE; lia|]. unfold STACK_SIZE. intros q Hq.
    destruct (Hf q) as [? ?]; [lia|]. by rewrite !lookup_insert_ne by lia.
  - left. split_and!; [by apply Hf|done|done|done|by right].
  - cbn. intros _. by destruct (proc_table (shared s)).
Qed.

Lemma thread_ok addr args p u st s :
  p ∈ proc_table (shared s) -> ok (shared s) (cores s) -> createThread junk addr args p (shared s) = Ret (u, st) -> ok st (cores s).
Proof.
  intros Hin H E. pose proof (ok_shared _ _ H) as Hs. destruct (so_locks _ Hs) as (Hl & Htl & Hpl).
  pose proof (so_fresh _ Hs) as [Hx Hf]. pose proof (so_table _ Hs) as Htab. rewrite Forall_forall in Htab.
  destruct (Htab p Hin) as (pr & Hpr & _).
  assert (Hp : p <> 0) by (intros ->; by rewrite (proj1 (so_null _ Hs)) in Hpr).
  rewrite (createThread_run _ _ _ pr) in E by done. cbv zeta in E. injection E as <- <-.
  assert (Hpx : p < next_ptr (shared s)).
  { destruct (Z_lt_ge_dec p (next_ptr (shared s))); [done|]. destruct (Hf p); [lia|congruence]. }
  eapply (create_ok (shared s) _ p _ (next_ptr (shared s)) _ Hs);
    [lia| |reflexivity|reflexivity|reflexivity| | |exact H].
  - split; [by split|]. split; [apply Hs|]. split; cbn; [unfold STACK_SIZE; lia|]. unfold STACK_SIZE. intros q Hq.
    destruct (Hf q) as [? ?]; [lia|]. by rewrite !lookup_insert_ne by lia.
  - right. split; [done|]. split; [done|]. exists pr. by split_and!.
  - apply Hs.
Qed.

(** Before the first process a tick does nothing. *)
Lemma tick_early fuel k regs s c :
  isInit (shared s) = false -> cores s !! k = Some c ->
  tick fuel k regs s = Ret (regs, mk (view c (shared s)) (cores s)).
Proof.
  intros Hi Hk. unfold tick, switchTask. rewrite Hk. run_code. rewrite Hi. cbn. do 2 f_equal. f_equal.
  apply list_insert_id. rewrite Hk. by destruct c.
Qed.

(** ** Requests *)

(** The fields of the processor's record that the invariant reads. *)
Definition same_local (c c' : local) : Prop :=
  thread c' = thread c /\ process c' = process c /\ idle_proc c' = idle_proc c.

Lemma ok_local s cs k c c' : ok s cs -> cs !! k = Some c -> same_local c c' -> ok s (<[k := c']> cs).
Proof.
  intros [Hs Hc H1 H2 H3 H4 H5] Hk (E1 & E2 & E3).
  assert (Hb : forall j x, <[k := c']> cs !! j = Some x -> exists y, cs !! j = Some y /\ same_local y x).
  { intros j x [[-> ->]|[_ Hj]]%place_cases; [by exists c|by exists x]. }
  assert (Hi : forall x y u, same_local y x -> idle_of s x u -> idle_of s y u)
    by (intros x y u (_ & _ & E) (pr & Hp & Hv); rewrite E in Hp; by exists pr).
  split; [done|..].
  - intros j x (y & Hj & F1 & F2 & F3)%Hb. destruct (Hc j y Hj) as [Hcur Hid]. split; rewrite ?F1, ?F2, ?F3; done.
  - intros i j x y Hne (x' & Hi' & F1 & _)%Hb (y' & Hj' & F2 & _)%Hb. rewrite F1, F2. by apply (H1 i j).
  - intros u th Hu Hr. destruct (H2 u th Hu Hr) as (j & x & Hj & <-). destruct (decide (j = k)) as [->|Hne].
    + exists k, c'. rewrite list_lookup_insert_eq by (by eapply lookup_lt_Some). split; [done|congruence].
    + exists j, x. by rewrite list_lookup_insert_ne.
  - intros i j x y u Hne (x' & Hi' & F1 & _)%Hb (y' & Hj' & F2)%Hb Hu. rewrite F1. exact (H3 i j x' y' u Hne Hi' Hj' (Hi _ _ _ F2 Hu)).
  - intros i j x y Hne (x' & Hi' & _ & _ & F1)%Hb (y' & Hj' & _ & _ & F2)%Hb. rewrite F1, F2. by apply (H4 i j).
  - intros j x u p pr (x' & Hj' & F)%Hb Hu Hp Hin. rewrite (proj2 (proj2 F)). exact (H5 j x' u p pr Hj' (Hi _ _ _ F Hu) Hp Hin).
Qed.

(** A thread is blocked; one that no processor has is made ready. *)
Lemma thread_state_ok s cs u th x :
  ok s cs -> threads s !! u = Some th ->
  x = BLOCKED \/ (x = READY /\ forall k c, cs !! k = Some c -> thread c <> u) ->
  ok (set_threads (<[u := set_tstate x th]> (threads s)) s) cs.
Proof.
  intros [Hs Hc H1 H2 H3 H4 H5] Hu Hx.
  assert (Hk : tstate (set_tstate x th) <> KILLED) by (cbn; by destruct Hx as [-> |[-> _]]).
  destruct (update_thread s u th (set_tstate x th) Hs Hu Hk) as [Hs' Hlive].
  split; [exact Hs'| |done| |done|done|done].
  - intros k c Hkc. destruct (Hc k c Hkc) as [Hcur Hid]. split.
    + destruct Hcur as [|(? & th' & Ht' & ?)]; [by left|right]. split; [auto|]. cbn.
      destruct (decide (u = thread c)) as [->|Hne]; [|exists th'; by rewrite lookup_insert_ne].
      rewrite lookup_insert_eq. eexists. split; [done|]. destruct Hx as [-> |[_ Hx]]; [by right|by destruct (Hx k c Hkc)].
    + destruct Hid as [|(? & ? & ?)]; [by left|right]. split_and!; auto.
  - intros v y. cbn. intros [(<- & <-)|[Hne Hv]]%lookup_insert_Some Hy; [|by apply (H2 v y)].
    cbn in Hy. by destruct Hx as [-> |[-> _]].
Qed.

(** A process that is not an idle one changes its state. *)
Lemma proc_state_ok s cs p pr x :
  ok s cs -> procs s !! p = Some pr -> x <> KILLED -> (forall k c, cs !! k = Some c -> idle_proc c <> p) ->
  ok (set_procs (<[p := set_pstate x pr]> (procs s)) s) cs.
Proof.
  intros [[Hl Ha Htab Hsome [Hn1 Hn2] Hmem [Hx0 Hf]] Hc H1 H2 H3 H4 H5] Hp Hx Hni.
  set (s' := set_procs _ s).
  assert (Hp' : forall q qr, procs s' !! q = Some qr -> exists qr0, procs s !! q = Some qr0 /\ threadsVec qr = threadsVec qr0).
  { intros q qr. cbn. intros [(<- & <-)|[_ Hq]]%lookup_insert_Some; [by exists pr|by exists qr]. }
  assert (Hlive : forall q, live s q -> live s' q).
  { intros q (qr & Hq & Hqk & Hqn & Hqf). unfold live. cbn. destruct (decide (p = q)) as [->|Hne].
    - rewrite lookup_insert_eq. simplify_eq. by eexists.
    - rewrite lookup_insert_ne by done. by exists qr. }
  assert (Hid : forall k c u, cs !! k = Some c -> idle_of s' c u -> idle_of s c u).
  { intros k c u Hk (qr & Hq & Hv). apply Hp' in Hq as (qr0 & Hq & E). exists qr0. split; congruence. }
  split; [split; try done|..].
  - eapply Forall_impl; [exact Htab|exact Hlive].
  - split; [|done]. cbn. rewrite lookup_insert_ne; [done|congruence].
  - intros q qr u (qr0 & Hq & E)%Hp'. rewrite E. by apply (Hmem q).
  - split; [done|]. intros q Hq. destruct (Hf q Hq) as [? ?]. split; [|done]. cbn. rewrite lookup_insert_ne; [done|congruence].
  - intros k c Hk. destruct (Hc k c Hk) as [Hcur Hcid]. split.
    + destruct Hcur as [|(? & ?)]; [by left|right]. split; [auto|done].
    + destruct Hcid as [|(? & ? & qr & u & Hq & ?)]; [by left|right]. split; [auto|]. split; [done|]. exists qr, u.
      cbn. rewrite lookup_insert_ne; [done|]. by apply not_eq_sym, (Hni k).
  - done.
  - done.
  - intros i j x1 y u Hne Hi Hj Hu. exact (H3 i j x1 y u Hne Hi Hj (Hid j y u Hj Hu)).
  - done.
  - intros k c u q qr Hk Hu (qr0 & Hq & E)%Hp'. rewrite E. apply (H5 k c u q qr0 Hk); [by apply (Hid k)|done].
Qed.

(** Splits on the first lookup or test of the code. *)
Ltac look_cases :=
  match goal with
  | |- context [@lookup ?K ?A ?T ?I ?k ?m] => destruct (@lookup K A T I k m) eqn:?
  | |- context [if ?b then _ else _] => destruct b eqn:?
  end.

(** What a request does to the shared state. *)
Inductive effect (r : request) (s : st) : st -> Prop :=
| effect_none s' : same s s' -> effect r s s'
| effect_thread u th x s' :
    threads s !! u = Some th -> x = BLOCKED \/ (x = READY /\ r = UnblockThread u) ->
    same (set_threads (<[u := set_tstate x th]> (threads s)) s) s' -> effect r s s'
| effect_proc p pr x s' :
    procs s !! p = Some pr -> x <> KILLED -> pstate pr <> INITIAL_STATE \/ r = BlockProcOther p ->
    same (set_procs (<[p := set_pstate x pr]> (procs s)) s) s' -> effect r s s'.

Lemma serve_effect r s s' : apicInit s = true -> serve r s = Ret (tt, s') ->
  effect r s s' /\ same_local (local_of s) (local_of s').
Proof.
  intros Ha E. destruct s. cbn in Ha. subst.
  destruct r; revert E; unfold serve, blockThread, blockThread_other, blockProc, blockProc_other, thread_unblock, proc_unblock, _yield;
    run_code; repeat (look_cases; run_code); intros E; try discriminate E; injection E as <-; (split; [|done]).
  all: try (apply effect_none; done).
  all: match goal with
       | H : ?m !! ?u = Some ?th |- context [<[?u := set_tstate ?x ?th]> _] =>
           apply (effect_thread _ _ u th x); [exact H|auto|done]
       | H : ?m !! ?p = Some ?pr |- context [<[?p := set_pstate ?x ?pr]> _] =>
           apply (effect_proc _ _ p pr x); [exact H|done| |done]
       end.
  - left. simplify_eq. intros E. by rewrite E in *.
  - by right.
  - left. simplify_eq. intros E. by rewrite E in *.
Qed.

Lemma call_ok k r s s' :
  ok (shared s) (cores s) -> allowed r s -> call k r s = Ret s' ->
  ok (shared s') (cores s') /\ length (cores s') = length (cores s).
Proof.
  intros H Hr E. unfold call in E. destruct (cores s !! k) as [c|] eqn:Hk; [|done].
  destruct (serve r (view c (shared s))) as [[[] st]| |] eqn:Es; [|done|done]. injection E as <-.
  pose proof (ok_ext _ _ _ (view_same c (shared s)) H) as Hv.
  destruct (serve_effect _ _ _ (so_apic _ (ok_shared _ _ Hv)) Es) as [He Hl].
  split; [|cbn; by rewrite length_insert]. apply (ok_local _ _ k c); [|done|exact Hl].
  destruct He as [st Hsame|u th x st Hu Hx Hsame|p pr x st Hp Hx Hor Hsame]; apply (ok_ext _ _ _ Hsame).
  - exact Hv.
  - apply (thread_state_ok _ _ u th x Hv Hu). destruct Hx as [?|[? ->]]; [by left|right; by split].
  - apply (proc_state_ok _ _ p pr x Hv Hp Hx). intros j y Hj Ej. subst p.
    destruct (co_idle _ _ (ok_cores _ _ Hv j y Hj)) as [Ez|(_ & Hni & pr' & _ & Hp' & Hi & _)].
    + rewrite Ez in Hp. by rewrite (proj1 (so_null _ (ok_shared _ _ Hv))) in Hp.
    + destruct Hor as [Hne| ->]; [congruence|done].
Qed.

Lemma step_keeps_ok s s' : idle <> 0 -> step s s' -> ok (shared s) (cores s) ->
  ok (shared s') (cores s') /\ length (cores s') = length (cores s).
Proof.
  intros Hidle Hstep H. destruct Hstep as [k r s s' Hr E|fuel k regs regs' s s' He E|name addr args p st s Ha E|addr args p u st s Hin E].
  - exact (call_ok k r s s' H Hr E).
  - destruct (cores s !! k) as [c|] eqn:Hk; [|unfold tick in E; by rewrite Hk in E].
    destruct (isInit (shared s)) eqn:Hi.
    + destruct (tick_ok fuel k regs s c Hidle H Hi He Hk) as (regs2 & s2 & c2 & E2 & H2 & Hlen & _).
      rewrite E in E2. injection E2 as <- <-. by split.
    + rewrite (tick_early _ _ _ _ c) in E by done. injection E as <- <-. split; [|done].
      exact (ok_ext _ _ _ (view_same c (shared s)) H).
  - split; [exact (proc_ok name addr args p st s Ha H E)|done].
  - split; [exact (thread_ok addr args p u st s Hin H E)|done].
Qed.

(** ** Every run *)

(** [n] processors before the first process, with the heap from [base] on. *)
Definition start (n : nat) (base : Z) (vector : Z) : t :=
  mk (mkSt false 1 vector [] 0 0 0 false false false ∅ ∅ base 0 0 0 true 0 true [] Pit.initial [])
    (replicate n (mkLocal 0 0 0 true 0 [])).

Lemma start_ok n base vector : 0 < base -> ok (shared (start n base vector)) (cores (start n base vector)).
Proof.
  intros Hb.
  assert (Hr : forall k c, replicate n (mkLocal 0 0 0 true 0 []) !! k = Some c -> c = mkLocal 0 0 0 true 0 [])
    by (intros k c H; by apply lookup_replicate in H as [-> _]).
  split; cbn [shared cores start].
  - by split.
  - intros k c ->%Hr. split; by left.
  - intros j k c c' _ ->%Hr _. done.
  - by intros u th H.
  - intros j k c c' u _ _ _ (pr & H & _). done.
  - intros j k c c' _ _ ->%Hr. done.
  - by intros k c u p pr _ _ H.
Qed.

Lemma run_keeps_ok n base vector s : idle <> 0 -> 0 < base -> rtc step (start n base vector) s ->
  ok (shared s) (cores s) /\ length (cores s) = n.
Proof.
  intros Hidle Hb H. assert (H0 := start_ok n base vector Hb).
  assert (Hlen : length (cores (start n base vector)) = n) by apply length_replicate.
  revert H0 Hlen. induction H as [s|s s1 s2 Hs _ IH]; intros H0 Hlen; [done|].
  destruct (step_keeps_ok s s1 Hidle Hs H0) as [H1 E]. apply IH; [done|congruence].
Qed.

(** C9: the scheduler on several processors is safe.  From the start of any
    number of processors, whatever processes and threads the code creates,
    blocks and unblocks and wherever and whenever the timer interrupts, no thread
    is on two processors; a thread in the state RUNNING is on a processor, and
    one that a processor has is RUNNING, or BLOCKED and waits for the switch; and
    an interrupt of any processor is handled: the switch returns, with the lock
    free, and once there is a process the processor has a thread that runs, if
    need be that of an idle process of its own. *)
Theorem cores_exclusive n base vector s (Hidle : idle <> 0) (Hb : 0 < base)
  (H : rtc step (start n base vector) s) :
  (forall j k c c', j <> k -> cores s !! j = Some c -> cores s !! k = Some c' -> thread c <> 0 -> thread c <> thread c') /\
  (forall u th, threads (shared s) !! u = Some th -> tstate th = RUNNING -> exists k c, cores s !! k = Some c /\ thread c = u) /\
  (forall k c, cores s !! k = Some c -> thread c <> 0 ->
     exists th, threads (shared s) !! thread c = Some th /\ held (tstate th)) /\
  (forall fuel k regs, (k < n)%nat -> enough fuel (shared s) ->
     exists regs' s' c', tick fuel k regs s = Ret (regs', s') /\ sched_lock (shared s') = false /\
       cores s' !! k = Some c' /\
       (isInit (shared s) = true ->
        live (shared s') (process c') /\ exists th, threads (shared s') !! thread c' = Some th /\ tstate th = RUNNING)).
Proof.
  destruct (run_keeps_ok n base vector s Hidle Hb H) as [Hok Hlen].
  split; [apply (ok_apart _ _ Hok)|]. split; [exact (ok_running _ _ Hok)|]. split.
  - intros k c Hk Hne. by destruct (co_current _ _ (ok_cores _ _ Hok k c Hk)) as [[E _]|(_ & ?)].
  - intros fuel k regs Hk He. destruct (lookup_lt_is_Some_2 (cores s) k) as [c Hc]; [lia|].
    destruct (isInit (shared s)) eqn:Hi.
    + destruct (tick_ok fuel k regs s c Hidle Hok Hi He Hc) as (regs' & s' & c' & E & Hok' & Hlen' & Hc' & Hrun).
      exists regs', s', c'.
      split; [done|]. split; [apply (ok_shared _ _ Hok')|]. split; [done|]. intros _. split; [|exact Hrun].
      destruct (co_current _ _ (ok_cores _ _ Hok' k c' Hc')) as [[Ez _]|(Hl' & _)]; [|done].
      destruct Hrun as (th & Hth & _). by rewrite Ez, (proj2 (so_null _ (ok_shared _ _ Hok'))) in Hth.
    + exists regs, (mk (view c (shared s)) (cores s)), c. split; [by apply tick_early|].
      split; [apply (ok_shared _ _ Hok)|]. by split.
Qed.

End Machine.

(** ** Two processors, two processes *)

Definition after_proc (s : t) : t :=
  match createProc no_regs [65] 0x400 0 (shared s) with Ret (_, st) => mk st (cores s) | _ => s end.
Definition after_tick (k : nat) (s : t) : t :=
  match tick no_regs 0x500 3 k no_regs s with Ret (_, s) => s | _ => s end.

Definition after_call (k : nat) (r : request) (s : t) : t := match call k r s with Ret s => s | _ => s end.

#[local] Abbreviation two_procs := (after_proc (after_proc (start 2 0x1000 0x20))).
#[local] Abbreviation both_run := (after_tick 1 (after_tick 0 two_procs)).

Lemma enough_checked s :
  bool_decide (map_Forall (fun _ pr => (length (threadsVec pr) + 2 <= 3)%nat) (procs s)) = true -> enough 3 s.
Proof. intros H%bool_decide_eq_true_1 p pr Hp. exact (H p pr Hp). Qed.

#[local] Abbreviation blocked := (after_call 1 BlockThread both_run).

Lemma blocked_reached : rtc (step no_regs 0x500) (start 2 0x1000 0x20) blocked.
Proof.
  do 2 (eapply rtc_l; [eapply (step_proc _ _ [65] 0x400 0); [lia|vm_compute; reflexivity]|]).
  eapply rtc_l; [eapply (step_tick _ _ 3 0 no_regs); [apply enough_checked|]; vm_compute; reflexivity|].
  eapply rtc_l; [eapply (step_tick _ _ 3 1 no_regs); [apply enough_checked|]; vm_compute; reflexivity|].
  apply rtc_once. eapply (step_call _ _ 1 BlockThread); [exact I|vm_compute; reflexivity].
Qed.

(** A blocked thread stays on its processor until the timer.  Unblocked by
    another processor before that, it is ready and may be taken: two processors
    run it. *)
Example unblocked_twice : exists s1 s2 r s3,
  call 1 BlockThread both_run = Ret s1 /\ call 0 (UnblockThread 0x3320) s1 = Ret s2 /\
  tick no_regs 0x500 3 0 no_regs s2 = Ret (r, s3) /\ thread <$> cores s3 = [0x3320; 0x3320].
Proof.
  eexists _, _, _, _. split; [vm_compute; reflexivity|]. split; [vm_compute; reflexivity|].
  split; [vm_compute; reflexivity|]. vm_compute. reflexivity.
Qed.

Lemma cores_exclusive_witness : exists c c',
  cores blocked !! 0%nat = Some c /\ cores blocked !! 1%nat = Some c' /\ thread c = 0x1110 /\ thread c <> thread c'.
Proof.
  destruct (cores_exclusive no_regs 0x500 2 0x1000 0x20 blocked ltac:(lia) ltac:(lia) blocked_reached) as [H _].
  eexists _, _. split; [vm_compute; reflexivity|]. split; [vm_compute; reflexivity|]. split; [reflexivity|].
  apply (H 0%nat 1%nat); [done|vm_compute; reflexivity|vm_compute; reflexivity|done].
Defined.

End Cores.
