(* ===== verification/Exit.v ===== *)
(** * What an exit leaves behind

    [exitProc] marks the running process; the next switch frees it in
    [clean_proc], but not its place in [proc_table]. *)

From S2P Require Import Prelude PortIO Pit Scheduler.
#[local] Open Scope Z_scope.
#[local] Open Scope machine_scope.

Module Exit.
Import Scheduler.

(** A process that a scan passes: not ready, or none of its threads is. *)
Definition quiet (s : st) (q : Z) : Prop :=
  exists pr, procs s !! q = Some pr /\
    (pstate pr = READY -> Forall (fun u => exists th, threads s !! u = Some th /\ tstate th <> READY) (threadsVec pr)).

Lemma find_ready_quiet l s :
  Forall (fun u => exists th, threads s !! u = Some th /\ tstate th <> READY) l -> find_ready l s = Ret (None, s).
Proof.
  induction 1 as [|u l (th & Hu & Hn) _ IH]; [done|]. cbn [find_ready]. unfold mbind, M_bind, get_thread. rewrite Hu.
  apply is_state_false in Hn as ->. exact IH.
Qed.

Lemma scan_skip q l s : quiet s q -> scan (q :: l) s = scan l s.
Proof.
  intros (pr & Hq & Hr). cbn [scan]. unfold mbind, M_bind, get_proc. rewrite Hq.
  destruct (is_state (pstate pr) READY) eqn:E; cbn [negb]; [|done]. apply is_state_true in E.
  by rewrite find_ready_quiet by auto.
Qed.

Lemma scan_quiet l s : Forall (quiet s) l -> scan l s = Ret (None, s).
Proof. induction 1 as [|q l Hq _ IH]; [done|]. by rewrite scan_skip. Qed.

(** A process that is gone is read. *)
Lemma scan_gone p l s :
  procs s !! p = None -> p ∈ l -> (forall q, q ∈ l -> q <> p -> quiet s q) -> scan l s = Fault.
Proof.
  intros Hp. induction l as [|q l IH]; intros Hin Hq; [by apply not_elem_of_nil in Hin|].
  destruct (decide (q = p)) as [->|Hne].
  - cbn [scan]. unfold mbind, M_bind, get_proc. by rewrite Hp.
  - rewrite scan_skip by (apply Hq; [by left|done]). apply elem_of_cons in Hin as [?|Hin]; [congruence|].
    apply IH; [done|]. intros r Hr. apply Hq. by right.
Qed.

(** [clean_proc] of a killed process with one thread and no relatives. *)
Definition cleaned (p t : Z) (s : st) : st :=
  set_proc_count (proc_count s -64 1) (set_thread_count (thread_count s -64 1)
    (set_procs (delete p (procs s)) (set_threads (delete t (threads s)) s))).

Lemma clean_proc_killed fuel p t pr s :
  p <> 0 -> procs s !! p = Some pr -> pstate pr = KILLED -> threadsVec pr = [t] -> children pr = [] -> parent pr = 0 ->
  is_Some (threads s !! t) -> (3 <= fuel)%nat -> clean_proc fuel p s = Ret (tt, cleaned p t s).
Proof.
  intros Hp0 Hp Hk Ht Hc Hpa [th Hth] Hf. destruct fuel as [|fuel]; [lia|].
  cbn [clean_proc]. destruct (Z.eqb_spec p 0); [done|]. apply is_state_true in Hk.
  unfold mbind, M_bind. unfold get_proc at 1. rewrite Hp, Hk.
  set (s1 := set_thread_count (thread_count s -64 1) (set_threads (delete t (threads s))
    (set_procs (<[p := set_threadsVec [] pr]> (procs s)) s))).
  assert (E1 : clean_children fuel (clean_proc fuel) p 0 s = Ret (tt, s)).
  { destruct fuel as [|fuel]; [lia|]. cbn [clean_children]. unfold mbind, M_bind, get_proc. by rewrite Hp, Hc. }
  assert (E2 : reap_all fuel p 0 s = Ret (tt, s1)).
  { destruct fuel as [|[|fuel]]; [lia..|]. cbn [reap_all]. unfold reap, free_thread. run_code. look_up. rewrite Ht. run_code.
    look_up. rewrite Ht. run_code. look_up. rewrite lookup_insert_eq. reflexivity. }
  assert (E3 : orphan_check (clean_proc fuel) p s1 = Ret (tt, s1)).
  { unfold orphan_check. run_code. rewrite lookup_insert_eq. cbn. by rewrite Hpa. }
  rewrite E1, E2, E3. unfold get_proc, free_proc, modify, s1. cbn. rewrite lookup_insert_eq. do 2 f_equal.
  unfold cleaned. destruct s. cbn. by rewrite delete_insert_eq.
Qed.

Lemma quiet_mono s s' q :
  procs s' !! q = procs s !! q ->
  (forall qr u, procs s !! q = Some qr -> u ∈ threadsVec qr -> threads s' !! u = threads s !! u) ->
  quiet s q -> quiet s' q.
Proof.
  intros Hp Ht (qr & Hq & Hr). exists qr. split; [congruence|]. intros E. specialize (Hr E).
  rewrite Forall_forall in Hr |- *. intros u Hu. rewrite (Ht qr u Hq Hu). by apply Hr.
Qed.

(** ** The last process that was ready exits *)

(** The running process [pr] has one thread and no relatives, is not the first
    one, and no other process behind the first of the table is ready; [pi] is
    the idle process, with the thread [i]; no thread is in two processes. *)
Record last_ready (s : st) (pr pi : process_t) (i : Z) : Prop := {
  lr_wf : wf s;
  lr_process : procs s !! currentProcess s = Some pr;
  lr_thread : threadsVec pr = [currentThread s];
  lr_relatives : children pr = [] /\ parent pr = 0;
  lr_init : currentProcess s <> initproc s;
  lr_idle : procs s !! idleP s = Some pi /\ threadsVec pi = [i] /\ pstate pi <> READY;
  lr_table : currentProcess s ∈ drop 1 (proc_table s) /\ idleP s ∉ drop 1 (proc_table s);
  lr_apart q r qr rr u : procs s !! q = Some qr -> procs s !! r = Some rr -> u ∈ threadsVec qr -> u ∈ threadsVec rr -> q = r;
  lr_quiet q : q ∈ drop 1 (proc_table s) -> q <> currentProcess s -> quiet s q;
}.

Definition exited (pr : process_t) (s : st) : st :=
  set_oneshots (oneshots s ++ [(sched_vector s, 1)])
    (set_IF true (set_procs (<[currentProcess s := set_pstate KILLED pr]> (procs s)) s)).

Section Exiting.
Context (junk : registers_t) (idle : Z) (fuel : nat) (s : st) (pr pi : process_t) (i : Z).
Context (H : last_ready s pr pi i) (He : enough fuel s).

Lemma exitProc_run : exitProc s = Ret (tt, exited pr s).
Proof.
  destruct H as [Hw Hp _ _ Hi _ _ _ _]. unfold exitProc. run_code.
  destruct (Z.eqb_spec (currentProcess s) (initproc s)); [done|]. run_code. look_up.
  rewrite yield_apic by apply Hw. by destruct s.
Qed.

Lemma current_not_idle : currentProcess s <> idleP s.
Proof. destruct H as [_ _ _ _ _ _ [H1 H2] _ _]. by intros E; rewrite E in H1. Qed.

Lemma idle_other : i <> currentThread s.
Proof.
  destruct H as [_ Hp Ht _ _ (Hi & Hti & _) _ Ha _]. intros E. apply current_not_idle.
  apply (Ha _ _ pr pi i Hp Hi); [rewrite Ht, E|rewrite Hti]; by apply list_elem_of_singleton.
Qed.

(** Threads of processes that are passed are neither the one that exits nor the
    idle one. *)
Lemma passed q qr u :
  q ∈ drop 1 (proc_table s) -> q <> currentProcess s -> procs s !! q = Some qr -> u ∈ threadsVec qr ->
  u <> currentThread s /\ u <> i.
Proof.
  destruct H as [_ Hp Ht _ _ (Hi & Hti & _) [_ Hni] Ha _]. intros Hq Hne Hqr Hu. split; intros ->.
  - apply Hne. apply (Ha q _ qr pr (currentThread s)); [done..|]. rewrite Ht. by apply list_elem_of_singleton.
  - assert (E : q = idleP s); [|by subst].
    apply (Ha q _ qr pi i); [done..|]. rewrite Hti. by apply list_elem_of_singleton.
Qed.

(** The switch after the exit, up to the idle process. *)
Lemma exit_next regs :
  let s1 := set_IF true (set_sched_lock true (interrupted regs (exited pr s))) in
  next fuel (currentProcess s) (currentThread s) s1 = Ret (None, s1).
Proof.
  destruct H as [Hw Hp Ht _ _ (Hi & Hti & _) [Hin Hni] Ha Hq]. intros s1.
  pose proof (wf_current s Hw) as (_ & [th Hth]).
  assert (E1 : procs s1 = <[currentProcess s := set_pstate KILLED pr]> (procs s)) by (unfold s1, interrupted; cbn; by rewrite Hth).
  assert (E2 : threads s1 = <[currentThread s := preempt regs th]> (threads s)) by (unfold s1, interrupted; cbn; by rewrite Hth).
  assert (E3 : proc_table s1 = proc_table s) by (unfold s1, interrupted; cbn; by rewrite Hth).
  unfold next, mbind, M_bind. unfold get_proc at 1. rewrite E1, lookup_insert_eq. cbn [pstate set_pstate is_state].
  change (is_state KILLED READY) with false. unfold ret at 1. unfold get. cbv iota beta.
  assert (E4 : after (proc_table s1) (currentProcess s) = drop 1 (proc_table s))
    by (rewrite E3; unfold after, vec_find; by destruct (proc_table s)).
  rewrite E4, scan_quiet; [done|]. apply Forall_forall. intros q Hqin. destruct (decide (q = currentProcess s)) as [->|Hne].
  - eexists. rewrite E1, lookup_insert_eq. split; [done|]. intros E. discriminate E.
  - apply (quiet_mono s); [by rewrite E1, lookup_insert_ne|  |by apply Hq].
    intros qr u Hqr Hu. destruct (passed q qr u Hqin Hne Hqr Hu). by rewrite E2, lookup_insert_ne.
Qed.

(** The state in which the idle process runs. *)
Definition idling (regs : registers_t) (thi : thread_t) : st :=
  switched (idleP s) i thi pi 1 (cleaned (currentProcess s) (currentThread s)
    (set_IF true (set_sched_lock true (interrupted regs (exited pr s))))).

Lemma run_idle_killed s1 th thi :
  procs s1 = <[currentProcess s := set_pstate KILLED pr]> (procs s) ->
  threads s1 = <[currentThread s := th]> (threads s) -> currentProcess s1 = currentProcess s -> idleP s1 = idleP s ->
  apicInit s1 = true -> IF s1 = true -> threads s !! i = Some thi ->
  run_idle junk idle fuel s1 =
    Ret (thread_regs thi, switched (idleP s) i thi pi 1 (cleaned (currentProcess s) (currentThread s) s1)).
Proof.
  intros E1 E2 E3 E4 E5 E6 Hthi. pose proof idle_other as Hio. pose proof current_not_idle as Hci.
  destruct H as [Hw Hp Ht [Hc Hpa] _ (Hi & Hti & _) _ _ _]. pose proof (wf_null s Hw) as [Hn1 _].
  assert (Hp0 : currentProcess s <> 0) by congruence. assert (Hi0 : idleP s <> 0) by congruence.
  specialize (He _ _ Hp). rewrite Ht in He. cbn in He. unfold run_idle. run_code. rewrite E3.
  assert (Hself : set_IF true (set_IF false s1) = s1) by (destruct s1; cbn in E6; by subst). rewrite Hself.
  rewrite (clean_proc_killed fuel (currentProcess s) (currentThread s) (set_pstate KILLED pr));
    [|done|by rewrite E1, lookup_insert_eq|done..|rewrite E2, lookup_insert_eq; by eexists|lia].
  cbn. rewrite E4. destruct (Z.eqb_spec (idleP s) 0); [done|]. cbn. rewrite E4, lookup_delete_ne by done.
  rewrite E1, lookup_insert_ne by done. rewrite Hi. cbn. rewrite Hti. cbn.
  rewrite (dispatch_spec _ _ thi pi).
  2: { cbn. rewrite lookup_delete_ne by done. by rewrite E2, lookup_insert_ne. }
  2: { cbn. rewrite lookup_delete_ne by done. by rewrite E1, lookup_insert_ne. }
  cbn. rewrite yield_apic by (cbn; congruence). cbn. destruct s1. cbn in *. by subst.
Qed.

Lemma exit_switch regs : exists thi,
  switchTask junk idle fuel regs (exited pr s) = Ret (thread_regs thi, idling regs thi) /\
  threads s !! i = Some thi.
Proof.
  pose proof (exit_next regs) as Hn. cbv zeta in Hn. pose proof run_idle_killed as Hk.
  destruct H as [Hw _ _ _ _ (Hi & Hti & _) _ _ _]. pose proof Hw as [Hinit Hl Hap _ _ [Hn1 Hn2] Hil (Hcl & [th Hth])].
  destruct Hil as (pi' & Hpi' & _ & _ & Hf). rewrite Hi in Hpi'. injection Hpi' as <-. rewrite Hti in Hf.
  apply Forall_cons in Hf as [(thi & Hthi & _) _]. exists thi. split; [|done].
  rewrite switchTask_begin; [|done|done|done|by apply (live_not_null s)|by exists th]. cbv zeta.
  change (currentProcess (exited pr s)) with (currentProcess s). change (currentThread (exited pr s)) with (currentThread s).
  rewrite Hn. apply (Hk _ (preempt regs th)); unfold interrupted; cbn; rewrite ?Hth; try done.
Qed.

(** Its fields. *)
Lemma idling_fields regs thi :
  let s2 := idling regs thi in
  procs s2 = delete (currentProcess s) (procs s) /\
  threads s2 = <[i := set_tstate RUNNING thi]> (delete (currentThread s) (threads s)) /\
  proc_table s2 = proc_table s /\ isInit s2 = isInit s /\
  proc_count s2 = proc_count s -64 1 /\ thread_count s2 = thread_count s -64 1 /\
  currentProcess s2 = idleP s /\ currentThread s2 = i /\ sched_lock s2 = false.
Proof.
  pose proof (wf_current s (lr_wf _ _ _ _ H)) as (_ & [th Hth]). cbv zeta. unfold idling, interrupted.
  change (threads (exited pr s) !! currentThread (exited pr s)) with (threads s !! currentThread s). rewrite Hth.
  unfold switched, cleaned, exited.
  cbn [procs threads proc_table isInit proc_count thread_count currentProcess currentThread sched_lock idleP
    set_oneshots set_sched_lock set_cr3 set_threads set_currentThread set_currentProcess set_IF set_procs
    set_proc_count set_thread_count].
  rewrite !delete_insert_eq. done.
Qed.

(** The interrupt that comes next. *)
Lemma dangling_faults regs s2 thi :
  isInit s2 = true -> sched_lock s2 = false -> currentProcess s2 = idleP s -> currentThread s2 = i ->
  procs s2 = delete (currentProcess s) (procs s) ->
  threads s2 = <[i := set_tstate RUNNING thi]> (delete (currentThread s) (threads s)) ->
  threads s !! i = Some thi -> proc_table s2 = proc_table s ->
  switchTask junk idle fuel regs s2 = Fault.
Proof.
  intros Hinit E9 E7 E8 E1 E2 Hthi E3. pose proof current_not_idle as Hci. pose proof passed as Hpass.
  destruct H as [Hw Hp _ _ _ (Hi & Hti & Hns) [Hin Hni] _ Hq]. pose proof (wf_null s Hw) as [Hn1 Hn2].
  assert (Hi0 : i <> 0) by congruence. assert (Hp0 : idleP s <> 0) by congruence.
  rewrite switchTask_begin; [|done|done| | |].
  2: { rewrite E2, lookup_insert_ne by done. destruct (decide (currentThread s = 0)) as [->|]; [apply lookup_delete_eq|].
       by rewrite lookup_delete_ne. }
  2: { by rewrite E7. } 2: { rewrite E8, E2, lookup_insert_eq. by eexists. }
  cbv zeta. rewrite E7, E8. set (s3 := set_IF true (set_sched_lock true (interrupted regs s2))).
  assert (F1 : procs s3 = procs s2 /\ proc_table s3 = proc_table s) by (unfold s3, interrupted; rewrite <- E3; by case_match).
  assert (F2 : forall u, u <> i -> threads s3 !! u = threads s2 !! u).
  { intros u Hu. unfold s3, interrupted. rewrite E8. case_match; [|done]. cbn. by rewrite lookup_insert_ne. }
  clearbody s3. destruct F1 as [F1 F3]. unfold next, mbind, M_bind. unfold get_proc at 1.
  rewrite F1, E1, lookup_delete_ne, Hi by done. apply is_state_false in Hns as ->. unfold ret at 1. unfold get. cbv iota beta.
  assert (F4 : after (proc_table s3) (idleP s) = drop 1 (proc_table s))
    by (rewrite F3; unfold after, vec_find; by destruct (proc_table s)).
  rewrite F4, (scan_gone (currentProcess s)); [reflexivity|by rewrite F1, E1, lookup_delete_eq|exact Hin|].
  intros q Hqin Hne. apply (quiet_mono s); [by rewrite F1, E1, lookup_delete_ne| |by apply Hq].
  intros qr u Hqr Hu. destruct (Hpass q qr u Hqin Hne Hqr Hu). rewrite F2, E2, lookup_insert_ne by done.
  by rewrite lookup_delete_ne.
Qed.

(** C40: an exit brings the kernel down.  When the running process, whose only
    thread runs, calls [exitProc] and nothing else behind the first process of
    the table is ready, the next timer interrupt frees exactly the process and
    its thread, counts them off and runs the idle process; but the process stays
    in [proc_table], and the interrupt after that reads the freed object. *)
Theorem exit_dangles regs regs' :
  exists s1 r s2, exitProc s = Ret (tt, s1) /\ switchTask junk idle fuel regs s1 = Ret (r, s2) /\
    currentProcess s2 = idleP s /\ currentThread s2 = i /\ sched_lock s2 = false /\
    procs s2 = delete (currentProcess s) (procs s) /\
    (forall u, u <> i -> threads s2 !! u = if decide (u = currentThread s) then None else threads s !! u) /\
    proc_count s2 = proc_count s -64 1 /\ thread_count s2 = thread_count s -64 1 /\
    proc_table s2 = proc_table s /\
    switchTask junk idle fuel regs' s2 = Fault.
Proof.
  destruct (exit_switch regs) as (thi & E & Hthi). exists (exited pr s), (thread_regs thi), (idling regs thi).
  split; [apply exitProc_run|]. split; [exact E|]. pose proof current_not_idle as Hci. pose proof idle_other as Hio.
  pose proof passed as Hpass. destruct H as [Hw Hp _ _ _ (Hi & Hti & Hns) [Hin Hni] _ Hq].
  pose proof (wf_current s Hw) as (_ & [th Hth]). pose proof (wf_null s Hw) as [Hn1 Hn2].
  set (s2 := idling regs thi).
  destruct (idling_fields regs thi) as (E1 & E2 & E3 & Hinit & E5 & E6 & E7 & E8 & E9). fold s2 in E1, E2, E3, Hinit, E5, E6, E7, E8, E9.
  rewrite (wf_init s Hw) in Hinit. clearbody s2. split_and!; try done.
  - intros u Hu. rewrite E2, lookup_insert_ne by done. case_decide as Eu; [by rewrite Eu, lookup_delete_eq|by rewrite lookup_delete_ne by congruence].
  - apply (dangling_faults regs' s2 thi); done.
Qed.

End Exiting.

(** Of two processes the second one exits. *)
Lemma demo_last_ready : last_ready demo (created_proc [66] 2 0x200 12) (mkProcess [67] 3 2 INITIAL_STATE 0x300 [13] [] 0) 13.
Proof.
  split; try done.
  - exact sched_demo_wf.
  - split; [cbn; by left|]. intros Hin. cbn in Hin. apply list_elem_of_singleton in Hin. discriminate Hin.
  - intros q r qr rr u Hq Hr Hu Hu'. cbn in Hq, Hr. rewrite !lookup_insert in Hq, Hr.
    repeat case_decide; simplify_eq/=; try done;
      apply list_elem_of_singleton in Hu; apply list_elem_of_singleton in Hu'; congruence.
  - intros q Hq Hne. cbn in Hq, Hne. apply list_elem_of_singleton in Hq. congruence.
Qed.

Lemma exit_dangles_witness : exists s1 r s2,
  exitProc demo = Ret (tt, s1) /\ switchTask no_regs 0 3 no_regs s1 = Ret (r, s2) /\
  proc_table s2 = [1; 2] /\ procs s2 !! 2 = None /\ switchTask no_regs 0 3 no_regs s2 = Fault.
Proof.
  destruct (exit_dangles no_regs 0 3 demo _ _ 13 demo_last_ready demo_enough no_regs no_regs)
    as (s1 & r & s2 & E1 & E2 & _ & _ & _ & Hp & _ & _ & _ & Ht & E3).
  exists s1, r, s2. split; [exact E1|]. split; [exact E2|]. split; [exact Ht|].
  split; [rewrite Hp; reflexivity|exact E3].
Defined.

End Exit.
