(* ===== verification/Idt.v ===== *)
(** * Interrupts: [system/CPU/IDT/idt.cpp], [system/CPU/PIC/pic.cpp], and the
    power events and initialisation of [system/CPU/APIC/apic.cpp]

    The interrupt descriptor table, the table of handlers and the dispatch that
    the stubs of [idt.asm] call with the interrupted registers.  A handler gets
    and changes the registers and the kernel's state, of which the scheduler's
    is the part that matters here; its history of device accesses is [ports]. *)

From S2P Require Import Prelude Mem PortIO Mmio Cpu Acpi Pit Clock Apic Scheduler.
#[local] Open Scope Z_scope.
#[local] Open Scope machine_scope.
#[local] Existing Instance Scheduler.M_bind.

(** ** The legacy controllers *)
Module Pic.

Definition PIC1_COMMAND : Z := 0x20.
Definition PIC2_COMMAND : Z := 0xA0.
Definition PIC_END_OF_INTERRUPT : Z := 0x20.

Definition endOfInterrupt (interruptNumber : Z) (h : PortIO.history) : PortIO.history :=
  let h := if 40 <=? interruptNumber then PortIO.outb PIC2_COMMAND PIC_END_OF_INTERRUPT h else h in
  PortIO.outb PIC1_COMMAND PIC_END_OF_INTERRUPT h.

Definition disable (h : PortIO.history) : PortIO.history :=
  let h := PortIO.outb 0xA1 0xFF h in PortIO.outb 0x21 0xFF h.

Definition init (h : PortIO.history) : PortIO.history :=
  let h := PortIO.outb 0x20 0x11 h in
  let h := PortIO.outb 0xA0 0x11 h in
  let h := PortIO.outb 0x21 0x20 h in
  let h := PortIO.outb 0xA1 0x28 h in
  let h := PortIO.outb 0x21 0x04 h in
  let h := PortIO.outb 0xA1 0x02 h in
  let h := PortIO.outb 0x21 0x01 h in
  let h := PortIO.outb 0xA1 0x01 h in
  let h := PortIO.outb 0x21 0x00 h in
  PortIO.outb 0xA1 0x00 h.

End Pic.

(** ** The descriptor table and the handlers *)
Module Idt.

Definition SYSCALL : Z := 0x69.
Definition IRQ0 : Z := 32.
Definition IRQ1 : Z := 33.
Definition IRQ4 : Z := 36.
Definition IRQ12 : Z := 44.

Record IDTEntry : Type := mkEntry {
  Offset1 : Z; Selector : Z; IST : Z; TypeAttr : Z; Offset2 : Z; Offset3 : Z; Zero : Z;
}.

Definition empty_entry : IDTEntry := mkEntry 0 0 0 0 0 0 0.

(** [idtr] is the limit and the base; a handler is its address, 0 for none. *)
Record t : Type := mk {
  isInit : bool; idt_lock : bool; idt : list IDTEntry; idtr : Z * Z;
  interrupt_handlers : list Z; next_free : Z;
}.

Definition initial : t := mk false false (replicate 256 empty_entry) (0, 0) (replicate 256 0) 48.

Definition with_init (s : t) : t := mk true (idt_lock s) (idt s) (idtr s) (interrupt_handlers s) (next_free s).
Definition with_lock (b : bool) (s : t) : t := mk (isInit s) b (idt s) (idtr s) (interrupt_handlers s) (next_free s).
Definition with_idt (l : list IDTEntry) (s : t) : t := mk (isInit s) (idt_lock s) l (idtr s) (interrupt_handlers s) (next_free s).
Definition with_idtr (p : Z * Z) (s : t) : t := mk (isInit s) (idt_lock s) (idt s) p (interrupt_handlers s) (next_free s).
Definition with_handlers (l : list Z) (s : t) : t := mk (isInit s) (idt_lock s) (idt s) (idtr s) l (next_free s).
Definition with_free (v : Z) (s : t) : t := mk (isInit s) (idt_lock s) (idt s) (idtr s) (interrupt_handlers s) v.

Definition entry_of (isr typeattr ist : Z) : IDTEntry :=
  mkEntry (u16 isr) 0x28 ist typeattr (u16 (Z.shiftr isr 16)) (u32 (Z.shiftr isr 32)) 0.

(** The vector is a byte, so it is in the table. *)
Definition idtSetDescriptor (vector isr typeattr ist : Z) (s : t) : t :=
  with_idt (<[Z.to_nat (u8 vector) := entry_of isr typeattr ist]> (idt s)) s.

(** What a processor has in its register, and its interrupt flag. *)
Record cpu : Type := mkCpu { loaded : Z * Z; IF : bool }.

Definition reload (s : t) (c : cpu) : cpu := mkCpu (idtr s) true.

Section Init.
(** The stubs of [idt.asm] and the address of the table in the image. *)
Context (int_table : Z -> Z) (idt_address : Z).

Definition init (s : t) (c : cpu) (h : PortIO.history) : result (t * cpu * PortIO.history) :=
  if isInit s then Ret (s, c, h) else
  held ← spin_lock (idt_lock s);
  let s := with_lock held s in
  let s := with_idtr (16 * 256 - 1, idt_address) s in
  s ← for_loop 256 0 (fun i s => Ret (idtSetDescriptor i (int_table i) 0x8E 0 s)) s;
  let s := idtSetDescriptor SYSCALL (int_table SYSCALL) 0xEE 0 s in
  let h := Pic.init h in
  let c := reload s c in
  Ret (with_lock false (with_init s), c, h).

End Init.

(** [++next_free], which wraps, and once more at [SYSCALL]. *)
Definition allocVector (s : t) : t * Z :=
  let v := u8 (next_free s + 1) in
  let v := if v =? SYSCALL then u8 (v + 1) else v in
  (with_free v s, v).

Section Dispatch.
Context (d : Mmio.machine) (m : mem) (acpi : Acpi.t).

Definition registerInterruptHandler (vector handler : Z) (ioapic : bool) (a : Apic.t) (s : t)
    (h : PortIO.history) : result (t * PortIO.history) :=
  let s := with_handlers (<[Z.to_nat vector := handler]> (interrupt_handlers s)) s in
  if ioapic && Apic.isInit a && (31 <? vector) && (vector <? 48) then
    h ← Apic.ioapicRedirectIRQ d m acpi (u32 (vector - 32)) vector h; Ret (s, h)
  else Ret (s, h).

(** The functions at the handlers' addresses. *)
Context (call : Z -> Scheduler.registers_t -> Scheduler.M Scheduler.registers_t).

Definition end_of_interrupt (a : Apic.t) (int_no : Z) (h : PortIO.history) : PortIO.history :=
  if Apic.isInit a then Apic.endOfInterrupt acpi a h else Pic.endOfInterrupt int_no h.

Definition irq_handler (s : t) (a : Apic.t) (regs : Scheduler.registers_t) :
    Scheduler.M Scheduler.registers_t :=
  let int_no := Scheduler.int_no regs in
  let handler := default 0 (interrupt_handlers s !! Z.to_nat int_no) in
  regs ← (if handler =? 0 then Scheduler.ret regs else call handler regs);
  let int_no := Scheduler.int_no regs in
  _ ← Scheduler.modify (fun st => Scheduler.set_ports (end_of_interrupt a int_no (Scheduler.ports st)) st);
  Scheduler.ret regs.

(** Up to the final [cli; hlt]: the running thread is made ready; [halt] is
    never cleared.  The messages are those of [Diagnostics]. *)
Definition exception_handler (regs : Scheduler.registers_t) : Scheduler.M unit :=
  t ← Scheduler.this_thread;
  th ← Scheduler.get_thread t;
  _ ← (if Scheduler.is_state (Scheduler.tstate th) Scheduler.RUNNING then
         _ ← Scheduler.cli;
         t ← Scheduler.get Scheduler.currentThread;
         _ ← Scheduler.upd_thread t (Scheduler.set_tstate Scheduler.READY);
         Scheduler.sti
       else Scheduler.ret tt);
  Scheduler.cli.

(** What an interrupt ends in: back to the registers, or a halted processor. *)
Inductive outcome : Type :=
| Resume (regs : Scheduler.registers_t)
| Halted.

Definition int_handler (s : t) (a : Apic.t) (regs : Scheduler.registers_t) : Scheduler.M outcome :=
  let int_no := Scheduler.int_no regs in
  if int_no <? 32 then _ ← exception_handler regs; Scheduler.ret Halted
  else if int_no <? 256 then regs ← irq_handler s a regs; Scheduler.ret (Resume regs)
  else Scheduler.ret Halted.

End Dispatch.

(** ** Properties *)

Definition gate_offset (e : IDTEntry) : Z := Offset1 e + Z.shiftl (Offset2 e) 16 + Z.shiftl (Offset3 e) 32.

Lemma gate_offset_entry isr a i : 0 <= isr < 2 ^ 64 -> gate_offset (entry_of isr a i) = isr.
Proof.
  intros Hb. unfold gate_offset, entry_of. cbn -[wrap Z.shiftr Z.shiftl].
  rewrite !Z.shiftl_mul_pow2, !Z.shiftr_div_pow2 by lia. unfold wrap.
  pose proof (Z.div_mod isr (2 ^ 16)). pose proof (Z.div_mod (isr / 2 ^ 16) (2 ^ 16)).
  assert (E1 : isr / 2 ^ 16 / 2 ^ 16 = isr / 2 ^ 32) by (rewrite Z.div_div by lia; done).
  rewrite (Z.mod_small (isr / 2 ^ 32)).
  - rewrite E1 in *. lia.
  - split; [apply Z.div_pos; lia|apply Z.div_lt_upper_bound; lia].
Qed.

(** The loop sets every entry. *)
Lemma set_all_entries int_table s :
  length (idt s) = 256%nat ->
  exists s', for_loop 256 0 (fun i s => Ret (idtSetDescriptor i (int_table i) 0x8E 0 s)) s = Ret s' /\
    length (idt s') = 256%nat /\
    (forall v, 0 <= v < 256 -> idt s' !! Z.to_nat v = Some (entry_of (int_table v) 0x8E 0)) /\
    isInit s' = isInit s /\ idt_lock s' = idt_lock s /\ idtr s' = idtr s /\
    interrupt_handlers s' = interrupt_handlers s /\ next_free s' = next_free s.
Proof.
  intros Hlen.
  destruct (for_loop_inv (fun i s' => length (idt s') = 256%nat /\
    (forall v, 0 <= v < i -> v < 256 -> idt s' !! Z.to_nat v = Some (entry_of (int_table v) 0x8E 0)) /\
    isInit s' = isInit s /\ idt_lock s' = idt_lock s /\ idtr s' = idtr s /\
    interrupt_handlers s' = interrupt_handlers s /\ next_free s' = next_free s)
    256 0 (fun i s => Ret (idtSetDescriptor i (int_table i) 0x8E 0 s)) s) as (s' & E & Hl & He & Hr).
  - split; [done|]. split; [intros; lia|done].
  - intros i s1 Hi (Hl & He & Hr). eexists. split; [reflexivity|]. cbn. rewrite length_insert.
    split; [done|]. split; [|done]. intros v Hv Hv'. rewrite (wrap_small 8 i) by lia.
    destruct (decide (v = i)) as [->|Hne].
    + apply list_lookup_insert_eq. lia.
    + rewrite list_lookup_insert_ne by lia. apply He; lia.
  - exists s'. split; [done|]. split; [done|]. split; [|done]. intros v Hv. apply He; lia.
Qed.

(** After [init] the processor uses the table, whose 256 gates lead to the
    stubs, for every 64-bit address, through selector 0x28 as interrupt gates
    that only the kernel may call, except the system call's, which user code
    may; the sixteen legacy lines are moved to vectors 32 to 47 behind the
    exceptions, the lock is free and interrupts are on. *)
Theorem init_gates int_table addr s c h
  (Hi : isInit s = false) (Hl : idt_lock s = false) (Hlen : length (idt s) = 256%nat)
  (Hs : forall v, 0 <= v < 256 -> 0 <= int_table v < 2 ^ 64) :
  exists s' c', init int_table addr s c h = Ret (s', c', Pic.init h) /\
    loaded c' = (4095, addr) /\ IF c' = true /\ isInit s' = true /\ idt_lock s' = false /\
    interrupt_handlers s' = interrupt_handlers s /\
    forall v, 0 <= v < 256 -> exists e, idt s' !! Z.to_nat v = Some e /\
      gate_offset e = int_table v /\ Selector e = 0x28 /\ IST e = 0 /\
      Z.testbit (TypeAttr e) 7 = true /\ Z.land (TypeAttr e) 0xF = 0xE /\
      Z.land (Z.shiftr (TypeAttr e) 5) 3 = if v =? SYSCALL then 3 else 0.
Proof.
  unfold init. rewrite Hi, Hl. cbn [spin_lock mbind result_bind].
  destruct (set_all_entries int_table (with_idtr (16 * 256 - 1, addr) (with_lock true s)) Hlen)
    as (s1 & E & Hlen1 & He & Hr1 & Hr2 & Hr3 & Hr4 & Hr5).
  rewrite E. cbn [mbind result_bind]. eexists _, _. split; [reflexivity|].
  split; [cbn; by rewrite Hr3|]. do 3 (split; [done|]). split; [cbn; by rewrite Hr4|].
  intros v Hv. change (Z.to_nat (u8 SYSCALL)) with (Z.to_nat SYSCALL).
  destruct (Z.eqb_spec v SYSCALL) as [->|Hne].
  - exists (entry_of (int_table SYSCALL) 0xEE 0). split; [|by split; [apply gate_offset_entry, Hs|]].
    apply list_lookup_insert_eq. rewrite Hlen1. by apply Nat.ltb_lt.
  - exists (entry_of (int_table v) 0x8E 0). split; [|by split; [apply gate_offset_entry, Hs|]].
    unfold idtSetDescriptor, with_init, with_lock, with_idt. cbn -[SYSCALL wrap].
    rewrite list_lookup_insert_ne; [by apply He|]. change (u8 SYSCALL) with SYSCALL. unfold SYSCALL in *. lia.
Qed.

Lemma init_gates_witness :
  exists s' c', init (fun v => 0xFFFFFFFF80001000 + 16 * v) 0x5000 initial (mkCpu (0, 0) false) [] =
    Ret (s', c', Pic.init []) /\ loaded c' = (4095, 0x5000) /\ idt_lock s' = false.
Proof.
  destruct (init_gates (fun v => 0xFFFFFFFF80001000 + 16 * v) 0x5000 initial (mkCpu (0, 0) false) []
    eq_refl eq_refl eq_refl ltac:(intros; lia)) as (s' & c' & E & H1 & _ & _ & H2 & _).
  exists s', c'. split; [exact E|]. split; [exact H1|exact H2].
Defined.

(** [n] vectors in a row. *)
Fixpoint allocs (n : nat) (s : t) : t * list Z :=
  match n with
  | O => (s, [])
  | S n => let '(s, v) := allocVector s in let '(s, l) := allocs n s in (s, v :: l)
  end.

Lemma allocs_run n s : allocs n s = (with_free (next_free (allocs n (with_free (next_free s) initial)).1) s,
                                     (allocs n (with_free (next_free s) initial)).2).
Proof.
  revert s. induction n as [|n IH]; intros s; [by destruct s|]. cbn [allocs]. unfold allocVector. cbn [next_free with_free].
  set (v := if u8 (next_free s + 1) =? SYSCALL then _ else _).
  rewrite (IH (with_free v s)). cbn [next_free with_free].
  rewrite (IH (with_free v (with_free (next_free s) initial))). cbn [next_free with_free]. done.
Qed.

Definition vectors : list Z := map Z.of_nat (seq 49 56 ++ seq 106 150).

Lemma vectors_NoDup : NoDup vectors.
Proof.
  apply NoDup_fmap_2; [apply _|]. apply NoDup_app. split_and!; [apply NoDup_seq| |apply NoDup_seq].
  intros x Hx Hy. apply elem_of_seq in Hx, Hy. lia.
Qed.

Lemma vectors_elem v : v ∈ vectors <-> 49 <= v < 256 /\ v <> SYSCALL.
Proof.
  unfold vectors, SYSCALL. rewrite (list_elem_of_fmap Z.of_nat). split.
  - intros (n & -> & Hn). apply elem_of_app in Hn as [Hn|Hn]; apply elem_of_seq in Hn; lia.
  - intros Hv. exists (Z.to_nat v). split; [lia|]. apply elem_of_app. rewrite !elem_of_seq. lia.
Qed.

Lemma allocs_computed :
  (allocs 206 (with_free 48 initial)).2 = vectors /\
  (allocs 238 (with_free 48 initial)).2 = vectors ++ map Z.of_nat (seq 0 32).
Proof. split; vm_compute; reflexivity. Qed.

Lemma allocs_from_48 n s : next_free s = 48 -> (allocs n s).2 = (allocs n (with_free 48 initial)).2.
Proof. intros Hs. rewrite allocs_run. by rewrite Hs. Qed.

(** The first 206 vectors handed out are the numbers from 49 to 255, each
    once, without the system call's; the next ones are the vectors of the
    processor's exceptions, from 0 on. *)
Theorem allocVector_exhausts s (Hs : next_free s = 48) :
  let l := (allocs 206 s).2 in
  NoDup l /\ (forall v, v ∈ l <-> 49 <= v < 256 /\ v <> SYSCALL) /\
  (allocs 238 s).2 = l ++ map Z.of_nat (seq 0 32).
Proof.
  cbv zeta. rewrite (allocs_from_48 206 s Hs), (allocs_from_48 238 s Hs).
  destruct allocs_computed as [-> ->]. split; [exact vectors_NoDup|]. split; [exact vectors_elem|reflexivity].
Qed.

Lemma allocVector_exhausts_witness :
  NoDup (allocs 206 initial).2 /\ nth 206 (allocs 238 initial).2 255 = 0.
Proof.
  destruct (allocVector_exhausts initial eq_refl) as (H1 & _ & H3). split; [exact H1|]. rewrite H3. reflexivity.
Defined.

Section Switch.
Context (acpi : Acpi.t) (call : Z -> Scheduler.registers_t -> Scheduler.M Scheduler.registers_t).
Context (junk : Scheduler.registers_t) (idle : Z).


(** An exception halts the processor with interrupts off and makes the faulting
    thread ready, so another processor runs it again; before the scheduler has
    a current thread, the handler dereferences a null pointer. *)
Lemma exception_outcome s a regs st :
  Scheduler.int_no regs < 32 ->
  int_handler acpi call s a regs st =
    match Scheduler.threads st !! Scheduler.currentThread st with
    | Some th =>
        Ret (Halted, Scheduler.set_IF false
          (if Scheduler.is_state (Scheduler.tstate th) Scheduler.RUNNING then
             Scheduler.set_IF true (Scheduler.set_threads
               (<[Scheduler.currentThread st := Scheduler.set_tstate Scheduler.READY th]> (Scheduler.threads st)) st)
           else st))
    | None => Fault
    end.
Proof.
  intros Hv. unfold int_handler. replace (_ <? 32) with true by lia. unfold exception_handler.
  Scheduler.run_code. destruct (Scheduler.threads st !! Scheduler.currentThread st) as [th|] eqn:Ht; [|done].
  cbn. destruct (Scheduler.is_state (Scheduler.tstate th) Scheduler.RUNNING); Scheduler.run_code; by rewrite ?Ht.
Qed.

End Switch.

(** The scheduler at vector 49. *)
Definition regs_at (v : Z) : Scheduler.registers_t :=
  Scheduler.mkRegs 0 0 0 0 0 0 0 0 0 0 0 0 0 0 0 v 0 0 0 0 0 0.

Definition idt_demo : t := with_handlers (<[49%nat := 0x1000]> (interrupt_handlers initial)) initial.


End Idt.

(** ** Power events, and the start of the APIC and of the scheduler *)
Module Power.

Definition ACPI_POWER_BUTTON : Z := 0x0100.
Definition ACPI_SLEEP_BUTTON : Z := 0x0200.
Definition ACPI_WAKE : Z := 0x8000.

Section Machine.
Context (m : mem) (acpi : Acpi.t) (cpuid : Z -> option Cpu.leaf).

Definition SCIHandler (fuel : nat) (e : Omtime.env) : result Omtime.env :=
  let d := Omtime.devices e in
  let '(event, h) := Apic.getSCIevent d m acpi (Omtime.log e) in
  if Z.land event ACPI_POWER_BUTTON =? 0 then Ret (Omtime.with_log h e) else
  let h := Acpi.shutdown (Mmio.ports d) m acpi h in
  e ← Omtime.mSleep fuel 50 (Omtime.with_log h e);
  let h := PortIO.outw 0xB004 0x2000 (Omtime.log e) in
  let h := PortIO.outw 0x604 0x2000 h in
  let h := PortIO.outw 0x4004 0x3400 h in
  Ret (Omtime.with_log h e).

(** [SCIHandler_address] is the function's address in the image.  Element 0 of
    an empty [acpi::lapics] is read from storage that was never allocated. *)
Definition apic_init (d : Mmio.machine) (SCIHandler_address : Z) (a : Apic.t) (s : Idt.t) (h : PortIO.history) :
    result (Apic.t * Idt.t * PortIO.history) :=
  if Apic.isInit a then Ret (a, s, h)
  else if negb (Acpi.madt acpi) || (Acpi.madthdr acpi =? 0) then Ret (a, s, h)
  else
    let h := Pic.disable h in
    lapic ← (match Acpi.lapics acpi with l :: _ => Ret l | [] => Fault end);
    let '(a, h) := Apic.lapicInit d m acpi cpuid (Apic.lapic_processorID m lapic) a h in
    let h := Apic.setSCIevent m acpi (Z.lor (Z.lor ACPI_POWER_BUTTON ACPI_SLEEP_BUTTON) ACPI_WAKE) h in
    let '(_, h) := Apic.getSCIevent d m acpi h in
    let sci := Apic.SCI_Interrupt m acpi in
    '(s, h) ← Idt.registerInterruptHandler d m acpi (u8 (sci + 32)) SCIHandler_address true a s h;
    h ← Apic.ioapicRedirectIRQ d m acpi sci (u8 (sci + 32)) h;
    h ← Apic.ioapicRedirectIRQ d m acpi 4 36 h;
    Ret (Apic.with_init a, s, h).

(** [scheduler::init] with the interrupt table: with the APIC the vector is
    allocated once and the timer made periodic; otherwise the gate of
    [sched_vector], 0 until then, is changed. *)
Definition sched_init (int_table : Z -> Z) (switchTask_address : Z) (fuel : nat) (a : Apic.t) (s : Idt.t)
    (st : Scheduler.st) (e : Omtime.env) : result (Apic.t * Idt.t * Scheduler.st * Omtime.env) :=
  let d := Omtime.devices e in
  if Apic.isInit a then
    '(s, st, h) ← (if Scheduler.sched_vector st =? 0 then
        let '(s, v) := Idt.allocVector s in
        let st := Scheduler.set_sched_vector v st in
        '(s, h) ← Idt.registerInterruptHandler d m acpi v switchTask_address true a s (Omtime.log e);
        Ret (Idt.idtSetDescriptor v (int_table v) 0x8E 1 s, st, h)
      else Ret (s, st, Omtime.log e));
    '(a, e) ← Apic.lapicPeriodic d acpi fuel (Scheduler.sched_vector st) 1 a (Omtime.with_log h e);
    Ret (a, s, st, e)
  else
    let s := Idt.idtSetDescriptor (Scheduler.sched_vector st) (int_table Idt.IRQ0) 0x8E 1 s in
    Ret (a, s, Scheduler.set_pit (Pit.with_scheduling (Scheduler.pit st)) st, e).

(** Without the APIC the gate of the division error is made to lead to the
    timer's stub. *)
Lemma sched_init_replaces_divide_error int_table addr fuel a s st e :
  Apic.isInit a = false -> Scheduler.sched_vector st = 0 -> (0 < length (Idt.idt s))%nat ->
  exists s' st', sched_init int_table addr fuel a s st e = Ret (a, s', st', e) /\
    Idt.idt s' !! 0%nat = Some (Idt.entry_of (int_table Idt.IRQ0) 0x8E 1).
Proof.
  intros Ha Hv Hl. unfold sched_init. rewrite Ha, Hv. eexists _, _. split; [reflexivity|].
  cbn. by apply list_lookup_insert_eq.
Qed.

(** A handler registered before the APIC is initialised is not routed to it. *)
Lemma early_registration_unrouted d vector handler io a s h :
  Apic.isInit a = false ->
  Idt.registerInterruptHandler d m acpi vector handler io a s h =
    Ret (Idt.with_handlers (<[Z.to_nat vector := handler]> (Idt.interrupt_handlers s)) s, h).
Proof. intros Ha. unfold Idt.registerInterruptHandler. by rewrite Ha, andb_false_r. Qed.

End Machine.

End Power.
