(* ===== verification/Smp.v ===== *)
(** * Starting the processors: [system/CPU/SMP/smp.cpp]

    The boot processor prepares every processor's stacks and gives the others
    their entry point, [cpu_init]; then it waits until all have counted
    themselves.  [cpu_init] runs up to the count under a lock, so a processor
    does that part in one step, and what follows in another; the order of the
    steps is free. *)

From S2P Require Import Prelude Mem PortIO Mmio Cpu Acpi Clock Apic Gdt Scheduler Idt.
#[local] Open Scope Z_scope.
#[local] Open Scope machine_scope.
#[local] Existing Instance result_bind.

Module Smp.

(** [cpu_t]; [fpu] tells which pair of functions saves and restores. *)
Inductive fpu : Type := NoFpu | Xsave | Fxsave.

Record cpu_t : Type := mkCpu {
  cpuID : Z; lapicID : Z; tss : Z; fpuStorageSize : Z; fpuSave : fpu; isUp : bool;
}.

Definition zero_cpu : cpu_t := mkCpu 0 0 0 0 NoFpu false.
Definition set_cpuID (v : Z) (c : cpu_t) : cpu_t := mkCpu v (lapicID c) (tss c) (fpuStorageSize c) (fpuSave c) (isUp c).

(** [stivale2_smp_info]; [goto_address] tells whether the entry point is set. *)
Record info : Type := mkInfo { lapic_id : Z; target_stack : Z; started : bool; extra_argument : Z }.

(** What a processor has in its registers. *)
Record core : Type := mkCore { tables : Gdt.cpu; interrupts : Idt.cpu; control : Cpu.regs }.

(** Where a processor is: not started, in [cpu_init], up, or scheduling. *)
Inductive place : Type := Off | Waiting | Up | Running.

Section System.
(** The rest of the kernel's state: what the heap needs besides the memory. *)
Context {K : Type}.

Record t : Type := mk {
  isInit : bool; cpu_lock : bool; cpusUp : Z; cpus : list cpu_t; infos : list info; next : nat;
  places : list place; cores : list core; gdt : Gdt.t; idt : Idt.t; apic : Apic.t; sched : Scheduler.st;
  clocks : Omtime.env; memory : mem; rest : K;
}.

Definition with_lock (b : bool) (s : t) : t :=
  mk (isInit s) b (cpusUp s) (cpus s) (infos s) (next s) (places s) (cores s) (gdt s) (idt s) (apic s) (sched s) (clocks s) (memory s) (rest s).
Definition with_init (s : t) : t :=
  mk true (cpu_lock s) (cpusUp s) (cpus s) (infos s) (next s) (places s) (cores s) (gdt s) (idt s) (apic s) (sched s) (clocks s) (memory s) (rest s).
Definition with_up (n : Z) (s : t) : t :=
  mk (isInit s) (cpu_lock s) n (cpus s) (infos s) (next s) (places s) (cores s) (gdt s) (idt s) (apic s) (sched s) (clocks s) (memory s) (rest s).
Definition with_cpus (l : list cpu_t) (s : t) : t :=
  mk (isInit s) (cpu_lock s) (cpusUp s) l (infos s) (next s) (places s) (cores s) (gdt s) (idt s) (apic s) (sched s) (clocks s) (memory s) (rest s).
Definition with_infos (l : list info) (s : t) : t :=
  mk (isInit s) (cpu_lock s) (cpusUp s) (cpus s) l (next s) (places s) (cores s) (gdt s) (idt s) (apic s) (sched s) (clocks s) (memory s) (rest s).
Definition with_next (n : nat) (s : t) : t :=
  mk (isInit s) (cpu_lock s) (cpusUp s) (cpus s) (infos s) n (places s) (cores s) (gdt s) (idt s) (apic s) (sched s) (clocks s) (memory s) (rest s).
Definition with_place (k : nat) (p : place) (s : t) : t :=
  mk (isInit s) (cpu_lock s) (cpusUp s) (cpus s) (infos s) (next s) (<[k := p]> (places s)) (cores s) (gdt s) (idt s) (apic s) (sched s) (clocks s) (memory s) (rest s).
Definition with_core (k : nat) (c : core) (g : Gdt.t) (s : t) : t :=
  mk (isInit s) (cpu_lock s) (cpusUp s) (cpus s) (infos s) (next s) (places s) (<[k := c]> (cores s)) g (idt s) (apic s) (sched s) (clocks s) (memory s) (rest s).
Definition with_clocks (e : Omtime.env) (s : t) : t :=
  mk (isInit s) (cpu_lock s) (cpusUp s) (cpus s) (infos s) (next s) (places s) (cores s) (gdt s) (idt s) (apic s) (sched s) e (memory s) (rest s).
Definition with_memory (m : mem) (k : K) (s : t) : t :=
  mk (isInit s) (cpu_lock s) (cpusUp s) (cpus s) (infos s) (next s) (places s) (cores s) (gdt s) (idt s) (apic s) (sched s) (clocks s) m k.
Definition with_system (a : Apic.t) (i : Idt.t) (st : Scheduler.st) (e : Omtime.env) (s : t) : t :=
  mk (isInit s) (cpu_lock s) (cpusUp s) (cpus s) (infos s) (next s) (places s) (cores s) (gdt s) i a st e (memory s) (rest s).

Definition at_ {A} (l : list A) (k : nat) : result A := match l !! k with Some x => Ret x | None => Fault end.

Definition bit_XSAVE : Z := Z.shiftl 1 26.
Definition bit_AVX : Z := Z.shiftl 1 28.
Definition bit_AVX512F : Z := Z.shiftl 1 16.
Definition SIZEOF_CPU : Z := 80.

Section Code.
(** The instruction [cpuid], the kernel's page map, the address of [cpus], the
    boot processor's number, the heap's [malloc], and what the start of the
    scheduler needs. *)
Context (cpuid : Z -> option Cpu.leaf) (kernel_cr3 cpus_address bsp_lapic_id : Z) (malloc : mem -> K -> Z -> result (mem * Z * K)).
Context (acpi : Acpi.t) (int_table : Z -> Z) (switchTask_address : Z) (fuel : nat).

(** The state of the floating-point unit: the control registers, the size and
    the functions.  [c] is overwritten by the second [cpuid]. *)
Definition fpu_setup (r : Cpu.regs) : result (Cpu.regs * Z * fpu) :=
  let c := match cpuid 1 with Some l => Cpu.ecx l | None => 0 end in
  if Z.land c bit_XSAVE =? 0 then Ret (r, 512, Fxsave) else
  cr4 ← Cpu.read_cr 4 r;
  let r := Cpu.write_cr 4 (Z.lor cr4 (Z.shiftl 1 18)) r in
  let xcr0 := Z.lor (Z.shiftl 1 0) (Z.shiftl 1 1) in
  let xcr0 := if Z.land c bit_AVX =? 0 then xcr0 else Z.lor xcr0 (Z.shiftl 1 2) in
  let '(xcr0, c) :=
    match cpuid 7 with
    | Some l =>
        (if Z.land (Cpu.ebx l) bit_AVX512F =? 0 then xcr0
         else Z.lor (Z.lor (Z.lor xcr0 (Z.shiftl 1 5)) (Z.shiftl 1 6)) (Z.shiftl 1 7), Cpu.ecx l)
    | None => (xcr0, c)
    end in
  r ← Cpu.wrxcr 0 xcr0 r;
  Ret (r, c, Xsave).

(** [cpu_init] up to the unlock, on processor [k]; [thisCPU] is the element
    whose number is at the address in the segment register. *)
Definition cpu_init (k : nat) (s : t) : result t :=
  held ← spin_lock (cpu_lock s);
  let s := with_lock held s in
  cpu ← at_ (infos s) k;
  co ← at_ (cores s) k;
  '(g, tb) ← Gdt.reloadAll (lapic_id cpu) (gdt s) (tables co);
  let ints := Idt.reload (idt s) (interrupts co) in
  let r := Cpu.write_cr 3 kernel_cr3 (control co) in
  let addr := cpus_address + SIZEOF_CPU * extra_argument cpu in
  let h := Cpu.set_user_gs addr (Cpu.set_kernel_gs addr (Omtime.log (clocks s))) in
  let s := with_clocks (Omtime.with_log h (clocks s)) s in
  arg ← at_ (cpus s) (Z.to_nat (extra_argument cpu));
  let this := Z.to_nat (cpuID arg) in
  me ← at_ (cpus s) this;
  r ← Cpu.enableSSE r;
  r ← Cpu.enableSMEP cpuid r;
  r ← Cpu.enableSMAP cpuid r;
  r ← Cpu.enableUMIP cpuid r;
  '(r, size, f) ← fpu_setup r;
  let me := mkCpu (cpuID me) (lapic_id cpu) (Gdt.tss_at g (lapic_id cpu)) size f true in
  let s := with_core k (mkCore tb ints r) g s in
  let s := with_cpus (<[this := me]> (cpus s)) s in
  let s := with_up (s32 (cpusUp s + 1)) s in
  Ret (with_lock false s).

(** The rest of [cpu_init] on a processor other than the boot processor. *)
Definition cpu_go (k : nat) (s : t) : result t :=
  cpu ← at_ (infos s) k;
  if lapic_id cpu =? bsp_lapic_id then Ret s else
  arg ← at_ (cpus s) (Z.to_nat (extra_argument cpu));
  me ← at_ (cpus s) (Z.to_nat (cpuID arg));
  let '(a, h) :=
    if Apic.isInit (apic s)
    then Apic.lapicInit (Omtime.devices (clocks s)) (memory s) acpi cpuid (u8 (lapicID me)) (apic s) (Omtime.log (clocks s))
    else (apic s, Omtime.log (clocks s)) in
  '(a, i, st, e) ← Power.sched_init (memory s) acpi int_table switchTask_address fuel a (idt s) (sched s)
                     (Omtime.with_log h (clocks s));
  Ret (with_system a i st e s).

Definition STACK_SIZE : Z := 0x2000.

(** The body of the loop of [init], and what follows the loop. *)
Definition setup (i : nat) (s : t) : result t :=
  cpu ← at_ (infos s) i;
  me ← at_ (cpus s) i;
  let cpu := mkInfo (lapic_id cpu) (target_stack cpu) (started cpu) (Z.of_nat i) in
  let s := with_cpus (<[i := set_cpuID (Z.of_nat i) me]> (cpus s)) (with_infos (<[i := cpu]> (infos s)) s) in
  '(m, sched_stack, r) ← malloc (memory s) (rest s) STACK_SIZE;
  let s := with_memory (store64 m (Gdt.tss_at (gdt s) (Z.of_nat i) + Gdt.IST0) sched_stack) r s in
  if negb (bsp_lapic_id =? lapic_id cpu) then
    '(m, stack, r) ← malloc (memory s) (rest s) STACK_SIZE;
    let m := Gdt.setStack (Z.of_nat i) stack (gdt s) m in
    let cpu := mkInfo (lapic_id cpu) (stack +64 STACK_SIZE) true (extra_argument cpu) in
    Ret (with_place i Waiting (with_memory m r (with_infos (<[i := cpu]> (infos s)) s)))
  else
    s ← cpu_init i s;
    Ret (with_place i Up s).

Definition main_step (s : t) : result t :=
  if (next s <? length (infos s))%nat then s ← setup (next s) s; Ret (with_next (S (next s)) s)
  else if u64 (cpusUp s) <? Z.of_nat (length (infos s)) then Ret s
  else Ret (with_init s).

(** The steps of all processors. *)
Inductive step : t -> t -> Prop :=
| step_main s s' : isInit s = false -> main_step s = Ret s' -> step s s'
| step_up k s s' : places s !! k = Some Waiting -> cpu_init k s = Ret s' -> step s (with_place k Up s')
| step_go k s s' : places s !! k = Some Up -> cpu_go k s = Ret s' -> step s (with_place k Running s').

(** [init] on the processors of the list: [calloc] clears [cpus]. *)
Definition initial (l : list Z) (co : list core) (g : Gdt.t) (i : Idt.t) (a : Apic.t) (st : Scheduler.st) (e : Omtime.env)
    (m : mem) (r : K) : t :=
  mk false false 0 (map (fun _ => zero_cpu) l) (map (fun id => mkInfo id 0 false 0) l) 0 (map (fun _ => Off) l)
     co g i a st e m r.

Inductive reachable (s0 : t) : t -> Prop :=
| reach_initial : reachable s0 s0
| reach_step s s' : reachable s0 s -> step s s' -> reachable s0 s'.

(** The same steps as a function: who moves next.  A processor that may not
    move is [None]. *)
Inductive actor : Type := Main | Init (k : nat) | Go (k : nat).

Definition from {A} (r : result A) : option A := match r with Ret x => Some x | _ => None end.

Definition act (a : actor) (s : t) : option t :=
  match a with
  | Main => if isInit s then None else from (main_step s)
  | Init k =>
      match places s !! k with Some Waiting => with_place k Up <$> from (cpu_init k s) | _ => None end
  | Go k =>
      match places s !! k with Some Up => with_place k Running <$> from (cpu_go k s) | _ => None end
  end.

Fixpoint acts (l : list actor) (s : t) : option t :=
  match l with [] => Some s | a :: l => s ← act a s; acts l s end.

(** ** Properties *)

Lemma from_Some {A} (r : result A) x : from r = Some x -> r = Ret x.
Proof. destruct r; cbn; congruence. Qed.

Lemma act_step a s s' : act a s = Some s' -> step s s'.
Proof.
  destruct a as [|k|k]; cbn; intros H.
  - destruct (isInit s) eqn:E; [done|]. apply from_Some in H. by apply step_main.
  - destruct (places s !! k) as [[]|] eqn:E; try done. apply fmap_Some in H as (x & H%from_Some & ->).
    by apply step_up.
  - destruct (places s !! k) as [[]|] eqn:E; try done. apply fmap_Some in H as (x & H%from_Some & ->).
    by apply step_go.
Qed.

Lemma acts_reachable l s0 s s' : reachable s0 s -> acts l s = Some s' -> reachable s0 s'.
Proof.
  revert s. induction l as [|a l IH]; cbn; intros s Hr H; [by simplify_eq|].
  apply bind_Some in H as (s1 & H1 & H2). apply (IH s1); [|done].
  apply (reach_step _ s); [done|]. by apply act_step in H1.
Qed.

Lemma at_inv {A} (l : list A) k x : at_ l k = Ret x -> l !! k = Some x.
Proof. unfold at_. destruct (l !! k); congruence. Qed.

(** What [cpu_init] leaves when it returns. *)
Lemma cpu_init_inv k s s' : Gdt.gdt_lock (gdt s) = false -> cpu_init k s = Ret s' ->
  exists i arg me me',
    infos s !! k = Some i /\ cpus s !! Z.to_nat (extra_argument i) = Some arg /\
    cpus s !! Z.to_nat (cpuID arg) = Some me /\
    cpus s' = <[Z.to_nat (cpuID arg) := me']> (cpus s) /\
    cpuID me' = cpuID me /\ lapicID me' = lapic_id i /\ tss me' = Gdt.tss_at (gdt s) (lapic_id i) /\ isUp me' = true /\
    infos s' = infos s /\ places s' = places s /\ next s' = next s /\ isInit s' = isInit s /\
    cpusUp s' = s32 (cpusUp s + 1) /\ cpu_lock s' = false /\
    Gdt.gdt_lock (gdt s') = false /\ Gdt.tss (gdt s') = Gdt.tss (gdt s).
Proof.
  intros Hg H. unfold cpu_init in H. apply bind_Ret in H as (held & _ & H).
  apply bind_Ret in H as (i & Hi%at_inv & H). apply bind_Ret in H as (co & _ & H).
  cbn [gdt with_lock infos] in *.
  destruct (Gdt.reloadAll_run (lapic_id i) (gdt s) (tables co) Hg) as (g & tb & E & _ & _ & _ & _ & _ & _ & Hl & Ht & _).
  rewrite E in H. cbn [mbind result_bind] in H.
  apply bind_Ret in H as (arg & Ha%at_inv & H). apply bind_Ret in H as (me & Hm%at_inv & H).
  do 4 apply bind_Ret in H as (? & _ & H). apply bind_Ret in H as ([[r sz] f] & _ & H). injection H as <-.
  assert (Htss : Gdt.tss_at g (lapic_id i) = Gdt.tss_at (gdt s) (lapic_id i)) by (unfold Gdt.tss_at; by rewrite Ht).
  exists i, arg, me. eexists. split; [exact Hi|]. split; [exact Ha|]. split; [exact Hm|].
  cbn -[s32]. by rewrite Htss.
Qed.

Lemma acts_init l s0 : from_option isInit false (acts l s0) = true -> exists s, reachable s0 s /\ isInit s = true.
Proof.
  destruct (acts l s0) as [s|] eqn:E; [|done]. intros Hi. exists s. split; [|done].
  apply (acts_reachable l s0 s0); [apply reach_initial|done].
Qed.

(** ** The invariant *)

Definition up_count (l : list cpu_t) : nat := length (filter (fun c => isUp c = true) l).

Definition is_up (p : place) : Prop := p = Up \/ p = Running.

(** Processor [k], whose APIC number is [id], when [n] have been prepared and
    the segments are at [base]. *)
Record cell_ok (base : Z) (n k : nat) (id : Z) (i : info) (c : cpu_t) (p : place) : Prop := {
  ck_id : lapic_id i = id;
  ck_ready : (k < n)%nat -> extra_argument i = Z.of_nat k /\ cpuID c = Z.of_nat k;
  ck_off : (n <= k)%nat -> p = Off;
  ck_up : isUp c = true <-> is_up p;
  ck_self : isUp c = true -> lapicID c = id /\ tss c = base +64 id * Gdt.TSS_SIZE;
}.

Record smp_ok (ids : list Z) (base : Z) (n : nat) (s : t) : Prop := {
  so_lock : Gdt.gdt_lock (gdt s) = false;
  so_tss : Gdt.tss (gdt s) = base;
  so_length : length (infos s) = length ids /\ length (cpus s) = length ids /\ length (places s) = length ids /\
    (n <= length ids)%nat;
  so_each : forall k id, ids !! k = Some id ->
    exists i c p, infos s !! k = Some i /\ cpus s !! k = Some c /\ places s !! k = Some p /\
      cell_ok base n k id i c p;
  so_count : cpusUp s = Z.of_nat (up_count (cpus s));
  so_init : isInit s = true -> n = length ids /\ Z.of_nat (length ids) <= cpusUp s;
}.

Lemma up_count_le l : (up_count l <= length l)%nat.
Proof. apply length_filter. Qed.

Lemma up_count_full l : (length l <= up_count l)%nat -> forall k c, l !! k = Some c -> isUp c = true.
Proof.
  unfold up_count. induction l as [|a l IH]; intros Hl k c Hk; [done|].
  rewrite filter_cons in Hl. destruct (decide (isUp a = true)) as [Ha|Ha]; cbn in Hl.
  - destruct k as [|k]; [by simplify_eq/=|]. apply (IH ltac:(lia) k). done.
  - pose proof (up_count_le l). unfold up_count in *. lia.
Qed.

Lemma up_count_insert l k c c' : l !! k = Some c -> isUp c = false ->
  up_count (<[k := c']> l) = (up_count l + if isUp c' then 1 else 0)%nat.
Proof.
  revert k. unfold up_count. induction l as [|a l IH]; intros [|k] Hk Hc; cbn in Hk; simplify_eq/=.
  - rewrite (filter_cons_False _ c) by congruence. destruct (isUp c') eqn:E.
    + rewrite filter_cons_True by done. cbn. lia.
    + rewrite filter_cons_False by congruence. lia.
  - rewrite !filter_cons. destruct (decide (isUp a = true)); cbn; rewrite (IH k) by done; lia.
Qed.

(** Counting up a prepared processor that is not up. *)
Lemma cpu_init_ok ids base n k p s s' : Z.of_nat (length ids) < 2 ^ 31 -> smp_ok ids base n s ->
  (k < n)%nat -> places s !! k = Some p -> ~ is_up p -> cpu_init k s = Ret s' ->
  smp_ok ids base n (with_place k Up s').
Proof.
  intros Hb H Hk Hp Hnu E. pose proof (so_length _ _ _ _ H) as (Hli & Hlc & Hlp & Hn).
  destruct (cpu_init_inv k s s' (so_lock _ _ _ _ H) E)
    as (i & arg & me & me' & Hi & Ha & Hm & Hc' & Hid & Hlap & Htss & Hup & Hi' & Hp' & _ & Hin & Hcu & _ & Hl & Ht).
  destruct (lookup_lt_is_Some_2 ids k ltac:(lia)) as [id Hidk].
  destruct (so_each _ _ _ _ H k id Hidk) as (i0 & c & p0 & Hi0 & Hc & Hp0 & C).
  assert (i0 = i) as -> by congruence. assert (p0 = p) as -> by congruence. pose proof (ck_id _ _ _ _ _ _ _ C) as Hlid.
  destruct (ck_ready _ _ _ _ _ _ _ C Hk) as [Hex Hcid]. rewrite Hex, Nat2Z.id in Ha. assert (arg = c) as -> by congruence.
  rewrite Hcid, Nat2Z.id in Hm, Hc'. assert (me = c) as -> by congruence.
  assert (Hf : isUp c = false) by (destruct (isUp c) eqn:Ef; [destruct Hnu; by apply (ck_up _ _ _ _ _ _ _ C)|done]).
  split; cbn -[s32 up_count].
  - done.
  - rewrite Ht. apply (so_tss _ _ _ _ H).
  - rewrite Hi', Hc', Hp', !length_insert. done.
  - intros j idj Hj. rewrite Hi', Hc', Hp'. destruct (decide (j = k)) as [->|Hne].
    + assert (idj = id) as -> by congruence. exists i, me', Up. split; [done|].
      split; [apply list_lookup_insert_eq; by apply lookup_lt_Some in Hc|].
      split; [apply list_lookup_insert_eq; by apply lookup_lt_Some in Hp|].
      split; try done.
      * by rewrite Hid.
      * lia.
      * split; [by left|done].
      * intros _. split; [congruence|]. rewrite Htss, Hlid. unfold Gdt.tss_at. by rewrite (so_tss _ _ _ _ H).
    + rewrite !list_lookup_insert_ne by done. by apply (so_each _ _ _ _ H).
  - rewrite Hcu, Hc', (so_count _ _ _ _ H), (up_count_insert _ k c) by done. rewrite Hup.
    pose proof (up_count_le (<[k := me']> (cpus s))) as Hle. rewrite length_insert, (up_count_insert _ k c), Hup in Hle by done.
    rewrite swrap_small by lia. lia.
  - rewrite Hin. intros Hin'. destruct (so_init _ _ _ _ H Hin') as [-> Hle]. split; [done|].
    rewrite Hcu. rewrite (so_count _ _ _ _ H) in *. pose proof (up_count_full (cpus s) ltac:(lia) k c Hc). congruence.
Qed.

(** The invariant reads only these fields. *)
Lemma smp_ok_ext ids base n s s' : gdt s' = gdt s -> infos s' = infos s -> cpus s' = cpus s -> places s' = places s ->
  cpusUp s' = cpusUp s -> isInit s' = isInit s -> smp_ok ids base n s -> smp_ok ids base n s'.
Proof.
  intros E1 E2 E3 E4 E5 E6 []. split; rewrite ?E1, ?E2, ?E3, ?E4, ?E5, ?E6; done.
Qed.

(** A processor moves to a place where it is neither more nor less up. *)
Lemma place_ok ids base n k p p' s : smp_ok ids base n s -> places s !! k = Some p -> (is_up p <-> is_up p') ->
  (k < n)%nat -> smp_ok ids base n (with_place k p' s).
Proof.
  intros [] Hp Hup Hk. split; cbn; rewrite ?length_insert; try done. intros j id Hj.
  destruct (so_each0 j id Hj) as (i & c & p0 & Hi & Hc & Hp0 & []). destruct (decide (j = k)) as [->|Hne].
  - assert (p0 = p) as -> by congruence. exists i, c, p'. split; [done|]. split; [done|].
    split; [apply list_lookup_insert_eq; by apply lookup_lt_Some in Hp|]. split; try done; [lia|]. by rewrite ck_up0.
  - rewrite list_lookup_insert_ne by done. by exists i, c, p0.
Qed.

(** The loop's body makes processor [n] ready to count itself. *)
Lemma prepare_ok ids base n s i me x y : smp_ok ids base n s -> infos s !! n = Some i -> cpus s !! n = Some me ->
  isInit s = false ->
  smp_ok ids base (S n) (with_cpus (<[n := set_cpuID (Z.of_nat n) me]> (cpus s))
    (with_infos (<[n := mkInfo (lapic_id i) x y (Z.of_nat n)]> (infos s)) s)).
Proof.
  intros [Hl Ht (Hli & Hlc & Hlp & Hn) He Hc Hin] Hi Hme Hni.
  pose proof (lookup_lt_Some _ _ _ Hi). destruct (lookup_lt_is_Some_2 ids n ltac:(lia)) as [id Hid].
  assert (Hf : isUp me = false).
  { destruct (He n id Hid) as (i0 & c & p & _ & Hc0 & _ & []). assert (c = me) as -> by congruence.
    destruct (isUp me); [|done]. rewrite (ck_off0 ltac:(lia)) in ck_up0. destruct (proj1 ck_up0 eq_refl); done. }
  split; cbn -[up_count]; try done.
  - rewrite !length_insert. split; [done|]. split; [done|]. split; [done|lia].
  - intros j idj Hj. destruct (He j idj Hj) as (i0 & c & p & Hi0 & Hc0 & Hp & []). destruct (decide (j = n)) as [->|Hne].
    + assert (i0 = i) as -> by congruence. assert (c = me) as -> by congruence. eexists _, _, p.
      split; [by apply list_lookup_insert_eq|]. split; [apply list_lookup_insert_eq; lia|]. split; [done|].
      split; cbn; try done; try lia; congruence.
    + rewrite !list_lookup_insert_ne by done. exists i0, c, p. split; [done|]. split; [done|]. split; [done|].
      split; try done; [intros; apply ck_ready0; lia|intros; apply ck_off0; lia].
  - rewrite (up_count_insert _ n me) by done. cbn -[up_count]. rewrite Hf. lia.
  - congruence.
Qed.

Lemma setup_ok ids base s s' : Z.of_nat (length ids) < 2 ^ 31 -> isInit s = false -> smp_ok ids base (next s) s ->
  setup (next s) s = Ret s' -> smp_ok ids base (S (next s)) s' /\ next s' = next s.
Proof.
  intros Hb Hni H E. unfold setup in E.
  apply bind_Ret in E as (i & Hi%at_inv & E). apply bind_Ret in E as (me & Hme%at_inv & E). cbv zeta in E.
  apply bind_Ret in E as ([[m st] r] & _ & E). cbn [lapic_id extra_argument target_stack started] in E.
  pose proof (lookup_lt_Some _ _ _ Hi) as Hlt. rewrite (proj1 (so_length _ _ _ _ H)) in Hlt.
  destruct (lookup_lt_is_Some_2 ids (next s) Hlt) as [id Hid].
  destruct (so_each _ _ _ _ H _ _ Hid) as (i0 & c & p & _ & _ & Hp & C).
  rewrite (ck_off _ _ _ _ _ _ _ C) in Hp by done.
  assert (Hoff : ~ is_up Off) by (intros []; done).
  destruct (bsp_lapic_id =? lapic_id i); cbn [negb] in E.
  - apply bind_Ret in E as (s1 & E & [= <-]). pose proof E as E'. apply cpu_init_inv in E' as
      (_ & _ & _ & _ & _ & _ & _ & _ & _ & _ & _ & _ & _ & _ & Hnx & _); [|apply (so_lock _ _ _ _ H)].
    split; [|done]. eapply cpu_init_ok; [exact Hb| |apply Nat.lt_succ_diag_r| |exact Hoff|exact E]; [|exact Hp].
    eapply smp_ok_ext, (prepare_ok _ _ _ s i me _ _ H Hi Hme Hni); done.
  - apply bind_Ret in E as ([[m' st'] r'] & _ & [= <-]). split; [|done].
    eapply (place_ok _ _ _ _ Off); [|exact Hp| |lia].
    + eapply smp_ok_ext, (prepare_ok _ _ _ s i me _ _ H Hi Hme Hni); try done. cbn. apply list_insert_insert_eq.
    + split; [done|]. by intros [].
Qed.

Lemma moved_lt ids base n k p s : smp_ok ids base n s -> places s !! k = Some p -> p <> Off -> (k < n)%nat.
Proof.
  intros [? ? (_ & _ & Hlp & _) He ? ?] Hp Hne. pose proof (lookup_lt_Some _ _ _ Hp).
  destruct (lookup_lt_is_Some_2 ids k ltac:(lia)) as [id Hid].
  destruct (He k id Hid) as (i & c & p0 & _ & _ & Hp0 & []). assert (p0 = p) as -> by congruence.
  destruct (le_lt_dec n k) as [Hge|]; [|done]. by specialize (ck_off0 Hge).
Qed.

Lemma step_ok ids base s s' : Z.of_nat (length ids) < 2 ^ 31 -> smp_ok ids base (next s) s -> step s s' ->
  smp_ok ids base (next s') s'.
Proof.
  intros Hb H Hs. destruct Hs as [s s' Hni E|k s s' Hp E|k s s' Hp E].
  - unfold main_step in E. destruct (Nat.ltb_spec (next s) (length (infos s))) as [Hlt|Hge].
    + apply bind_Ret in E as (s1 & E & [= <-]). apply setup_ok with (ids := ids) (base := base) in E as [E Hn]; [|done..].
      cbn. rewrite Hn. by eapply smp_ok_ext, E.
    + destruct (Z.ltb_spec (u64 (cpusUp s)) (Z.of_nat (length (infos s)))) as [Hlt|Hle]; injection E as <-; [done|].
      destruct H as [? ? (Hli & Hlc & Hlp & Hn) ? Hc ?]. split; try done. intros _. cbn. split; [lia|].
      rewrite Hli in Hle. pose proof (up_count_le (cpus s)). by rewrite wrap_small in Hle by lia.
  - pose proof (cpu_init_inv k s s' (so_lock _ _ _ _ H) E) as
      (_ & _ & _ & _ & _ & _ & _ & _ & _ & _ & _ & _ & _ & _ & Hnx & _).
    cbn. rewrite Hnx. eapply cpu_init_ok; [done|done| |exact Hp| |done].
    + by eapply moved_lt.
    + by intros [].
  - assert (Hx : infos s' = infos s /\ cpus s' = cpus s /\ places s' = places s /\ gdt s' = gdt s /\
        cpusUp s' = cpusUp s /\ isInit s' = isInit s /\ next s' = next s).
    { unfold cpu_go in E. apply bind_Ret in E as (i & _ & E). destruct (_ =? _); [by injection E as <-|].
      apply bind_Ret in E as (arg & _ & E). apply bind_Ret in E as (me & _ & E). destruct (if Apic.isInit _ then _ else _).
      apply bind_Ret in E as ([[[? ?] ?] ?] & _ & E). by injection E as <-. }
    destruct Hx as (E1 & E2 & E3 & E4 & E5 & E6 & E7). cbn. rewrite E7.
    eapply place_ok; [by eapply smp_ok_ext, H|by rewrite E3| |by eapply moved_lt].
    split; [by right|by left].
Qed.

Lemma initial_ok ids co g i a st e m r : Gdt.gdt_lock g = false -> smp_ok ids (Gdt.tss g) 0 (initial ids co g i a st e m r).
Proof.
  intros Hg. assert (Hz : up_count (map (fun _ => zero_cpu) ids) = 0%nat).
  { unfold up_count. induction ids as [|id ids IH]; [done|exact IH]. }
  split; cbn -[up_count]; try done.
  - rewrite !length_map. split_and!; lia.
  - intros k id Hk. exists (mkInfo id 0 false 0), zero_cpu, Off.
    rewrite !list_lookup_fmap, !Hk. repeat (split; [done|]). split; try done; [lia|]. split; [done|]. by intros [].
  - by rewrite Hz.
Qed.

Lemma reachable_ok ids co g i a st e m r s : Gdt.gdt_lock g = false -> Z.of_nat (length ids) < 2 ^ 31 ->
  reachable (initial ids co g i a st e m r) s -> smp_ok ids (Gdt.tss g) (next s) s.
Proof. intros Hg Hb. induction 1; [by apply initial_ok|by eapply step_ok]. Qed.

(** C24: in whatever order the processors take their steps, when [init]
    declares them initialised every one of them has counted itself, exactly
    once, and its record holds its own index, its APIC number and the task
    segment of that number. *)
Theorem init_all_up ids co g i a st e m r s (Hg : Gdt.gdt_lock g = false) (Hb : Z.of_nat (length ids) < 2 ^ 31)
    (Hr : reachable (initial ids co g i a st e m r) s) (Hi : isInit s = true) :
  cpusUp s = Z.of_nat (length ids) /\
  forall k id, ids !! k = Some id ->
    exists c p, cpus s !! k = Some c /\ places s !! k = Some p /\ is_up p /\ isUp c = true /\
      cpuID c = Z.of_nat k /\ lapicID c = id /\ tss c = Gdt.tss_at g id.
Proof.
  pose proof (reachable_ok _ _ _ _ _ _ _ _ _ _ Hg Hb Hr) as H.
  destruct (so_init _ _ _ _ H Hi) as [Hn Hle]. pose proof (so_length _ _ _ _ H) as (_ & Hlc & _).
  pose proof (up_count_le (cpus s)). pose proof (so_count _ _ _ _ H) as Hc. split; [lia|].
  intros k id Hk. destruct (so_each _ _ _ _ H k id Hk) as (j & c & p & _ & Hck & Hp & C).
  pose proof (up_count_full (cpus s) ltac:(lia) k c Hck) as Hu. pose proof (lookup_lt_Some _ _ _ Hk).
  exists c, p. split; [done|]. split; [done|]. split; [by apply (ck_up _ _ _ _ _ _ _ C)|]. split; [done|].
  split; [apply (ck_ready _ _ _ _ _ _ _ C); lia|]. by apply (ck_self _ _ _ _ _ _ _ C).
Qed.

End Code.

End System.

Arguments t : clear implicits.

(** Two processors, the numbers 0 and 5, no optional feature; the second counts
    itself while the boot processor waits. *)
Definition smp_demo_core : core :=
  mkCore (Gdt.mkCpu None 0 0 None) (Idt.mkCpu (0, 0) false) (Cpu.mk 0 0 0 0 0 false).

Definition smp_demo_gdt : Gdt.t := Gdt.with_tables (Gdt.mkDescriptor 87 0x1000) 0x20000 Gdt.initial.

Definition smp_demo : t unit :=
  initial [0; 5] [smp_demo_core; smp_demo_core] smp_demo_gdt Idt.initial Apic.initial
    Scheduler.demo Omtime.pit_only (fun _ => 0) ().

#[local] Abbreviation demo_reachable :=
  (reachable (fun _ => None) 0x3000 0x40000 0 (fun m r n => Ret (m, 0x50000, r)) Acpi.initial (fun v => v) 0x6000 3).

Lemma smp_demo_up : exists s, demo_reachable smp_demo s /\ isInit s = true.
Proof. apply (acts_init _ _ _ _ _ _ _ _ _ [Main; Main; Main; Init 1; Main]). vm_compute. reflexivity. Qed.

Lemma init_all_up_witness :
  exists s, demo_reachable smp_demo s /\ cpusUp s = 2 /\
    exists c, cpus s !! 1%nat = Some c /\ lapicID c = 5 /\ tss c = 0x20208.
Proof.
  destruct smp_demo_up as (s & Hr & Hi). exists s. split; [exact Hr|].
  destruct (init_all_up _ _ _ _ _ _ _ _ _ [0; 5] _ smp_demo_gdt _ _ _ _ _ _ s eq_refl ltac:(cbn; lia) Hr Hi) as [Hc H].
  split; [exact Hc|]. destruct (H 1%nat 5 eq_refl) as (c & p & Hck & _ & _ & _ & _ & Hl & Ht).
  exists c. split; [exact Hck|]. split; [exact Hl|]. rewrite Ht. reflexivity.
Defined.

End Smp.
