(* ===== verification/Vfs.v ===== *)
(** * The virtual file system: [drivers/fs/vfs/turboVFS.cpp]

    Nodes are heap objects by address; a freed or a null address is absent and
    using it is a [Fault].  Names are C strings in their 128-byte fields; a
    longer one would overrun the field ([Fault]).  A new node holds what the
    memory of [malloc] held ([junk]).  The calls of [malloc] succeed with fresh
    addresses.  A split path is the list of its words, ended by a null pointer
    that [strcmp] may not be given. *)

From S2P Require Import Prelude Mem Str.
#[local] Open Scope Z_scope.
#[local] Open Scope machine_scope.

Module Vfs.

Definition FILENAME_LENGTH : nat := 128.
Definition PATH_LENGTH : nat := 128.
Definition ROOTNAME : list Z := Str.string_bytes "[ROOT]".

Definition TFS_FILE : Z := 0x01.
Definition TFS_FOLDER : Z := 0x02.
Definition TFS_SYMLINK : Z := 0x06.
Definition TFS_MOUNTPOINT : Z := 0x08.

(** [path] is the whole byte array. *)
Record tfs_node_t : Type := mkNode {
  name : list Z; mode : Z; flags : Z; ptr : Z; fs : Z; parent : Z; childs : list Z; path : list Z;
}.

Definition set_flags (v : Z) (n : tfs_node_t) : tfs_node_t :=
  mkNode (name n) (mode n) v (ptr n) (fs n) (parent n) (childs n) (path n).
Definition set_ptr (v : Z) (n : tfs_node_t) : tfs_node_t :=
  mkNode (name n) (mode n) (flags n) v (fs n) (parent n) (childs n) (path n).
Definition set_fs (v : Z) (n : tfs_node_t) : tfs_node_t :=
  mkNode (name n) (mode n) (flags n) (ptr n) v (parent n) (childs n) (path n).
Definition set_name (v : list Z) (n : tfs_node_t) : tfs_node_t :=
  mkNode v (mode n) (flags n) (ptr n) (fs n) (parent n) (childs n) (path n).
Definition set_childs (v : list Z) (n : tfs_node_t) : tfs_node_t :=
  mkNode (name n) (mode n) (flags n) (ptr n) (fs n) (parent n) v (path n).
Definition set_path (v : list Z) (n : tfs_node_t) : tfs_node_t :=
  mkNode (name n) (mode n) (flags n) (ptr n) (fs n) (parent n) (childs n) v.

Record st : Type := mk {
  isInit : bool; tfs_root : Z; vfs_lock : bool; nodes : gmap Z tfs_node_t; next_ptr : Z;
}.

Definition set_lock (b : bool) (s : st) : st := mk (isInit s) (tfs_root s) b (nodes s) (next_ptr s).
Definition set_nodes (m : gmap Z tfs_node_t) (s : st) : st :=
  mk (isInit s) (tfs_root s) (vfs_lock s) m (next_ptr s).

Definition node (s : st) (p : Z) : result tfs_node_t :=
  match nodes s !! p with Some n => Ret n | None => Fault end.

Definition update (p : Z) (f : tfs_node_t -> tfs_node_t) (s : st) : result st :=
  n ← node s p; Ret (set_nodes (<[p := f n]> (nodes s)) s).

(** [strcmp] answers equality here; [None] is the null pointer. *)
Definition streq (a : list Z) (b : option (list Z)) : result bool :=
  match b with Some b => Ret (bool_decide (a = b)) | None => Fault end.

Definition dotdot : list Z := [46; 46].
Definition dot : list Z := [46].

(** [strcpy] into a field of [n] bytes. *)
Definition strcpy_field (n : nat) (s : list Z) : result (list Z) :=
  if (length s <? n)%nat then Ret s else Fault.

Section Code.
Context (junk : tfs_node_t).

(** ** Nodes *)

Definition malloc_node (s : st) : Z * st :=
  let p := next_ptr s in
  (p, mk (isInit s) (tfs_root s) (vfs_lock s) (<[p := junk]> (nodes s)) (p + 0x200)).

Definition or_root (p : Z) (s : st) : Z := if p =? 0 then tfs_root s else p.

Fixpoint find_child (s : st) (l : list Z) (path : list Z) : result Z :=
  match l with
  | [] => Ret 0
  | c :: l => n ← node s c; if bool_decide (name n = path) then Ret c else find_child s l path
  end.

Definition getChild (s : st) (parent : Z) (path : option (list Z)) : result Z :=
  match path with
  | None => Fault
  | Some [] => Ret 0
  | Some path => n ← node s (or_root parent s); find_child s (childs n) path
  end.

(** The part that [addChild], [addDir] and [addFile] share; [setup] is what they
    do to the node in between. *)
Definition add_node (parent : Z) (name_ : list Z) (setup : tfs_node_t -> tfs_node_t -> result tfs_node_t)
    (s : st) : result (Z * st) :=
  let parent := or_root parent s in
  let '(p, s) := malloc_node s in
  name_ ← strcpy_field FILENAME_LENGTH name_;
  pn ← node s parent;
  n ← node s p;
  n ← setup pn (mkNode name_ (mode n) (flags n) (ptr n) (fs pn) parent (childs n) (path n));
  s ← update p (fun _ => n) s;
  s ← update parent (fun pn => set_childs (childs pn ++ [p]) pn) s;
  Ret (p, s).

Definition addChild (parent : Z) (name_ : list Z) (s : st) : result (Z * st) :=
  add_node parent name_ (fun _ n => Ret n) s.

Definition addFile (parent : Z) (name_ : list Z) (s : st) : result (Z * st) :=
  add_node parent name_ (fun _ n => Ret (set_flags TFS_FILE n)) s.

(** The string in a byte array; without a terminator it would run on. *)
Fixpoint c_string (a : list Z) : result (list Z) :=
  match a with
  | [] => Fault
  | c :: a => if c =? 0 then Ret [] else s ← c_string a; Ret (c :: s)
  end.

Definition overwrite (a : list Z) (at_ : nat) (s : list Z) : result (list Z) :=
  if (at_ + length s <=? length a)%nat then Ret (firstn at_ a ++ s ++ skipn (at_ + length s) a) else Fault.

Definition array_strcpy (a s : list Z) : result (list Z) := overwrite a 0 (s ++ [0]).

(** [strcat] writes no terminator. *)
Definition array_strcat (a s : list Z) : result (list Z) :=
  old ← c_string a; overwrite a (length old) s.

Definition addDir (parent : Z) (name_ : list Z) (s : st) : result (Z * st) :=
  add_node parent name_ (fun pn n =>
    let n := set_flags TFS_FOLDER n in
    pp ← c_string (path pn);
    a ← array_strcpy (path n) pp;
    a ← array_strcat a [47];
    a ← array_strcat a (name n);
    Ret (set_path a n)) s.

(** [childs.remove(i)]: from position 1 on the shift is complete; at position 0
    the last element is left out of it. *)
Definition vec_remove (i : nat) (l : list Z) : list Z :=
  match i with
  | O => match rev (removelast l) with z :: _ => tail (removelast l) ++ [z] | [] => [] end
  | _ => delete i l
  end.

Fixpoint free_nodes (l : list Z) (s : st) : st :=
  match l with [] => s | c :: l => free_nodes l (set_nodes (delete c (nodes s)) s) end.

Fixpoint remove_loop (n : nat) (parent : Z) (name_ : list Z) (i : nat) (s : st) : result st :=
  match n with
  | O => Ret s
  | S n =>
      pn ← node s parent;
      match childs pn !! i with
      | None => Ret s
      | Some c =>
          cn ← node s c;
          if bool_decide (name cn = name_) then
            let s := free_nodes (childs cn) s in
            let s := set_nodes (delete c (nodes s)) s in
            update parent (fun pn => set_childs (vec_remove i (childs pn)) pn) s
          else remove_loop n parent name_ (S i) s
      end
  end.

Definition removeChild (parent : Z) (name_ : list Z) (s : st) : result st :=
  let parent := or_root parent s in
  pn ← node s parent;
  remove_loop (S (length (childs pn))) parent name_ 0 s.

(** ** Walking a path *)

(** [pathArray[k]]: the words, the null pointer behind them, nothing beyond. *)
Definition word (pathArray : list (list Z)) (k : Z) : result (option (list Z)) :=
  if k =? Z.of_nat (length pathArray) then Ret None
  else match pathArray !! Z.to_nat k with Some w => Ret (Some w) | None => Fault end.

Definition word_eq (a : list Z) (pathArray : list (list Z)) (k : Z) : result bool :=
  w ← word pathArray k; streq a w.

(** [(flags & 0x07) == TFS_MOUNTPOINT || (flags & 0x07) == TFS_SYMLINK] *)
Definition redirects (n : tfs_node_t) : bool :=
  (Z.land (flags n) 0x07 =? TFS_MOUNTPOINT) || (Z.land (flags n) 0x07 =? TFS_SYMLINK).

(** The loop of [openNext]: [parentNode], [childNode], [items] and [cleared] are
    the variables it changes, [rec] the recursive call, whose result it drops. *)
Fixpoint open_loop (n : nat) (rec : Z -> Z -> Z -> Z -> st -> result (Z * st)) (pathArray : list (list Z))
    (i : nat) (parentNode childNode items cleared : Z) (s : st) : result (Z * st) :=
  match n with
  | O => Diverge
  | S n =>
      pn ← node s parentNode;
      match childs pn !! i with
      | None => Ret (childNode, s)
      | Some c =>
          cn ← node s c;
          let childNode := if redirects cn then ptr cn else c in
          chn ← node s childNode;
          e ← word_eq (name chn) pathArray cleared;
          if (e : bool) then
            '(_, s) ← rec c childNode (items -64 1) (cleared +64 1) s;
            open_loop n rec pathArray (S i) c childNode (items -64 1) (cleared +64 1) s
          else open_loop n rec pathArray (S i) parentNode childNode items cleared s
      end
  end.

Fixpoint openNext (fuel : nat) (pathArray : list (list Z)) (parentNode childNode items cleared : Z) (s : st) :
    result (Z * st) :=
  match fuel with
  | O => Diverge
  | S fuel =>
      if negb (0 <? items) then Ret (childNode, set_lock false s) else
      pn ← node s parentNode;
      '(parentNode, s) ←
        (if redirects pn then
           '(_, s) ← openNext fuel pathArray (ptr pn) childNode items cleared s; Ret (ptr pn, s)
         else Ret (parentNode, s));
      e ← word_eq dotdot pathArray cleared;
      '(parentNode, childNode, items, cleared, s) ←
        (if (e : bool) then
           pn ← node s parentNode;
           let '(p, c) := if 1 <? items then (parent pn, childNode) else (parentNode, parent pn) in
           '(_, s) ← openNext fuel pathArray p c (items -64 1) (cleared +64 1) s;
           Ret (p, c, items -64 1, cleared +64 1, s)
         else Ret (parentNode, childNode, items, cleared, s));
      e ← word_eq dot pathArray cleared;
      '(childNode, items, cleared, s) ←
        (if (e : bool) then
           let c := if items <=? 1 then parentNode else childNode in
           '(_, s) ← openNext fuel pathArray parentNode c (items -64 1) (cleared +64 1) s;
           Ret (c, items -64 1, cleared +64 1, s)
         else Ret (childNode, items, cleared, s));
      '(childNode, s) ← open_loop fuel (openNext fuel pathArray) pathArray 0 parentNode childNode items cleared s;
      (* notFound() *)
      let s := set_lock false s in
      Ret (childNode, set_lock false s)
  end.

Fixpoint createNext (fuel : nat) (pathArray : list (list Z)) (parentNode childNode items cleared : Z) (s : st) :
    result (Z * st) :=
  match fuel with
  | O => Diverge
  | S fuel =>
      if negb (0 <? items) then Ret (childNode, set_lock false s) else
      w ← word pathArray cleared;
      temp ← getChild s parentNode w;
      '(parentNode, childNode, items, cleared, s) ←
        (if negb (temp =? 0) then
           let '(p, c) := if 1 <? items then (temp, childNode) else (parentNode, temp) in
           '(_, s) ← createNext fuel pathArray p c (items -64 1) (cleared +64 1) s;
           Ret (p, c, items -64 1, cleared +64 1, s)
         else Ret (parentNode, childNode, items, cleared, s));
      e ← word_eq dotdot pathArray cleared;
      '(parentNode, childNode, items, cleared, s) ←
        (if (e : bool) then
           pn ← node s parentNode;
           let '(p, c) := if 1 <? items then (parent pn, childNode) else (parentNode, parent pn) in
           '(_, s) ← createNext fuel pathArray p c (items -64 1) (cleared +64 1) s;
           Ret (p, c, items -64 1, cleared +64 1, s)
         else Ret (parentNode, childNode, items, cleared, s));
      e ← word_eq dot pathArray cleared;
      '(parentNode, childNode, items, cleared, s) ←
        (if (e : bool) then
           pn ← node s parentNode;
           let '(p, c) := if 1 <? items then (parent pn, childNode) else (parentNode, parent pn) in
           '(_, s) ← createNext fuel pathArray p c (items -64 1) (cleared +64 1) s;
           Ret (p, c, items -64 1, cleared +64 1, s)
         else Ret (parentNode, childNode, items, cleared, s));
      w ← word pathArray cleared;
      w ← (match (w : option (list Z)) with Some w => Ret w | None => Fault end);
      '(childNode, s) ←
        (if 1 <? items then '(_, s) ← addChild parentNode w s; Ret (childNode, s)
         else addChild parentNode w s);
      Ret (childNode, set_lock false s)
  end.

(** ** Paths *)

(** The words between slashes. *)
Fixpoint split (path : list Z) : list (list Z) :=
  match path with
  | [] => [[]]
  | c :: path =>
      if c =? 47 then [] :: split path
      else match split path with w :: ws => (c :: w) :: ws | [] => [[c]] end
  end.

(** [while (!strcmp(pathArray[0], "")) { items--; pathArray++; }]: a path of
    slashes alone runs into the null pointer. *)
Fixpoint skip_empty (pathArray : list (list Z)) (items : Z) : result (list (list Z) * Z) :=
  match pathArray with
  | [] => Fault
  | [] :: ws => skip_empty ws (items -64 1)
  | _ => Ret (pathArray, items)
  end.

(** [while (!strcmp(pathArray[items-1], "")) items--;] *)
Fixpoint trim_empty (n : nat) (pathArray : list (list Z)) (items : Z) : result Z :=
  match n with
  | O => Diverge
  | S n =>
      w ← word pathArray (items -64 1);
      match (w : option (list Z)) with
      | None => Fault
      | Some [] => trim_empty n pathArray (items -64 1)
      | Some _ => Ret items
      end
  end.

Definition prepare (path : list Z) : result (list (list Z) * Z) :=
  let words := split path in
  '(words, items) ← skip_empty words (Z.of_nat (length words));
  items ← trim_empty (S (length words)) words items;
  Ret (words, items).

Definition is_root (s : st) (parent : Z) : bool := (parent =? 0) || (parent =? tfs_root s).

(** The path is not null: [strcmp] has read it before the test.  [strsplit]
    finds memory. *)
Definition open (fuel : nat) (parent_ : Z) (path : list Z) (s : st) : result (Z * st) :=
  if is_root s parent_ && bool_decide (path = [47]) then r ← node s (tfs_root s); Ret (ptr r, s) else
  held ← spin_lock (vfs_lock s);
  let s := set_lock held s in
  if bool_decide (32 ∈ path) then Ret (0, set_lock false s) else
  parentNode ← (if parent_ =? 0 then r ← node s (tfs_root s); Ret (ptr r) else Ret parent_);
  if parentNode =? 0 then Ret (0, set_lock false s) else
  if bool_decide (path = [47]) then Ret (parent_, s) else
  '(words, items) ← prepare path;
  openNext fuel words parentNode 0 items 0 s.

Definition create (fuel : nat) (parent_ : Z) (path : list Z) (s : st) : result (Z * st) :=
  if is_root s parent_ && bool_decide (path = [47]) then r ← node s (tfs_root s); Ret (ptr r, s) else
  held ← spin_lock (vfs_lock s);
  let s := set_lock held s in
  if bool_decide (32 ∈ path) then Ret (0, set_lock false s) else
  parentNode ← (if parent_ =? 0 then r ← node s (tfs_root s); Ret (ptr r) else Ret parent_);
  if parentNode =? 0 then Ret (0, set_lock false s) else
  '(words, items) ← prepare path;
  createNext fuel words parentNode 0 items 0 s.

Definition open_root (fuel : nat) (parent_ : Z) (path : list Z) (s : st) : result (Z * st) :=
  if is_root s parent_ && bool_decide (path = [47]) then r ← node s (tfs_root s); Ret (ptr r, s) else
  '(n, s) ← open fuel parent_ path s;
  if n =? 0 then create fuel parent_ path s else Ret (n, s).

(** ** Mounting *)

Definition mount_root (fs_ : Z) (s : st) : result (Z * st) :=
  '(p, s) ← addChild (tfs_root s) [47] s;
  s ← update (tfs_root s) (set_ptr p) s;
  s ← update p (fun n => set_fs fs_ (set_flags TFS_FOLDER n)) s;
  Ret (p, s).

Definition mount (fuel : nat) (fs_ parent_ : Z) (path : list Z) (s : st) : result (Z * st) :=
  r ← node s (tfs_root s);
  s ← (if ptr r =? 0 then '(_, s) ← mount_root 0 s; Ret s else Ret s);
  r ← node s (tfs_root s);
  let parent_ := if parent_ =? 0 then ptr r else parent_ in
  pn ← node s parent_;
  let fs_ := if fs_ =? 0 then fs pn else fs_ in
  '(p, s) ← create fuel parent_ path s;
  s ← update parent_ (fun n => set_flags TFS_MOUNTPOINT (set_ptr p n)) s;
  s ← update p (fun n => set_fs fs_ (set_flags TFS_FOLDER n)) s;
  Ret (p, s).

Definition init (s : st) : result st :=
  if isInit s then Ret s else
  let '(p, s) := malloc_node s in
  s ← update p (fun n => set_fs 0 (set_name ROOTNAME (set_flags TFS_MOUNTPOINT n))) s;
  Ret (mk true p (vfs_lock s) (nodes s) (next_ptr s)).

End Code.

(** ** The operations of a mounted file system *)

Section Filesystem.
Context {W : Type}.

(** The function pointers, null or a function on the rest of the system. *)
Record tfs_t : Type := mkFs {
  fs_read : option (Z -> Z -> Z -> Z -> W -> Z * W);
  fs_write : option (Z -> Z -> Z -> Z -> W -> Z * W);
  fs_open : option (Z -> Z -> Z -> W -> W);
  fs_close : option (Z -> W -> W);
}.

Context (systems : gmap Z tfs_t).

Definition system_of (s : st) (n : Z) : result tfs_t :=
  nd ← node s n; match systems !! fs nd with Some f => Ret f | None => Fault end.

Definition read_tfs (s : st) (n offset size buffer : Z) (w : W) : result (Z * W) :=
  f ← system_of s n;
  match fs_read f with Some g => Ret (g n offset size buffer w) | None => Ret (0, w) end.

Definition write_tfs (s : st) (n offset size buffer : Z) (w : W) : result (Z * W) :=
  f ← system_of s n;
  match fs_write f with Some g => Ret (g n offset size buffer w) | None => Ret (0, w) end.

Definition open_tfs (s : st) (n read write : Z) (w : W) : result W :=
  f ← system_of s n;
  match fs_open f with Some g => Ret (g n read write w) | None => Ret w end.

Definition close_tfs (s : st) (n : Z) (w : W) : result W :=
  f ← system_of s n;
  match fs_close f with Some g => Ret (g n w) | None => Ret w end.

End Filesystem.

(** * Lemmas *)

(** [d] is a directory whose children all exist and are not links. *)
Definition plain_dir (s : st) (d : Z) (dn : tfs_node_t) : Prop :=
  nodes s !! d = Some dn /\ redirects dn = false /\
  Forall (fun c => exists cn, nodes s !! c = Some cn /\ redirects cn = false) (childs dn).

(** No child of the directory has the name. *)
Definition no_child (s : st) (dn : tfs_node_t) (w : list Z) : Prop :=
  Forall (fun c => forall cn, nodes s !! c = Some cn -> name cn <> w) (childs dn).

Lemma node_lookup s p n : nodes s !! p = Some n -> node s p = Ret n.
Proof. intros H. unfold node. by rewrite H. Qed.

Lemma split_word w : 47 ∉ w -> split w = [w].
Proof.
  induction w as [|c w IH]; [done|]. intros H. cbn [split].
  destruct (Z.eqb_spec c 47) as [->|]; [destruct H; by left|].
  rewrite IH; [done|]. intros Hw. apply H. by right.
Qed.

Lemma prepare_word w : 47 ∉ w -> w <> [] -> prepare w = Ret ([w], 1).
Proof. intros H Hw. unfold prepare. rewrite split_word by done. by destruct w. Qed.

Lemma word_0 w : word [w] 0 = Ret (Some w).
Proof. done. Qed.

(** The loop over children none of which matches ends with the last one. *)
Lemma open_loop_miss n rec w i d dn childNode s :
  plain_dir s d dn -> no_child s dn w -> (length (childs dn) - i < n)%nat ->
  open_loop n rec [w] i d childNode 1 0 s = Ret (List.last (drop i (childs dn)) childNode, s).
Proof.
  intros (Hd & _ & Hc) Hn. revert i childNode. induction n as [|n IH]; intros i childNode Hlen; [lia|].
  cbn [open_loop]. unfold node. rewrite Hd. cbn [mbind result_bind].
  destruct (childs dn !! i) as [c|] eqn:Hi.
  - pose proof (lookup_lt_Some _ _ _ Hi).
    pose proof (Forall_lookup_1 _ _ _ _ Hc Hi) as (cn & Hcn & Hr).
    pose proof (Forall_lookup_1 _ _ _ _ Hn Hi cn Hcn) as Hne. cbn beta in Hne.
    rewrite Hcn. cbn [mbind result_bind]. rewrite Hr, Hcn. cbn [mbind result_bind].
    unfold word_eq. rewrite word_0. cbn [mbind result_bind streq]. rewrite bool_decide_eq_false_2 by done.
    cbn [mbind result_bind]. rewrite IH by lia. rewrite (drop_S _ _ _ Hi).
    destruct (drop (S i) (childs dn)) as [|x l] eqn:E; [done|]. cbn [List.last].
    f_equal. f_equal. clear. revert x. induction l as [|y l IH]; intros x; [done|]. apply IH.
  - apply lookup_ge_None in Hi. by rewrite drop_ge.
Qed.

Lemma word_eq_word a w : a <> w -> word_eq a [w] 0 = Ret false.
Proof. intros H. unfold word_eq. rewrite word_0. cbn. by rewrite bool_decide_eq_false_2. Qed.

(** * Properties *)

(** [open] never reports a missing file.  Looking in a directory for a name
    that none of its children has, it returns the last child (null only in an
    empty directory): the result of [notFound()] is dropped and the loop
    variable returned. *)
Theorem open_missing_returns_last fuel d dn w s
    (Hd : plain_dir s d dn) (Hn : no_child s dn w) (Hd0 : d <> 0)
    (Hw : w <> [] /\ w <> dot /\ w <> dotdot) (Hs : 47 ∉ w) (Hsp : 32 ∉ w) (Hl : vfs_lock s = false)
    (Hf : (length (childs dn) + 1 < fuel)%nat) :
  open fuel d w s = Ret (List.last (childs dn) 0, s).
Proof.
  destruct Hw as (Hw0 & Hw1 & Hw2). unfold open.
  assert (bool_decide (w = [47]) = false) as Hne
    by (apply bool_decide_eq_false; intros ->; apply Hs; by left).
  rewrite Hne, andb_false_r, Hl. cbn [spin_lock mbind result_bind].
  rewrite bool_decide_eq_false_2 by done. destruct (Z.eqb_spec d 0); [done|]. cbn [mbind result_bind].
  destruct (Z.eqb_spec d 0); [done|]. rewrite prepare_word by done. cbn [mbind result_bind].
  destruct fuel as [|fuel]; [lia|]. cbn [openNext]. cbn [Z.ltb Z.compare negb].
  assert (Hset : forall b, set_lock b (set_lock true s) = set_lock b s) by done.
  assert (Hd' : plain_dir (set_lock true s) d dn) by done.
  pose proof Hd as (Hdn & Hr & _). rewrite (node_lookup _ d dn) by done. cbn [mbind result_bind].
  rewrite Hr. cbn [mbind result_bind]. rewrite !word_eq_word by congruence. cbn [mbind result_bind].
  rewrite word_eq_word by congruence. cbn [mbind result_bind].
  rewrite (open_loop_miss _ _ _ _ _ dn) by (done || lia). cbn [mbind result_bind].
  do 2 f_equal. destruct s. cbn in *. by subst.
Qed.

Lemma find_child_app s l1 l2 w :
  Forall (fun c => exists cn, nodes s !! c = Some cn /\ name cn <> w) l1 ->
  find_child s (l1 ++ l2) w = find_child s l2 w.
Proof.
  induction 1 as [|c l (cn & Hc & Hn) _ IH]; [done|]. cbn [find_child app].
  rewrite (node_lookup _ c cn) by done. cbn [mbind result_bind]. by rewrite bool_decide_eq_false_2.
Qed.

Lemma find_child_ext s s' l v :
  Forall (fun c => exists cn cn', nodes s !! c = Some cn /\ nodes s' !! c = Some cn' /\ name cn' = name cn) l ->
  find_child s' l v = find_child s l v.
Proof.
  induction 1 as [|c l (cn & cn' & Hc & Hc' & Hn) _ IH]; [done|]. cbn [find_child].
  rewrite (node_lookup s c cn), (node_lookup s' c cn') by done. cbn [mbind result_bind]. by rewrite Hn, IH.
Qed.

Lemma find_child_hit s l1 l2 p v :
  find_child s l1 v = Ret p -> p <> 0 -> find_child s (l1 ++ l2) v = Ret p.
Proof.
  intros H Hp. revert H. induction l1 as [|c l IH]; cbn [find_child app]; [intros [= <-]; done|].
  destruct (node s c) as [cn| |]; cbn [mbind result_bind]; [|done..]. by case_bool_decide.
Qed.

Lemma others_named s d dn w :
  plain_dir s d dn -> no_child s dn w ->
  Forall (fun c => exists cn, nodes s !! c = Some cn /\ name cn <> w) (childs dn).
Proof.
  intros (_ & _ & Hc) Hn. unfold no_child in Hn. rewrite !Forall_forall in *. intros c Hin.
  destruct (Hc c Hin) as (cn & Hcn & _). eauto.
Qed.

(** The new node. *)
Definition created (junk : tfs_node_t) (w : list Z) (d : Z) (dn : tfs_node_t) : tfs_node_t :=
  mkNode w (mode junk) (flags junk) (ptr junk) (fs dn) d (childs junk) (path junk).

Lemma addChild_run junk d w dn s :
  nodes s !! d = Some dn -> d <> 0 -> nodes s !! next_ptr s = None -> (length w < FILENAME_LENGTH)%nat ->
  addChild junk d w s = Ret (next_ptr s,
    mk (isInit s) (tfs_root s) (vfs_lock s)
      (<[d := set_childs (childs dn ++ [next_ptr s]) dn]> (<[next_ptr s := created junk w d dn]> (nodes s)))
      (next_ptr s + 0x200)).
Proof.
  intros Hd Hd0 Hp Hw. assert (Hne : next_ptr s <> d) by congruence.
  unfold addChild, add_node, malloc_node, or_root. destruct (Z.eqb_spec d 0); [done|].
  unfold strcpy_field. destruct (Nat.ltb_spec (length w) FILENAME_LENGTH); [|lia]. cbn [mbind result_bind].
  rewrite (node_lookup _ d dn) by (cbn; by rewrite lookup_insert_ne). cbn [mbind result_bind].
  rewrite (node_lookup _ (next_ptr s) junk) by (cbn; by rewrite lookup_insert_eq). cbn [mbind result_bind].
  unfold update. rewrite (node_lookup _ (next_ptr s) junk) by (cbn; by rewrite lookup_insert_eq).
  cbn [mbind result_bind]. rewrite (node_lookup _ d dn); cbn; [by rewrite insert_insert_eq|].
  by rewrite !lookup_insert_ne.
Qed.

(** ** Byte arrays that are padded with zeros *)

Lemma c_string_padded l k : Forall (fun c => c <> 0) l -> c_string (l ++ replicate (S k) 0) = Ret l.
Proof.
  induction 1 as [|c l Hc _ IH]; [done|]. cbn [app c_string]. destruct (Z.eqb_spec c 0); [done|]. by rewrite IH.
Qed.

Lemma c_string_nonzero a l : c_string a = Ret l -> Forall (fun c => c <> 0) l.
Proof.
  revert l. induction a as [|c a IH]; intros l; cbn [c_string]; [done|].
  destruct (Z.eqb_spec c 0); [intros [= <-]; constructor|].
  destruct (c_string a) as [r| |]; cbn [mbind result_bind]; [|done..]. intros [= <-]. constructor; [done|]. by apply IH.
Qed.

Lemma overwrite_padded l k x : (length x <= k)%nat ->
  overwrite (l ++ replicate k 0) (length l) x = Ret ((l ++ x) ++ replicate (k - length x) 0).
Proof.
  intros Hk. unfold overwrite. rewrite length_app, length_replicate.
  destruct (Nat.leb_spec (length l + length x) (length l + k)); [|lia].
  change @skipn with @drop. change @firstn with @take.
  rewrite take_app_length, drop_app_ge by lia. replace (length l + length x - length l)%nat with (length x) by lia.
  rewrite drop_replicate. by rewrite <- app_assoc.
Qed.

Lemma array_strcpy_padded k x : (length x < k)%nat ->
  array_strcpy (replicate k 0) x = Ret (x ++ replicate (k - length x) 0).
Proof.
  intros Hk. unfold array_strcpy. pose proof (overwrite_padded [] k (x ++ [0])) as H. cbn [app length] in H.
  rewrite H by (rewrite length_app; cbn; lia). rewrite length_app. cbn [length]. rewrite <- app_assoc. cbn [app].
  do 2 f_equal. replace (k - length x)%nat with (S (k - (length x + 1))) by lia. done.
Qed.

Lemma array_strcat_padded l k x : Forall (fun c => c <> 0) l -> (length x < k)%nat ->
  array_strcat (l ++ replicate k 0) x = Ret ((l ++ x) ++ replicate (k - length x) 0).
Proof.
  intros Hl Hk. unfold array_strcat. destruct k as [|k]; [lia|]. rewrite c_string_padded by done.
  cbn [mbind result_bind]. apply overwrite_padded. lia.
Qed.

(** A new directory: its path is its parent's, a slash and its name. *)
Lemma addDir_run junk d w dn pp s :
  nodes s !! d = Some dn -> d <> 0 -> nodes s !! next_ptr s = None -> (length w < FILENAME_LENGTH)%nat ->
  c_string (path dn) = Ret pp -> (length pp + 1 + length w < PATH_LENGTH)%nat -> path junk = replicate PATH_LENGTH 0 ->
  addDir junk d w s = Ret (next_ptr s,
    mk (isInit s) (tfs_root s) (vfs_lock s)
      (<[d := set_childs (childs dn ++ [next_ptr s]) dn]>
        (<[next_ptr s := mkNode w (mode junk) TFS_FOLDER (ptr junk) (fs dn) d (childs junk)
           ((pp ++ [47] ++ w) ++ replicate (PATH_LENGTH - (length pp + 1 + length w)) 0)]> (nodes s)))
      (next_ptr s + 0x200)).
Proof.
  intros Hd Hd0 Hp Hw Hpp Hl Hj. assert (Hne : next_ptr s <> d) by congruence.
  pose proof (c_string_nonzero _ _ Hpp) as Hnz.
  unfold addDir, add_node, malloc_node, or_root. destruct (Z.eqb_spec d 0); [done|].
  unfold strcpy_field. destruct (Nat.ltb_spec (length w) FILENAME_LENGTH); [|lia]. cbn [mbind result_bind].
  rewrite (node_lookup _ d dn) by (cbn; by rewrite lookup_insert_ne). cbn [mbind result_bind].
  rewrite (node_lookup _ (next_ptr s) junk) by (cbn; by rewrite lookup_insert_eq). cbn [mbind result_bind].
  rewrite Hpp. cbn [mbind result_bind path set_flags name]. rewrite Hj.
  rewrite array_strcpy_padded by lia. cbn [mbind result_bind].
  rewrite array_strcat_padded by (done || (cbn [length]; lia)). cbn [mbind result_bind].
  rewrite array_strcat_padded;
    [|apply Forall_app; split; [done|by repeat constructor]|cbn [length]; lia]. cbn [mbind result_bind].
  unfold update. rewrite (node_lookup _ (next_ptr s) junk) by (cbn; by rewrite lookup_insert_eq).
  cbn [mbind result_bind]. rewrite (node_lookup _ d dn); cbn; [|by rewrite !lookup_insert_ne].
  cbn [mbind result_bind]. unfold set_nodes. cbn. rewrite insert_insert_eq.
  do 6 f_equal. unfold set_path, set_flags. cbn. f_equal. rewrite <- !app_assoc. cbn [app]. do 4 f_equal. cbn [length]. lia.
Qed.

(** The state with the new last child. *)
Definition with_child (junk : tfs_node_t) (d : Z) (dn : tfs_node_t) (w : list Z) (s : st) : st :=
  mk (isInit s) (tfs_root s) (vfs_lock s)
    (<[d := set_childs (childs dn ++ [next_ptr s]) dn]> (<[next_ptr s := created junk w d dn]> (nodes s)))
    (next_ptr s + 0x200).

Lemma getChild_dir s d dn v : d <> 0 -> nodes s !! d = Some dn -> v <> [] -> getChild s d (Some v) = find_child s (childs dn) v.
Proof.
  intros H0 Hd Hv. destruct v as [|c v]; [done|]. unfold getChild, or_root. destruct (Z.eqb_spec d 0); [done|].
  by rewrite (node_lookup _ d dn).
Qed.

Lemma create_word junk fuel d dn w s :
  plain_dir s d dn -> no_child s dn w -> d <> 0 -> w <> [] /\ w <> dot /\ w <> dotdot -> 47 ∉ w -> 32 ∉ w ->
  vfs_lock s = false -> (length w < FILENAME_LENGTH)%nat -> nodes s !! next_ptr s = None -> (0 < fuel)%nat ->
  create junk fuel d w s = Ret (next_ptr s, with_child junk d dn w s).
Proof.
  intros Hd Hn Hd0 (Hw0 & Hw1 & Hw2) Hs Hsp Hl Hlen Hfresh Hf. pose proof Hd as (Hdn & _ & Hc).
  pose proof (others_named _ _ _ _ Hd Hn) as Ho. unfold create.
  assert (bool_decide (w = [47]) = false) as Hne by (apply bool_decide_eq_false; intros ->; apply Hs; by left).
  rewrite Hne, andb_false_r, Hl. cbn [spin_lock mbind result_bind].
  rewrite bool_decide_eq_false_2 by done. destruct (Z.eqb_spec d 0); [done|]. cbn [mbind result_bind].
  destruct (Z.eqb_spec d 0); [done|]. rewrite prepare_word by done. cbn [mbind result_bind].
  destruct fuel as [|fuel]; [lia|]. cbn [createNext]. cbn [Z.ltb Z.compare negb].
  rewrite word_0. cbn [mbind result_bind]. rewrite (getChild_dir _ d dn) by done.
  rewrite <- (app_nil_r (childs dn)), find_child_app by done. cbn [find_child mbind result_bind Z.eqb negb].
  rewrite !word_eq_word by congruence. cbn [mbind result_bind].
  rewrite word_eq_word by congruence. cbn [mbind result_bind].
  change (1 <? 1) with false. rewrite word_0. cbn [mbind result_bind].
  rewrite (addChild_run _ _ _ dn) by done. unfold with_child. cbn [vfs_lock set_lock isInit tfs_root nodes next_ptr]. by rewrite Hl.
Qed.

(** C22: [create] makes what [getChild] finds.  For a new one-word name in a
    directory [create] returns a fresh node that has the name, the directory as
    parent and its file system, and is the directory's last child; nothing else
    changes, the lock is free, and [getChild] then finds exactly this node under
    the name and the old ones under theirs. *)
Theorem create_then_getChild junk fuel d dn w s
    (Hd : plain_dir s d dn) (Hn : no_child s dn w) (Hd0 : d <> 0)
    (Hw : w <> [] /\ w <> dot /\ w <> dotdot) (Hs : 47 ∉ w) (Hsp : 32 ∉ w) (Hl : vfs_lock s = false)
    (Hlen : (length w < FILENAME_LENGTH)%nat) (Hfresh : nodes s !! next_ptr s = None) (Hf : (0 < fuel)%nat) :
  exists s', create junk fuel d w s = Ret (next_ptr s, s') /\
    nodes s' = <[d := set_childs (childs dn ++ [next_ptr s]) dn]> (<[next_ptr s := created junk w d dn]> (nodes s)) /\
    vfs_lock s' = false /\ tfs_root s' = tfs_root s /\
    getChild s' d (Some w) = Ret (next_ptr s) /\
    (forall v p, p <> 0 -> p <> d -> getChild s d (Some v) = Ret p -> getChild s' d (Some v) = Ret p).
Proof.
  pose proof Hd as (Hdn & _ & Hc). pose proof (others_named _ _ _ _ Hd Hn) as Ho.
  assert (Hpd : next_ptr s <> d) by congruence. exists (with_child junk d dn w s).
  split; [by apply create_word|]. split; [done|]. split; [done|]. split; [done|]. set (s2 := with_child junk d dn w s).
  assert (Hg : forall v, v <> [] -> getChild s2 d (Some v) = find_child s2 (childs dn ++ [next_ptr s]) v).
  { intros v Hv. apply (getChild_dir s2 d (set_childs (childs dn ++ [next_ptr s]) dn)); [done| |done]. cbn. by rewrite lookup_insert_eq. }
  assert (Hext : forall v, find_child s2 (childs dn) v = find_child s (childs dn) v).
  { intros v. apply find_child_ext. eapply Forall_impl; [exact Hc|]. intros c (cn & Hcn & _). cbn.
    destruct (decide (d = c)) as [<-|]; [|exists cn, cn; rewrite !lookup_insert_ne by congruence; done].
    exists cn, (set_childs (childs dn ++ [next_ptr s]) dn). rewrite lookup_insert_eq. split_and!; [done..|].
    rewrite Hdn in Hcn. by injection Hcn as ->. }
  assert (Hend : forall v, find_child s2 [next_ptr s] v = Ret (if bool_decide (w = v) then next_ptr s else 0)).
  { intros v. cbn [find_child]. rewrite (node_lookup _ _ (created junk w d dn))
      by (cbn; rewrite lookup_insert_ne, lookup_insert_eq; done).
    cbn. by case_bool_decide. }
  split.
  - rewrite Hg, find_child_app; [by rewrite Hend, bool_decide_eq_true_2| |apply Hw].
    eapply Forall_impl; [exact Ho|]. intros c (cn & Hcn & Hne). cbn.
    destruct (decide (d = c)) as [<-|]; [|exists cn; rewrite !lookup_insert_ne by congruence; done].
    eexists. rewrite lookup_insert_eq. split; [done|]. rewrite Hdn in Hcn. by injection Hcn as ->.
  - intros [|x v] p Hp _; [done|]. rewrite (getChild_dir s d dn), Hg by done.
    intros Hfc. rewrite (find_child_hit _ _ _ p); [done|by rewrite Hext|done].
Qed.

(** [create] of a path of two new names makes the first only, and returns null:
    the walk does not go on after it has made a directory. *)
Theorem create_stops_after_first junk fuel d dn w1 w2 s :
  plain_dir s d dn -> no_child s dn w1 -> d <> 0 -> w1 <> [] -> w1 <> dot -> w1 <> dotdot ->
  nodes s !! next_ptr s = None -> (length w1 < FILENAME_LENGTH)%nat ->
  exists s', createNext junk (S fuel) [w1; w2] d 0 2 0 s = Ret (0, s') /\
    nodes s' = <[d := set_childs (childs dn ++ [next_ptr s]) dn]>
                 (<[next_ptr s := created junk w1 d dn]> (nodes s)).
Proof.
  intros Hd Hn Hd0 Hw0 Hw1 Hw2 Hp Hlen. pose proof Hd as (Hdn & _ & _).
  assert (Hword : word [w1; w2] 0 = Ret (Some w1)) by done.
  assert (Hne : forall a, a <> w1 -> word_eq a [w1; w2] 0 = Ret false)
    by (intros a Ha; unfold word_eq; rewrite Hword; cbn; by rewrite bool_decide_eq_false_2).
  eexists. split.
  - cbn [createNext Z.ltb Z.compare negb]. rewrite Hword. cbn [mbind result_bind].
    destruct w1 as [|x w1]; [done|]. unfold getChild, or_root. destruct (Z.eqb_spec d 0); [done|].
    rewrite (node_lookup _ d dn) by done. cbn [mbind result_bind].
    rewrite <- (app_nil_r (childs dn)), find_child_app by (by eapply others_named).
    cbn [find_child mbind result_bind Z.eqb negb]. rewrite !Hne by congruence. cbn [mbind result_bind].
    rewrite Hne by congruence. cbn [mbind result_bind]. rewrite Hword. cbn [mbind result_bind].
    change (1 <? 2) with true. cbn match. rewrite (addChild_run _ _ _ dn) by done. reflexivity.
  - reflexivity.
Qed.

(** A directory at 1 with the files [a] and [b]. *)
Definition demo_node (name : list Z) (flags parent : Z) (childs : list Z) : tfs_node_t :=
  mkNode name 0 flags 0 0 parent childs (repeat 0 PATH_LENGTH).

Definition demo : st :=
  mk true 9 false
    (<[1 := demo_node [47] TFS_FOLDER 9 [2; 3]]> (<[2 := demo_node [97] TFS_FILE 1 []]>
      (<[3 := demo_node [98] TFS_FILE 1 []]> ∅))) 0x1000.

Lemma demo_dir : plain_dir demo 1 (demo_node [47] TFS_FOLDER 9 [2; 3]).
Proof.
  split; [reflexivity|]. split; [reflexivity|].
  repeat (apply Forall_cons; split; [eexists; split; reflexivity|]). by apply Forall_nil.
Qed.

Lemma demo_no_child w : w <> [97] -> w <> [98] -> no_child demo (demo_node [47] TFS_FOLDER 9 [2; 3]) w.
Proof.
  intros Ha Hb. apply Forall_cons; split; [|apply Forall_cons; split; [|by apply Forall_nil]];
    intros cn Hcn; vm_compute in Hcn; injection Hcn as <-; cbn; congruence.
Qed.

(** Opening [c] gives [b]. *)
Lemma open_missing_returns_last_witness : open 4 1 [99] demo = Ret (3, demo).
Proof.
  refine (open_missing_returns_last 4 1 _ [99] demo demo_dir (demo_no_child _ _ _) _ _ _ _ _ _);
    [discriminate|discriminate|discriminate|repeat split; discriminate| | |reflexivity|cbn; lia].
  - intros H. apply list_elem_of_singleton in H. discriminate H.
  - intros H. apply list_elem_of_singleton in H. discriminate H.
Defined.

Lemma create_then_getChild_witness :
  exists s', create (demo_node [] 0 0 []) 1 1 [99] demo = Ret (0x1000, s') /\
    getChild s' 1 (Some [99]) = Ret 0x1000.
Proof.
  destruct (create_then_getChild (demo_node [] 0 0 []) 1 1 _ [99] demo demo_dir
    (demo_no_child [99] ltac:(discriminate) ltac:(discriminate))) as (s' & H1 & _ & _ & _ & H2 & _).
  - discriminate.
  - repeat split; discriminate.
  - intros H. apply list_elem_of_singleton in H. discriminate H.
  - intros H. apply list_elem_of_singleton in H. discriminate H.
  - reflexivity.
  - cbn. unfold FILENAME_LENGTH. lia.
  - reflexivity.
  - lia.
  - exists s'. split; [exact H1|exact H2].
Defined.

End Vfs.
