(* ===== verification/Shell.v ===== *)
(** * The shell: [apps/turboShell.cpp], and [lib/panic.cpp]

    A turn of the shell's loop prompts, reads a line through [getLine], cuts off
    its first word and runs a command on the virtual file system, the terminal
    and, for [nano], the scheduler.  A command is chosen by the hash of the word.
    The names in the file system are lists of bytes, the line and the array
    [tmp] are in memory. *)

From S2P Require Import Prelude Mem PortIO Acpi Str Terminal Keyboard Clock Apic Scheduler Idt Vfs.
#[local] Open Scope Z_scope.
#[local] Open Scope machine_scope.
#[local] Existing Instance result_bind.

Module Shell.

(** What [malloc] gives: it clears by default. *)
Definition zero_node : Vfs.tfs_node_t := Vfs.mkNode [] 0 0 0 0 0 [] (replicate Vfs.PATH_LENGTH 0).

(** The scheduler's side of the kernel, that [nano] changes. *)
Record system : Type := mkSystem { sched : Scheduler.st; apic : Apic.t; idt : Idt.t; clocks : Omtime.env }.

(** The globals [currentNode] and [path], over the drivers' states; the memory
    and the terminal are the keyboard's. *)
Record t : Type := mk { kbd : Keyboard.t; fs : Vfs.st; currentNode : Z; path : Z; sys : system }.

Definition with_kbd (k : Keyboard.t) (s : t) : t := mk k (fs s) (currentNode s) (path s) (sys s).
Definition with_fs (f : Vfs.st) (s : t) : t := mk (kbd s) f (currentNode s) (path s) (sys s).
Definition with_node (p : Z) (s : t) : t := mk (kbd s) (fs s) p (path s) (sys s).
Definition with_sys (y : system) (s : t) : t := mk (kbd s) (fs s) (currentNode s) (path s) y.
Definition memory (s : t) : mem := Keyboard.memory (kbd s).
Definition with_memory (m : mem) (s : t) : t := with_kbd (Keyboard.with_memory m (kbd s)) s.

(** What a command ends in: the next turn, or a halted machine. *)
Inductive outcome : Type :=
| Continue (s : t)
| Halted (s : t).

Inductive command : Type := Nano | Help | Empty | Turbo | Panic | Clear | Ls | Mkdir | Touch | Cd | Unknown.

(** [switch (hash(cmd))] *)
Definition command_of (h : Z) : command :=
  if h =? Str.hash (Str.string_bytes "nano") then Nano
  else if h =? Str.hash (Str.string_bytes "help") then Help
  else if h =? Str.hash [] then Empty
  else if h =? Str.hash (Str.string_bytes "turbo") then Turbo
  else if h =? Str.hash (Str.string_bytes "panic") then Panic
  else if h =? Str.hash (Str.string_bytes "clear") then Clear
  else if h =? Str.hash (Str.string_bytes "ls") then Ls
  else if h =? Str.hash (Str.string_bytes "mkdir") then Mkdir
  else if h =? Str.hash (Str.string_bytes "touch") then Touch
  else if h =? Str.hash (Str.string_bytes "cd") then Cd
  else Unknown.

(** A [printf] of a text with its newline. *)
Definition text (x : string) : list Z := Str.string_bytes x.
Definition line (x : string) : list Z := Str.string_bytes x ++ [10].

(** Colours of [lib/color.h]. *)
Definition ESCAPE : Z := 27.
Definition RESET : list Z := ESCAPE :: text "[0m".
Definition BRED : list Z := ESCAPE :: text "[1;31m".
Definition BGREEN : list Z := ESCAPE :: text "[1;32m".
Definition BYELLOW : list Z := ESCAPE :: text "[1;33m".
Definition BMAGENTA : list Z := ESCAPE :: text "[1;35m".
Definition BWHITE : list Z := ESCAPE :: text "[1;37m".

Definition TFS_PATHDEVICE : Z := 0x03.

Definition say (x : list Z) (s : t) : result t := k ← Keyboard.puts x (kbd s); Ret (with_kbd k s).

Fixpoint say_all (xs : list (list Z)) (s : t) : result t :=
  match xs with [] => Ret s | x :: xs => s ← say x s; say_all xs s end.

(** The four messages of [panic] on the terminal; [line_number] in decimal. *)
Definition panic (message file line_number : list Z) (s : t) : result t :=
  let tag := [10; 91; ESCAPE] ++ text "[31mPANIC" ++ [ESCAPE] ++ text "[0m] " in
  say_all [tag ++ message; tag ++ text "File: " ++ file; tag ++ text "Line: " ++ line_number;
           tag ++ line "System halted!"] s.

Definition help : list (list Z) := map line
  [ "All the listed command are not totally implement !"%string;
    "-turbo --Display a string into the terminal !"%string;
    "-help --Display all the implement commands and future implemented command !"%string;
    "-panic-- create a kernel panic "%string;
    "-clear --clear the terminal"%string;
    "-ls --list every directory and files"%string;
    "-cd --change directory"%string;
    "-mkdir --create a directory"%string;
    "-touch --create and empty file"%string;
    "-nano --a sort of nano to prouve Turb-OS is multi tasking"%string ].

(** A line of [ls]. *)
Definition entry (n : Vfs.tfs_node_t) : list Z :=
  let kind := Z.land (Vfs.flags n) 0x07 in
  (if kind =? Vfs.TFS_FOLDER then BRED ++ text "[D]-" ++ Vfs.name n ++ RESET
   else if kind =? TFS_PATHDEVICE then BGREEN ++ text "[P]-" ++ Vfs.name n ++ RESET
   else if kind =? Vfs.TFS_SYMLINK then BYELLOW ++ text "[S]-" ++ Vfs.name n ++ RESET
   else if kind =? Vfs.TFS_FILE then BMAGENTA ++ text "[F]-" ++ Vfs.name n ++ RESET
   else BWHITE ++ Vfs.name n ++ RESET) ++ [32].

Definition arg_is (a : list Z) (b : string) : bool := bool_decide (a = text b).

Section Code.
(** The keyboard's arrays, the ACPI tables and the fuel of the drivers; the
    stack arrays [tmp] and [c], and the literal of a space. *)
Context (retstr kc : Z) (acpi : Acpi.t) (fuel : nat) (tmp c space : Z).
(** What [nano] needs: the addresses of the functions, the interrupt stubs, the
    memory of the ACPI tables, and the registers that a new thread finds. *)
Context (nano_address myTime_address switchTask_address : Z) (int_table : Z -> Z) (junk : Scheduler.registers_t).
(** [__FILE__] *)
Context (file : list Z).

Definition clear (s : t) : result t := k ← Keyboard.clear fuel (kbd s); Ret (with_kbd k s).

Definition start_nano (s : t) : result t :=
  let y := sys s in
  '(_, st) ← Scheduler.createProc junk (text "Init") nano_address 0 (sched y);
  '(_, st) ← Scheduler.createThread junk myTime_address 0 (Scheduler.initproc st) st;
  '(a, i, st, e) ← Power.sched_init (memory s) acpi int_table switchTask_address fuel (apic y) (idt y) st (clocks y);
  Ret (with_sys (mkSystem st a i e) s).

Fixpoint list_entries (l : list Z) (s : t) : result t :=
  match l with
  | [] => Ret s
  | p :: l => n ← Vfs.node (fs s) p; s ← say (entry n) s; list_entries l s
  end.

Definition open (parent : Z) (arg : list Z) (s : t) : result (Z * t) :=
  '(p, f) ← Vfs.open fuel parent arg (fs s); Ret (p, with_fs f s).

Definition ls (arg : list Z) (s : t) : result t :=
  '(node, s) ←
    (if arg_is arg "../" || arg_is arg ".." then n ← Vfs.node (fs s) (currentNode s); Ret (Vfs.parent n, s)
     else if arg_is arg "./" || arg_is arg "." || arg_is arg "" then Ret (currentNode s, s)
     else if arg_is arg "/" then open 0 arg s
     else open (currentNode s) arg s);
  if node =? 0 then say (text "[!]-Error, no such file or directory ") s else
  n ← Vfs.node (fs s) node;
  if negb (Z.land (Vfs.flags n) 0x07 =? Vfs.TFS_FOLDER) then say (arg ++ [10]) s else
  s ← list_entries (Vfs.childs n) s;
  say [10] s.

(** [strcat(path, name)], whose source is a node's field; no terminator. *)
Definition cat_path (name : list Z) (s : t) : result t :=
  len ← Str.strlen fuel (memory s) (path s);
  let m := fst (foldl (fun '(m, a) ch => (store8 m a ch, a + 1)) (memory s, path s + len) name) in
  Ret (with_memory m s).

(** The part of [cd] after the walk. *)
Definition enter (node : Z) (s : t) : result t :=
  let s := with_node node s in
  s ← cat_path [47] s;
  n ← Vfs.node (fs s) (currentNode s);
  s ← cat_path (Vfs.name n) s;
  if node =? 0 then say (BRED ++ text "[!]-Error" ++ RESET ++ line " No suche file or directory ") s else
  n ← Vfs.node (fs s) node;
  if negb (Z.land (Vfs.flags n) 0x07 =? Vfs.TFS_FOLDER) then
    say (BRED ++ text "[!]-Error" ++ RESET ++ line " The specified file is not a directory ") s
  else Ret s.

Definition cd (arg : list Z) (s : t) : result t :=
  if arg_is arg "" then p ← Vfs.getChild (fs s) 0 (Some [47]); Ret (with_node p s)
  else if arg_is arg ".." || arg_is arg "../" then
    n ← Vfs.node (fs s) (currentNode s); Ret (with_node (Vfs.parent n) s)
  else if arg_is arg "." || arg_is arg "./" then Ret s
  else if arg_is arg "/" then n ← Vfs.node (fs s) (Vfs.tfs_root (fs s)); Ret (with_node (Vfs.ptr n) s)
  else
    '(node, s) ← open (currentNode s) arg s;
    enter node s.

(** [addDir] and [addFile] get the argument as it is: it is never null. *)
Definition mkdir (arg : list Z) (s : t) : result t :=
  '(_, f) ← Vfs.addDir zero_node (currentNode s) arg (fs s); Ret (with_fs f s).
Definition touch (arg : list Z) (s : t) : result t :=
  '(_, f) ← Vfs.addFile zero_node (currentNode s) arg (fs s); Ret (with_fs f s).

Definition go (r : result t) : result outcome := s ← r; Ret (Continue s).

Definition parse (cmd arg : list Z) (s : t) : result outcome :=
  match command_of (Str.hash cmd) with
  | Nano => go (s ← clear s; start_nano s)
  | Help => go (say_all help s)
  | Empty => Ret (Continue s)
  | Turbo => go (say (line "Get rick rolled") s)
  | Panic => s ← panic (text "WHAT IS THE PPROBLEM ?") file (text "73") s; Ret (Halted s)
  | Clear => go (clear s)
  | Ls => go (ls arg s)
  | Mkdir => go (mkdir arg s)
  | Touch => go (touch arg s)
  | Cd => go (cd arg s)
  | Unknown =>
      go (say_all [line "NEVER GONNA GIVE YOU UP, NEVER GONNA LET YOU DOWN !"; line "Unknown command"] s)
  end.

(** ** A turn of [run] *)

Definition ensure_node (s : t) : result t :=
  if negb (currentNode s =? 0) then Ret s else
  let '(p, f) := Vfs.malloc_node zero_node (fs s) in
  f ← Vfs.update p (Vfs.set_flags Vfs.TFS_FOLDER) f;
  n ← Vfs.node f p;
  a ← Vfs.array_strcpy (Vfs.path n) (text "~");
  f ← Vfs.update p (Vfs.set_path a) f;
  Ret (with_node p (with_fs f s)).

Definition prompt (s : t) : result t :=
  n ← Vfs.node (fs s) (currentNode s);
  p ← Vfs.c_string (Vfs.path n);
  say (BRED ++ text "root" ++ RESET ++ text "@" ++ BRED ++ p ++ RESET ++ text ":" ++ RESET) s.

(** The string at an address. *)
Fixpoint read_string (n : nat) (m : mem) (p : Z) : result (list Z) :=
  match n with
  | O => Diverge
  | S n => if m p =? 0 then Ret [] else x ← read_string n m (p + 1); Ret (m p :: x)
  end.

(** The loop that copies the first word to [tmp], an array of ten bytes: with
    ten characters in it there is no terminator for [strcat] to find. *)
Fixpoint word_loop (n : nat) (cmd i : Z) (m : mem) : result (mem * Z) :=
  match n with
  | O => Diverge
  | S n =>
      len ← Str.strlen fuel m cmd;
      if i <? len then
        let ch := m (cmd + i) in
        if negb (ch =? 32) && negb (ch =? 0) then
          if 10 <=? i then Fault else
          let m := store8 (store8 m c ch) (c + 1) 0 in
          '(m, _) ← Str.strcat fuel m tmp c;
          word_loop n cmd (i + 1) m
        else Ret (m, i)
      else Ret (m, i)
  end.

(** From the line to the command; [strrm] and [hash] read [tmp] to its end. *)
Definition interpret (cmd : Z) (s : t) : result outcome :=
  if cmd =? 0 then Fault else
  let m := (memset (memory s) tmp 0 10).1 in
  '(m, i) ← word_loop fuel cmd 0 m;
  if 10 <=? i then Fault else
  '(m, arguments) ← Str.strrm fuel m cmd tmp;
  '(m, arguments) ← Str.strrm fuel m arguments space;
  word ← read_string fuel m tmp;
  arg ← read_string fuel m arguments;
  parse word arg (with_memory m s).

(** One iteration, in which the events [es] take place while [getLine] runs. *)
Definition turn (es : list Keyboard.event) (s : t) : result outcome :=
  s ← ensure_node s;
  s ← prompt s;
  '(p, k) ← Keyboard.run retstr kc acpi fuel es (Keyboard.Acquire, kbd s);
  match p with
  | Keyboard.Returned r => interpret r (with_kbd k s)
  | _ => Diverge
  end.

(** [run]: [path] first, then turns, one for each line that is typed. *)
Fixpoint turns (ess : list (list Keyboard.event)) (s : t) : result outcome :=
  match ess with
  | [] => Ret (Continue s)
  | es :: ess =>
      o ← turn es s;
      match o with Continue s => turns ess s | Halted s => Ret (Halted s) end
  end.

Definition run {K} (malloc_path : mem -> K -> result (mem * Z * K)) (ess : list (list Keyboard.event)) (s : t) (k : K)
  : result (outcome * K) :=
  '(m, p, k) ← malloc_path (memory s) k;
  let s := with_memory m s in
  o ← turns ess (mk (kbd s) (fs s) (currentNode s) p (sys s));
  Ret (o, k).

End Code.

(** * Properties *)

(** The characters up to a space. *)
Fixpoint first_word (x : list Z) : list Z :=
  match x with
  | [] => []
  | ch :: x => if ch =? 32 then [] else ch :: first_word x
  end.

Lemma read_string_spec n m p x : Str.is_str m p x -> (length x < n)%nat -> read_string n m p = Ret x.
Proof.
  revert n p. induction x as [|ch x IH]; intros [|n] p Hx Hn; cbn [length Str.is_str read_string] in *; try lia.
  - by rewrite Hx.
  - destruct Hx as (-> & Hc & Hx). destruct (Z.eqb_spec ch 0); [done|]. by rewrite IH by (done || lia).
Qed.

Lemma is_str_nonzero m p x : Str.is_str m p x -> Keyboard.nonzero x.
Proof. revert p. induction x as [|ch x IH]; intros p; [constructor|]. intros (_ & Hc & Hx). constructor; [done|by eapply IH]. Qed.

Lemma first_word_length x : (length (first_word x) <= length x)%nat.
Proof. induction x as [|ch x IH]; cbn; [done|]. case_match; cbn; lia. Qed.

Lemma first_word_nonzero x : Keyboard.nonzero x -> Keyboard.nonzero (first_word x).
Proof. induction 1 as [|ch x Hc _ IH]; cbn; [constructor|]. case_match; by constructor. Qed.

(** ** From the line to the command *)

Section Line.
Context (fuel : nat) (tmp c space cmd : Z) (x : list Z).

(** The stack arrays, the line and the literal do not overlap. *)
Record stack_ok : Prop := {
  sk_tmp : 0 < tmp /\ tmp + 10 <= 2 ^ 64;
  sk_cmd : 0 < cmd;
  sk_tmp_c : Keyboard.disjoint tmp 10 c 2;
  sk_tmp_cmd : Keyboard.disjoint tmp 10 cmd (Z.of_nat (length x) + 1);
  sk_c_cmd : Keyboard.disjoint c 2 cmd (Z.of_nat (length x) + 1);
  sk_space_tmp : Keyboard.disjoint space 2 tmp 10;
  sk_space_c : Keyboard.disjoint space 2 c 2;
  sk_space_cmd : Keyboard.disjoint space 2 cmd (Z.of_nat (length x) + 1);
}.

Context (Hok : stack_ok) (Hfuel : ((length x + 1) * (length x + 2) + 12 < fuel)%nat) (Hlen : Z.of_nat (length x) < 2 ^ 63).

(** What the loop leaves alone. *)
Definition kept (m m' : mem) : Prop :=
  forall a, ~ in_range tmp 10 a -> ~ in_range c 2 a -> m' a = m a.

Lemma kept_str m m' p y n :
  kept m m' -> Keyboard.disjoint p n tmp 10 -> Keyboard.disjoint p n c 2 -> Z.of_nat (length y) < n ->
  Str.is_str m p y -> Str.is_str m' p y.
Proof.
  intros Hk H1 H2 Hn. apply Str.is_str_ext. intros a Ha. apply Hk; unfold in_range, Keyboard.disjoint in *; lia.
Qed.

Lemma disjoint_sym p n q k : Keyboard.disjoint p n q k -> Keyboard.disjoint q k p n.
Proof. unfold Keyboard.disjoint. lia. Qed.

Lemma word_loop_spec n pre u m :
  x = pre ++ u -> Str.is_str m cmd x -> Keyboard.cells 10 m tmp pre -> (length pre <= 10)%nat -> (length u < n)%nat ->
  let w := pre ++ first_word u in
  if (10 <? length w)%nat then word_loop fuel tmp c n cmd (Z.of_nat (length pre)) m = Fault
  else exists m', word_loop fuel tmp c n cmd (Z.of_nat (length pre)) m = Ret (m', Z.of_nat (length w)) /\
    Keyboard.cells 10 m' tmp w /\ kept m m'.
Proof.
  revert n pre m. induction u as [|ch u IH]; intros [|n] pre m Ex Hx Hc Hp Hn; cbn [length] in *; try lia;
    cbn [word_loop first_word]; rewrite (Str.strlen_spec fuel m cmd x) by (done || lia); cbn [mbind result_bind].
  - rewrite !app_nil_r in *. subst pre. destruct (Nat.ltb_spec 10 (length x)); [lia|].
    rewrite Z.ltb_irrefl. by exists m.
  - pose proof Hx as Hx'. rewrite Ex in Hx'. apply Str.is_str_app in Hx' as [Hpre Hx']. cbn [Str.is_str] in Hx'.
    destruct Hx' as (Hch & Hch0 & _).
    assert (length x = length pre + S (length u))%nat as El by (rewrite Ex, length_app; done).
    destruct (Z.ltb_spec (Z.of_nat (length pre)) (Z.of_nat (length x))); [|lia]. rewrite Hch.
    destruct (Z.eqb_spec ch 0); [done|]. destruct (Z.eqb_spec ch 32) as [->|]; cbn [negb andb].
    { rewrite app_nil_r. destruct (Nat.ltb_spec 10 (length pre)); [lia|]. by exists m. }
    rewrite length_app. cbn [length]. destruct (Z.leb_spec 10 (Z.of_nat (length pre))).
    { by destruct (Nat.ltb_spec 10 (length pre + S (length (first_word u)))); [|lia]. }
    set (m1 := store8 (store8 m c ch) (c + 1) 0).
    assert (H1 : forall a, ~ in_range c 2 a -> m1 a = m a).
    { intros a Ha. unfold in_range in Ha. unfold m1. by rewrite !store8_ne by lia. }
    assert (Hc1 : Keyboard.cells 10 m1 tmp pre).
    { apply (Keyboard.cells_ext 10 m); [|done]. intros a Ha. apply H1. destruct Hok. unfold in_range, Keyboard.disjoint in *. lia. }
    assert (Hpre' : Str.is_str m1 tmp pre).
    { apply (Keyboard.cells_str 10); [done| |lia]. apply Forall_lookup_2. intros i d Hi. by apply (Hpre i). }
    rewrite (Str.strcat_char fuel m1 tmp c pre ch); try done; [|..].
    2:{ unfold m1. rewrite store8_ne by lia. apply store8_eq. }
    2:{ unfold m1. apply store8_eq. }
    2-6: destruct Hok; unfold Keyboard.disjoint in *; lia.
    cbn [mbind result_bind]. set (m2 := store8 m1 _ ch).
    assert (H2 : kept m m2).
    { intros a Ha1 Ha2. unfold m2. rewrite store8_ne by (unfold in_range in Ha1; lia). by apply H1. }
    specialize (IH n (pre ++ [ch]) m2). rewrite length_app in IH. cbn [length] in IH.
    replace (Z.of_nat (length pre) + 1) with (Z.of_nat (length pre + 1)) by lia.
    rewrite <- !app_assoc in IH. cbn [app] in IH. rewrite length_app in IH. cbn [length] in IH.
    assert (Hx2 : Str.is_str m2 cmd x).
    { destruct Hok. eapply (kept_str m); [done|by apply disjoint_sym|by apply disjoint_sym|lia|done]. }
    specialize (IH Ex Hx2 (Keyboard.cells_push 10 m1 tmp pre ch Hc1) ltac:(lia) ltac:(lia)). cbn zeta in IH.
    destruct (10 <? length pre + S (length (first_word u)))%nat; [done|]. destruct IH as (m' & E & Hm & Hk).
    exists m'. split; [done|]. split; [done|]. intros a Ha1 Ha2. rewrite Hk by done. by apply H2.
Qed.

Context (acpi : Acpi.t) (nano_address myTime_address switchTask_address : Z) (int_table : Z -> Z).
Context (junk : Scheduler.registers_t) (file : list Z).

#[local] Abbreviation run_command := (parse acpi fuel nano_address myTime_address switchTask_address int_table junk file).
#[local] Abbreviation interpret_line :=
  (interpret acpi fuel tmp c space nano_address myTime_address switchTask_address int_table junk file).

(** C26: the command is the first word of the line, its argument the line
    without spaces and without any occurrence of that word, inside other words
    too; a first word of ten characters or more overruns [tmp]. *)
Theorem interpret_command s
  (Hx : Str.is_str (memory s) cmd x) (Hsp : Str.is_str (memory s) space [32]) :
  let w := first_word x in
  if (length w <? 10)%nat then
    exists m', (forall a, ~ in_range tmp 10 a -> ~ in_range c 2 a ->
        ~ in_range cmd (Z.of_nat (length x) + 1) a -> m' a = memory s a) /\
      interpret_line cmd s = run_command w (Str.remove_all [32] (Str.remove_all w x)) (with_memory m' s)
  else interpret_line cmd s = Fault.
Proof.
  intros w. pose proof Hok as [[Ht1 Ht2] Hcmd Htc Htx Hcx Hst Hsc Hsx]. unfold interpret.
  destruct (Z.eqb_spec cmd 0); [lia|].
  assert (Hz : forall a, ~ in_range tmp 10 a -> (memset (memory s) tmp 0 10).1 a = memory s a).
  { intros a Ha. rewrite memset_lookup by lia. by rewrite decide_False. }
  pose proof (Keyboard.cells_memset 10 (memory s) tmp ltac:(lia) Ht2) as Hc0. change (Z.of_nat 10) with 10 in Hc0.
  revert Hz Hc0. generalize (memset (memory s) tmp 0 10).1 as m0. intros m0 Hz Hc0.
  assert (Hx0 : Str.is_str m0 cmd x).
  { apply (Str.is_str_ext (memory s)); [|done]. intros a Ha. apply Hz. unfold in_range, Keyboard.disjoint in *. lia. }
  pose proof (word_loop_spec fuel [] x m0 eq_refl Hx0 Hc0 ltac:(cbn; lia) ltac:(lia)) as Hw. cbn zeta in Hw.
  cbn [app length] in Hw. fold w in Hw. change (Z.of_nat 0) with 0 in Hw.
  pose proof (first_word_length x) as Hlw. fold w in Hlw.
  destruct (Nat.ltb_spec 10 (length w)) as [Hbig|Hsmall].
  { destruct (Nat.ltb_spec (length w) 10); [lia|]. by rewrite Hw. }
  destruct Hw as (m1 & -> & Hc1 & Hk). cbn [mbind result_bind].
  destruct (Nat.ltb_spec (length w) 10) as [Hlt|Hge]; [|by replace (10 <=? Z.of_nat (length w)) with true by lia].
  replace (10 <=? Z.of_nat (length w)) with false by lia.
  assert (Hx1 : Str.is_str m1 cmd x).
  { eapply (kept_str m0); [done|by apply disjoint_sym|by apply disjoint_sym|lia|done]. }
  assert (Hw1 : Str.is_str m1 tmp w).
  { apply (Keyboard.cells_str 10); [done| |lia]. apply first_word_nonzero. by eapply is_str_nonzero. }
  pose proof (Str.remove_all_length w x) as Hl1. set (x1 := Str.remove_all w x) in *.
  unfold in_range, Keyboard.disjoint in *.
  destruct (Str.strrm_spec fuel m1 cmd tmp x w Hx1 Hw1 Hcmd) as (m2 & -> & Hx2 & Hf2); [lia|lia|nia|].
  cbn [mbind result_bind]. fold x1 in Hx2. unfold in_range in *.
  assert (Hs2 : Str.is_str m2 space [32]).
  { apply (Str.is_str_ext (memory s)); [|done]. intros a Ha. cbn [length] in Ha.
    rewrite Hf2 by lia. rewrite Hk by (unfold in_range; lia). apply Hz. lia. }
  destruct (Str.strrm_spec fuel m2 cmd space x1 [32] Hx2 Hs2 Hcmd) as (m3 & -> & Hx3 & Hf3); [cbn; lia|cbn; lia|cbn; nia|].
  cbn [mbind result_bind]. pose proof (Str.remove_all_length [32] x1) as Hl3. unfold in_range in *.
  assert (Hw3 : Str.is_str m3 tmp w).
  { apply (Str.is_str_ext m1); [|done]. intros a Ha. rewrite Hf3 by lia. apply Hf2. lia. }
  rewrite (read_string_spec fuel m3 tmp w) by (done || lia). cbn [mbind result_bind].
  rewrite (read_string_spec fuel m3 cmd _ Hx3) by lia. cbn [mbind result_bind]. exists m3. split; [|done].
  intros a Ha1 Ha2 Ha3. rewrite Hf3, Hf2 by lia. rewrite Hk by done. by apply Hz.
Qed.

End Line.

(** ** Commands *)

Section Commands.
Context (acpi : Acpi.t) (fuel : nat) (nano_address myTime_address switchTask_address : Z) (int_table : Z -> Z).
Context (junk : Scheduler.registers_t) (file : list Z).

#[local] Abbreviation run_command := (parse acpi fuel nano_address myTime_address switchTask_address int_table junk file).

Lemma hash_two a b y : 0 <= a < 128 -> 0 <= b < 128 ->
  Str.hash (a :: b :: y) = (a + 33 * b + 1089 * Str.hash y) mod 2 ^ 32.
Proof.
  intros Ha Hb. cbn [Str.hash]. assert (Hs : forall v, 0 <= v < 128 -> u32 (s8 v) = v).
  { intros v Hv. rewrite swrap_small, wrap_small by lia. done. }
  rewrite !Hs by done. unfold wrap. set (z := b + 33 * Str.hash y). rewrite (Z.mod_eq z (2 ^ 32)) by lia.
  replace (a + 33 * (z - 2 ^ 32 * (z / 2 ^ 32))) with (a + 33 * z + (- 33 * (z / 2 ^ 32)) * 2 ^ 32) by lia.
  rewrite Z_mod_plus_full. f_equal. lia.
Qed.

(** A command is its hash: every command of two or more characters has an
    alias, the string whose first character is 33 less and whose second one is
    one more - [Kt] for [ls] - that runs it. *)
Theorem command_alias a b y arg s (Ha : 33 < a < 128) (Hb : 0 <= b < 127) :
  run_command (a - 33 :: b + 1 :: y) arg s = run_command (a :: b :: y) arg s.
Proof.
  unfold parse. assert (Str.hash (a - 33 :: b + 1 :: y) = Str.hash (a :: b :: y)) as ->; [|done].
  rewrite !hash_two by lia. apply (f_equal (fun v => v mod 2 ^ 32)). lia.
Qed.

(** *** What is on the terminal *)

Definition shown (x : list Z) (k : Keyboard.t) : Keyboard.t :=
  Keyboard.with_term (Terminal.append (rev (map Terminal.char_event x)) (Keyboard.term k)) k.

Definition free_terminal (s : t) : Prop := Terminal.termLock (Keyboard.term (kbd s)) = false.

Lemma say_run x s : free_terminal s -> say x s = Ret (with_kbd (shown x (kbd s)) s).
Proof. intros Hf. unfold say, Keyboard.puts. by rewrite Terminal.puts_run. Qed.

Lemma shown_app x y k : shown y (shown x k) = shown (x ++ y) k.
Proof.
  unfold shown, Keyboard.with_term. cbn. rewrite Terminal.append_app. by rewrite map_app, rev_app_distr.
Qed.

Lemma shown_nil k : shown [] k = k.
Proof. unfold shown. destruct k as [? ? ? ? ? ? ? ? ? [] ?]. done. Qed.

Lemma list_entries_run l ns s :
  Forall2 (fun p n => Vfs.nodes (fs s) !! p = Some n) l ns -> free_terminal s ->
  list_entries l s = Ret (with_kbd (shown (concat (map entry ns)) (kbd s)) s).
Proof.
  intros H. remember (fs s) as f eqn:Ef. revert s Ef. induction H as [|p n l ns Hp _ IH]; intros s Ef Hf; cbn [list_entries].
  - cbn. rewrite shown_nil. by destruct s.
  - rewrite (Vfs.node_lookup _ p n) by (by rewrite <- Ef). cbn [mbind result_bind]. rewrite say_run by done.
    cbn [mbind result_bind]. rewrite IH by done. cbn [kbd with_kbd map concat]. by rewrite shown_app.
Qed.

(** [ls] without an argument lists the current directory. *)
Lemma ls_run s dn ns :
  currentNode s <> 0 -> Vfs.nodes (fs s) !! currentNode s = Some dn -> Z.land (Vfs.flags dn) 0x07 = Vfs.TFS_FOLDER ->
  Forall2 (fun p n => Vfs.nodes (fs s) !! p = Some n) (Vfs.childs dn) ns -> free_terminal s ->
  ls fuel [] s = Ret (with_kbd (shown (concat (map entry ns) ++ [10]) (kbd s)) s).
Proof.
  intros H0 Hd Hfl Hc Hf. unfold ls. change (arg_is [] "../" || arg_is [] "..") with false.
  change (arg_is [] "./" || arg_is [] "." || arg_is [] "") with true. cbn [mbind result_bind].
  destruct (Z.eqb_spec (currentNode s) 0); [done|]. rewrite (Vfs.node_lookup _ _ dn) by done. cbn [mbind result_bind].
  rewrite Hfl. cbn [Z.eqb Vfs.TFS_FOLDER Pos.eqb negb]. rewrite (list_entries_run _ ns) by done. cbn [mbind result_bind].
  rewrite say_run by done. cbn [kbd with_kbd]. by rewrite shown_app.
Qed.

(** C27: [mkdir] with a new name and then [ls] show what the directory had, in
    its order, and the new directory behind it; nothing else has changed. *)
Theorem mkdir_then_ls w dn pp ns s
  (H0 : currentNode s <> 0) (Hd : Vfs.nodes (fs s) !! currentNode s = Some dn)
  (Hfl : Z.land (Vfs.flags dn) 0x07 = Vfs.TFS_FOLDER)
  (Hc : Forall2 (fun p n => Vfs.nodes (fs s) !! p = Some n) (Vfs.childs dn) ns) (Hself : currentNode s ∉ Vfs.childs dn)
  (Hfresh : Vfs.nodes (fs s) !! Vfs.next_ptr (fs s) = None)
  (Hpp : Vfs.c_string (Vfs.path dn) = Ret pp) (Hw : (length pp + 1 + length w < Vfs.PATH_LENGTH)%nat)
  (Hf : free_terminal s) :
  exists s1 s2 new, run_command (text "mkdir") w s = Ret (Continue s1) /\
    run_command (text "ls") [] s1 = Ret (Continue s2) /\
    Vfs.name new = w /\ Vfs.parent new = currentNode s /\
    fs s2 = fs s1 /\ Vfs.nodes (fs s1) = <[currentNode s := Vfs.set_childs (Vfs.childs dn ++ [Vfs.next_ptr (fs s)]) dn]>
      (<[Vfs.next_ptr (fs s) := new]> (Vfs.nodes (fs s))) /\
    kbd s2 = shown (concat (map entry ns) ++ (BRED ++ text "[D]-" ++ w ++ RESET ++ [32]) ++ [10]) (kbd s).
Proof.
  unfold parse. change (command_of (Str.hash (text "mkdir"))) with Mkdir. change (command_of (Str.hash (text "ls"))) with Ls.
  cbv iota. unfold mkdir.
  rewrite (Vfs.addDir_run zero_node _ w dn pp) by (done || (unfold Vfs.FILENAME_LENGTH, Vfs.PATH_LENGTH in *; lia)).
  cbn [mbind result_bind go]. unfold go. cbn [mbind result_bind]. set (new := Vfs.mkNode w _ _ _ _ _ _ _).
  set (s1 := with_fs _ s). assert (Hne : Vfs.next_ptr (fs s) <> currentNode s) by congruence.
  assert (Hl : ls fuel [] s1 = Ret (with_kbd (shown (concat (map entry (ns ++ [new])) ++ [10]) (kbd s1)) s1)).
  { apply (ls_run s1 (Vfs.set_childs (Vfs.childs dn ++ [Vfs.next_ptr (fs s)]) dn) (ns ++ [new])); try done.
    - cbn. by rewrite lookup_insert_eq.
    - cbn. apply Forall2_app.
      + apply Forall2_same_length_lookup_2; [by eapply Forall2_length|]. intros i q n Hq Hn.
        pose proof (Forall2_lookup_lr _ _ _ _ _ _ Hc Hq Hn) as Hqn. cbn in Hqn.
        rewrite !lookup_insert_ne; [done| |].
        * intros E. rewrite E in Hfresh. congruence.
        * intros E. apply Hself. rewrite E. by eapply list_elem_of_lookup_2.
      + constructor; [|constructor]. by rewrite lookup_insert_ne, lookup_insert_eq. }
  eexists s1, _, new. split; [done|]. rewrite Hl. split; [done|]. do 4 (split; [done|]). cbn [kbd with_kbd].
  rewrite map_app, concat_app. cbn [map concat]. rewrite app_nil_r. unfold entry at 2.
  replace (Z.land (Vfs.flags new) 7) with Vfs.TFS_FOLDER by reflexivity. cbn [Z.eqb Vfs.TFS_FOLDER Pos.eqb].
  unfold new. cbn [Vfs.name]. by rewrite <- !app_assoc.
Qed.

(** *** Changing the directory *)

Lemma cat_path_run x p s :
  Keyboard.cells 128 (memory s) (path s) p -> Keyboard.nonzero p -> (length p + length x < 128)%nat -> (128 <= fuel)%nat ->
  exists m', cat_path fuel x s = Ret (with_memory m' s) /\ Keyboard.cells 128 m' (path s) (p ++ x) /\
    (forall a, ~ in_range (path s) 128 a -> m' a = memory s a).
Proof.
  intros Hc Hn Hl Hf. unfold cat_path.
  rewrite (Str.strlen_spec fuel _ _ p) by (first [by apply (Keyboard.cells_str 128); [..|lia]|lia]).
  cbn [mbind result_bind]. revert Hc. generalize (memory s) as m. intros m Hc.
  assert (H : forall m p, Keyboard.cells 128 m (path s) p -> (length p + length x < 128)%nat ->
    let m' := fst (foldl (fun '(m, a) ch => (store8 m a ch, a + 1)) (m, path s + Z.of_nat (length p)) x) in
    Keyboard.cells 128 m' (path s) (p ++ x) /\ forall a, ~ in_range (path s) 128 a -> m' a = m a).
  { clear. induction x as [|ch x IH]; intros m p Hc Hl; cbn [foldl length] in *; [by rewrite app_nil_r|].
    destruct (IH (store8 m (path s + Z.of_nat (length p)) ch) (p ++ [ch])) as [H1 H2].
    - by apply Keyboard.cells_push.
    - rewrite length_app. cbn. lia.
    - rewrite length_app in *. cbn [length] in *.
      replace (path s + Z.of_nat (length p) + 1) with (path s + Z.of_nat (length p + 1)) by lia.
      rewrite <- app_assoc in H1. split; [exact H1|]. intros a Ha. rewrite H2 by done.
      apply store8_ne. unfold in_range in Ha. lia. }
  destruct (H m p Hc Hl) as [H1 H2]. by eexists.
Qed.

(** A name that the directory does not have goes to its last child. *)
Lemma cd_missing w dn s :
  Vfs.plain_dir (fs s) (currentNode s) dn -> Vfs.no_child (fs s) dn w -> currentNode s <> 0 ->
  w <> [] /\ w <> Vfs.dot /\ w <> Vfs.dotdot -> 47 ∉ w -> 32 ∉ w -> Vfs.vfs_lock (fs s) = false ->
  (length (Vfs.childs dn) + 1 < fuel)%nat ->
  forall q, List.last (Vfs.childs dn) 0 = q -> cd fuel w s = enter fuel q s.
Proof.
  intros Hd Hn H0 Hw Hs Hsp Hl Hf q Hq.
  assert (Hno : forall x, 47 ∈ text x \/ text x = [] \/ text x = Vfs.dot \/ text x = Vfs.dotdot -> arg_is w x = false).
  { intros x Hx. unfold arg_is. apply bool_decide_eq_false_2. intros ->. destruct Hx as [|Hx]; tauto. }
  unfold cd. rewrite !Hno by (cbn; rewrite ?elem_of_cons; auto 10). cbn [orb]. unfold open.
  rewrite (Vfs.open_missing_returns_last fuel _ dn) by (done || lia). rewrite Hq. cbn [mbind result_bind]. by destruct s.
Qed.

(** [cd] moves before it looks: with a name that the current directory does
    not have it makes the last entry the current node, whatever that is; in an
    empty directory it dereferences null.  At the top [cd ..] leads nowhere: the
    next turn starts with a new empty directory that knows nothing of the old
    one. *)
Theorem cd_loses w dn p s
  (Hd : Vfs.plain_dir (fs s) (currentNode s) dn) (Hn : Vfs.no_child (fs s) dn w) (H0 : currentNode s <> 0)
  (Hw : w <> [] /\ w <> Vfs.dot /\ w <> Vfs.dotdot) (Hs : 47 ∉ w) (Hsp : 32 ∉ w) (Hl : Vfs.vfs_lock (fs s) = false)
  (Hf : (length (Vfs.childs dn) + 1 < fuel)%nat /\ (128 <= fuel)%nat) (Ht : free_terminal s)
  (Hp : Keyboard.cells 128 (memory s) (path s) p) (Hpn : Keyboard.nonzero p)
  (Hnull : Vfs.nodes (fs s) !! 0 = None)
  (Hnames : forall q n, Vfs.nodes (fs s) !! q = Some n -> (length p + 1 + length (Vfs.name n) < 128)%nat) :
  (Vfs.childs dn = [] -> run_command (text "cd") w s = Fault) /\
  (forall q cs, Vfs.childs dn = cs ++ [q] -> q <> 0 ->
     exists s', run_command (text "cd") w s = Ret (Continue s') /\ currentNode s' = q /\ fs s' = fs s) /\
  (Vfs.parent dn = 0 -> Vfs.nodes (fs s) !! Vfs.next_ptr (fs s) = None -> Vfs.next_ptr (fs s) <> 0 ->
     exists s1 s2 n, run_command (text "cd") (text "..") s = Ret (Continue s1) /\ ensure_node s1 = Ret s2 /\
       currentNode s2 <> currentNode s /\ Vfs.nodes (fs s2) !! currentNode s2 = Some n /\
       Vfs.childs n = [] /\ Vfs.parent n = 0 /\ Vfs.ptr n = 0).
Proof.
  unfold parse. change (command_of (Str.hash (text "cd"))) with Cd. cbv iota.
  pose proof Hd as (Hdn & _ & Hch). pose proof (cd_missing w dn s Hd Hn H0 Hw Hs Hsp Hl (proj1 Hf)) as Hcd.
  split; [|split].
  - intros Hnil. rewrite (Hcd 0) by (by rewrite Hnil). unfold enter.
    destruct (cat_path_run [47] p (with_node 0 s)) as (m1 & -> & _); [done|done| |lia|].
    { pose proof (Hnames _ _ Hdn). cbn. lia. }
    unfold go. cbn [mbind result_bind fs with_memory with_kbd with_node currentNode]. unfold Vfs.node. by rewrite Hnull.
  - intros q cs Hcs Hq. rewrite (Hcd q) by (rewrite Hcs; apply List.last_last). unfold enter.
    assert (Hcn : exists cn, Vfs.nodes (fs s) !! q = Some cn).
    { rewrite Hcs in Hch. apply Forall_app in Hch as [_ Hch]. inversion Hch as [|? ? (cn & Hcn & _) _]; subst. by exists cn. }
    destruct Hcn as (cn & Hcn). pose proof (Hnames _ _ Hcn) as Hlen.
    destruct (cat_path_run [47] p (with_node q s)) as (m1 & -> & Hc1 & _); [done|done|cbn; lia|lia|].
    unfold go. cbn [mbind result_bind fs with_memory with_kbd with_node currentNode].
    rewrite (Vfs.node_lookup _ q cn) by done. cbn [mbind result_bind].
    destruct (cat_path_run (Vfs.name cn) (p ++ [47]) (with_memory m1 (with_node q s))) as (m2 & -> & _);
      [done|apply Forall_app; split; [done|by repeat constructor]|rewrite length_app; cbn; lia|lia|].
    cbn [mbind result_bind fs with_memory with_kbd with_node]. destruct (Z.eqb_spec q 0); [done|].
    rewrite (Vfs.node_lookup _ q cn) by done. cbn [mbind result_bind].
    destruct (negb _); [|by eexists]. rewrite say_run by done. cbn [mbind result_bind]. by eexists.
  - intros Hpar Hfr Hnz. eexists (with_node 0 s), _, _. split; [|split].
    + unfold cd. change (arg_is (text "..") "") with false. change (arg_is (text "..") ".." || arg_is (text "..") "../") with true.
      rewrite (Vfs.node_lookup _ _ dn) by done. unfold go. cbn [mbind result_bind]. by rewrite Hpar.
    + unfold ensure_node, Vfs.malloc_node, Vfs.update, Vfs.node. cbn. repeat (rewrite lookup_insert_eq; cbn). reflexivity.
    + cbn. split; [congruence|]. rewrite lookup_insert_eq. by split_and!.
Qed.

End Commands.

(** ** The properties at a concrete state *)

(** In the directory of [Vfs.demo], with nothing typed; [path] at 0x6000. *)
Definition demo (m : mem) : t :=
  mk (Keyboard.with_memory m (Keyboard.demo false false)) Vfs.demo 1 0x6000
     (mkSystem Scheduler.empty Apic.initial Idt.initial Omtime.pit_only).

(** The line ["ls /"] at 0x2000 and the literal at 0x7000. *)
Definition typed_line : mem := fun a =>
  match a with 0x2000 => 108 | 0x2001 => 115 | 0x2002 => 32 | 0x2003 => 47 | 0x7000 => 32 | _ => 0 end.

Lemma interpret_command_witness :
  let x := [108; 115; 32; 47] in
  exists m', interpret Acpi.initial 64 0x5000 0x5100 0x7000 0x400 0x500 0x600 (fun _ => 0) Scheduler.no_regs [] 0x2000 (demo typed_line) =
    parse Acpi.initial 64 0x400 0x500 0x600 (fun _ => 0) Scheduler.no_regs [] (text "ls") [47] (with_memory m' (demo typed_line)).
Proof.
  cbn zeta.
  destruct (interpret_command 64 0x5000 0x5100 0x7000 0x2000 [108; 115; 32; 47]
    ltac:(split; unfold Keyboard.disjoint; cbn; lia) ltac:(cbn; lia) ltac:(cbn; lia)
    Acpi.initial 0x400 0x500 0x600 (fun _ => 0) Scheduler.no_regs [] (demo typed_line)
    ltac:(by repeat split) ltac:(by repeat split)) as (m' & _ & E).
  exists m'. exact E.
Defined.

(** [Kt] is [ls]. *)
Lemma command_alias_witness :
  parse Acpi.initial 64 0x400 0x500 0x600 (fun _ => 0) Scheduler.no_regs [] (text "Kt") [] (demo (fun _ => 0)) =
  parse Acpi.initial 64 0x400 0x500 0x600 (fun _ => 0) Scheduler.no_regs [] (text "ls") [] (demo (fun _ => 0)).
Proof.
  exact (command_alias Acpi.initial 64 0x400 0x500 0x600 (fun _ => 0) Scheduler.no_regs [] 108 115 [] []
    (demo (fun _ => 0)) ltac:(lia) ltac:(lia)).
Defined.

Lemma mkdir_then_ls_witness :
  exists s1 s2, parse Acpi.initial 64 0x400 0x500 0x600 (fun _ => 0) Scheduler.no_regs [] (text "mkdir") [100] (demo (fun _ => 0)) =
      Ret (Continue s1) /\
    parse Acpi.initial 64 0x400 0x500 0x600 (fun _ => 0) Scheduler.no_regs [] (text "ls") [] s1 = Ret (Continue s2) /\
    kbd s2 = shown (BMAGENTA ++ text "[F]-a" ++ RESET ++ [32] ++ BMAGENTA ++ text "[F]-b" ++ RESET ++ [32] ++
      BRED ++ text "[D]-d" ++ RESET ++ [32; 10]) (kbd (demo (fun _ => 0))).
Proof.
  destruct (mkdir_then_ls Acpi.initial 64 0x400 0x500 0x600 (fun _ => 0) Scheduler.no_regs [] [100]
    (Vfs.demo_node [47] Vfs.TFS_FOLDER 9 [2; 3]) [] [Vfs.demo_node [97] Vfs.TFS_FILE 1 []; Vfs.demo_node [98] Vfs.TFS_FILE 1 []]
    (demo (fun _ => 0))) as (s1 & s2 & new & E1 & E2 & _ & _ & _ & _ & Hk);
    [discriminate|reflexivity|reflexivity|repeat constructor|cbn; rewrite !elem_of_cons, elem_of_nil; lia|reflexivity
    |reflexivity|unfold Vfs.PATH_LENGTH; cbn; lia|reflexivity|].
  exists s1, s2. split; [exact E1|]. split; [exact E2|]. rewrite Hk. reflexivity.
Defined.

(** [cd c] in the directory with the files [a] and [b] goes to [b]. *)
Lemma cd_loses_witness :
  exists s', parse Acpi.initial 128 0x400 0x500 0x600 (fun _ => 0) Scheduler.no_regs [] (text "cd") [99] (demo (fun _ => 0)) =
    Ret (Continue s') /\ currentNode s' = 3.
Proof.
  destruct (cd_loses Acpi.initial 128 0x400 0x500 0x600 (fun _ => 0) Scheduler.no_regs [] [99]
    (Vfs.demo_node [47] Vfs.TFS_FOLDER 9 [2; 3]) [] (demo (fun _ => 0))) as (_ & H & _).
  - exact Vfs.demo_dir.
  - apply Vfs.demo_no_child; discriminate.
  - discriminate.
  - repeat split; discriminate.
  - intros E%list_elem_of_singleton; discriminate E.
  - intros E%list_elem_of_singleton; discriminate E.
  - reflexivity.
  - cbn. lia.
  - reflexivity.
  - apply Keyboard.zero_cells.
  - constructor.
  - reflexivity.
  - intros q n Hq. cbn [fs demo Vfs.nodes Vfs.demo] in Hq.
    apply lookup_insert_Some in Hq as [[_ <-]|[_ Hq]]; [cbn; lia|].
    apply lookup_insert_Some in Hq as [[_ <-]|[_ Hq]]; [cbn; lia|].
    apply lookup_insert_Some in Hq as [[_ <-]|[_ Hq]]; [cbn; lia|]. by rewrite lookup_empty in Hq.
  - destruct (H 3 [2] eq_refl ltac:(discriminate)) as (s' & E & Hc & _). exists s'. split; [exact E|exact Hc].
Defined.

End Shell.
