(* ===== verification/Boot.v ===== *)
(** * The entry of the kernel: [kernel/kernel.cpp]

    The loader leaves a list of tags in memory.  [_start] looks up the ones it
    wants, starts the serial port unless the command line has ["nocom"], the
    framebuffer and the terminal, and calls [main]. *)

From S2P Require Import Prelude Mem Str PortIO Terminal Serial Framebuffer.
#[local] Open Scope Z_scope.
#[local] Open Scope machine_scope.

Module Boot.

(** ** [stivale2.h] *)

Definition SMP_ID : Z := 0x34d1d96339647025.
Definition MEMMAP_ID : Z := 0x2187f79e8612de07.
Definition RSDP_ID : Z := 0x9e1786930a375e78.
Definition FRAMEBUFFER_ID : Z := 0x506461d2950408fa.
Definition TERMINAL_ID : Z := 0xc2b3f4c3233b0974.
Definition MODULES_ID : Z := 0x4b6fe466aade04ce.
Definition CMDLINE_ID : Z := 0xe5e76a1b4597a781.
Definition KERNEL_FILE_V2_ID : Z := 0x37c13018a02c6ea2.
Definition EPOCH_ID : Z := 0x566a7bed888e1407.
Definition HHDM_ID : Z := 0xb0ed257db18cb58f.

Section Fields.
Context (m : mem) (p : Z).

Definition identifier : Z := load64 m p.
Definition next : Z := load64 m (p + 8).
(** [stivale2_struct::tags], behind two texts of 64 bytes. *)
Definition struct_tags : Z := load64 m (p + 128).
Definition cmdline_of : Z := load64 m (p + 16).
Definition module_count : Z := load64 m (p + 16).
(** The string of module [i]: 24 bytes of header, 144 a module, 16 before the string. *)
Definition module_string (i : Z) : Z := p + 24 + 144 * i + 16.
Definition frm_address : Z := load64 m (p + 16).
Definition frm_width_of : Z := load 2 m (p + 24).
Definition frm_height_of : Z := load 2 m (p + 26).
Definition frm_pitch_of : Z := load 2 m (p + 28).
Definition frm_bpp_of : Z := load 2 m (p + 30).
Definition term_cols : Z := load 2 m (p + 20).
Definition term_rows : Z := load 2 m (p + 22).
End Fields.

(** ** Tags and modules *)

Fixpoint get_tag_loop (fuel : nat) (m : mem) (current_tag id : Z) : result Z :=
  match fuel with
  | O => Diverge
  | S fuel =>
      if current_tag =? 0 then Ret 0
      else if identifier m current_tag =? id then Ret current_tag
      else get_tag_loop fuel m (next m current_tag) id
  end.

Definition stivale2_get_tag (fuel : nat) (m : mem) (stivale id : Z) : result Z :=
  get_tag_loop fuel m (struct_tags m stivale) id.

(** The index is returned as an [int]. *)
Fixpoint find_loop (n : nat) (fuel : nat) (m : mem) (mod_tag i name : Z) : result Z :=
  match n with
  | O => Ret (-1)
  | S n =>
      r ← Str.strcmp fuel m (module_string mod_tag i) name;
      if r =? 0 then Ret (s32 i) else find_loop n fuel m mod_tag (i + 1) name
  end.

Definition find_module (fuel : nat) (m : mem) (mod_tag name : Z) : result Z :=
  if mod_tag =? 0 then Fault else find_loop (Z.to_nat (module_count m mod_tag)) fuel m mod_tag 0 name.

(** ** [_start] *)

Record tags : Type := mkTags {
  smp_tag : Z; mmap_tag : Z; rsdp_tag : Z; frm_tag : Z; term_tag : Z; mod_tag : Z; cmd_tag : Z;
  kfilev2_tag : Z; epoch_tag : Z; hhdm_tag : Z;
}.

Definition find_tags (fuel : nat) (m : mem) (stivale : Z) : result tags :=
  smp ← stivale2_get_tag fuel m stivale SMP_ID;
  mmap ← stivale2_get_tag fuel m stivale MEMMAP_ID;
  rsdp ← stivale2_get_tag fuel m stivale RSDP_ID;
  frm ← stivale2_get_tag fuel m stivale FRAMEBUFFER_ID;
  term ← stivale2_get_tag fuel m stivale TERMINAL_ID;
  mods ← stivale2_get_tag fuel m stivale MODULES_ID;
  cmd ← stivale2_get_tag fuel m stivale CMDLINE_ID;
  kfile ← stivale2_get_tag fuel m stivale KERNEL_FILE_V2_ID;
  epoch ← stivale2_get_tag fuel m stivale EPOCH_ID;
  hhdm ← stivale2_get_tag fuel m stivale HHDM_ID;
  Ret (mkTags smp mmap rsdp frm term mods cmd kfile epoch hhdm).

(** What the drivers are in when [main] is called. *)
Record machine {K} : Type := mkMachine {
  found : tags; cmdline : Z; serial : Serial.t; ports : PortIO.history;
  screen : Framebuffer.screen; term : Terminal.t; rest : K;
}.
Arguments machine K : clear implicits.

Section Start.
Context {K : Type} (input : PortIO.device) (fuel : nat).
(** [registerInterruptHandler(idt::IRQ4, COM1_Handler)] and [ssfn::init] on the
    rest of the kernel's state, and the address of the literal ["nocom"]. *)
Context (register : PortIO.history -> K -> result (PortIO.history * K)) (ssfn_init : Framebuffer.screen -> K -> result K) (nocom : Z).

(** The panics print through the terminal's [write], which is null until the
    terminal is initialised: a call of null. *)
Definition start (stivale : Z) (m : mem) (s : Serial.t) (t : Terminal.t) (h : PortIO.history) (k : K)
  : result (machine K) :=
  tg ← find_tags fuel m stivale;
  if cmd_tag tg =? 0 then Fault else
  let cmdline := cmdline_of m (cmd_tag tg) in
  r ← Str.strstr fuel m cmdline nocom;
  '(s, h, k) ← (if r =? 0 then Serial.init input fuel register s h k else Ret (s, h, k));
  if frm_tag tg =? 0 then Fault else
  let f := frm_tag tg in
  let screen := Framebuffer.init (frm_address m f) (frm_width_of m f) (frm_height_of m f) (frm_pitch_of m f) (frm_bpp_of m f) in
  k ← ssfn_init screen k;
  if term_tag tg =? 0 then Fault else
  let t := Terminal.init (term_cols m (term_tag tg)) (term_rows m (term_tag tg)) t in
  Ret (mkMachine K tg cmdline s h screen t k).

End Start.

(** ** Properties *)

(** The list of tags in memory: their addresses and identifiers. *)
Fixpoint chain (m : mem) (p : Z) (l : list (Z * Z)) : Prop :=
  match l with
  | [] => p = 0
  | (a, id) :: l => p = a /\ a <> 0 /\ identifier m a = id /\ chain m (next m a) l
  end.

Fixpoint first_tag (id : Z) (l : list (Z * Z)) : Z :=
  match l with
  | [] => 0
  | (a, i) :: l => if i =? id then a else first_tag id l
  end.

Lemma get_tag_run m id fuel p l :
  chain m p l -> (length l < fuel)%nat -> get_tag_loop fuel m p id = Ret (first_tag id l).
Proof.
  revert p fuel. induction l as [|[a i] l IH]; intros p [|fuel] Hc Hf; cbn [length chain] in *; try lia;
    cbn [get_tag_loop first_tag].
  - by subst.
  - destruct Hc as (-> & Ha & Hi & Hc). destruct (Z.eqb_spec a 0); [done|]. rewrite Hi.
    destruct (i =? id); [done|]. apply IH; [done|lia].
Qed.

(** C33: [stivale2_get_tag] returns the first tag with the identifier, null if
    there is none, with fuel for every tag; on a list that closes into a cycle
    without it, the search never ends. *)
Theorem get_tag_first m stivale id :
  (forall fuel l, chain m (struct_tags m stivale) l -> (length l < fuel)%nat ->
     stivale2_get_tag fuel m stivale id = Ret (first_tag id l)) /\
  (forall cycle : Z -> Prop, cycle (struct_tags m stivale) ->
     (forall p, cycle p -> p <> 0 /\ identifier m p <> id /\ cycle (next m p)) ->
     forall fuel, stivale2_get_tag fuel m stivale id = Diverge).
Proof.
  unfold stivale2_get_tag. generalize (struct_tags m stivale) as p. intros p. split.
  - intros fuel l. apply get_tag_run.
  - intros cycle Hp Hcy fuel. revert p Hp. induction fuel as [|fuel IH]; intros p Hp; [done|]. cbn [get_tag_loop].
    destruct (Hcy p Hp) as (Hp0 & Hi & Hn). destruct (Z.eqb_spec p 0); [done|].
    destruct (Z.eqb_spec (identifier m p) id); [done|]. by apply IH.
Qed.

(** The tags that [_start] finds in the list. *)
Definition tags_of (l : list (Z * Z)) : tags :=
  mkTags (first_tag SMP_ID l) (first_tag MEMMAP_ID l) (first_tag RSDP_ID l) (first_tag FRAMEBUFFER_ID l)
    (first_tag TERMINAL_ID l) (first_tag MODULES_ID l) (first_tag CMDLINE_ID l) (first_tag KERNEL_FILE_V2_ID l)
    (first_tag EPOCH_ID l) (first_tag HHDM_ID l).

Lemma find_tags_run fuel m stivale l :
  chain m (struct_tags m stivale) l -> (length l < fuel)%nat -> find_tags fuel m stivale = Ret (tags_of l).
Proof.
  intros Hc Hf. unfold find_tags, stivale2_get_tag.
  repeat (rewrite (get_tag_run _ _ _ _ _ Hc Hf); cbn [mbind result_bind]). reflexivity.
Qed.

(** Two tags, the second one the command line's; its link made to go back closes
    the list. *)
Definition two_tags (back : Z) : mem :=
  let tag a id nxt m := store64 (store64 m a id) (a + 8) nxt in
  store64 (tag 0x2000 SMP_ID 0x3000 (tag 0x3000 CMDLINE_ID back (fun _ => 0))) (0x1000 + 128) 0x2000.

Lemma get_tag_first_witness :
  stivale2_get_tag 3 (two_tags 0) 0x1000 CMDLINE_ID = Ret 0x3000 /\
  (forall fuel, stivale2_get_tag fuel (two_tags 0x2000) 0x1000 RSDP_ID = Diverge).
Proof.
  split.
  - destruct (get_tag_first (two_tags 0) 0x1000 CMDLINE_ID) as [H _].
    apply (H 3%nat [(0x2000, SMP_ID); (0x3000, CMDLINE_ID)]); [|cbn; lia]. vm_compute. repeat split; discriminate.
  - destruct (get_tag_first (two_tags 0x2000) 0x1000 RSDP_ID) as [_ H].
    apply (H (fun p => p = 0x2000 \/ p = 0x3000)); [by left|].
    intros p [->| ->]; split_and!; vm_compute; try discriminate; auto.
Defined.

(** The strings of the modules from index [i] on. *)
Fixpoint module_strings (m : mem) (tag i : Z) (l : list (list Z)) : Prop :=
  match l with
  | [] => True
  | x :: l => Str.is_str m (module_string tag i) x /\ module_strings m tag (i + 1) l
  end.

Fixpoint index_of (x : list Z) (i : Z) (l : list (list Z)) : Z :=
  match l with
  | [] => -1
  | y :: l => if bool_decide (y = x) then i else index_of x (i + 1) l
  end.

Lemma module_loop_spec fuel m tag name x l i :
  module_strings m tag i l -> Str.is_str m name x -> 0 <= i -> i + Z.of_nat (length l) < 2 ^ 31 ->
  Forall (fun y => (length y < fuel)%nat) l ->
  find_loop (length l) fuel m tag i name = Ret (index_of x i l).
Proof.
  intros Hl Hx Hi Hb Hf. revert i Hl Hi Hb. induction Hf as [|y l Hy _ IH]; intros i Hl Hi Hb; [done|].
  cbn [length find_loop index_of module_strings] in *. destruct Hl as [Hs Hl].
  destruct (Str.strcmp_equal fuel m _ _ _ _ Hs Hx Hy) as (r & -> & Hr). cbn [mbind result_bind].
  destruct (Z.eqb_spec r 0) as [E|E].
  - rewrite bool_decide_eq_true_2 by tauto. f_equal. by apply swrap_small; lia.
  - rewrite bool_decide_eq_false_2 by tauto. apply IH; [done|lia|lia].
Qed.

(** [find_module] returns the index of the first module with the string,
    -1 if there is none; without the loader's tag it dereferences null. *)
Theorem find_module_first fuel m tag name x l
  (Hl : module_strings m tag 0 l) (Hx : Str.is_str m name x)
  (Hn : module_count m tag = Z.of_nat (length l)) (Hb : Z.of_nat (length l) < 2 ^ 31)
  (Hf : Forall (fun y => (length y < fuel)%nat) l) :
  (tag <> 0 -> find_module fuel m tag name = Ret (index_of x 0 l)) /\ find_module fuel m 0 name = Fault.
Proof.
  split; [|done]. intros H0. unfold find_module. destruct (Z.eqb_spec tag 0); [done|].
  rewrite Hn, Nat2Z.id. by apply module_loop_spec.
Qed.

(** One module, ["font"], and the name at 16. *)
Definition one_module : mem := fun a =>
  match a with
  | 16 => 102 | 17 => 111 | 18 => 110 | 19 => 116
  | 0x1010 => 1 | 0x1028 => 102 | 0x1029 => 111 | 0x102A => 110 | 0x102B => 116 | _ => 0
  end.

Lemma find_module_first_witness : find_module 5 one_module 0x1000 16 = Ret 0.
Proof.
  destruct (find_module_first 5 one_module 0x1000 16 (Str.string_bytes "font") [Str.string_bytes "font"]) as [H _].
  - cbn. by repeat split.
  - by repeat split.
  - reflexivity.
  - cbn. lia.
  - apply Forall_cons. split; [cbn; lia|apply Forall_nil; exact I].
  - rewrite H; [reflexivity|discriminate].
Defined.

(** Without the tag of the framebuffer or of the terminal the kernel calls null
    instead of printing its message. *)
Lemma start_without_screen {K} input fuel (register : PortIO.history -> K -> result (PortIO.history * K)) ssfn_init nocom
    stivale m s t h k tg :
  find_tags fuel m stivale = Ret tg -> frm_tag tg = 0 -> Serial.serialLock s = false -> Serial.isInit s = false ->
  (forall h, register h k = Ret (h, k)) -> cmd_tag tg <> 0 -> (exists r, Str.strstr fuel m (cmdline_of m (cmd_tag tg)) nocom = Ret r) ->
  start input fuel register ssfn_init nocom stivale m s t h k = Fault.
Proof.
  intros Htg Hf Hl Hi Hr Hc (r & Hs). unfold start. rewrite Htg. cbn [mbind result_bind].
  destruct (Z.eqb_spec (cmd_tag tg) 0); [done|]. rewrite Hs. cbn [mbind result_bind].
  destruct (r =? 0).
  - destruct (Serial.init_sends_no_colour input fuel register s h k k Hi Hl Hr) as (h' & -> & _).
    cbn [mbind result_bind]. by rewrite Hf.
  - cbn [mbind result_bind]. by rewrite Hf.
Qed.

End Boot.
