(* ===== verification/Kernel.v ===== *)
(** * The state of the kernel, and what its parts share

    The components have their own states; here they become fields of one
    record.  The memory is the allocator's, the history of device accesses is
    one, the interval timer is the scheduler's field.  Drivers whose state holds
    a copy of a shared part are given the current one ([_view]). *)

From S2P Require Import Prelude Mem PortIO Mmio Cpu PMemory VMemory Heap Str Printf Pci Acpi Pit Terminal Serial Keyboard Mouse Clock Apic Gdt Scheduler Idt Smp Vfs Shell.
#[local] Open Scope Z_scope.
#[local] Open Scope machine_scope.
#[local] Existing Instance result_bind.

Module Kernel.

(** [vmm] and [smp] are the flags [isInit] of [vMemory] and [smp]. *)
Record t : Type := mk {
  serial : Serial.t; term : Terminal.t; ports : PortIO.history;
  heap : Heap.heap; frames : PMemory.state;
  vmm : bool; kernel_pagemap : option VMemory.Pagemap;
  gdt : Gdt.t; idt : Idt.t; core : Smp.core;
  acpi : Acpi.t; hpet : Hpet.t; pci : Pci.state; apic : Apic.t;
  smp : bool; cpus : list Smp.cpu_t; sched : Scheduler.st;
  kbd : Keyboard.t; mouse : Mouse.t; vfs : Vfs.st; meminbytes : Z;
}.

Definition with_serial (v : Serial.t) (s : t) : t :=
  mk v (term s) (ports s) (heap s) (frames s) (vmm s) (kernel_pagemap s) (gdt s) (idt s) (core s) (acpi s) (hpet s) (pci s) (apic s) (smp s) (cpus s) (sched s) (kbd s) (mouse s) (vfs s) (meminbytes s).
Definition with_term (v : Terminal.t) (s : t) : t :=
  mk (serial s) v (ports s) (heap s) (frames s) (vmm s) (kernel_pagemap s) (gdt s) (idt s) (core s) (acpi s) (hpet s) (pci s) (apic s) (smp s) (cpus s) (sched s) (kbd s) (mouse s) (vfs s) (meminbytes s).
Definition with_ports (v : PortIO.history) (s : t) : t :=
  mk (serial s) (term s) v (heap s) (frames s) (vmm s) (kernel_pagemap s) (gdt s) (idt s) (core s) (acpi s) (hpet s) (pci s) (apic s) (smp s) (cpus s) (sched s) (kbd s) (mouse s) (vfs s) (meminbytes s).
Definition with_heap (v : Heap.heap) (s : t) : t :=
  mk (serial s) (term s) (ports s) v (frames s) (vmm s) (kernel_pagemap s) (gdt s) (idt s) (core s) (acpi s) (hpet s) (pci s) (apic s) (smp s) (cpus s) (sched s) (kbd s) (mouse s) (vfs s) (meminbytes s).
Definition with_frames (v : PMemory.state) (s : t) : t :=
  mk (serial s) (term s) (ports s) (heap s) v (vmm s) (kernel_pagemap s) (gdt s) (idt s) (core s) (acpi s) (hpet s) (pci s) (apic s) (smp s) (cpus s) (sched s) (kbd s) (mouse s) (vfs s) (meminbytes s).
Definition with_vmm (v : bool) (s : t) : t :=
  mk (serial s) (term s) (ports s) (heap s) (frames s) v (kernel_pagemap s) (gdt s) (idt s) (core s) (acpi s) (hpet s) (pci s) (apic s) (smp s) (cpus s) (sched s) (kbd s) (mouse s) (vfs s) (meminbytes s).
Definition with_kernel_pagemap (v : option VMemory.Pagemap) (s : t) : t :=
  mk (serial s) (term s) (ports s) (heap s) (frames s) (vmm s) v (gdt s) (idt s) (core s) (acpi s) (hpet s) (pci s) (apic s) (smp s) (cpus s) (sched s) (kbd s) (mouse s) (vfs s) (meminbytes s).
Definition with_gdt (v : Gdt.t) (s : t) : t :=
  mk (serial s) (term s) (ports s) (heap s) (frames s) (vmm s) (kernel_pagemap s) v (idt s) (core s) (acpi s) (hpet s) (pci s) (apic s) (smp s) (cpus s) (sched s) (kbd s) (mouse s) (vfs s) (meminbytes s).
Definition with_idt (v : Idt.t) (s : t) : t :=
  mk (serial s) (term s) (ports s) (heap s) (frames s) (vmm s) (kernel_pagemap s) (gdt s) v (core s) (acpi s) (hpet s) (pci s) (apic s) (smp s) (cpus s) (sched s) (kbd s) (mouse s) (vfs s) (meminbytes s).
Definition with_core (v : Smp.core) (s : t) : t :=
  mk (serial s) (term s) (ports s) (heap s) (frames s) (vmm s) (kernel_pagemap s) (gdt s) (idt s) v (acpi s) (hpet s) (pci s) (apic s) (smp s) (cpus s) (sched s) (kbd s) (mouse s) (vfs s) (meminbytes s).
Definition with_acpi (v : Acpi.t) (s : t) : t :=
  mk (serial s) (term s) (ports s) (heap s) (frames s) (vmm s) (kernel_pagemap s) (gdt s) (idt s) (core s) v (hpet s) (pci s) (apic s) (smp s) (cpus s) (sched s) (kbd s) (mouse s) (vfs s) (meminbytes s).
Definition with_hpet (v : Hpet.t) (s : t) : t :=
  mk (serial s) (term s) (ports s) (heap s) (frames s) (vmm s) (kernel_pagemap s) (gdt s) (idt s) (core s) (acpi s) v (pci s) (apic s) (smp s) (cpus s) (sched s) (kbd s) (mouse s) (vfs s) (meminbytes s).
Definition with_pci (v : Pci.state) (s : t) : t :=
  mk (serial s) (term s) (ports s) (heap s) (frames s) (vmm s) (kernel_pagemap s) (gdt s) (idt s) (core s) (acpi s) (hpet s) v (apic s) (smp s) (cpus s) (sched s) (kbd s) (mouse s) (vfs s) (meminbytes s).
Definition with_apic (v : Apic.t) (s : t) : t :=
  mk (serial s) (term s) (ports s) (heap s) (frames s) (vmm s) (kernel_pagemap s) (gdt s) (idt s) (core s) (acpi s) (hpet s) (pci s) v (smp s) (cpus s) (sched s) (kbd s) (mouse s) (vfs s) (meminbytes s).
Definition with_smp (v : bool) (s : t) : t :=
  mk (serial s) (term s) (ports s) (heap s) (frames s) (vmm s) (kernel_pagemap s) (gdt s) (idt s) (core s) (acpi s) (hpet s) (pci s) (apic s) v (cpus s) (sched s) (kbd s) (mouse s) (vfs s) (meminbytes s).
Definition with_cpus (v : list Smp.cpu_t) (s : t) : t :=
  mk (serial s) (term s) (ports s) (heap s) (frames s) (vmm s) (kernel_pagemap s) (gdt s) (idt s) (core s) (acpi s) (hpet s) (pci s) (apic s) (smp s) v (sched s) (kbd s) (mouse s) (vfs s) (meminbytes s).
Definition with_sched (v : Scheduler.st) (s : t) : t :=
  mk (serial s) (term s) (ports s) (heap s) (frames s) (vmm s) (kernel_pagemap s) (gdt s) (idt s) (core s) (acpi s) (hpet s) (pci s) (apic s) (smp s) (cpus s) v (kbd s) (mouse s) (vfs s) (meminbytes s).
Definition with_kbd (v : Keyboard.t) (s : t) : t :=
  mk (serial s) (term s) (ports s) (heap s) (frames s) (vmm s) (kernel_pagemap s) (gdt s) (idt s) (core s) (acpi s) (hpet s) (pci s) (apic s) (smp s) (cpus s) (sched s) v (mouse s) (vfs s) (meminbytes s).
Definition with_mouse (v : Mouse.t) (s : t) : t :=
  mk (serial s) (term s) (ports s) (heap s) (frames s) (vmm s) (kernel_pagemap s) (gdt s) (idt s) (core s) (acpi s) (hpet s) (pci s) (apic s) (smp s) (cpus s) (sched s) (kbd s) v (vfs s) (meminbytes s).
Definition with_vfs (v : Vfs.st) (s : t) : t :=
  mk (serial s) (term s) (ports s) (heap s) (frames s) (vmm s) (kernel_pagemap s) (gdt s) (idt s) (core s) (acpi s) (hpet s) (pci s) (apic s) (smp s) (cpus s) (sched s) (kbd s) (mouse s) v (meminbytes s).
Definition with_meminbytes (v : Z) (s : t) : t :=
  mk (serial s) (term s) (ports s) (heap s) (frames s) (vmm s) (kernel_pagemap s) (gdt s) (idt s) (core s) (acpi s) (hpet s) (pci s) (apic s) (smp s) (cpus s) (sched s) (kbd s) (mouse s) (vfs s) v.

Definition memory (s : t) : mem := PMemory.memory (frames s).
Definition with_memory (m : mem) (s : t) : t := with_frames (PMemory.set_memory m (frames s)) s.
Definition heap_state (s : t) : Heap.state := (heap s, frames s).
Definition with_heap_state (hs : Heap.state) (s : t) : t := with_frames hs.2 (with_heap hs.1 s).
Definition pit (s : t) : Pit.t := Scheduler.pit (sched s).
Definition with_pit (p : Pit.t) (s : t) : t := with_sched (Scheduler.set_pit p (sched s)) s.
Definition with_tables (c : Gdt.cpu) (s : t) : t :=
  with_core (Smp.mkCore c (Smp.interrupts (core s)) (Smp.control (core s))) s.
Definition with_interrupts (c : Idt.cpu) (s : t) : t :=
  with_core (Smp.mkCore (Smp.tables (core s)) c (Smp.control (core s))) s.
Definition with_control (r : Cpu.regs) (s : t) : t :=
  with_core (Smp.mkCore (Smp.tables (core s)) (Smp.interrupts (core s)) r) s.

Definition kbd_view (s : t) : Keyboard.t :=
  Keyboard.with_ports (ports s) (Keyboard.with_term (term s) (Keyboard.with_memory (memory s) (kbd s))).
Definition with_kbd_view (k : Keyboard.t) (s : t) : t :=
  with_ports (Keyboard.ports k) (with_term (Keyboard.term k) (with_kbd k s)).
Definition sched_view (s : t) : Scheduler.st := Scheduler.set_ports (ports s) (sched s).

(** ** What the loader says and where the image is *)

(** The tags of [kernel.cpp] that [main] and the [init]s read: the APIC numbers
    of the processors, the boot processor's, the command line, the modules'
    strings if there is a tag, and the address of the ACPI root. *)
Record loader : Type := mkLoader {
  lapic_ids : list Z; bsp_lapic_id : Z; cmdline : list Z; modules : option (list (list Z)); rsdp : Z;
}.

Definition cpu_count (l : loader) : Z := Z.of_nat (length (lapic_ids l)).

(** Addresses of the image: tables, functions, literals, arrays. *)
Record image : Type := mkImage {
  DefaultGDT : Z; kernelStack : Z; idt_table : Z; int_table : Z -> Z;
  pitHandler : Z; SCIHandler : Z; Keyboard_Handler : Z; Mouse_Handler : Z; switchTask : Z; nano : Z; myTime : Z;
  lit : string -> Z; retstr : Z; kc : Z; tmp : Z; cmd_c : Z; space : Z; file : list Z; junk : Scheduler.registers_t;
}.

Section Devices.
Context (ld : loader) (im : image) (d : Mmio.machine).

(** The timers, with the ticks that waits will read. *)
Definition clocks (ticks : list Z) (s : t) : Omtime.env := Omtime.mk d (hpet s) (pit s) ticks (ports s).

(** [registerInterruptHandler] of a function, on the interrupt table alone. *)
Definition register (vector handler : Z) (m : mem) (a : Acpi.t) (ap : Apic.t) (h : PortIO.history) (i : Idt.t) :
    result (PortIO.history * Idt.t) :=
  '(i, h) ← Idt.registerInterruptHandler d m a vector handler true ap i h; Ret (h, i).

(** The heap's functions on the memory and the rest of the heap's state. *)
Definition heap_calloc (m : mem) (k : Heap.state) (num size : Z) : result (mem * Z * Heap.state) :=
  '(k, p) ← Heap.calloc num size (k.1, PMemory.set_memory m k.2);
  Ret (PMemory.memory k.2, p, k).
Definition heap_malloc (m : mem) (k : Heap.state) (size : Z) : result (mem * Z * Heap.state) :=
  heap_calloc m k 1 size.

(** ** Messages *)

(** A number in a text, as [%d], [%ld] and the like convert it. *)
Definition number (c flags v : Z) : result (list Z) :=
  let '(base, flags) := Printf.integer_format c flags in
  let '(value, negative) := Printf.integer_value c flags v in
  Printf.integer_text value negative base 0 0 flags.

Definition d_ (v : Z) : result (list Z) := number 100 0 v.
Definition ld_ (v : Z) : result (list Z) := number 100 Printf.FLAGS_LONG v.

Definition text : string -> list Z := Str.string_bytes.
Definition line (x : string) : list Z := Str.string_bytes x ++ [10].

Definition log (fuel : nat) (x : list Z) (s : t) : result t :=
  '(sr, h) ← Serial.log (Mmio.ports d) fuel x (serial s) (ports s);
  Ret (with_ports h (with_serial sr s)).

Definition printf (x : list Z) (s : t) : result t := tm ← Terminal.puts x (term s); Ret (with_term tm s).
Definition center (x : list Z) (s : t) : result t := tm ← Terminal.center x (term s); Ret (with_term tm s).
Definition check (x : list Z) (s : t) : result t := tm ← Terminal.check x (term s); Ret (with_term tm s).
Definition okerr (ok : bool) (s : t) : result t := tm ← Terminal.okerr ok (term s); Ret (with_term tm s).

End Devices.

(** ** [getmemsize] of [memory.cpp], with its static variable *)

Fixpoint usable_bytes (es : list PMemory.mmap_entry) (meminbytes : Z) : Z :=
  match es with
  | [] => meminbytes
  | e :: es =>
      if negb (PMemory.usable e) then usable_bytes es meminbytes
      else usable_bytes es (meminbytes +64 PMemory.length e)
  end.

Definition getmemsize (s : t) : Z * t :=
  if 0 <? meminbytes s then (meminbytes s, s)
  else let v := usable_bytes (PMemory.memmap (frames s)) (meminbytes s) in (v, with_meminbytes v s).

End Kernel.
