(* ===== verification/Main.v ===== *)
(** * [kernel/main.cpp]: the kernel starts its parts and runs the shell

    [main] is the sequence of the components' [init]s over the one state of
    [Kernel], each between a message and the verdict its flag gives. *)

From S2P Require Import Prelude Mem PortIO Mmio Cpu Bitmap Frames PMemory VMemory Heap HeapBoot Printf Pci Acpi Pit Terminal Serial Keyboard Framebuffer Mouse Clock Apic Gdt Scheduler Idt Smp Vfs Shell Kernel.
#[local] Open Scope Z_scope.
#[local] Open Scope machine_scope.
#[local] Existing Instance result_bind.
#[local] Existing Instance PMemory.frame_allocator.

Module Main.
Import Kernel.

(** [struct Pagemap]: a lock and a pointer. *)
Definition SIZEOF_PAGEMAP : Z := 16.

Section Init.
(** The fuel of the drivers' loops, the instruction [cpuid], the processors as
    the firmware leaves them, the ticks the timer will show, and the order in
    which the processors take their steps. *)
Context (ld : loader) (im : image) (d : Mmio.machine) (cpuid : Z -> option Cpu.leaf) (fuel : nat).
Context (other : Smp.core) (ticks : list Z) (order : list Smp.actor).

Definition pmm_init (s : t) : result t := st ← PMemory.init (frames s); Ret (with_frames st s).

(** [new Pagemap] comes first; the object is a value. *)
Definition vmm_init (s : t) : result t :=
  if vmm s then Ret s else
  '(hs, p) ← Heap.operator_new SIZEOF_PAGEMAP (heap_state s);
  if p =? 0 then Fault else
  let s := with_heap_state hs s in
  cr3 ← Cpu.read_cr 3 (Smp.control (core s));
  '(st, (isInit, pm, cr3)) ← VMemory.init (vmm s, kernel_pagemap s, cr3) (frames s);
  Ret (with_vmm isInit (with_kernel_pagemap pm (with_control (Cpu.write_cr 3 cr3 (Smp.control (core s))) (with_frames st s)))).

Definition gdt_init (s : t) : result t :=
  '(g, c, m, hs) ← Gdt.init heap_calloc (DefaultGDT im) (cpu_count ld) (bsp_lapic_id ld) (kernelStack im)
                     (gdt s) (Smp.tables (core s)) (memory s) (heap_state s);
  Ret (with_gdt g (with_tables c (with_memory m (with_heap_state hs s)))).

Definition idt_init (s : t) : result t :=
  '(i, c, h) ← Idt.init (int_table im) (idt_table im) (idt s) (Smp.interrupts (core s)) (ports s);
  Ret (with_idt i (with_interrupts c (with_ports h s))).

Definition acpi_init (s : t) : result t :=
  '(a, h) ← Acpi.init (lit im) (Mmio.ports d) fuel (memory s) (rsdp ld) (acpi s) (ports s);
  Ret (with_acpi a (with_ports h s)).

Definition hpet_init (s : t) : result t :=
  let '(x, h) := Hpet.init d (memory s) (Acpi.hpethdr (acpi s)) (hpet s) (ports s) in
  Ret (with_hpet x (with_ports h s)).

Definition pit_init (s : t) : result t :=
  '(p, h, i) ← Pit.init (register d Idt.IRQ0 (pitHandler im) (memory s) (acpi s) (apic s))
                 Pit.PIT_DEFAULT_FREQUENCE (pit s) (ports s) (idt s);
  Ret (with_pit p (with_idt i (with_ports h s))).

Definition pci_init (s : t) : result t :=
  '(x, h) ← Pci.init (Mmio.ports d) (memory s) (Acpi.mcfghdr (acpi s)) (pci s) (ports s);
  Ret (with_pci x (with_ports h s)).

Definition apic_init (s : t) : result t :=
  '(a, i, h) ← Power.apic_init (memory s) (acpi s) cpuid d (SCIHandler im) (apic s) (idt s) (ports s);
  Ret (with_apic a (with_idt i (with_ports h s))).

(** The boot processor's place in the list. *)
Fixpoint bsp_core (ids : list Z) (cores : list Smp.core) (c : Smp.core) : Smp.core :=
  match ids, cores with
  | id :: ids, x :: cores => if id =? bsp_lapic_id ld then x else bsp_core ids cores c
  | _, _ => c
  end.

(** [calloc] of [cpus], then the steps of all processors in the given order, at
    whose end the boot processor must have left the loop that waits. *)
Definition smp_init (s : t) : result t :=
  if smp s then Ret s else
  '(hs, p) ← Heap.calloc (cpu_count ld) Smp.SIZEOF_CPU (heap_state s);
  let cores := map (fun id => if id =? bsp_lapic_id ld then core s else other) (lapic_ids ld) in
  let x := Smp.initial (lapic_ids ld) cores (gdt s) (idt s) (apic s) (sched_view s) (clocks d ticks s)
             (PMemory.memory hs.2) hs in
  match Smp.acts cpuid (default 0 (VMemory.TOPLVL <$> kernel_pagemap s)) p (bsp_lapic_id ld) heap_malloc (acpi s)
          (int_table im) (switchTask im) fuel order x with
  | Some x =>
      if Smp.isInit x then
        let e := Smp.clocks x in
        Ret (with_smp true (with_cpus (Smp.cpus x) (with_gdt (Smp.gdt x) (with_idt (Smp.idt x) (with_apic (Smp.apic x)
          (with_sched (Smp.sched x) (with_hpet (Omtime.hpet e) (with_ports (Omtime.log e)
          (with_core (bsp_core (lapic_ids ld) (Smp.cores x) (core s))
          (with_memory (Smp.memory x) (with_heap_state (Smp.rest x) s)))))))))))
      else Diverge
  | None => Fault
  end.

Definition keyboard_init (s : t) : result t :=
  '(k, (hs, i)) ← Keyboard.init
      (fun m '(hs, i) => '(m, p, hs) ← heap_calloc m hs 1024 1; Ret (m, p, (hs, i)))
      (fun h '(hs, i) =>
         '(h, i) ← register d Idt.IRQ1 (Keyboard_Handler im) (PMemory.memory hs.2) (acpi s) (apic s) h i;
         Ret (h, (hs, i)))
      (kbd_view s) (heap_state s, idt s);
  Ret (with_kbd_view k (with_idt i (with_memory (Keyboard.memory k) (with_heap_state hs s)))).

Definition mouse_init (s : t) : result t :=
  '(x, h, i) ← Mouse.init (Mmio.ports d) (register d Idt.IRQ12 (Mouse_Handler im) (memory s) (acpi s) (apic s))
                 (mouse s) (ports s) (idt s);
  Ret (with_mouse x (with_idt i (with_ports h s))).

Definition vfs_init (s : t) : result t := v ← Vfs.init Shell.zero_node (vfs s); Ret (with_vfs v s).

(** ** [main] *)

Definition stage (message : string) (init : t -> result t) (flag : t -> bool) (s : t) : result t :=
  s ← check (text message) s;
  s ← init s;
  okerr (flag s) s.

Fixpoint log_modules (ms : list (list Z)) (i : Z) (s : t) : result t :=
  match ms with
  | [] => Ret s
  | x :: ms => n ← d_ i; s ← log d fuel (n ++ text ") " ++ x) s; log_modules ms (i + 1) s
  end.

(** [getmemsize() / 1024 / 1024] *)
Definition megabytes (s : t) : result (list Z * t) :=
  let '(v, s) := getmemsize s in n ← ld_ (v / 1024 / 1024); Ret (n, s).

Definition announce (s : t) : result t :=
  s ← log d fuel (text "Turb OS") s;
  s ← center (text "Welcome Turb OS") s;
  n ← d_ (cpu_count ld);
  s ← log d fuel (text "CPU cores available: " ++ n) s;
  '(n, s) ← megabytes s;
  s ← log d fuel (text "Total usable memory: " ++ n ++ line " MB") s;
  s ← log d fuel (text "Arguments passed to kernel: " ++ cmdline ld) s;
  s ← log d fuel (text "Available kernel modules:") s;
  s ← (match modules ld with Some ms => log_modules ms 1 s | None => Fault end);
  n ← ld_ (cpu_count ld);
  s ← printf (text "CPU cores available: " ++ n ++ [10]) s;
  '(n, s) ← megabytes s;
  printf (text "Total usable memory: " ++ n ++ line " MB") s.

(** The part of [main] that needs no table of the firmware. *)
Definition start_core (s : t) : result t :=
  s ← stage "Initialising PMM..." pmm_init (fun s => PMemory.isInit (frames s)) s;
  s ← stage "Initialising VMM..." vmm_init vmm s;
  s ← stage "Initialising Heap..." Ret (fun _ => true) s;
  s ← stage "Initialising Global Descriptor Table..." gdt_init (fun s => Gdt.isInit (gdt s)) s;
  stage "Initialising Interrupt Descriptor Table..." idt_init (fun s => Idt.isInit (idt s)) s.

Definition start_devices (s : t) : result t :=
  s ← stage "Initialising ACPI..." acpi_init (fun s => Acpi.isInit (acpi s)) s;
  s ← stage "Initialising HPET..." hpet_init (fun s => Hpet.isInit (hpet s)) s;
  s ← stage "Initialising PIT..." pit_init (fun s => Pit.isInit (pit s)) s;
  s ← stage "Initialising PCI..." pci_init (fun s => Pci.isInit (pci s)) s;
  s ← stage "Initialising APIC..." apic_init (fun s => Apic.isInit (apic s)) s;
  s ← stage "Initialising SMP..." smp_init smp s;
  s ← stage "Initialising PS/2 Keyboard..." keyboard_init (fun s => Keyboard.isInit (kbd s)) s;
  s ← stage "Initialising PS/2 Mouse..." mouse_init (fun s => Mouse.isInit (mouse s)) s;
  stage "Initialising VFS ..." vfs_init (fun s => Vfs.isInit (vfs s)) s.

Definition start_all (s : t) : result t := s ← announce s; s ← start_core s; start_devices s.

(** [shell::run], for the lines that the events [ess] type. *)
Definition shell_run (ess : list (list Keyboard.event)) (s : t) : result (Shell.outcome * Heap.state) :=
  Shell.run (retstr im) (kc im) (acpi s) fuel (tmp im) (cmd_c im) (space im) (nano im) (myTime im) (switchTask im)
    (int_table im) (junk im) (file im) (fun m hs => heap_malloc m hs 128) ess
    (Shell.mk (kbd_view s) (vfs s) 0 0 (Shell.mkSystem (sched_view s) (apic s) (idt s) (clocks d ticks s)))
    (heap_state s).

Definition main (ess : list (list Keyboard.event)) (s : t) : result (Shell.outcome * Heap.state) :=
  s ← start_all s; shell_run ess s.

(** ** A stage's report *)

Definition verdict (ok : bool) : list Z := if ok then [79; 75; 10] else [88; 88; 10].
Definition report (message : string) (ok : bool) : list Z := (text message ++ [32]) ++ verdict ok.

(** [s] after a text is printed. *)
Definition said (x : list Z) (s : t) : t :=
  with_term (Terminal.append (rev (map Terminal.char_event x)) (term s)) s.

Lemma puts_said x s : Terminal.termLock (term s) = false -> printf x s = Ret (said x s).
Proof. intros Hl. unfold printf. by rewrite Terminal.puts_run. Qed.

Lemma append_said x y tm :
  Terminal.append (rev (map Terminal.char_event y)) (Terminal.append (rev (map Terminal.char_event x)) tm) =
  Terminal.append (rev (map Terminal.char_event (x ++ y))) tm.
Proof. by rewrite Terminal.append_app, map_app, rev_app_distr. Qed.

(** The terminal after a text. *)
Definition shown (x : list Z) (tm : Terminal.t) : Terminal.t := Terminal.append (rev (map Terminal.char_event x)) tm.

(** A stage whose [init] does not use the terminal. *)
Lemma stage_run message init flag s s1 b :
  Terminal.termLock (term s) = false -> init (said (text message ++ [32]) s) = Ret s1 ->
  term s1 = shown (text message ++ [32]) (term s) -> flag s1 = b ->
  exists s', stage message init flag s = Ret s' /\ term s' = shown (report message b) (term s) /\
    Terminal.termLock (term s') = false /\ s' = with_term (term s') s1.
Proof.
  intros Hl Hi Ht <-. unfold stage, check, Terminal.check. rewrite Terminal.puts_run by done. cbn [mbind result_bind].
  change (with_term _ s) with (said (text message ++ [32]) s). rewrite Hi. cbn [mbind result_bind].
  unfold okerr, Terminal.okerr. rewrite Terminal.puts_run by (by rewrite Ht). cbn [mbind result_bind].
  eexists. split; [reflexivity|]. cbn [term with_term]. rewrite Ht. split; [apply append_said|]. by split.
Qed.

(** ** From the memory map to the interrupt table *)

(** One page map, on a heap that was never used. *)
Lemma vmm_run s :
  vmm s = false -> kernel_pagemap s = None -> HeapBoot.fresh (heap s) -> PMemory.wf (frames s) ->
  ~ PMemory.no_fit (frames s) Heap.INIT_PAGES ->
  exists hs p n bs,
    vmm_init s = Ret (with_vmm true (with_kernel_pagemap
      (Some (VMemory.mkPagemap false (Cpu.cr3 (Smp.control (core s))))) (with_heap_state hs s))) /\
    HeapBoot.sound hs bs /\ Heap.roomy (2 ^ 20) bs /\ SIZEOF_PAGEMAP + Heap.HEADER <= n /\
    PMemory.isInit hs.2 = PMemory.isInit (frames s) /\
    forall x k, In (x, k) (HeapBoot.in_use hs bs) <-> (x, k) = (p - Heap.HEADER, n).
Proof.
  intros Hv Hk Hf Hw Hfit.
  destruct (HeapBoot.expand_fresh (heap s) (frames s) Hf Hw Hfit) as (hs0 & He & Hs0 & Htl & page & _ & _ & _ & _ & Hst & _).
  destruct (HeapBoot.calloc_room hs0 _ 1 SIZEOF_PAGEMAP 20 Hs0) as (hs & p & n & bs & Hc & G & Hr & Hp & _);
    [done|done|done|done|].
  assert (Hcal : Heap.operator_new SIZEOF_PAGEMAP (heap_state s) = Ret (hs, p)).
  { unfold Heap.operator_new, Heap.kmalloc, heap_state.
    rewrite (HeapBoot.calloc_fresh _ _ _ _ hs0 [(2 ^ 21, true)]); [exact Hc|apply Hf|done|exact He|apply Hs0]. }
  exists hs, p, n, bs. split_and!.
  - unfold vmm_init. rewrite Hv, Hcal. cbn [mbind result_bind]. destruct (Z.eqb_spec p 0) as [|_]; [lia|].
    change (vmm (with_heap_state hs s)) with (vmm s). change (kernel_pagemap (with_heap_state hs s)) with (kernel_pagemap s).
    rewrite Hv, Hk. cbn. destruct s as [? ? ? ? ? ? ? ? ? [? ? []]]. reflexivity.
  - apply G.
  - exact Hr.
  - apply (HeapBoot.gr_fits _ _ _ _ _ _ _ G).
  - rewrite (HeapBoot.gr_state _ _ _ _ _ _ _ G), Hst. reflexivity.
  - intros x k. rewrite (HeapBoot.gr_used _ _ _ _ _ _ _ G). cbn. split; [intros [[]|]; done|by right].
Qed.

Lemma heap_state_eq s : ((heap_state s).1, PMemory.set_memory (memory s) (heap_state s).2) = heap_state s.
Proof. destruct s as [? ? ? ? []]. reflexivity. Qed.

(** The task segments, in a block of their own. *)
Lemma gdt_run s bs :
  Gdt.isInit (gdt s) = false -> Gdt.gdt_lock (gdt s) = false -> 0 <= kernelStack im < 2 ^ 64 ->
  0 < cpu_count ld <= 2 ^ 12 -> HeapBoot.sound (heap_state s) bs -> Heap.roomy (2 ^ 20) bs ->
  exists g c hs p n bs',
    gdt_init s = Ret (with_gdt g (with_tables c (with_heap_state hs s))) /\
    HeapBoot.granted (heap_state s) bs (cpu_count ld * Gdt.TSS_SIZE) hs p n bs' /\
    0 < p /\ Gdt.isInit g = true /\ Gdt.gdt_lock g = false /\ Gdt.tss g = p /\
    Gdt.tr c = Some (p +64 bsp_lapic_id ld * Gdt.TSS_SIZE, u16 (p +64 bsp_lapic_id ld * Gdt.TSS_SIZE + Gdt.TSS_SIZE)) /\
    Gdt.gdtr c = Some (Gdt.mkDescriptor (Gdt.GDT_SIZE - 1) (DefaultGDT im)) /\ Gdt.cs c = 0x28 /\ Gdt.data c = 0x30 /\
    Gdt.getStack 0 g (PMemory.memory hs.2) = kernelStack im /\
    forall a, in_range p (cpu_count ld * Gdt.TSS_SIZE) a -> ~ in_range (p + Gdt.RSP0) 8 a ->
      PMemory.memory hs.2 a = 0.
Proof.
  intros Hi Hl Hks Hn Hs Hr. unfold Gdt.TSS_SIZE, Gdt.RSP0 in *.
  destruct (HeapBoot.calloc_room (heap_state s) bs (cpu_count ld) 104 19 Hs) as ([h f] & p & n & bs' & Hc & G & _ & Hp & Hz);
    [lia|lia|unfold Heap.HEADER; lia|exact Hr|].
  pose proof (HeapBoot.gr_bounds _ _ _ _ _ _ _ G) as [_ Hend]. pose proof (HeapBoot.gr_fits _ _ _ _ _ _ _ G) as Hfit.
  pose proof (Heap.wf_tail _ _ (HeapBoot.so_heap _ _ Hs)) as Htl. unfold Heap.HEADER in *. cbn [fst snd] in *.
  set (g0 := Gdt.with_tables (Gdt.mkDescriptor (Gdt.GDT_SIZE - 1) (DefaultGDT im)) p (gdt s)).
  destruct (Gdt.reloadAll_run (bsp_lapic_id ld) g0 (Smp.tables (core s)) Hl)
    as (g & c & Hre & Htr & Hg & Hcs & Hd & _ & _ & Hlk & Ht & _).
  assert (Htss : Gdt.tss_at (Gdt.with_init g) 0 = p).
  { unfold Gdt.tss_at. cbn [Gdt.tss Gdt.with_init]. rewrite Ht. cbn. rewrite wrap_small; lia. }
  set (m := store64 (PMemory.memory f) (p + 4) (kernelStack im)).
  exists (Gdt.with_init g), c, (h, PMemory.set_memory m f), p, n, bs'. split; [|split].
  - unfold gdt_init, Gdt.init. rewrite Hi. unfold heap_calloc at 1.
    rewrite heap_state_eq.
    unfold Gdt.TSS_SIZE. rewrite Hc. cbn [mbind result_bind]. fold g0. rewrite Hre. cbn [mbind result_bind snd].
    change (Gdt.tss_at g 0) with (Gdt.tss_at (Gdt.with_init g) 0). rewrite Htss. reflexivity.
  - apply HeapBoot.granted_write; [exact G| |lia|].
    + apply store_wf, (PMemory.wf_mem f), (HeapBoot.so_frames _ _ (HeapBoot.gr_sound _ _ _ _ _ _ _ G)).
    + intros a Ha. apply store_ne. unfold in_range in *. lia.
  - split; [done|]. split; [done|]. split; [exact Hlk|]. split; [exact Ht|]. split; [exact Htr|].
    split; [exact Hg|]. split; [exact Hcs|]. split; [exact Hd|]. split.
    + unfold Gdt.getStack, Gdt.RSP0. rewrite Htss. cbn [snd PMemory.memory PMemory.set_memory]. by apply load_store_eq.
    + intros a Ha Hna. cbn [snd PMemory.memory PMemory.set_memory]. unfold m. rewrite (store_ne 8) by done. by apply Hz.
Qed.

(** What the first five stages need: a state in which nothing is initialised, a
    memory map with room for the bitmap and the heap, at most 4096 processors
    and stubs at 64-bit addresses. *)
Record core_ready (s : t) (high size : Z) : Prop := {
  cr_boot : PMemory.boot (frames s) high size;
  cr_room : Exists (fun e => PMemory.usable e = true /\ size + Heap.INIT_PAGES * PAGE <= PMemory.length e)
    (PMemory.memmap (frames s));
  cr_vmm : vmm s = false /\ kernel_pagemap s = None;
  cr_heap : HeapBoot.fresh (heap s);
  cr_gdt : Gdt.isInit (gdt s) = false /\ Gdt.gdt_lock (gdt s) = false;
  cr_idt : Idt.isInit (idt s) = false /\ Idt.idt_lock (idt s) = false /\ length (Idt.idt (idt s)) = 256%nat;
  cr_term : Terminal.termLock (term s) = false;
  cr_cpus : 0 < cpu_count ld <= 2 ^ 12;
  cr_image : 0 <= kernelStack im < 2 ^ 64 /\ forall v, 0 <= v < 256 -> 0 <= int_table im v < 2 ^ 64;
}.

(** The first three stages, before whatever follows. *)
Lemma memory_run {A} (k : t -> result A) s high size (H : core_ready s high size) :
  exists s' hs p n bs,
    (s ← stage "Initialising PMM..." pmm_init (fun s => PMemory.isInit (frames s)) s;
     s ← stage "Initialising VMM..." vmm_init vmm s;
     s ← stage "Initialising Heap..." Ret (fun _ => true) s; k s) = k s' /\
    term s' = shown (report "Initialising PMM..." true ++ report "Initialising VMM..." true ++
                     report "Initialising Heap..." true) (term s) /\
    Terminal.termLock (term s') = false /\
    s' = with_term (term s') (with_vmm true (with_kernel_pagemap
      (Some (VMemory.mkPagemap false (Cpu.cr3 (Smp.control (core s))))) (with_heap_state hs s))) /\
    HeapBoot.sound hs bs /\ Heap.roomy (2 ^ 20) bs /\ SIZEOF_PAGEMAP + Heap.HEADER <= n /\
    PMemory.isInit hs.2 = true /\ forall x l, In (x, l) (HeapBoot.in_use hs bs) <-> (x, l) = (p - Heap.HEADER, n).
Proof.
  destruct H as [Hb Hroom [Hv Hk] Hheap _ _ Ht _ _].
  destruct (PMemory.init_spec _ _ _ Hb) as (st1 & E1 & Hin1 & Hw1 & _).
  pose proof (PMemory.init_fits _ _ _ Heap.INIT_PAGES _ Hb Hroom ltac:(done) E1) as Hfit.
  assert (P1 : pmm_init (said (text "Initialising PMM..." ++ [32]) s) =
    Ret (with_frames st1 (said (text "Initialising PMM..." ++ [32]) s))) by (unfold pmm_init; cbn; by rewrite E1).
  destruct (stage_run _ _ (fun s => PMemory.isInit (frames s)) s _ true Ht P1 eq_refl Hin1) as (s1 & -> & T1 & L1 & S1).
  cbn [mbind result_bind].
  destruct (vmm_run (said (text "Initialising VMM..." ++ [32]) s1)) as (hs & p & n & bs & P2 & Hs2 & Hr2 & Hn2 & Hin2 & Hu2);
    [by rewrite S1..|].
  destruct (stage_run _ _ vmm s1 _ true L1 P2 eq_refl eq_refl) as (s2 & -> & T2 & L2 & S2). cbn [mbind result_bind].
  destruct (stage_run "Initialising Heap..." Ret (fun _ => true) s2 _ true L2 eq_refl eq_refl eq_refl)
    as (s3 & -> & T3 & L3 & S3). cbn [mbind result_bind].
  exists s3, hs, p, n, bs. split; [done|]. split; [rewrite T3, T2, T1; unfold shown; by rewrite !append_said|].
  split; [done|]. split; [rewrite S3, S2, S1; by destruct hs|]. split_and!; try done.
  rewrite Hin2, S1. exact Hin1.
Qed.

(** The five lines that go well. *)
Definition core_lines : list Z :=
  report "Initialising PMM..." true ++ report "Initialising VMM..." true ++ report "Initialising Heap..." true ++
  report "Initialising Global Descriptor Table..." true ++ report "Initialising Interrupt Descriptor Table..." true.

(** The kernel between the first five stages and the others, from the state [s]
    before them: page allocator, page tables, heap, segments and interrupt table
    have reported success; the two requests to the heap have blocks of their
    own, in frames that no other part of the kernel has, and none else is in
    use; the page tables are still the loader's; the processor's task register
    points at its segment, which is zero up to the kernel's stack; interrupts
    are on and lead to the stubs. *)
Record core_started (s s' : t) (bs : list (Z * bool)) (p n q k : Z) : Prop := {
  cd_term : term s' = shown core_lines (term s);
  cd_init : PMemory.isInit (frames s') = true /\ vmm s' = true /\ Gdt.isInit (gdt s') = true /\ Idt.isInit (idt s') = true;
  cd_heap : HeapBoot.sound (heap_state s') bs;
  cd_used : forall x l, In (x, l) (HeapBoot.in_use (heap_state s') bs) <-> (x, l) = (p, n) \/ (x, l) = (q - Heap.HEADER, k);
  cd_sizes : SIZEOF_PAGEMAP + Heap.HEADER <= n /\ cpu_count ld * Gdt.TSS_SIZE + Heap.HEADER <= k;
  cd_apart : p + n <= q - Heap.HEADER \/ q - Heap.HEADER + k <= p;
  cd_pagemap : kernel_pagemap s' = Some (VMemory.mkPagemap false (Cpu.cr3 (Smp.control (core s))));
  cd_control : Smp.control (core s') = Smp.control (core s);
  cd_tss : Gdt.tss (gdt s') = q;
  cd_tr : Gdt.tr (Smp.tables (core s')) =
    Some (q +64 bsp_lapic_id ld * Gdt.TSS_SIZE, u16 (q +64 bsp_lapic_id ld * Gdt.TSS_SIZE + Gdt.TSS_SIZE));
  cd_gdtr : Gdt.gdtr (Smp.tables (core s')) = Some (Gdt.mkDescriptor (Gdt.GDT_SIZE - 1) (DefaultGDT im));
  cd_stack : Gdt.getStack 0 (gdt s') (memory s') = kernelStack im;
  cd_zero a : in_range q (cpu_count ld * Gdt.TSS_SIZE) a -> ~ in_range (q + Gdt.RSP0) 8 a -> memory s' a = 0;
  cd_idtr : Idt.loaded (Smp.interrupts (core s')) = (4095, idt_table im) /\ Idt.IF (Smp.interrupts (core s')) = true;
  cd_gates v : 0 <= v < 256 -> exists e, Idt.idt (idt s') !! Z.to_nat v = Some e /\
    Idt.gate_offset e = int_table im v /\ Idt.Selector e = 0x28;
}.

(** The first five stages of [main], from the loader's memory map on, always
    return, whatever the memory holds. *)
Theorem core_starts s high size (H : core_ready s high size) :
  exists s' bs p n q k, start_core s = Ret s' /\ core_started s s' bs p n q k.
Proof.
  pose proof H as [_ _ _ _ [Hg Hgl] (Hi & Hil & Hilen) _ Hn [Hks Hint]]. unfold start_core.
  destruct (memory_run (fun s => s ← stage "Initialising Global Descriptor Table..." gdt_init (fun s => Gdt.isInit (gdt s)) s;
    stage "Initialising Interrupt Descriptor Table..." idt_init (fun s => Idt.isInit (idt s)) s) s high size H)
    as (s3 & hs & p & n & bs & -> & T3 & L3 & S3 & Hs2 & Hr2 & Hn2 & Hin2 & Hu2).
  (* the segments *)
  assert (Hst3 : heap_state s3 = hs) by (rewrite S3; by destruct hs).
  destruct (gdt_run (said (text "Initialising Global Descriptor Table..." ++ [32]) s3) bs) as
    (g & c & hs' & q & k & bs' & P4 & G & Hq & Hgi & Hgl' & Htss & Htr & Hgdtr & _ & _ & Hstk & Hzero);
    [by rewrite S3..|done|done|by rewrite <- Hst3 in Hs2|exact Hr2|].
  change (heap_state (said _ s3)) with (heap_state s3) in G. rewrite Hst3 in G.
  destruct (stage_run _ _ (fun s => Gdt.isInit (gdt s)) s3 _ true L3 P4 eq_refl Hgi) as (s4 & -> & T4 & L4 & S4).
  cbn [mbind result_bind].
  (* the interrupt table *)
  destruct (Idt.init_gates (int_table im) (idt_table im) (idt s4) (Smp.interrupts (core s4)) (ports s4))
    as (i' & ic & E5 & Hload & HIF & Hii & _ & _ & Hgates); [by rewrite S4, S3..|done|].
  assert (P5 : idt_init (said (text "Initialising Interrupt Descriptor Table..." ++ [32]) s4) =
    Ret (with_idt i' (with_interrupts ic (with_ports (Pic.init (ports s4))
      (said (text "Initialising Interrupt Descriptor Table..." ++ [32]) s4))))).
  { unfold idt_init. cbn [idt said with_term core ports]. rewrite E5. reflexivity. }
  destruct (stage_run _ _ (fun s => Idt.isInit (idt s)) s4 _ true L4 P5 eq_refl Hii) as (s5 & -> & T5 & L5 & S5).
  assert (F : heap_state s5 = hs' /\ gdt s5 = g /\ idt s5 = i' /\ vmm s5 = true /\
    kernel_pagemap s5 = Some (VMemory.mkPagemap false (Cpu.cr3 (Smp.control (core s)))) /\
    core s5 = Smp.mkCore c ic (Smp.control (core s))).
  { rewrite S5, S4, S3. destruct hs'. by split_and!. }
  destruct F as (F1 & F2 & F3 & F4 & F5 & F6).
  exists s5, bs', (p - Heap.HEADER), n, q, k. split; [done|].
  split; unfold memory; change (frames s5) with ((heap_state s5).2); rewrite ?F1, ?F2, ?F3, ?F4, ?F5, ?F6; try done.
  { rewrite T5, T4, T3. unfold shown. by rewrite !append_said. }
  - split_and!; try done. rewrite (HeapBoot.gr_state _ _ _ _ _ _ _ G). exact Hin2.
  - apply G.
  - intros x l. rewrite <- Hu2. apply (HeapBoot.gr_used _ _ _ _ _ _ _ G).
  - split; [done|]. apply (HeapBoot.gr_fits _ _ _ _ _ _ _ G).
  - apply (HeapBoot.gr_apart _ _ _ _ _ _ _ G). by apply Hu2.
  - intros v Hlt. destruct (Hgates v Hlt) as (e & He & Ho & Hsel & _). by exists e.
Qed.

(** ** The greeting returns *)

(** The locks are free, and the serial line gets free when it is used. *)
Definition can_print (s : t) : Prop :=
  Terminal.termLock (term s) = false /\ Serial.serialLock (serial s) = false /\
  (Serial.isInit (serial s) = true -> forall h, Serial.within (Mmio.ports d) 0x20 fuel h = true).

(** Only output has happened, and the memory's size may be known. *)
Definition announced (s s' : t) : Prop := exists h es v,
  s' = with_ports h (with_term (Terminal.append es (term s)) (with_meminbytes v s)).

Definition tells (f : t -> result t) : Prop := forall s, can_print s -> exists s', f s = Ret s' /\ announced s s'.

Lemma announced_can_print s s' : announced s s' -> can_print s -> can_print s'.
Proof. by intros (h & es & v & ->). Qed.

Lemma tells_seq f g : tells f -> tells g -> tells (fun s => s ← f s; g s).
Proof.
  intros Hf Hg s Hs. destruct (Hf s Hs) as (s1 & -> & H1). cbn [mbind result_bind].
  destruct (Hg s1 (announced_can_print _ _ H1 Hs)) as (s2 & E & H2). exists s2. split; [exact E|].
  destruct H1 as (h1 & e1 & v1 & ->), H2 as (h2 & e2 & v2 & ->). exists h2, (e2 ++ e1), v2.
  cbn [term with_ports with_term with_meminbytes]. by rewrite Terminal.append_app.
Qed.

Lemma tells_number c flags v k : (forall n, tells (k n)) -> tells (fun s => n ← number c flags v; k n s).
Proof.
  intros Hk s Hs. unfold number. destruct (Printf.integer_format c flags) as [b f].
  destruct (Printf.integer_value c f v) as [x neg].
  destruct (Printf.print_integer_puts (S := unit) Printf._out_null 0 0 (tt, 0) x neg b 0 0 f) as (l & -> & _).
  by apply Hk.
Qed.

Lemma tells_log x : tells (log d fuel x).
Proof.
  intros s (_ & Hl & Hn). unfold log. destruct (Serial.log_returns (Mmio.ports d) fuel x (serial s) (ports s) Hl Hn) as (h & ->).
  eexists. split; [done|]. exists h, [], (meminbytes s). by destruct s as [? []].
Qed.

Lemma tells_printf x : tells (printf x).
Proof.
  intros s (Hl & _). rewrite puts_said by done. eexists. split; [done|].
  exists (ports s), (rev (map Terminal.char_event x)), (meminbytes s). by destruct s.
Qed.

Lemma tells_center x : tells (center x).
Proof.
  intros s (Hl & _). unfold center, Terminal.center. rewrite Terminal.spaces_run by done. cbn [mbind result_bind].
  rewrite Terminal.print_run by done. cbn [mbind result_bind]. rewrite Terminal.spaces_run by done. cbn [mbind result_bind].
  rewrite !Terminal.append_app. eexists. split; [done|]. eexists (ports s), _, (meminbytes s). by destruct s.
Qed.

Lemma tells_megabytes k : (forall n, tells (k n)) -> tells (fun s => '(n, s) ← megabytes s; k n s).
Proof.
  intros Hk s Hs. unfold megabytes. destruct (getmemsize s) as [v s1] eqn:E.
  assert (H1 : announced s s1).
  { assert (Hv : s1 = with_meminbytes (meminbytes s1) s)
      by (unfold getmemsize in E; destruct (0 <? meminbytes s); injection E as _ <-; by destruct s).
    exists (ports s), [], (meminbytes s1). rewrite Hv at 1. by destruct s as [? []]. }
  destruct (tells_number 100 Printf.FLAGS_LONG (v / 1024 / 1024) k Hk s1 (announced_can_print _ _ H1 Hs)) as (s2 & E2 & H2).
  exists s2. unfold ld_. destruct (number _ _ _); [|done..]. split; [exact E2|].
  destruct H1 as (h1 & e1 & v1 & ->), H2 as (h2 & e2 & v2 & ->). exists h2, (e2 ++ e1), v2.
  cbn [term with_ports with_term with_meminbytes]. by rewrite Terminal.append_app.
Qed.

Lemma tells_modules ms i : tells (log_modules ms i).
Proof.
  revert i. induction ms as [|x ms IH]; intros i.
  - intros s _. exists s. split; [done|]. exists (ports s), [], (meminbytes s). by destruct s as [? []].
  - cbn [log_modules]. apply tells_number. intros n. apply tells_seq; [apply tells_log|apply IH].
Qed.

Lemma announce_tells ms : modules ld = Some ms -> tells announce.
Proof.
  intros Hm. unfold announce. rewrite Hm.
  repeat first [apply tells_printf | apply tells_seq; [first [apply tells_log | apply tells_center | apply tells_modules | apply tells_printf]|]
               | apply tells_number; intros ? | apply tells_megabytes; intros ?].
Qed.

(** ** What the terminal says of a run *)

Lemma stage_inv message init flag s s' :
  Terminal.termLock (term s) = false -> (forall a b, init a = Ret b -> term b = term a) ->
  stage message init flag s = Ret s' ->
  exists s1, init (said (text message ++ [32]) s) = Ret s1 /\
    term s' = shown (report message (flag s1)) (term s) /\
    Terminal.termLock (term s') = false /\ s' = with_term (term s') s1.
Proof.
  intros Hl Hinit H. pose proof H as H'. unfold stage, check, Terminal.check in H. rewrite Terminal.puts_run in H by done.
  cbn [mbind result_bind] in H. change (with_term _ s) with (said (text message ++ [32]) s) in H.
  apply bind_Ret in H as (s1 & E & _). exists s1. split; [done|].
  destruct (stage_run message init flag s s1 _ Hl E (Hinit _ _ E) eq_refl) as (s2 & E2 & H2).
  rewrite E2 in H'. injection H' as <-. exact H2.
Qed.

Lemma pmm_inv a b : pmm_init a = Ret b -> exists st, b = with_frames st a.
Proof. intros (st & _ & [= <-])%bind_Ret. by exists st. Qed.

Lemma vmm_inv a b : vmm_init a = Ret b ->
  vmm b = true /\ term b = term a /\ hpet b = hpet a /\ apic b = apic a /\ kbd b = kbd a /\ mouse b = mouse a.
Proof.
  unfold vmm_init. destruct (vmm a) eqn:Hv; [by intros [= <-]|].
  intros ([hs p] & _ & H)%bind_Ret. destruct (p =? 0); [done|].
  apply bind_Ret in H as (cr3 & _ & H). apply bind_Ret in H as ([st [[i pm] cr]] & E & [= <-]).
  split; [|done]. unfold VMemory.init in E. change (vmm (with_heap_state hs a)) with (vmm a) in E. rewrite Hv in E.
  apply bind_Ret in E as ([? ?] & _ & E). by injection E as <-.
Qed.

Lemma gdt_inv a b : gdt_init a = Ret b ->
  Gdt.isInit (gdt b) = true /\ term b = term a /\ hpet b = hpet a /\ apic b = apic a /\ kbd b = kbd a /\ mouse b = mouse a.
Proof.
  intros ([[[g c] m] hs] & E & [= <-])%bind_Ret. split; [|done]. unfold Gdt.init in E.
  destruct (Gdt.isInit (gdt a)) eqn:Hg; [by injection E as <-|].
  apply bind_Ret in E as ([[m1 p] k1] & _ & E). apply bind_Ret in E as ([g1 c1] & _ & E). by injection E as <-.
Qed.

Lemma idt_inv a b : idt_init a = Ret b ->
  Idt.isInit (idt b) = true /\ term b = term a /\ hpet b = hpet a /\ apic b = apic a /\ kbd b = kbd a /\ mouse b = mouse a.
Proof.
  intros ([[i c] h] & E & [= <-])%bind_Ret. split; [|done]. unfold Idt.init in E.
  destruct (Idt.isInit (idt a)) eqn:Hi; [by injection E as <-|].
  apply bind_Ret in E as (? & _ & E). apply bind_Ret in E as (? & _ & E). by injection E as <-.
Qed.

Lemma acpi_inv a b : acpi_init a = Ret b ->
  Acpi.isInit (acpi b) = true /\ term b = term a /\ hpet b = hpet a /\ apic b = apic a /\ kbd b = kbd a /\ mouse b = mouse a.
Proof.
  intros ([x h] & E & [= <-])%bind_Ret. split; [|done]. unfold Acpi.init in E.
  destruct (Acpi.isInit (acpi a)) eqn:Hi; [by injection E as <-|].
  do 4 apply bind_Ret in E as (? & _ & E). destruct (_ =? 0); [done|].
  apply bind_Ret in E as (? & _ & E). apply bind_Ret in E as (? & _ & E). by injection E as <-.
Qed.

Lemma hpet_inv a b : hpet_init a = Ret b -> Hpet.isInit (hpet a) = false ->
  Hpet.isInit (hpet b) = negb (Acpi.hpethdr (acpi a) =? 0) /\
  term b = term a /\ acpi b = acpi a /\ apic b = apic a /\ kbd b = kbd a /\ mouse b = mouse a.
Proof.
  unfold hpet_init, Hpet.init. intros H Hh. rewrite Hh in H. destruct (Acpi.hpethdr (acpi a) =? 0); by injection H as <-.
Qed.

Lemma pit_inv a b : pit_init a = Ret b ->
  Pit.isInit (pit b) = true /\ term b = term a /\ acpi b = acpi a /\ apic b = apic a /\ kbd b = kbd a /\ mouse b = mouse a.
Proof.
  intros ([[p h] i] & E & [= <-])%bind_Ret. split; [|done]. unfold Pit.init in E.
  destruct (Pit.isInit (pit a)) eqn:Hi; [by injection E as <-|].
  apply bind_Ret in E as ([? ?] & _ & E). apply bind_Ret in E as ([? ?] & _ & E). by injection E as <-.
Qed.

Lemma pci_inv a b : pci_init a = Ret b ->
  Pci.isInit (pci b) = true /\ term b = term a /\ acpi b = acpi a /\ apic b = apic a /\ kbd b = kbd a /\ mouse b = mouse a.
Proof.
  intros ([x h] & E & [= <-])%bind_Ret. split; [|done]. unfold Pci.init in E.
  destruct (Pci.isInit (pci a)) eqn:Hi; [by injection E as <-|].
  apply bind_Ret in E as ([? ?] & _ & E). by injection E as <-.
Qed.

Lemma apic_inv a b : apic_init a = Ret b -> Apic.isInit (apic a) = false ->
  Apic.isInit (apic b) = Acpi.madt (acpi a) && negb (Acpi.madthdr (acpi a) =? 0) /\
  term b = term a /\ acpi b = acpi a /\ kbd b = kbd a /\ mouse b = mouse a.
Proof.
  intros ([[x i] h] & E & [= <-])%bind_Ret Ha. split; [|done]. unfold Power.apic_init in E. rewrite Ha in E.
  destruct (Acpi.madt (acpi a)), (Acpi.madthdr (acpi a) =? 0); cbn [negb orb andb] in *; [by injection E as <-| |by injection E as <-..].
  apply bind_Ret in E as (lapic & _ & E). destruct (Apic.lapicInit _ _ _ _ _ _ _) as [x1 h1].
  destruct (Apic.getSCIevent _ _ _ _) as [? h2]. apply bind_Ret in E as ([? ?] & _ & E).
  do 2 apply bind_Ret in E as (? & _ & E). by injection E as <-.
Qed.

Lemma smp_inv a b : smp_init a = Ret b ->
  smp b = true /\ term b = term a /\ acpi b = acpi a /\ kbd b = kbd a /\ mouse b = mouse a.
Proof.
  unfold smp_init. destruct (smp a) eqn:Hs; [by intros [= <-]|]. intros ([hs p] & _ & H)%bind_Ret.
  destruct (Smp.acts _ _ _ _ _ _ _ _ _ _ _) as [x|]; [|done]. destruct (Smp.isInit x); [|done]. by injection H as <-.
Qed.

Lemma register_inv vector handler m ac ap h i h' i' :
  register d vector handler m ac ap h i = Ret (h', i') ->
  Idt.interrupt_handlers i' = <[Z.to_nat vector := handler]> (Idt.interrupt_handlers i).
Proof.
  intros ([x y] & E & [= <- <-])%bind_Ret. unfold Idt.registerInterruptHandler in E.
  destruct (_ && _); [apply bind_Ret in E as (? & _ & E)|]; by injection E as <- <-.
Qed.

Lemma keyboard_inv a b : keyboard_init a = Ret b -> Keyboard.isInit (kbd a) = false ->
  Keyboard.isInit (kbd b) = true /\ term b = term a /\ acpi b = acpi a /\ mouse b = mouse a /\
  exists l, Idt.interrupt_handlers (idt b) = <[Z.to_nat Idt.IRQ1 := Keyboard_Handler im]> l.
Proof.
  intros ([k [hs i]] & E & [= <-])%bind_Ret Hk. unfold Keyboard.init in E.
  change (Keyboard.isInit (kbd_view a)) with (Keyboard.isInit (kbd a)) in E. rewrite Hk in E.
  apply bind_Ret in E as ([[m p] [hs1 i1]] & E1 & E). apply bind_Ret in E as ([h [hs2 i2]] & E2 & [= <- <- <-]).
  apply bind_Ret in E2 as ([h3 i3] & E3%register_inv & [= <- <- <-]). cbn. split_and!; try done. by exists (Idt.interrupt_handlers i1).
Qed.

Lemma mouse_inv a b : mouse_init a = Ret b -> Mouse.isInit (mouse a) = false ->
  Mouse.isInit (mouse b) = true /\ term b = term a /\ acpi b = acpi a /\
  Idt.interrupt_handlers (idt b) = <[Z.to_nat Idt.IRQ12 := Mouse_Handler im]> (Idt.interrupt_handlers (idt a)).
Proof.
  intros ([[x h] i] & E & [= <-])%bind_Ret Hm. unfold Mouse.init in E. rewrite Hm in E.
  destruct (PortIO.inb _ _ _) as [st h1]. destruct (Mouse.mouseRead _ _) as [? h2].
  destruct (Mouse.mouseRead _ _) as [? h3]. apply bind_Ret in E as ([h4 i4] & E4%register_inv & [= <- <- <-]).
  by split_and!.
Qed.

Lemma vfs_inv a b : vfs_init a = Ret b ->
  Vfs.isInit (vfs b) = true /\ term b = term a /\ acpi b = acpi a /\ idt b = idt a.
Proof.
  intros (v & E & [= <-])%bind_Ret. split; [|done]. unfold Vfs.init in E.
  destruct (Vfs.isInit (vfs a)) eqn:Hv; [by injection E as <-|]. destruct (Vfs.malloc_node _) as [p s].
  apply bind_Ret in E as (? & _ & E). by injection E as <-.
Qed.

(** Before the stages nothing is initialised. *)
Lemma log_inv x a b : log d fuel x a = Ret b ->
  term b = term a /\ hpet b = hpet a /\ apic b = apic a /\ kbd b = kbd a /\ mouse b = mouse a.
Proof. by intros ([? ?] & _ & [= <-])%bind_Ret. Qed.

Lemma megabytes_inv a b n : megabytes a = Ret (n, b) ->
  term b = term a /\ hpet b = hpet a /\ apic b = apic a /\ kbd b = kbd a /\ mouse b = mouse a.
Proof.
  unfold megabytes, getmemsize. destruct (0 <? meminbytes a); by intros (? & _ & [= _ <-])%bind_Ret.
Qed.

Lemma log_modules_inv ms i a b : log_modules ms i a = Ret b ->
  term b = term a /\ hpet b = hpet a /\ apic b = apic a /\ kbd b = kbd a /\ mouse b = mouse a.
Proof.
  revert i a. induction ms as [|x ms IH]; intros i a H; cbn [log_modules] in H; [by injection H as <-|].
  apply bind_Ret in H as (n & _ & H). apply bind_Ret in H as (c & H1%log_inv & H2%IH). intuition congruence.
Qed.

Lemma printf_inv x a b : printf x a = Ret b -> Terminal.termLock (term a) = false ->
  Terminal.termLock (term b) = false /\ hpet b = hpet a /\ apic b = apic a /\ kbd b = kbd a /\ mouse b = mouse a.
Proof. intros H Hl. rewrite puts_said in H by done. by injection H as <-. Qed.

Lemma center_inv x a b : center x a = Ret b -> Terminal.termLock (term a) = false ->
  Terminal.termLock (term b) = false /\ hpet b = hpet a /\ apic b = apic a /\ kbd b = kbd a /\ mouse b = mouse a.
Proof.
  intros (tm & H & [= <-])%bind_Ret Hl. unfold Terminal.center in H.
  rewrite Terminal.spaces_run in H by done. cbn [mbind result_bind] in H. rewrite Terminal.print_run in H by done.
  cbn [mbind result_bind] in H. rewrite Terminal.spaces_run in H by done. by injection H as <-.
Qed.

Lemma announce_inv a b : announce a = Ret b -> Terminal.termLock (term a) = false ->
  Terminal.termLock (term b) = false /\ hpet b = hpet a /\ apic b = apic a /\ kbd b = kbd a /\ mouse b = mouse a.
Proof.
  intros H Hl. unfold announce in H.
  apply bind_Ret in H as (s1 & K1%log_inv & H). apply bind_Ret in H as (s2 & K2%center_inv & H); [|intuition congruence].
  apply bind_Ret in H as (? & _ & H). apply bind_Ret in H as (s3 & K3%log_inv & H).
  apply bind_Ret in H as ([? s4] & K4%megabytes_inv & H). do 3 (apply bind_Ret in H as (? & ?%log_inv & H)).
  apply bind_Ret in H as (s5 & K5 & H). destruct (modules ld) as [ms|]; [|done]. apply log_modules_inv in K5.
  apply bind_Ret in H as (? & _ & H). apply bind_Ret in H as (s6 & K6%printf_inv & H); [|intuition congruence].
  apply bind_Ret in H as ([? s7] & K7%megabytes_inv & H). apply printf_inv in H; intuition congruence.
Qed.

(** The first five stages report success whenever they return. *)
Lemma start_core_inv a b : start_core a = Ret b -> Terminal.termLock (term a) = false ->
  term b = shown core_lines (term a) /\ Terminal.termLock (term b) = false /\
  hpet b = hpet a /\ apic b = apic a /\ kbd b = kbd a /\ mouse b = mouse a.
Proof.
  intros H Hl. unfold start_core in H.
  apply bind_Ret in H as (s1 & H1 & H). apply stage_inv in H1 as (x1 & E1 & T1 & L1 & S1);
    [|done|by intros ? ? (? & ->)%pmm_inv].
  apply bind_Ret in H as (s2 & H2 & H). apply stage_inv in H2 as (x2 & E2 & T2 & L2 & S2); [|done|by intros ? ? ?%vmm_inv; tauto].
  apply bind_Ret in H as (s3 & H3 & H). apply stage_inv in H3 as (x3 & E3 & T3 & L3 & S3); [|done|by intros ? ? [= <-]].
  apply bind_Ret in H as (s4 & H4 & H). apply stage_inv in H4 as (x4 & E4 & T4 & L4 & S4); [|done|by intros ? ? ?%gdt_inv; tauto].
  apply stage_inv in H as (x5 & E5 & T5 & L5 & S5); [|done|by intros ? ? ?%idt_inv; tauto].
  assert (F1 : PMemory.isInit (frames x1) = true).
  { apply bind_Ret in E1 as (st & E1 & [= <-]). unfold PMemory.init in E1. cbn [frames said with_term] in E1.
    destruct (PMemory.isInit (frames a)) eqn:Hi; [by injection E1 as <-|]. destruct (PMemory.survey _ _ _).
    destruct (PMemory.place_bitmap _ _ _ _ _) as [[[? ?] ?] ?]. apply bind_Ret in E1 as (? & _ & E1). by injection E1 as <-. }
  apply pmm_inv in E1 as (st & E1). apply vmm_inv in E2 as (F2 & _ & G2). injection E3 as E3.
  apply gdt_inv in E4 as (F4 & _ & G4). apply idt_inv in E5 as (F5 & _ & G5).
  split; [|split; [done|]].
  - rewrite T5, T4, T3, T2, T1, F1, F2, F4, F5. unfold shown. by rewrite !append_said.
  - rewrite S5. cbn [hpet apic kbd mouse with_term]. destruct G5 as (-> & -> & -> & ->). cbn [hpet apic kbd mouse said with_term].
    rewrite S4. cbn [hpet apic kbd mouse with_term]. destruct G4 as (-> & -> & -> & ->). cbn [hpet apic kbd mouse said with_term].
    rewrite S3, <- E3. cbn [hpet apic kbd mouse said with_term].
    rewrite S2. cbn [hpet apic kbd mouse with_term]. destruct G2 as (-> & -> & -> & ->). cbn [hpet apic kbd mouse said with_term].
    rewrite S1, E1. by split_and!.
Qed.

Definition device_lines (hpet_found apic_found : bool) : list Z :=
  report "Initialising ACPI..." true ++ report "Initialising HPET..." hpet_found ++ report "Initialising PIT..." true ++
  report "Initialising PCI..." true ++ report "Initialising APIC..." apic_found ++ report "Initialising SMP..." true ++
  report "Initialising PS/2 Keyboard..." true ++ report "Initialising PS/2 Mouse..." true ++ report "Initialising VFS ..." true.

Definition found (p : Z) : bool := negb (p =? 0).

Lemma hpet_term a b : hpet_init a = Ret b -> term b = term a.
Proof. unfold hpet_init. destruct (Hpet.init _ _ _ _ _). by intros [= <-]. Qed.

Lemma apic_term a b : apic_init a = Ret b -> term b = term a.
Proof. by intros ([[? ?] ?] & _ & [= <-])%bind_Ret. Qed.

Lemma keyboard_term a b : keyboard_init a = Ret b -> term b = term a.
Proof.
  intros ([k [hs i]] & E & [= <-])%bind_Ret. unfold Keyboard.init in E.
  destruct (Keyboard.isInit _); [by injection E as <-|].
  apply bind_Ret in E as ([[m p] ?] & _ & E). apply bind_Ret in E as ([? ?] & _ & E). by injection E as <-.
Qed.

Lemma mouse_term a b : mouse_init a = Ret b -> term b = term a.
Proof. by intros ([[? ?] ?] & _ & [= <-])%bind_Ret. Qed.

(** The part of the state that a stage's [init] was shown to keep. *)
Ltac keeps S G := rewrite S; cbn [acpi hpet apic kbd mouse idt said with_term] in *; intuition congruence.

(** One stage of a run. *)
Ltac run_stage H L s x E T L' S F :=
  apply bind_Ret in H as (s & E & H); apply stage_inv in E as (x & E & T & L' & S);
    [|exact L|by intros ? ? ?%F; tauto].

Lemma start_devices_inv a b : start_devices a = Ret b -> Terminal.termLock (term a) = false ->
  Hpet.isInit (hpet a) = false -> Apic.isInit (apic a) = false -> Keyboard.isInit (kbd a) = false ->
  Mouse.isInit (mouse a) = false ->
  term b = shown (device_lines (found (Acpi.hpethdr (acpi b))) (Acpi.madt (acpi b) && found (Acpi.madthdr (acpi b)))) (term a) /\
  exists l, Idt.interrupt_handlers (idt b) =
    <[Z.to_nat Idt.IRQ12 := Mouse_Handler im]> (<[Z.to_nat Idt.IRQ1 := Keyboard_Handler im]> l).
Proof.
  intros H Hl Hh Ha Hk Hm. unfold start_devices in H.
  run_stage H Hl s1 x1 E1 T1 L1 S1 acpi_inv. apply acpi_inv in E1 as (F1 & G1).
  assert (K1 : hpet s1 = hpet a /\ apic s1 = apic a /\ kbd s1 = kbd a /\ mouse s1 = mouse a) by keeps S1 G1.
  run_stage H L1 s2 x2 E2 T2 L2 S2 hpet_term.
  apply hpet_inv in E2 as (F2 & G2); [|cbn [hpet said with_term]; intuition congruence].
  assert (K2 : acpi s2 = acpi s1 /\ apic s2 = apic a /\ kbd s2 = kbd a /\ mouse s2 = mouse a) by keeps S2 G2.
  run_stage H L2 s3 x3 E3 T3 L3 S3 pit_inv. apply pit_inv in E3 as (F3 & G3).
  assert (K3 : acpi s3 = acpi s1 /\ apic s3 = apic a /\ kbd s3 = kbd a /\ mouse s3 = mouse a) by keeps S3 G3.
  run_stage H L3 s4 x4 E4 T4 L4 S4 pci_inv. apply pci_inv in E4 as (F4 & G4).
  assert (K4 : acpi s4 = acpi s1 /\ apic s4 = apic a /\ kbd s4 = kbd a /\ mouse s4 = mouse a) by keeps S4 G4.
  run_stage H L4 s5 x5 E5 T5 L5 S5 apic_term.
  apply apic_inv in E5 as (F5 & G5); [|cbn [apic said with_term]; intuition congruence].
  assert (K5 : acpi s5 = acpi s1 /\ kbd s5 = kbd a /\ mouse s5 = mouse a) by keeps S5 G5.
  run_stage H L5 s6 x6 E6 T6 L6 S6 smp_inv. apply smp_inv in E6 as (F6 & G6).
  assert (K6 : acpi s6 = acpi s1 /\ kbd s6 = kbd a /\ mouse s6 = mouse a) by keeps S6 G6.
  run_stage H L6 s7 x7 E7 T7 L7 S7 keyboard_term.
  apply keyboard_inv in E7 as (F7 & G71 & G72 & G73 & l & Hl7); [|cbn [kbd said with_term]; intuition congruence].
  assert (K7 : acpi s7 = acpi s1 /\ mouse s7 = mouse a /\ idt s7 = idt x7) by keeps S7 G72.
  run_stage H L7 sv x8 E8 T8 L8 S8 mouse_term.
  apply mouse_inv in E8 as (F8 & G81 & G82 & Hl8); [|cbn [mouse said with_term]; intuition congruence].
  assert (K8 : acpi sv = acpi s1 /\ idt sv = idt x8) by keeps S8 G82.
  apply stage_inv in H as (x9 & E9 & T9 & L9 & S9); [|exact L8|by intros ? ? ?%vfs_inv; tauto].
  apply vfs_inv in E9 as (F9 & G91 & G92 & G93).
  assert (K9 : acpi b = acpi s1 /\ idt b = idt sv) by keeps S9 G92. destruct K9 as [-> ->]. split.
  - rewrite T9, T8, T7, T6, T5, T4, T3, T2, T1. cbn [acpi said with_term] in F2, F5.
    rewrite F1, F2, F3, F4, F5, F6, F7, F8, F9, (proj1 K4). unfold shown. by rewrite !append_said.
  - exists l. rewrite (proj2 K8), Hl8. cbn [idt said with_term]. rewrite (proj2 (proj2 K7)), Hl7. done.
Qed.

(** C13: what the user sees of a start that reaches the shell: [main] prints one
    line for every part in the order of the starts; the lines of the HPET and
    the APIC say whether the firmware has the table, and every other line says
    OK - a part that fails is never reported, it stops the machine.  At the end
    the keyboard's and the mouse's vectors lead to their drivers. *)
Theorem main_reports s s' (Hl : Terminal.termLock (term s) = false)
  (Hh : Hpet.isInit (hpet s) = false) (Ha : Apic.isInit (apic s) = false)
  (Hk : Keyboard.isInit (kbd s) = false) (Hm : Mouse.isInit (mouse s) = false) (H : start_all s = Ret s') :
  exists s0, announce s = Ret s0 /\
    term s' = shown (core_lines ++ device_lines (found (Acpi.hpethdr (acpi s')))
      (Acpi.madt (acpi s') && found (Acpi.madthdr (acpi s')))) (term s0) /\
    exists l, Idt.interrupt_handlers (idt s') =
      <[Z.to_nat Idt.IRQ12 := Mouse_Handler im]> (<[Z.to_nat Idt.IRQ1 := Keyboard_Handler im]> l).
Proof.
  unfold start_all in H. apply bind_Ret in H as (s0 & E0 & H). apply bind_Ret in H as (s1 & E1 & H).
  exists s0. split; [done|]. apply announce_inv in E0 as (L0 & Q1 & Q2 & Q3 & Q4); [|done].
  apply start_core_inv in E1 as (T1 & L1 & R1 & R2 & R3 & R4); [|done].
  apply start_devices_inv in H as (T2 & Hd); [|congruence..]. split; [|done].
  rewrite T2, T1. unfold shown. by rewrite append_said.
Qed.

End Init.

(** ** The properties at a concrete machine *)

Definition demo_loader : loader := mkLoader [0; 1] 0 (text "quiet") (Some [text "font"]) 0.

Definition demo_image (lit : string -> Z) : image :=
  mkImage 0x1000 0xFFFFFFFF80100000 0x2000 (fun v => 0xFFFFFFFF80200000 + 16 * v)
    0x3000 0x3100 0x3200 0x3300 0x3400 0x3500 0x3600 lit 0x5000 0x5400 0x5500 0x5510 0x5520 []
    (Scheduler.mkRegs 0 0 0 0 0 0 0 0 0 0 0 0 0 0 0 0 0 0 0 0 0 0).

(** Three megabytes from 4096 on; a terminal of 80 columns. *)
Definition demo_frames : PMemory.state :=
  PMemory.mk (fun _ => 0) (Bitmap.mk 0) false 0 0 0 0 false
    [PMemory.Entry 0 0x1000 2; PMemory.Entry 0x1000 0x300000 PMemory.STIVALE2_MMAP_USABLE].

Definition demo_core : Smp.core :=
  Smp.mkCore (Gdt.mkCpu None 0 0 None) (Idt.mkCpu (0, 0) false) (Cpu.mk 0 0 0x7000 0 0 false).

Definition demo_kbd : Keyboard.t :=
  Keyboard.mk false false 0 false false Keyboard.no_mod 0 false (fun _ => 0) (Terminal.mk 80 25 [] [] false) [].

Definition demo_mouse : Mouse.t :=
  Mouse.mk false 0 (0, 0, 0) false (Framebuffer.mkPoint 0 0) (Framebuffer.mkPoint 0 0) false false
    (Framebuffer.mkSt (fun _ => 0) false (replicate 304 0) (replicate 304 0)).

Definition demo_state : t :=
  mk (Serial.mk false false) (Terminal.mk 80 25 [] [] false) [] (Heap.mkHeap 0 0 0 false false 0) demo_frames
    false None Gdt.initial Idt.initial demo_core Acpi.initial Hpet.initial Pci.initial Apic.initial false []
    Scheduler.demo demo_kbd demo_mouse (Vfs.mk false 0 false ∅ 0x9000) 0.

Lemma demo_ready ld m : mem_wf m -> 0 < cpu_count ld <= 2 ^ 12 ->
  core_ready ld (demo_image (fun _ => 0x4000)) (with_memory m demo_state) 0x301000 0x1000.
Proof.
  intros Hm Hld. split; try (by split_and!).
  - split; [done|done|done|done|done|exact Hm| | |done|done|done|].
    + constructor; [done|]. constructor; [|done]. intros _. vm_compute. repeat split; discriminate.
    + constructor; [|by repeat constructor]. constructor; [|done]. intros H. discriminate H.
    + right. left. cbn. split; [done|]. vm_compute. discriminate.
  - right. left. cbn. split; [done|]. vm_compute. discriminate.
  - done.
  - exact Hld.
  - split; [done|]. intros v Hv. cbn. lia.
Qed.

Lemma core_starts_witness :
  exists s' bs, start_core demo_loader (demo_image (fun _ => 0x4000)) demo_state = Ret s' /\
    Terminal.out (term s') = rev (map Terminal.char_event core_lines) /\ HeapBoot.sound (heap_state s') bs /\
    Smp.control (core s') = Smp.control demo_core.
Proof.
  destruct (core_starts demo_loader (demo_image (fun _ => 0x4000)) demo_state 0x301000 0x1000
    (demo_ready demo_loader (fun _ => 0) ltac:(by intros a) ltac:(done)))
    as (s' & bs & p & n & q & k & E & [T _ Hs _ _ _ _ Hc]).
  exists s', bs. split; [exact E|]. split; [rewrite T; cbn [shown Terminal.out Terminal.append term demo_state]; apply app_nil_r|].
  split; [exact Hs|exact Hc].
Defined.

(** A machine whose page allocator and page tables run already, with a heap of
    64 kilobytes at 0x100000, the four tables of the firmware, one processor, an
    I/O APIC with 24 lines and controllers that are always ready. *)
Definition bytes_at (p : Z) (l : list Z) (m : mem) : mem := fun a =>
  if (p <=? a) && (a <? p + Z.of_nat (length l)) then nth (Z.to_nat (a - p)) l 0 else m a.

Lemma bytes_at_wf p l m : Forall (fun v => 0 <= v < 256) l -> mem_wf m -> mem_wf (bytes_at p l m).
Proof.
  intros Hl Hm a. unfold bytes_at. case_match; [|apply Hm].
  assert (Hx : forall n, 0 <= nth n l 0 < 256); [|apply Hx]. intros n. rewrite Forall_forall in Hl.
  destruct (nth_in_or_default n l 0) as [Hn| ->]; [|lia]. apply Hl. by apply list_elem_of_In.
Qed.

Definition demo_memory : mem := foldr (fun x m => bytes_at x.1 x.2 m) (fun _ => 0)
  [(0x6000, text "MCFG"); (0x6008, text "APIC"); (0x6010, text "FACP"); (0x6018, text "HPET"); (0x6020, text "_S5_");
   (0x7110, [0; 0x80]); (0x8004, [52]);
   (0x8024, [0; 0x81; 0; 0; 0; 0x82; 0; 0; 0; 0x83; 0; 0; 0; 0x84; 0; 0]);
   (0x8100, text "MCFG" ++ [60]); (0x812C, [0; 0x90]); (0x8137, [1]);
   (0x8200, text "APIC" ++ [64]); (0x822C, [0; 8; 0; 0; 0; 0; 0; 0; 1; 12; 0; 0; 0; 0xA0]);
   (0x8300, text "FACP"); (0x8328, [0; 0x85; 0; 0; 0; 0; 9]); (0x8400, text "HPET"); (0x842C, [0; 0xB0]);
   (0x100000, [0; 0; 1; 0; 0; 0; 0; 0; 1])].

Definition demo_lit (x : string) : Z :=
  if (x =? "MCFG")%string then 0x6000 else if (x =? "APIC")%string then 0x6008
  else if (x =? "FACP")%string then 0x6010 else if (x =? "HPET")%string then 0x6018
  else if (x =? "_S5_")%string then 0x6020 else 0x6030.

Definition demo_devices : Mmio.machine :=
  Mmio.mk_machine (fun _ _ _ => 1) (fun _ _ _ => 0x170000) (fun _ _ => 0).

Definition running : t :=
  with_heap (Heap.mkHeap 0x100000 0x110000 0x100000 false false 16)
    (with_vmm true (with_kernel_pagemap (Some (VMemory.mkPagemap false 0x7000))
      (with_frames (PMemory.mk demo_memory (Bitmap.mk 0) true 0x200000 0 0 0 false []) demo_state))).

Definition demo_tags : loader := mkLoader [0] 0 (text "quiet") (Some [text "font"]) 0x7100.

Abbreviation demo_run :=
  (start_all demo_tags (demo_image demo_lit) demo_devices (fun _ => None) 5 demo_core [] [Smp.Main; Smp.Main]).

Lemma demo_run_returns :
  match demo_run running with
  | Ret s => found (Acpi.hpethdr (acpi s)) && (Acpi.madt (acpi s) && found (Acpi.madthdr (acpi s)))
  | _ => false
  end = true.
Proof. vm_compute. reflexivity. Qed.

Lemma demo_runs : exists s', demo_run running = Ret s' /\
  found (Acpi.hpethdr (acpi s')) = true /\ Acpi.madt (acpi s') && found (Acpi.madthdr (acpi s')) = true.
Proof.
  pose proof demo_run_returns as H. destruct (demo_run running) as [s'| |]; [|discriminate H..].
  exists s'. split; [reflexivity|]. by apply andb_true_iff in H.
Qed.

Lemma main_reports_witness :
  exists s' s0, demo_run running = Ret s' /\ term s' = shown (core_lines ++ device_lines true true) (term s0).
Proof.
  destruct demo_runs as (s' & E & Hp & Hq).
  destruct (main_reports demo_tags (demo_image demo_lit) demo_devices (fun _ => None) 5 demo_core [] [Smp.Main; Smp.Main]
    running s' eq_refl eq_refl eq_refl eq_refl eq_refl E) as (s0 & _ & T & _).
  exists s', s0. rewrite Hp, Hq in T. split; [exact E|exact T].
Defined.

End Main.
