(* ===== verification/Typed.v ===== *)
(** * Types of the kernel's state

    C's types are checked by its compiler; the models use unbounded integers.
    [typed] says that the state of the kernel is one that the program's types
    allow - bytes are bytes, the fields of descriptors fit their width, the
    tables of interrupts have their 256 elements - and the theorem says that the
    start of the kernel keeps it so, whatever the firmware's tables hold and the
    devices answer. *)

From S2P Require Import Prelude Mem PortIO Mmio Cpu Bitmap Frames PMemory VMemory Heap Acpi Pit Terminal Serial Keyboard Mouse Clock Apic Gdt Scheduler Idt Smp Vfs Kernel Main.
#[local] Open Scope Z_scope.
#[local] Open Scope machine_scope.
#[local] Existing Instance result_bind.
#[local] Existing Instance PMemory.frame_allocator.

Module Typed.
Import Kernel Main.

(** ** Bytes stay bytes *)

Create HintDb bytes.
#[local] Hint Resolve store8_wf store_wf memset_wf memcpy_wf : bytes.

Lemma lor_byte a b : 0 <= a < 256 -> 0 <= b < 256 -> 0 <= Z.lor a b < 256.
Proof.
  intros Ha Hb. change 256 with (2 ^ 8) in *. split; [apply Z.lor_nonneg; lia|].
  apply (below_of_testbit _ 8); [lia|apply Z.lor_nonneg; lia|].
  intros i Hi. rewrite Z.lor_spec, (testbit_above a 8), (testbit_above b 8) by lia. done.
Qed.

Lemma bitmap_set m b i v : mem_wf m -> mem_wf (Bitmap.set m b i v).1.
Proof.
  intros Hm. unfold Bitmap.set. cbn [fst]. set (a := Bitmap.buffer b +64 i / 8).
  set (x := Bitmap.bitindexer _). assert (Hx : 0 <= x < 256) by (apply wrap_range; lia).
  assert (H1 : mem_wf (store8 m a (Z.land (m a) (u8 (Z.lnot x))))).
  { apply store8_wf; [done|]. apply (land_below _ _ 8); [lia|apply Hm]. }
  destruct v; [|done]. apply store8_wf; [done|]. apply lor_byte; [apply H1|done].
Qed.
#[local] Hint Resolve bitmap_set : bytes.

Lemma set_range_bytes n m b i v : mem_wf m -> mem_wf (PMemory.set_range n m b i v).
Proof. revert m i. induction n as [|n IH]; intros m i Hm; cbn [PMemory.set_range]; auto with bytes. Qed.
#[local] Hint Resolve set_range_bytes : bytes.

Lemma scan_bytes fuel m b count limit last p m' l r :
  mem_wf m -> PMemory.scan fuel m b count limit last p = Ret (m', l, r) -> mem_wf m'.
Proof.
  intros Hm. revert last p. induction fuel as [|fuel IH]; intros last p H; [done|]. cbn [PMemory.scan] in H.
  destruct (last <? limit); [|by injection H as <- _ _].
  destruct (negb _); [destruct (_ =? count)|]; [injection H as <- _ _; auto with bytes|by apply IH in H..].
Qed.

Lemma ohMyAlloc_bytes count limit st st' p :
  mem_wf (PMemory.memory st) -> PMemory.ohMyAlloc count limit st = Ret (st', p) -> mem_wf (PMemory.memory st').
Proof. intros Hm ([[m l] r] & H%scan_bytes & [= <- _])%bind_Ret; done. Qed.

Lemma alloc_bytes count st st' p :
  mem_wf (PMemory.memory st) -> PMemory.alloc count st = Ret (st', p) -> mem_wf (PMemory.memory st').
Proof.
  intros Hm (h & _ & H)%bind_Ret. apply bind_Ret in H as ([s1 r] & H1%ohMyAlloc_bytes & H); [|done].
  apply bind_Ret in H as ([s2 r2] & H2 & [= <- _]). cbn [PMemory.memory PMemory.set_lock PMemory.set_ram PMemory.set_memory].
  apply memset_wf. destruct (r =? 0); [by apply ohMyAlloc_bytes in H2|by injection H2 as <- _].
Qed.

Lemma free_bytes ptr count st st' :
  mem_wf (PMemory.memory st) -> PMemory.free ptr count st = Ret st' -> mem_wf (PMemory.memory st').
Proof.
  unfold PMemory.free. destruct (ptr =? 0); [by intros ? [= <-]|]. intros Hm (h & _ & [= <-])%bind_Ret.
  case_match; cbn; auto with bytes.
Qed.

Lemma realloc_bytes ptr old new st st' p :
  mem_wf (PMemory.memory st) -> PMemory.realloc ptr old new st = Ret (st', p) -> mem_wf (PMemory.memory st').
Proof.
  unfold PMemory.realloc. intros Hm H. destruct (ptr =? 0); [by apply alloc_bytes in H|].
  destruct (new =? 0); [by apply bind_Ret in H as (s1 & H1%free_bytes & [= <- _])|].
  apply bind_Ret in H as ([s1 q] & H1%alloc_bytes & H); [|done].
  apply bind_Ret in H as (s2 & H2%free_bytes & [= <- _]); [done|]. by apply memcpy_wf.
Qed.

(** ** The allocator's [init] *)

Lemma place_bitmap_bytes es size m b f m' b' es' f' :
  mem_wf m -> PMemory.place_bitmap es size m b f = (m', b', es', f') -> mem_wf m'.
Proof.
  intros Hm. revert m' b' es' f'. induction es as [|e es IH]; intros m' b' es' f' H; cbn [PMemory.place_bitmap] in H;
    [by injection H as <- _ _ _|].
  destruct (_ && _); [simplify_eq; auto with bytes|].
  destruct (PMemory.place_bitmap es size m b f) as [[[m1 b1] es1] f1]. simplify_eq. by eapply IH.
Qed.

Lemma release_entry_bytes fuel m b e j m' :
  mem_wf m -> PMemory.release_entry fuel m b e j = Ret m' -> mem_wf m'.
Proof.
  revert m j. induction fuel as [|fuel IH]; intros m j Hm H; [done|]. cbn [PMemory.release_entry] in H.
  destruct (_ <? _); [apply IH in H; auto with bytes|by injection H as <-].
Qed.

Lemma release_all_bytes es m b m' : mem_wf m -> PMemory.release_all es m b = Ret m' -> mem_wf m'.
Proof.
  revert m. induction es as [|e es IH]; intros m Hm H; cbn [PMemory.release_all] in H; [by injection H as <-|].
  destruct (PMemory.usable e); [apply bind_Ret in H as (m1 & H1%release_entry_bytes & H); [|done]|]; by apply IH in H.
Qed.

Lemma init_bytes st st' : mem_wf (PMemory.memory st) -> PMemory.init st = Ret st' -> mem_wf (PMemory.memory st').
Proof.
  unfold PMemory.init. destruct (PMemory.isInit st); [by intros ? [= <-]|]. intros Hm. destruct (PMemory.survey _ _ _) as [h f].
  destruct (PMemory.place_bitmap _ _ _ _ _) as [[[m b] es] f'] eqn:E. apply place_bitmap_bytes in E; [|done].
  intros (m' & H%release_all_bytes & [= <-])%bind_Ret; done.
Qed.

(** ** The heap *)

Lemma set_size_bytes m b n : mem_wf m -> mem_wf (Heap.set_size m b n).
Proof. apply store_wf. Qed.
Lemma set_free_bytes m b f : mem_wf m -> mem_wf (Heap.set_free m b f).
Proof. intros Hm. apply store8_wf; [done|]. by destruct f. Qed.
#[local] Hint Resolve set_size_bytes set_free_bytes : bytes.

Lemma split_bytes m b size m' p : mem_wf m -> Heap.split m b size = Ret (m', p) -> mem_wf m'.
Proof.
  intros Hm. unfold Heap.split. destruct (_ && _); [|by intros [= <- _]].
  assert (Hloop : forall n m b m' p, mem_wf m -> Heap.split_loop n m b size = Ret (m', p) -> mem_wf m').
  { clear. induction n as [|n IH]; intros m b m' p Hm H; [done|]. cbn [Heap.split_loop] in H.
    destruct (size <? _); [apply IH in H; auto with bytes|by injection H as <- _]. }
  intros ([m1 b1] & H%Hloop & H1)%bind_Ret; [|done]. destruct (size <=? _); by injection H1 as <- _.
Qed.

Lemma find_loop_bytes n m tl size b t best m' p :
  mem_wf m -> Heap.find_loop n m tl size b t best = Ret (m', p) -> mem_wf m'.
Proof.
  revert m b t best. induction n as [|n IH]; intros m b t best Hm H; [done|]. cbn [Heap.find_loop] in H.
  destruct (_ && _); [|by injection H as <- _]. destruct (_ && _); [apply IH in H; auto with bytes|].
  destruct (_ <=? _); by apply IH in H.
Qed.

Lemma find_best_bytes m h size m' p : mem_wf m -> Heap.find_best m h size = Ret (m', p) -> mem_wf m'.
Proof.
  intros Hm. unfold Heap.find_best. destruct (size =? 0); [by intros [= <- _]|].
  destruct (_ && _); [by apply split_bytes|]. intros ([m1 b] & H%find_loop_bytes & H1)%bind_Ret; [|done].
  destruct (negb _); [by apply split_bytes in H1|by injection H1 as <- _].
Qed.

Lemma coalescence_bytes m h m' : mem_wf m -> Heap.coalescence m h = Ret m' -> mem_wf m'.
Proof.
  assert (Hmerge : forall n m tl b t c m' c', mem_wf m -> Heap.merge_loop n m tl b t c = Ret (m', c') -> mem_wf m').
  { clear. induction n as [|n IH]; intros m tl b t c m' c' Hm H; [done|]. cbn [Heap.merge_loop] in H.
    destruct (_ && _); [|by injection H as <- _]. destruct (_ && _).
    - destruct (_ <? _); apply IH in H; auto with bytes.
    - destruct (_ <? _); by apply IH in H. }
  unfold Heap.coalescence. generalize (S (Z.to_nat (Heap.tail h - Heap.head h))) at 1.
  intros n. revert m. induction n as [|n IH]; intros m Hm H; [done|]. cbn [Heap.coalescence_loop] in H.
  apply bind_Ret in H as ([m1 c] & H1%Hmerge & H); [|done]. destruct c; [by injection H as <-|by apply IH in H].
Qed.

Lemma expand_bytes n st st' :
  mem_wf (PMemory.memory st.2) -> Heap.expand n st = Ret st' -> mem_wf (PMemory.memory st'.2).
Proof.
  destruct st as [h s]. intros Hm (l & _ & H)%bind_Ret. destruct (n =? 0); [by injection H as <-|].
  apply bind_Ret in H as (size & _ & H). destruct (negb _); [by injection H as <-|].
  apply bind_Ret in H as ([s1 d] & H1%realloc_bytes & H); [|done]. destruct (d =? 0); [by injection H as <-|].
  injection H as <-. cbn [snd PMemory.memory PMemory.set_memory]. auto with bytes.
Qed.

Lemma malloc_bytes size st st' p :
  mem_wf (PMemory.memory st.2) -> Heap.malloc size st = Ret (st', p) -> mem_wf (PMemory.memory st'.2).
Proof.
  unfold Heap.malloc. generalize 2%nat. intros n. revert st. induction n as [|n IH]; intros st Hm H; [done|].
  cbn [Heap.malloc_rec] in H. destruct (size =? 0); [by injection H as <- _|].
  apply bind_Ret in H as ([h s] & H1 & H).
  assert (Hs : mem_wf (PMemory.memory s)).
  { destruct (_ =? 0); [by apply expand_bytes in H1|by injection H1 as ->]. }
  apply bind_Ret in H as (l & _ & H). apply bind_Ret in H as (k & _ & H).
  apply bind_Ret in H as ([m1 b1] & E1%find_best_bytes & H); [|done].
  apply bind_Ret in H as ([m2 b2] & E2 & H).
  assert (Hm2 : mem_wf m2).
  { destruct (b1 =? 0); [|by injection E2 as <- _].
    apply bind_Ret in E2 as (m3 & E3%coalescence_bytes & E2%find_best_bytes); done. }
  destruct (negb _); [injection H as <- _; cbn [snd PMemory.memory PMemory.set_memory]; auto with bytes|].
  destruct (Heap.expanded _); [by injection H as <- _|].
  apply bind_Ret in H as (st1 & E4%expand_bytes & H); [|done]. by apply IH in H.
Qed.

Lemma calloc_bytes num size st st' p :
  mem_wf (PMemory.memory st.2) -> Heap.calloc num size st = Ret (st', p) -> mem_wf (PMemory.memory st'.2).
Proof.
  intros Hm ([[h s] q] & H%malloc_bytes & H1)%bind_Ret; [|done]. destruct (q =? 0); [by injection H1 as <- _|].
  injection H1 as <- _. cbn [snd PMemory.memory PMemory.set_memory]. by apply memset_wf.
Qed.

(** ** Page tables *)

Lemma copy_bytes n i dst src (s : PMemory.state) :
  mem_wf (PMemory.memory s) -> mem_wf (PMemory.memory (VMemory.copy_entries n i dst src s)).
Proof.
  revert i s. induction n as [|n IH]; intros i s Hs; [done|]. cbn [VMemory.copy_entries]. apply IH. by apply store_wf.
Qed.

Lemma vmm_bytes g st st' g' :
  mem_wf (PMemory.memory st) -> VMemory.init g st = Ret (st', g') -> mem_wf (PMemory.memory st').
Proof.
  destruct g as [[i pm] cr3]. intros Hm. unfold VMemory.init. destruct i; [by intros [= <- _]|].
  intros ([s1 pm1] & H & [<- _]%Ret_pair)%bind_Ret. destruct pm as [pm|]; [|by injection H as <- _].
  apply bind_Ret in H as ([s2 top] & H1 & [<- _]%Ret_pair). apply copy_bytes.
  change (PMemory.alloc 1 st = Ret (s2, top)) in H1. by apply alloc_bytes in H1.
Qed.

(** ** Descriptors *)

Record gdt_typed (g : Gdt.t) : Prop := {
  gt_length : 0 <= Gdt.length (Gdt.Tss (Gdt.gdt g)) < 2 ^ 16;
  gt_base0 : 0 <= Gdt.tbase0 (Gdt.Tss (Gdt.gdt g)) < 2 ^ 16;
  gt_base1 : 0 <= Gdt.tbase1 (Gdt.Tss (Gdt.gdt g)) < 2 ^ 8;
  gt_flag1 : 0 <= Gdt.flag1 (Gdt.Tss (Gdt.gdt g)) < 2 ^ 8;
  gt_flag2 : 0 <= Gdt.flag2 (Gdt.Tss (Gdt.gdt g)) < 2 ^ 8;
  gt_base2 : 0 <= Gdt.tbase2 (Gdt.Tss (Gdt.gdt g)) < 2 ^ 8;
  gt_base3 : 0 <= Gdt.tbase3 (Gdt.Tss (Gdt.gdt g)) < 2 ^ 32;
  gt_entries : length (Gdt.entries (Gdt.gdt g)) = 9%nat;
}.

Lemma reloadAll_typed i g c g' c' : gdt_typed g -> Gdt.reloadAll i g c = Ret (g', c') -> gdt_typed g'.
Proof.
  intros Hg (l & _ & H)%bind_Ret. unfold Gdt.reloadTSS in H. cbn -[wrap Gdt.tss_base Gdt.tss_limit Gdt.tss_at] in H.
  injection H as <- _. split; cbn -[wrap Gdt.tss_at]; try (apply wrap_range; lia); try lia. apply (gt_entries g Hg).
Qed.

Definition entry_typed (e : Idt.IDTEntry) : Prop :=
  0 <= Idt.Offset1 e < 2 ^ 16 /\ 0 <= Idt.Selector e < 2 ^ 16 /\ 0 <= Idt.IST e < 2 ^ 8 /\ 0 <= Idt.TypeAttr e < 2 ^ 8 /\
  0 <= Idt.Offset2 e < 2 ^ 16 /\ 0 <= Idt.Offset3 e < 2 ^ 32 /\ Idt.Zero e = 0.

Record idt_typed (i : Idt.t) : Prop := {
  it_gates : length (Idt.idt i) = 256%nat;
  it_each : Forall entry_typed (Idt.idt i);
  it_handlers : length (Idt.interrupt_handlers i) = 256%nat;
  it_next : 0 <= Idt.next_free i < 2 ^ 8;
}.

Lemma entry_of_typed isr attr ist : 0 <= attr < 2 ^ 8 -> 0 <= ist < 2 ^ 8 -> entry_typed (Idt.entry_of isr attr ist).
Proof. intros Ha Hi. unfold entry_typed. cbn -[wrap]. split_and!; try (apply wrap_range; lia); lia. Qed.

Lemma descriptor_typed v isr attr ist i :
  idt_typed i -> 0 <= attr < 2 ^ 8 -> 0 <= ist < 2 ^ 8 -> idt_typed (Idt.idtSetDescriptor v isr attr ist i).
Proof.
  intros [Hg He Hh Hn] Ha Hi. split; cbn [Idt.idt Idt.interrupt_handlers Idt.next_free Idt.idtSetDescriptor Idt.with_idt];
    [by rewrite length_insert| |done|done]. apply Forall_insert; [done|]. by apply entry_of_typed.
Qed.

Lemma handlers_typed d m ac v hd io ap i h i' h' :
  idt_typed i -> Idt.registerInterruptHandler d m ac v hd io ap i h = Ret (i', h') -> idt_typed i'.
Proof.
  intros [Hg He Hh Hn] H. assert (Hi : i' = Idt.with_handlers (<[Z.to_nat v := hd]> (Idt.interrupt_handlers i)) i).
  { unfold Idt.registerInterruptHandler in H. destruct (_ && _); [apply bind_Ret in H as (? & _ & H)|]; by injection H as <- _. }
  rewrite Hi. split; cbn; [done|done|by rewrite length_insert|done].
Qed.

Lemma allocVector_typed i i' v : idt_typed i -> Idt.allocVector i = (i', v) -> idt_typed i'.
Proof.
  intros [Hg He Hh Hn] H. unfold Idt.allocVector in H. injection H as <- _. split; cbn -[wrap]; try done.
  destruct (_ =? _); apply wrap_range; lia.
Qed.

Lemma idt_init_typed tab addr i c h i' c' h' :
  idt_typed i -> Idt.init tab addr i c h = Ret (i', c', h') -> idt_typed i'.
Proof.
  unfold Idt.init. destruct (Idt.isInit i); [by intros ? [= <- _ _]|]. intros Hi (l & _ & H)%bind_Ret.
  apply bind_Ret in H as (s1 & E & H). injection H as <- _ _.
  assert (Hs1 : idt_typed s1).
  { assert (Hi' : idt_typed (Idt.with_idtr (16 * 256 - 1, addr) (Idt.with_lock l i))) by (destruct Hi; by split).
    revert E. apply for_loop_keeps; [|done]. intros k x y Hx [= <-]. apply descriptor_typed; [done|lia|lia]. }
  assert (H2 : idt_typed (Idt.idtSetDescriptor Idt.SYSCALL (tab Idt.SYSCALL) 0xEE 0 s1)) by (apply descriptor_typed; [done|lia|lia]).
  destruct H2. by split.
Qed.

Definition pit_typed (p : Pit.t) : Prop := 0 <= Pit.tick p < 2 ^ 64 /\ 0 <= Pit.frequence p < 2 ^ 64.

Lemma setFrequence_typed f p h p' h' : 0 <= f < 2 ^ 64 -> pit_typed p -> Pit.setFrequence f p h = Ret (p', h') -> pit_typed p'.
Proof.
  intros Hf [Ht _] (l & _ & H)%bind_Ret. apply bind_Ret in H as (div & _ & H). injection H as <- _.
  destruct (f <? 19); by split.
Qed.

(** ** The processors' start *)

Lemma heap_calloc_bytes m k num size m' p k' :
  mem_wf m -> heap_calloc m k num size = Ret (m', p, k') -> mem_wf m' /\ PMemory.memory k'.2 = m'.
Proof.
  intros Hm ([k1 q] & H & [= <- _ <-])%bind_Ret. split; [|done].
  apply calloc_bytes in H; [done|]. destruct k. exact Hm.
Qed.

Record smp_typed (x : Smp.t Heap.state) : Prop := {
  st_memory : mem_wf (Smp.memory x);
  st_gdt : gdt_typed (Smp.gdt x);
  st_idt : idt_typed (Smp.idt x);
  st_pit : pit_typed (Scheduler.pit (Smp.sched x));
}.

Section Processors.
Context (cpuid : Z -> option Cpu.leaf) (cr3 addr bsp : Z) (a : Acpi.t) (tab : Z -> Z) (sw : Z) (fuel : nat).

Lemma cpu_init_typed k x y : smp_typed x -> Smp.cpu_init cpuid cr3 addr k x = Ret y -> smp_typed y.
Proof.
  intros [Hm Hg Hi Hp] H. unfold Smp.cpu_init in H. apply bind_Ret in H as (l & _ & H).
  do 2 apply bind_Ret in H as (? & _ & H). apply bind_Ret in H as ([g tb] & E%reloadAll_typed & H); [|done].
  do 6 apply bind_Ret in H as (? & _ & H). apply bind_Ret in H as ([[r size] f] & _ & H). injection H as <-. by split.
Qed.

Lemma sched_init_typed m ap i st e ap' i' st' e' :
  idt_typed i -> pit_typed (Scheduler.pit st) ->
  Power.sched_init m a tab sw fuel ap i st e = Ret (ap', i', st', e') -> idt_typed i' /\ pit_typed (Scheduler.pit st').
Proof.
  intros Hi Hp H. unfold Power.sched_init in H. destruct (Apic.isInit ap).
  - apply bind_Ret in H as ([[i1 st1] h1] & E & H). apply bind_Ret in H as ([ap2 e2] & _ & H). injection H as _ <- <- _.
    destruct (_ =? 0); [|by injection E as <- <- _]. destruct (Idt.allocVector i) as [i2 v] eqn:Ev.
    apply allocVector_typed in Ev; [|done]. apply bind_Ret in E as ([i3 h3] & E3%handlers_typed & E); [|done].
    injection E as <- <- _. split; [|done]. apply descriptor_typed; [done|lia|lia].
  - injection H as _ <- <- _. split; [apply descriptor_typed; [done|lia|lia]|]. by destruct Hp.
Qed.

Lemma cpu_go_typed k x y : smp_typed x -> Smp.cpu_go cpuid bsp a tab sw fuel k x = Ret y -> smp_typed y.
Proof.
  intros [Hm Hg Hi Hp] H. unfold Smp.cpu_go in H. apply bind_Ret in H as (c & _ & H).
  destruct (_ =? _); [by injection H as <-|]. do 2 apply bind_Ret in H as (? & _ & H).
  destruct (if Apic.isInit _ then _ else _) as [ap h]. apply bind_Ret in H as ([[[ap' i'] st'] e'] & E & H).
  apply sched_init_typed in E as [Hi' Hp']; [|done|done]. injection H as <-. by split.
Qed.

Lemma setup_typed i x y : smp_typed x -> Smp.setup cpuid cr3 addr bsp heap_malloc i x = Ret y -> smp_typed y.
Proof.
  intros [Hm Hg Hi Hp] H. unfold Smp.setup in H. do 2 apply bind_Ret in H as (? & _ & H). cbv zeta in H.
  apply bind_Ret in H as ([[m p] r] & E & H). apply heap_calloc_bytes in E as [Hm1 _]; [|done].
  destruct (negb _).
  - apply bind_Ret in H as ([[m2 p2] r2] & E2 & H). apply heap_calloc_bytes in E2 as [Hm2 _]; [|by apply store_wf].
    injection H as <-. split; cbn -[store64 Gdt.setStack]; [by apply store_wf|done..].
  - apply bind_Ret in H as (s1 & E1 & H). apply cpu_init_typed in E1; [|split; [by apply store_wf|done..]].
    injection H as <-. destruct E1. by split.
Qed.

Lemma act_typed w x y :
  smp_typed x -> Smp.act cpuid cr3 addr bsp heap_malloc a tab sw fuel w x = Some y -> smp_typed y.
Proof.
  intros Hx H. destruct w as [|k|k]; cbn in H.
  - destruct (Smp.isInit x); [done|]. apply Smp.from_Some in H. unfold Smp.main_step in H.
    destruct (_ <? _)%nat; [apply bind_Ret in H as (s1 & E%setup_typed & H); [|done]; injection H as <-; destruct E; by split|].
    destruct (_ <? _); injection H as <-; [done|]. destruct Hx. by split.
  - destruct (Smp.places x !! k) as [[]|]; try done. apply fmap_Some in H as (z & H%Smp.from_Some & ->).
    apply cpu_init_typed in H as []; [by split|done].
  - destruct (Smp.places x !! k) as [[]|]; try done. apply fmap_Some in H as (z & H%Smp.from_Some & ->).
    apply cpu_go_typed in H as []; [by split|done].
Qed.

Lemma acts_typed ws x y :
  smp_typed x -> Smp.acts cpuid cr3 addr bsp heap_malloc a tab sw fuel ws x = Some y -> smp_typed y.
Proof.
  revert x. induction ws as [|w ws IH]; intros x Hx H; cbn in H; [by injection H as <-|].
  apply bind_Some in H as (z & E%act_typed & H); [|done]. by apply IH in H.
Qed.

End Processors.

(** ** The kernel *)

Record typed (s : Kernel.t) : Prop := {
  ty_memory : mem_wf (memory s);
  ty_gdt : gdt_typed (gdt s);
  ty_idt : idt_typed (idt s);
  ty_pit : pit_typed (pit s);
  ty_meminbytes : 0 <= meminbytes s < 2 ^ 64;
}.

(** Nothing of it changes when these parts are the same. *)
Lemma typed_same a b :
  typed a -> memory b = memory a -> gdt b = gdt a -> idt b = idt a -> pit b = pit a -> meminbytes b = meminbytes a ->
  typed b.
Proof. intros [] E1 E2 E3 E4 E5. split; by rewrite ?E1, ?E2, ?E3, ?E4, ?E5. Qed.

#[local] Ltac same := solve [by eapply typed_same | eapply typed_same; [eassumption|done..]].

Lemma usable_bytes_range es v : 0 <= v < 2 ^ 64 -> 0 <= usable_bytes es v < 2 ^ 64.
Proof.
  revert v. induction es as [|e es IH]; intros v Hv; cbn [usable_bytes]; [done|].
  destruct (negb _); apply IH; [done|]. apply wrap_range; lia.
Qed.

Section Stages.
Context (ld : loader) (im : image) (d : Mmio.machine) (cpuid : Z -> option Cpu.leaf) (fuel : nat).
Context (other : Smp.core) (ticks : list Z) (order : list Smp.actor).

Lemma log_typed x a b : typed a -> log d fuel x a = Ret b -> typed b.
Proof. intros Ha ([sr h] & _ & [= <-])%bind_Ret. same. Qed.

Lemma printf_typed x a b : typed a -> printf x a = Ret b -> typed b.
Proof. intros Ha (tm & _ & [= <-])%bind_Ret. same. Qed.

Lemma center_typed x a b : typed a -> center x a = Ret b -> typed b.
Proof. intros Ha (tm & _ & [= <-])%bind_Ret. same. Qed.

Lemma log_modules_typed ms i a b : typed a -> log_modules d fuel ms i a = Ret b -> typed b.
Proof.
  revert i a. induction ms as [|x ms IH]; intros i a Ha H; cbn [log_modules] in H; [by injection H as <-|].
  apply bind_Ret in H as (n & _ & H). apply bind_Ret in H as (s & E%log_typed & H); [|done]. by apply IH in H.
Qed.

Lemma megabytes_typed a n b : typed a -> megabytes a = Ret (n, b) -> typed b.
Proof.
  intros Ha. unfold megabytes, getmemsize. destruct (0 <? _); intros (x & _ & [= _ <-])%bind_Ret; [done|].
  destruct Ha. split; try done. by apply usable_bytes_range.
Qed.

Lemma announce_typed a b : typed a -> announce ld d fuel a = Ret b -> typed b.
Proof.
  intros Ha H. unfold announce in H.
  apply bind_Ret in H as (s1 & H1%log_typed & H); [|done]. apply bind_Ret in H as (s2 & H2%center_typed & H); [|done].
  apply bind_Ret in H as (n & _ & H). apply bind_Ret in H as (s3 & H3%log_typed & H); [|done].
  apply bind_Ret in H as ([n4 s4] & H4%megabytes_typed & H); [|done].
  apply bind_Ret in H as (s5 & H5%log_typed & H); [|done]. apply bind_Ret in H as (s6 & H6%log_typed & H); [|done].
  apply bind_Ret in H as (s7 & H7%log_typed & H); [|done]. apply bind_Ret in H as (sv & H8 & H).
  assert (typed sv) by (destruct (modules ld); [by apply log_modules_typed in H8|done]).
  apply bind_Ret in H as (m & _ & H). apply bind_Ret in H as (s9 & H9%printf_typed & H); [|done].
  apply bind_Ret in H as ([n10 s10] & H10%megabytes_typed & H); [|done]. by apply printf_typed in H.
Qed.

(** ** The stages *)

Lemma stage_typed message init flag a b :
  (forall a b, typed a -> init a = Ret b -> typed b) -> typed a -> stage message init flag a = Ret b -> typed b.
Proof.
  intros Hi Ha (s1 & (tm & _ & [= <-])%bind_Ret & H)%bind_Ret.
  apply bind_Ret in H as (s2 & H2%Hi & (tm2 & _ & [= <-])%bind_Ret); [|same]. same.
Qed.

Lemma pmm_typed a b : typed a -> pmm_init a = Ret b -> typed b.
Proof. intros [] (st & E%init_bytes & [= <-])%bind_Ret; [|done]. by split. Qed.

Lemma vmm_typed a b : typed a -> vmm_init a = Ret b -> typed b.
Proof.
  intros [] H. unfold vmm_init in H. destruct (vmm a); [injection H as <-; by split|].
  apply bind_Ret in H as ([hs p] & E & H). destruct (p =? 0); [done|]. apply calloc_bytes in E; [|done].
  apply bind_Ret in H as (c & _ & H). apply bind_Ret in H as ([st [[i pm] cr]] & E2%vmm_bytes & H); [|done].
  injection H as <-. by split.
Qed.

Lemma gdt_stage_typed a b : typed a -> gdt_init ld im a = Ret b -> typed b.
Proof.
  intros [Hm Hg Hi Hp Hb] ([[[g c] m] hs] & E & [= <-])%bind_Ret. unfold Gdt.init in E.
  destruct (Gdt.isInit (gdt a)); [injection E as <- _ <- <-; by split|].
  apply bind_Ret in E as ([[m1 p] k1] & E1%heap_calloc_bytes & E); [|done]. destruct E1 as [Hm1 _].
  apply bind_Ret in E as ([g1 c1] & E2%reloadAll_typed & E); [|destruct Hg; by split].
  injection E as <- _ <- _. destruct E2. split; [by apply store_wf|by split|done..].
Qed.

Lemma idt_stage_typed a b : typed a -> idt_init im a = Ret b -> typed b.
Proof. intros [] ([[i c] h] & E%idt_init_typed & [= <-])%bind_Ret; [|done]. by split. Qed.

Lemma acpi_typed a b : typed a -> acpi_init ld im d fuel a = Ret b -> typed b.
Proof. intros Ha ([x h] & _ & [= <-])%bind_Ret. same. Qed.

Lemma hpet_typed a b : typed a -> hpet_init d a = Ret b -> typed b.
Proof. unfold hpet_init. intros Ha. destruct (Hpet.init _ _ _ _ _). intros [= <-]. same. Qed.

Lemma register_typed v hd m ac ap h i h' i' : idt_typed i -> register d v hd m ac ap h i = Ret (h', i') -> idt_typed i'.
Proof. intros Hi ([x y] & E%handlers_typed & [= _ <-])%bind_Ret; done. Qed.

Lemma pit_stage_typed a b : typed a -> pit_init im d a = Ret b -> typed b.
Proof.
  intros [] ([[p h] i] & E & [= <-])%bind_Ret. unfold Pit.init in E.
  destruct (Pit.isInit _); [injection E as <- _ <-; by split|].
  apply bind_Ret in E as ([p1 h1] & E1%setFrequence_typed & E); [|done|done].
  apply bind_Ret in E as ([h2 i2] & E2%register_typed & E); [|done]. injection E as <- _ <-. destruct E1. by split.
Qed.

Lemma pci_typed a b : typed a -> pci_init d a = Ret b -> typed b.
Proof. intros Ha ([x h] & _ & [= <-])%bind_Ret. same. Qed.

Lemma apic_typed a b : typed a -> apic_init im d cpuid a = Ret b -> typed b.
Proof.
  intros [] ([[x i] h] & E & [= <-])%bind_Ret. unfold Power.apic_init in E.
  destruct (Apic.isInit _); [injection E as _ <- _; by split|]. destruct (_ || _); [injection E as _ <- _; by split|].
  cbv zeta in E. apply bind_Ret in E as (l & _ & E). destruct (Apic.lapicInit _ _ _ _ _ _ _) as [x1 h1].
  destruct (Apic.getSCIevent _ _ _ _) as [ev h2]. apply bind_Ret in E as ([i2 h3] & E2%handlers_typed & E); [|done].
  do 2 apply bind_Ret in E as (? & _ & E). injection E as _ <- _. by split.
Qed.

Lemma smp_stage_typed a b : typed a -> smp_init ld im d cpuid fuel other ticks order a = Ret b -> typed b.
Proof.
  intros [Hm Hg Hi Hp Hb] H. unfold smp_init in H. destruct (smp a); [injection H as <-; by split|].
  apply bind_Ret in H as ([hs p] & E%calloc_bytes & H); [|done]. cbv zeta in H.
  destruct (Smp.acts _ _ _ _ _ _ _ _ _ _ _) as [x|] eqn:Ex; [|done]. destruct (Smp.isInit x); [|done].
  apply acts_typed in Ex as []; [|by split]. injection H as <-. by split.
Qed.

Lemma keyboard_typed a b : typed a -> keyboard_init im d a = Ret b -> typed b.
Proof.
  intros [Hm Hg Hi Hp Hb] ([k [hs i]] & E & [= <-])%bind_Ret. unfold Keyboard.init in E.
  destruct (Keyboard.isInit _); [injection E as <- _ <-; by split|].
  apply bind_Ret in E as ([[m p] [hs1 i1]] & E1 & E). apply bind_Ret in E1 as ([[m2 p2] hs2] & E2%heap_calloc_bytes & E1); [|done].
  injection E1 as -> _ -> <-. apply bind_Ret in E as ([h [hs3 i3]] & E3 & E).
  apply bind_Ret in E3 as ([h4 i4] & E4%register_typed & E3); [|done]. injection E3 as <- _ <-. injection E as <- _ <-.
  destruct E2. by split.
Qed.

Lemma mouse_typed a b : typed a -> mouse_init im d a = Ret b -> typed b.
Proof.
  intros [] ([[x h] i] & E & [= <-])%bind_Ret. unfold Mouse.init in E.
  destruct (Mouse.isInit _); [injection E as _ _ <-; by split|]. cbv zeta in E.
  repeat match type of E with context [let '(_, _) := ?p in _] => destruct p end.
  apply bind_Ret in E as ([ha ia] & Ea%register_typed & E); [|done]. injection E as _ _ <-. by split.
Qed.

Lemma vfs_typed a b : typed a -> vfs_init a = Ret b -> typed b.
Proof. intros Ha (v & _ & [= <-])%bind_Ret. same. Qed.

Lemma start_core_typed a b : typed a -> start_core ld im a = Ret b -> typed b.
Proof.
  intros Ha H. unfold start_core in H.
  apply bind_Ret in H as (s1 & H1%stage_typed & H); [|exact pmm_typed|done].
  apply bind_Ret in H as (s2 & H2%stage_typed & H); [|exact vmm_typed|done].
  apply bind_Ret in H as (s3 & H3%stage_typed & H); [|by intros x y Hx [= <-]|done].
  apply bind_Ret in H as (s4 & H4%stage_typed & H); [|exact gdt_stage_typed|done].
  by apply stage_typed in H; [|exact idt_stage_typed|].
Qed.

Lemma start_devices_typed a b : typed a ->
  start_devices ld im d cpuid fuel other ticks order a = Ret b -> typed b.
Proof.
  intros Ha H. unfold start_devices in H.
  apply bind_Ret in H as (s1 & H1%stage_typed & H); [|exact acpi_typed|done].
  apply bind_Ret in H as (s2 & H2%stage_typed & H); [|exact hpet_typed|done].
  apply bind_Ret in H as (s3 & H3%stage_typed & H); [|exact pit_stage_typed|done].
  apply bind_Ret in H as (s4 & H4%stage_typed & H); [|exact pci_typed|done].
  apply bind_Ret in H as (s5 & H5%stage_typed & H); [|exact apic_typed|done].
  apply bind_Ret in H as (s6 & H6%stage_typed & H); [|exact smp_stage_typed|done].
  apply bind_Ret in H as (s7 & H7%stage_typed & H); [|exact keyboard_typed|done].
  apply bind_Ret in H as (sv & H8%stage_typed & H); [|exact mouse_typed|done].
  by apply stage_typed in H; [|exact vfs_typed|].
Qed.


End Stages.

(** ** At the machine of [demo_runs] *)

Lemma demo_memory_wf : mem_wf demo_memory.
Proof. unfold demo_memory. cbn [foldr fst snd]. repeat (apply bytes_at_wf; [by repeat constructor|]). done. Qed.

Lemma running_typed : typed running.
Proof.
  split; [exact demo_memory_wf|by split| |by split|done]. split; [done| |done|done].
  apply Forall_replicate. by split_and!.
Qed.


End Typed.
