(* ===== verification/Diagnostics.v ===== *)
(** * What the kernel says when something goes wrong

    [system/ubsan/ubsan.cpp], whose handlers the compiler's checks call, and the
    exceptions of [system/CPU/IDT/idt.cpp] with their messages on the serial port
    and the terminal. *)

From S2P Require Import Prelude Mem PortIO Mmio Cpu PMemory Str Printf Terminal Serial Scheduler Idt Kernel Main.
#[local] Open Scope Z_scope.
#[local] Open Scope machine_scope.
#[local] Existing Instance result_bind.

(** ** A log line on the kernel's state *)
Section Line.
Context (d : Mmio.machine) (fuel : nat).

(** The serial port's lock is free and the port runs. *)
Definition can_log (s : Kernel.t) : Prop :=
  Serial.isInit (Kernel.serial s) = true /\ Serial.serialLock (Kernel.serial s) = false.

(** A line as it goes out, between its tag and a newline. *)
Definition logged (x : list Z) : list Z := [91; 76; 79; 71; 93; 32] ++ x ++ [10].

Lemma log_run x s (Hn : forall h, Serial.within (Mmio.ports d) 0x20 fuel h = true) :
  can_log s -> exists h, Kernel.log d fuel x s = Ret (Kernel.with_ports h s) /\
    Serial.transmits (Mmio.ports d) (logged x) (Kernel.ports s) h.
Proof.
  intros [Hi Hl]. unfold Kernel.log, Serial.log. rewrite Hl. cbn [spin_lock mbind result_bind].
  set (sr := Serial.with_lock true _). assert (Hi' : Serial.isInit sr = true) by exact Hi.
  destruct (Serial.put_text_spec (Mmio.ports d) fuel sr [91; 76; 79; 71; 93; 32] (Kernel.ports s) Hi' Hn) as (h1 & -> & H1).
  cbn [mbind result_bind].
  destruct (Serial.put_text_spec (Mmio.ports d) fuel sr x h1 Hi' Hn) as (h2 & -> & H2). cbn [mbind result_bind].
  destruct (Serial.put_text_spec (Mmio.ports d) fuel sr [10] h2 Hi' Hn) as (h3 & -> & H3). cbn [mbind result_bind].
  exists h3. split.
  - unfold sr. destruct s as [[si sl]]. cbn in *. by subst.
  - eapply Serial.transmits_app; [exact H1|]. by eapply Serial.transmits_app.
Qed.

Lemma log_held x s : Serial.serialLock (Kernel.serial s) = true -> Kernel.log d fuel x s = Diverge.
Proof. intros Hl. unfold Kernel.log, Serial.log. by rewrite Hl. Qed.

End Line.

(** ** Numbers in the messages *)

Lemma number_total c flags v : exists l, Kernel.number c flags v = Ret l.
Proof.
  unfold Kernel.number. destruct (Printf.integer_format c flags) as [base f]. destruct (Printf.integer_value c f v) as [x n].
  unfold Printf.integer_text. destruct (Printf.integer_digits_total x base f) as (b & f1 & -> & Hb). cbn [mbind result_bind].
  destruct (Printf.finalize_total b n base 0 0 f1 Hb) as (b' & w & f' & -> & _). by eexists.
Qed.

(** The text of a number that is not negative: its digits, without a leading 0. *)
Definition numeral (base v : Z) (l : list Z) : Prop :=
  Printf.digits_value base l = v /\ (v <> 0 -> head l <> Some 48).

Lemma plain_number base v f : 2 <= base <= 16 -> 0 <= v < base ^ 31 ->
  Forall (fun x => Printf.has f x = false)
    [Printf.FLAGS_HASH; Printf.FLAGS_POINTER; Printf.FLAGS_LEFT; Printf.FLAGS_PLUS; Printf.FLAGS_SPACE] ->
  exists l, Printf.integer_text v false base 0 0 f = Ret l /\ numeral base v l.
Proof.
  intros Hb Hv. rewrite !Forall_cons. intros (Hh & Hp & Hl & Hpl & Hsp & _).
  destruct (Printf.integer_text_spec v false base 0 0 f Hh Hp Hb Hv ltac:(lia) ltac:(lia))
    as (left & zeros & ds & right & -> & Hval & Hhd & Hlen & _ & Hz & _). rewrite Hl in Hz. eexists. split; [reflexivity|].
  unfold Printf.sign_text in *. rewrite Hpl, Hsp in *. cbn [app] in *. rewrite !length_app in Hlen. cbn [length] in Hlen.
  assert (zeros = 0%nat) as -> by (rewrite length_replicate in Hlen; lia).
  assert (Printf.spaces left = []) as -> by (apply nil_length_inv; lia).
  assert (Printf.spaces right = []) as -> by (apply nil_length_inv; lia).
  cbn [app replicate] in *. rewrite app_nil_r. by split.
Qed.

Lemma decimal_number v : 0 <= v < 2 ^ 31 -> exists l, Kernel.d_ v = Ret l /\ numeral 10 v l.
Proof.
  intros Hv. change (Kernel.d_ v) with (Printf.integer_text (Printf.ABS_FOR_PRINTING (s32 v)) (s32 v <? 0) 10 0 0 0).
  rewrite swrap_small by lia. replace (v <? 0) with false by lia.
  assert (Printf.ABS_FOR_PRINTING v = v) as -> by (unfold Printf.ABS_FOR_PRINTING; case_match; rewrite wrap_small; lia).
  apply plain_number; [lia|lia|]. by repeat constructor.
Qed.

Definition hex (v : Z) : result (list Z) := Kernel.number 88 Printf.FLAGS_LONG v.

Lemma hex_number v : 0 <= v < 2 ^ 64 -> exists l, hex v = Ret l /\ numeral 16 v l.
Proof.
  intros Hv. change (hex v) with (Printf.integer_text (u64 v) false 16 0 0 (Z.lor Printf.FLAGS_LONG Printf.FLAGS_UPPERCASE)).
  rewrite wrap_small by lia. apply plain_number; [lia|lia|]. by repeat constructor.
Qed.

(** ** [ubsan.cpp] *)
Module Ubsan.
Import Kernel.

(** [struct source_location]: the name of the file is its text. *)
Record source_location : Type := mkLocation { file : list Z; line : Z; column : Z }.

(** [struct type_mismatch_data], without the type, which no handler reads. *)
Record type_mismatch_data : Type := mkMismatch { location : source_location; logAlignment : Z }.

Section Handlers.
Context (d : Mmio.machine) (fuel : nat).

Definition printUBsan (message : string) (loc : source_location) (s : t) : result t :=
  l ← d_ (line loc);
  c ← d_ (column loc);
  log d fuel (text "UBsan: " ++ text message ++ [10; 9] ++ file loc ++ text " file" ++ [10; 9] ++ l ++ text " line" ++
    [10; 9] ++ c ++ text " column" ++ [10]) s.

Definition handle_add_overflow : source_location -> t -> result t := printUBsan "+ overflow".
Definition handle_sub_overflow : source_location -> t -> result t := printUBsan "- overflow".
Definition handle_mul_overflow : source_location -> t -> result t := printUBsan "* overflow".
Definition handle_divrem_overflow : source_location -> t -> result t := printUBsan "/ overflow".
Definition handle_negate_overflow : source_location -> t -> result t := printUBsan "! overflow".
Definition handle_pointer_overflow : source_location -> t -> result t := printUBsan "*ptr overflow".
Definition handle_shift_out_of_bounds : source_location -> t -> result t := printUBsan "shift out of bounds".
Definition handle_load_invalid_value : source_location -> t -> result t := printUBsan "invalid load value".
Definition handle_out_of_bounds : source_location -> t -> result t := printUBsan "array out of bounds".

(** [(1 << logAlignment) - 1]: an [int], whose shift takes its count modulo 32
    as the processor's does. *)
Definition alignment_mask (logAlignment : Z) : Z := s32 (s32 (Z.shiftl 1 (Z.land logAlignment 31)) - 1).

Definition mismatch (data : type_mismatch_data) (ptr : Z) : string :=
  if ptr =? 0 then "use of NULL pointer"
  else if negb (Z.land ptr (u64 (alignment_mask (logAlignment data))) =? 0) then "use of misaligned pointer"
  else "no space for object".

Definition handle_type_mismatch_v1 (data : type_mismatch_data) (ptr : Z) : t -> result t :=
  printUBsan (mismatch data ptr) (location data).

Definition handle_vla_bound_not_positive : source_location -> t -> result t :=
  printUBsan "variable-length argument is negative".
Definition handle_nonnull_return : source_location -> t -> result t := printUBsan "non-null return is null".
Definition handle_nonnull_return_v1 : source_location -> t -> result t := printUBsan "non-null return is null".
Definition handle_nonnull_arg : source_location -> t -> result t := printUBsan "non-null argument is null".
Definition handle_builtin_unreachable : source_location -> t -> result t := printUBsan "unreachable code reached".
Definition handle_invalid_builtin : source_location -> t -> result t := printUBsan "invalid builtin".

(** ** Properties *)

Lemma alignment_mask_ones v : u64 (alignment_mask v) = Z.ones (v mod 32).
Proof.
  unfold alignment_mask. change 31 with (Z.ones 5). rewrite Z.land_ones by lia. change (2 ^ 5) with 32.
  pose proof (Z.mod_pos_bound v 32 ltac:(lia)) as H. rewrite Z.shiftl_1_l, Z.ones_equiv.
  destruct (decide (v mod 32 = 31)) as [->|Hne]; [done|].
  pose proof (Z.pow_le_mono_r 2 (v mod 32) 30 ltac:(lia) ltac:(lia)). pose proof (Z.pow_pos_nonneg 2 (v mod 32)).
  rewrite (swrap_small 32 (2 ^ _)), swrap_small, wrap_small; lia.
Qed.

(** The report, with the numbers of the place in decimal. *)
Definition report (message : string) (loc : source_location) (l c : list Z) : list Z :=
  text ("UBsan: " ++ message) ++ [10; 9] ++ file loc ++ text " file" ++ [10; 9] ++ l ++ text " line" ++
    [10; 9] ++ c ++ text " column" ++ [10].

Lemma printUBsan_run message loc s (Hn : forall h, Serial.within (Mmio.ports d) 0x20 fuel h = true) :
  can_log s -> 0 <= line loc < 2 ^ 31 -> 0 <= column loc < 2 ^ 31 ->
  exists l c h, printUBsan message loc s = Ret (with_ports h s) /\ numeral 10 (line loc) l /\ numeral 10 (column loc) c /\
    Serial.transmits (Mmio.ports d) (logged (report message loc l c)) (ports s) h.
Proof.
  intros Hc Hl Hcol. destruct (decimal_number (line loc) Hl) as (l & El & Vl).
  destruct (decimal_number (column loc) Hcol) as (c & Ec & Vc).
  unfold printUBsan. rewrite El, Ec. cbn [mbind result_bind].
  assert (Htext : text "UBsan: " ++ text message = text ("UBsan: " ++ message)%string) by reflexivity.
  rewrite (app_assoc (text "UBsan: ")), Htext. fold (report message loc l c).
  destruct (log_run d fuel (report message loc l c) s Hn Hc) as (h & -> & H).
  exists l, c, h. by split_and!.
Qed.

(** The check of a pointer reports its cause with the place in decimal, and
    changes nothing but what went out on the serial port: a null pointer first;
    else a pointer that is not a multiple of [2 ^ (logAlignment mod 32)], so
    that what the upper bytes of the field hold does not matter; else an object
    that does not fit.  When the code that is checked holds the port's lock -
    the log itself - the report never returns. *)
Theorem mismatch_reports data ptr s (Hn : forall h, Serial.within (Mmio.ports d) 0x20 fuel h = true)
  (Hp : 0 <= ptr < 2 ^ 64) (Hl : 0 <= line (location data) < 2 ^ 31) (Hcol : 0 <= column (location data) < 2 ^ 31) :
  (can_log s -> exists message l c h,
     handle_type_mismatch_v1 data ptr s = Ret (with_ports h s) /\
     Serial.transmits (Mmio.ports d) (logged (report message (location data) l c)) (ports s) h /\
     numeral 10 (line (location data)) l /\ numeral 10 (column (location data)) c /\
     (message = "use of NULL pointer"%string <-> ptr = 0) /\
     (message = "use of misaligned pointer"%string <-> ptr mod 2 ^ (logAlignment data mod 32) <> 0) /\
     (message = "no space for object"%string <-> ptr <> 0 /\ ptr mod 2 ^ (logAlignment data mod 32) = 0)) /\
  (Serial.serialLock (serial s) = true -> handle_type_mismatch_v1 data ptr s = Diverge).
Proof.
  unfold handle_type_mismatch_v1. split.
  - intros Hc. destruct (printUBsan_run (mismatch data ptr) (location data) s Hn Hc Hl Hcol) as (l & c & h & E & Vl & Vc & H).
    exists (mismatch data ptr), l, c, h. do 4 (split; [done|]). unfold mismatch.
    rewrite alignment_mask_ones, Z.land_ones by (apply Z.mod_pos_bound; lia).
    pose proof (Z.mod_0_l (2 ^ (logAlignment data mod 32)) ltac:(apply Z.pow_nonzero; [lia|apply Z.mod_pos_bound; lia])).
    destruct (Z.eqb_spec ptr 0) as [->|Hz]; [by split_and!; intuition|].
    destruct (Z.eqb_spec (ptr mod 2 ^ (logAlignment data mod 32)) 0) as [E0|E0]; cbn [negb]; split_and!; intuition discriminate.
  - intros Hlock. unfold printUBsan. destruct (number_total 100 0 (line (location data))) as (l & El).
    destruct (number_total 100 0 (column (location data))) as (c & Ec). unfold d_. rewrite El, Ec.
    cbn [mbind result_bind]. by apply log_held.
Qed.

End Handlers.
End Ubsan.

(** A port that is always ready; a pointer to an object of 8 bytes, in the
    record of a compiler that puts a byte of another kind above the alignment. *)
#[local] Abbreviation ready_devices := (Mmio.mk_machine (fun _ _ _ => 0x20) (fun _ _ _ => 0) (fun _ _ => 0)).
#[local] Abbreviation logging := (Kernel.with_serial (Serial.mk true false) Main.demo_state).
#[local] Abbreviation misaligned := (Ubsan.mkMismatch (Ubsan.mkLocation (Kernel.text "a.c") 12 3) (0x100 + 3)).

Lemma mismatch_reports_witness : exists h,
  Ubsan.handle_type_mismatch_v1 ready_devices 1 misaligned 0x1004 logging = Ret (Kernel.with_ports h logging) /\
  Ubsan.mismatch misaligned 0x1004 = "use of misaligned pointer"%string.
Proof.
  destruct (Ubsan.mismatch_reports ready_devices 1 misaligned 0x1004 logging (fun h => eq_refl)
    ltac:(lia) ltac:(cbn; lia) ltac:(cbn; lia)) as [H _].
  destruct (H ltac:(by split)) as (message & l & c & h & E & _). exists h. split; [exact E|reflexivity].
Defined.

(** ** The exceptions of [idt.cpp] *)
Module Exception.
Import Kernel.

Definition exception_messages : list string :=
  ["Division by zero"; "Debug"; "Non-maskable interrupt"; "Breakpoint"; "Detected overflow"; "Out-of-bounds";
   "Invalid opcode"; "No coprocessor"; "Double fault"; "Coprocessor segment overrun"; "Bad TSS"; "Segment not present";
   "Stack fault"; "General protection fault"; "Page fault"; "Unknown interrupt"; "Coprocessor fault"; "Alignment check";
   "Machine check"; "Reserved"; "Reserved"; "Reserved"; "Reserved"; "Reserved"; "Reserved"; "Reserved"; "Reserved";
   "Reserved"; "Reserved"; "Reserved"; "Reserved"; "Reserved"]%string.

(** Never cleared. *)
Definition halt : bool := true.

Definition panic_tag : list Z := [10; 91; 27] ++ text "[31mPANIC" ++ [27] ++ text "[0m] ".

(** The [case]s that print the error code. *)
Definition has_error_code (int_no : Z) : bool :=
  (int_no =? 8) || (int_no =? 10) || (int_no =? 11) || (int_no =? 12) || (int_no =? 13) || (int_no =? 14).

Section Handler.
(** The local APIC's number in the processor's record. *)
Context (d : Mmio.machine) (fuel : nat) (lapicID : Z).

Definition newline (s : t) : result t :=
  '(sr, h) ← Serial.newline (Mmio.ports d) fuel (serial s) (ports s); Ret (with_ports h (with_serial sr s)).

Definition message (int_no : Z) : result (list Z) :=
  match exception_messages !! Z.to_nat int_no with Some x => Ret (text x) | None => Fault end.

Definition tagged (x : list Z) : list Z := tl panic_tag ++ x ++ [10].

Definition exception_handler (regs : Scheduler.registers_t) (s : t) : result (Idt.outcome * t) :=
  let int_no := Scheduler.int_no regs in
  s ← log d fuel (text "System exception!") s;
  x ← message int_no;
  n ← d_ lapicID;
  s ← log d fuel (text "Exception: " ++ x ++ text " on CPU " ++ n) s;
  e ← hex (Scheduler.error_code regs);
  s ← log d fuel (text "Error code: 0x" ++ e) s;
  if negb halt then s ← newline s; Ret (Idt.Resume regs, s) else
  s ← printf (panic_tag ++ line "System Exception!") s;
  s ← printf (tagged (text "Exception: " ++ x ++ text " on CPU " ++ n)) s;
  s ← (if has_error_code int_no then printf (tagged (text "Error code: 0x" ++ e)) s else Ret s);
  s ← printf (tagged (text "System halted!")) s;
  s ← log d fuel (line "System halted!") s;
  '(_, st) ← Idt.exception_handler regs (sched_view s);
  Ret (Idt.Halted, with_ports (Scheduler.ports st) (with_sched st s)).

(** [panic] of [lib/panic.cpp], up to its endless [cli; hlt]; the name of the
    file is a text. *)
Definition panic (message file : list Z) (line_number : Z) (s : t) : result t :=
  n ← number 117 Printf.FLAGS_LONG line_number;
  s ← log d fuel message s;
  s ← log d fuel (text "File: " ++ file) s;
  s ← log d fuel (text "Line: " ++ n) s;
  s ← log d fuel (line "System halted!") s;
  s ← printf (panic_tag ++ message) s;
  s ← printf (panic_tag ++ text "File: " ++ file) s;
  s ← printf (panic_tag ++ text "Line: " ++ n) s;
  printf (panic_tag ++ line "System halted!") s.

(** [int_handler], with what the code at a handler's address does. *)
Definition int_handler (file : list Z) (call : Z -> Scheduler.registers_t -> Scheduler.M Scheduler.registers_t)
    (regs : Scheduler.registers_t) (s : t) : result (Idt.outcome * t) :=
  let int_no := Scheduler.int_no regs in
  if int_no <? 32 then exception_handler regs s
  else if int_no <? 256 then
    '(regs, st) ← Idt.irq_handler (acpi s) call (idt s) (apic s) regs (sched_view s);
    Ret (Idt.Resume regs, with_ports (Scheduler.ports st) (with_sched st s))
  else s ← panic (text "Unknown interrupt!") file 171 s; Ret (Idt.Halted, s).

(** ** Properties *)

(** The messages, on the serial port before the lines of the terminal. *)
Definition first_lines (x n e : list Z) : list Z :=
  logged (text "System exception!") ++ logged (text "Exception: " ++ x ++ text " on CPU " ++ n) ++
  logged (text "Error code: 0x" ++ e).
Definition panic_lines (int_no : Z) (x n e : list Z) : list Z :=
  panic_tag ++ line "System Exception!" ++ tagged (text "Exception: " ++ x ++ text " on CPU " ++ n) ++
  (if has_error_code int_no then tagged (text "Error code: 0x" ++ e) else []) ++ tagged (text "System halted!").

(** The interrupted thread can be chosen again. *)
Definition suspended (st : Scheduler.st) (th : Scheduler.thread_t) : Scheduler.st :=
  Scheduler.set_IF false
    (if Scheduler.is_state (Scheduler.tstate th) Scheduler.RUNNING then
       Scheduler.set_IF true (Scheduler.set_threads
         (<[Scheduler.currentThread st := Scheduler.set_tstate Scheduler.READY th]> (Scheduler.threads st)) st)
     else st).

Lemma suspended_ports st th : Scheduler.ports (suspended st th) = Scheduler.ports st.
Proof. unfold suspended. by case_match. Qed.

Lemma scheduler_run regs st th : Scheduler.threads st !! Scheduler.currentThread st = Some th ->
  Idt.exception_handler regs st = Ret (tt, suspended st th).
Proof.
  intros Ht. unfold Idt.exception_handler, suspended. Scheduler.run_code. rewrite Ht. cbn.
  destruct (Scheduler.is_state (Scheduler.tstate th) Scheduler.RUNNING); Scheduler.run_code; by rewrite ?Ht.
Qed.

Lemma message_total v : 0 <= v < 32 -> exists x, message v = Ret (text x) /\ exception_messages !! Z.to_nat v = Some x.
Proof.
  intros Hv. destruct (lookup_lt_is_Some_2 exception_messages (Z.to_nat v)) as [x Hx]; [cbn; lia|].
  exists x. unfold message. by rewrite Hx.
Qed.

Lemma printf_held c x s : Terminal.termLock (term s) = true -> printf (c :: x) s = Diverge.
Proof. intros Hl. unfold printf, Terminal.puts, Terminal._putchar, Terminal.printc, Terminal.print. by rewrite Hl. Qed.

(** The lines on the terminal. *)
Lemma say_panic {A} v x n e s (k : t -> result A) : Terminal.termLock (term s) = false ->
  (s ← printf (panic_tag ++ line "System Exception!") s;
   s ← printf (tagged (text "Exception: " ++ x ++ text " on CPU " ++ n)) s;
   s ← (if has_error_code v then printf (tagged (text "Error code: 0x" ++ e)) s else Ret s);
   s ← printf (tagged (text "System halted!")) s; k s) = k (with_term (Main.shown (panic_lines v x n e) (term s)) s).
Proof.
  intros Hl. rewrite Main.puts_said by done. cbn [mbind result_bind]. rewrite Main.puts_said by done.
  cbn [mbind result_bind]. unfold panic_lines.
  destruct (has_error_code v); [rewrite Main.puts_said by done|]; cbn [mbind result_bind];
    rewrite Main.puts_said by done; cbn [mbind result_bind]; unfold Main.said, Main.shown; cbn [term with_term];
    rewrite !Main.append_said, <- !app_assoc; reflexivity.
Qed.

(** C36: an exception is reported on the serial port and on the terminal by its
    name, the processor and, on the terminal for the six exceptions that the
    [switch] lists, the error code; then the thread that ran is ready again,
    interrupts are off and the processor halts; nothing else changes.  While the
    interrupted code holds the serial port's lock or the terminal's, the handler
    never returns and the second report is lost. *)
Theorem exception_panics regs s th (Hn : forall h, Serial.within (Mmio.ports d) 0x20 fuel h = true)
  (Hv : 0 <= Scheduler.int_no regs < 32) (He : 0 <= Scheduler.error_code regs < 2 ^ 64) (Hid : 0 <= lapicID < 2 ^ 31)
  (Hth : Scheduler.threads (sched s) !! Scheduler.currentThread (sched s) = Some th) :
  (can_log s -> exists x n e h1,
     exception_messages !! Z.to_nat (Scheduler.int_no regs) = Some x /\
     numeral 10 lapicID n /\ numeral 16 (Scheduler.error_code regs) e /\
     Serial.transmits (Mmio.ports d) (first_lines (text x) n e) (ports s) h1 /\
     (Terminal.termLock (term s) = false -> exists h2,
        Serial.transmits (Mmio.ports d) (logged (line "System halted!")) h1 h2 /\
        exception_handler regs s = Ret (Idt.Halted,
          with_ports h2 (with_sched (suspended (Scheduler.set_ports h2 (sched s)) th)
            (with_term (Main.shown (panic_lines (Scheduler.int_no regs) (text x) n e) (term s)) s)))) /\
     (Terminal.termLock (term s) = true -> exception_handler regs s = Diverge)) /\
  (Serial.serialLock (serial s) = true -> exception_handler regs s = Diverge).
Proof.
  split; [|by intros Hl; unfold exception_handler; rewrite log_held]. intros Hc.
  destruct (message_total _ Hv) as (x & Ex & Hx). destruct (decimal_number lapicID Hid) as (n & En & Vn).
  destruct (hex_number _ He) as (e & Ee & Ve).
  destruct (log_run d fuel (text "System exception!") s Hn Hc) as (h1 & E1 & T1).
  destruct (log_run d fuel (text "Exception: " ++ text x ++ text " on CPU " ++ n) (with_ports h1 s) Hn Hc) as (h2 & E2 & T2).
  destruct (log_run d fuel (text "Error code: 0x" ++ e) (with_ports h2 s) Hn Hc) as (h3 & E3 & T3).
  exists x, n, e, h3. do 3 (split; [done|]). split; [by eapply Serial.transmits_app, Serial.transmits_app|].
  unfold exception_handler. cbv zeta. rewrite E1. cbn [mbind result_bind]. rewrite Ex, En. cbn [mbind result_bind].
  rewrite E2. cbn [mbind result_bind]. rewrite Ee. cbn [mbind result_bind].
  change (with_ports h2 (with_ports h1 s)) with (with_ports h2 s). rewrite E3. cbn [mbind result_bind negb halt].
  change (with_ports h3 (with_ports h2 s)) with (with_ports h3 s). split.
  - intros Hl. set (s4 := with_term (Main.shown (panic_lines (Scheduler.int_no regs) (text x) n e) (term s)) (with_ports h3 s)).
    destruct (log_run d fuel (line "System halted!") s4 Hn Hc) as (h4 & E4 & T4). exists h4. split; [exact T4|].
    rewrite say_panic by exact Hl. change (term (with_ports h3 s)) with (term s). fold s4. rewrite E4. cbn [mbind result_bind]. rewrite (scheduler_run regs _ th) by done. cbn [mbind result_bind].
    rewrite suspended_ports. reflexivity.
  - intros Hl. change (panic_tag ++ line "System Exception!") with (10 :: tl (panic_tag ++ line "System Exception!")).
    by rewrite printf_held.
Qed.

End Handler.
End Exception.

(** A page fault of the first process's thread. *)
#[local] Abbreviation fault_regs :=
  (Scheduler.mkRegs 0 0 0 0 0 0 0 0 0 0 0 0 0 0 0 14 0x2A 0 0 0 0 0).

Lemma exception_panics_witness : exists s',
  Exception.exception_handler ready_devices 1 3 fault_regs logging = Ret (Idt.Halted, s') /\
  Scheduler.IF (Kernel.sched s') = false.
Proof.
  destruct (Exception.exception_panics ready_devices 1 3 fault_regs logging
    (Scheduler.demo_thread Scheduler.RUNNING 2)
    (fun h => eq_refl) ltac:(cbn; lia) ltac:(cbn; lia) ltac:(lia) ltac:(vm_compute; reflexivity)) as [H _].
  destruct (H ltac:(by split)) as (x & n & e & h1 & _ & _ & _ & _ & H1 & _). destruct (H1 eq_refl) as (h2 & _ & E).
  eexists. split; [exact E|reflexivity].
Defined.
