(* ===== verification/Threads.v ===== *)
(** * The threads of the shell's [nano] command

    [myTime] of [apps/turboShell.cpp] and its copy in [kernel/main.cpp] draw the
    time and the free memory in the corner of the screen, [nano] reads lines and
    drops them; both for ever.  One turn of each loop is a function. *)

From S2P Require Import Prelude Mem PortIO Cpu PMemory Str Printf Acpi Keyboard Framebuffer Datetime Ssfn Scheduler Kernel Diagnostics.
#[local] Open Scope Z_scope.
#[local] Open Scope machine_scope.
#[local] Existing Instance result_bind.

Module Threads.

Section Clock.
(** The fuel of the renderer, the real-time clock's ports and century register,
    the addresses of [theTIME] and of [kernelStack]. *)
Context (fuel : nat) (input : PortIO.device) (fadt : option Z) (theTIME kernelStack : Z).

(** The loop that counts the bytes of the stack that still hold ['A']; the
    count is not used. *)
Fixpoint untouched (n : nat) (i size : Z) (m : mem) : Z :=
  match n with
  | O => size
  | S n => if negb (m (kernelStack + i) =? 65) then size else untouched n (i + 1) (size +64 1) m
  end.

(** [%s] of the renderer: every character is read when it is drawn. *)
Fixpoint put_string (n : nat) (p : Z) (s : Ssfn.t) : result Ssfn.t :=
  match n with
  | O => Diverge
  | S n =>
      if Ssfn.memory s p =? 0 then Ret s
      else s ← Ssfn.printc fuel (Ssfn.memory s p) s; put_string n (p + 1) s
  end.

(** [ssfn::printfAt(x, y, "\r%s", p)]; the length of the string is found
    first. *)
Definition printfAt_string (x y p : Z) (s : Ssfn.t) : result Ssfn.t :=
  s ← Ssfn.put_text fuel [13] (Ssfn.set_xy ((x +64 1) *64 8 -64 8) ((y +64 1) *64 16 -64 16) s);
  _ ← Str.strlen fuel (Ssfn.memory s) p;
  s ← put_string fuel p s;
  Ret (Ssfn.cell_pos s).

(** The text of the free memory: [%zu] of the number. *)
Definition free_text (freeRam : Z) : result (list Z) :=
  n ← Kernel.number 117 Printf.FLAGS_LONG (freeRam / 1024 / 1024);
  Ret (13 :: Kernel.text "FREE RAM: " ++ n ++ Kernel.text " KB").

(** One turn: the size, the screen, the history of the clock's ports. *)
Definition myTime_turn (frames : PMemory.state) (s : Ssfn.t) (h : PortIO.history) :
    result (Z * Ssfn.t * PortIO.history) :=
  let size := untouched (Z.to_nat Scheduler.STACK_SIZE) 0 0 (Ssfn.memory s) in
  let s := Ssfn.setColor (Ssfn.fgcolor s) 0x001f52 s in
  '(p, m, h) ← Datetime.getTime input fadt theTIME (Ssfn.memory s) h;
  s ← printfAt_string 0 0 p (Ssfn.with_memory m s);
  x ← free_text (PMemory.getFreeRam frames);
  s ← Ssfn.printfAt fuel 0 1 x s;
  Ret (size, s, h).

(** ** Properties *)

(** The count is that of the bytes before the first that was written. *)
Lemma untouched_spec n i m : 0 <= i -> i + Z.of_nat n < 2 ^ 64 ->
  let r := untouched n i i m in
  i <= r <= i + Z.of_nat n /\ (forall j, i <= j < r -> m (kernelStack + j) = 65) /\
  (r < i + Z.of_nat n -> m (kernelStack + r) <> 65).
Proof.
  revert i. induction n as [|n IH]; intros i Hi Hn; cbn [untouched]; [split_and!; intros; lia|].
  destruct (Z.eqb_spec (m (kernelStack + i)) 65) as [E|E]; cbn [negb]; [|split_and!; intros; lia || done].
  rewrite wrap_small by lia. destruct (IH (i + 1)) as (H1 & H2 & H3); [lia..|].
  split; [lia|]. split; [|intros; apply H3; lia]. intros j Hj. destruct (decide (j = i)) as [->|]; [done|apply H2; lia].
Qed.

(** The number is that of megabytes. *)
Lemma free_text_megabytes freeRam : 0 <= freeRam < 2 ^ 64 ->
  exists n, free_text freeRam = Ret (13 :: Kernel.text "FREE RAM: " ++ n ++ Kernel.text " KB") /\
    numeral 10 (freeRam / 2 ^ 20) n.
Proof.
  intros Hf. unfold free_text. rewrite Z.div_div by lia. set (v := freeRam / (1024 * 1024)).
  assert (Hv : 0 <= v < 2 ^ 44) by (unfold v; split; [apply Z.div_pos; lia|apply Z.div_lt_upper_bound; lia]).
  change (Kernel.number 117 Printf.FLAGS_LONG v) with (Printf.integer_text (u64 v) false 10 0 0 Printf.FLAGS_LONG).
  rewrite wrap_small by lia. destruct (plain_number 10 v Printf.FLAGS_LONG) as (l & -> & Hl);
    [lia|lia|by repeat constructor|]. exists l. split; [reflexivity|exact Hl].
Qed.

End Clock.

(** A turn of [nano]: the line is dropped. *)
Definition nano_turn (retstr kc : Z) (acpi : Acpi.t) (fuel : nat) (es : list Keyboard.event) (s : Keyboard.t) :
    result Keyboard.t :=
  '(p, s) ← Keyboard.run retstr kc acpi fuel es (Keyboard.Acquire, s);
  match p with Keyboard.Returned _ => Ret s | _ => Diverge end.

End Threads.
