(* ===== verification/Handoff.v ===== *)
(** * From the boot loader to [main]

    [kernel.cpp] asks the loader for what it needs by a header in the image and
    is called with a structure in memory.  [entry] is the whole program:
    [_start] of [Boot], what the rest of the kernel reads of the loader's tags,
    and [main].  The structure is not in usable memory, so it is read once. *)

From S2P Require Import Prelude Mem Str PortIO Mmio Cpu Bitmap PMemory Heap HeapBoot Printf Acpi Terminal Serial Framebuffer Ssfn Apic Gdt Keyboard Idt Smp Shell Boot Kernel Main.
#[local] Open Scope Z_scope.
#[local] Open Scope machine_scope.
#[local] Existing Instance result_bind.

(** ** What the kernel asks for *)

Module Header.

Definition TERMINAL_ID : Z := 0xa85d499b1823be72.
Definition SMP_ID : Z := 0x1ab015085f3273df.
Definition FRAMEBUFFER_ID : Z := 0x3ecc1bc43d0f7971.
Definition STACK_SIZE : Z := 0x2000.

Section Image.
(** The addresses of the static objects. *)
Context (kernelStack terminal_hdr_tag smp_hdr_tag framebuffer_hdr_tag stivale_hdr : Z).

(** [struct stivale2_tag] *)
Definition hdr_tag (p id next : Z) (m : mem) : mem := store64 (store64 m p id) (p + 8) next.

Definition terminal_tag (m : mem) : mem :=
  store64 (store64 (hdr_tag terminal_hdr_tag TERMINAL_ID 0 m) (terminal_hdr_tag + 16) 0) (terminal_hdr_tag + 24) 0.

Definition smp_tag (m : mem) : mem :=
  store64 (hdr_tag smp_hdr_tag SMP_ID terminal_hdr_tag m) (smp_hdr_tag + 16) 0.

(** Width, height, depth and padding: any. *)
Definition framebuffer_tag (m : mem) : mem :=
  store64 (hdr_tag framebuffer_hdr_tag FRAMEBUFFER_ID smp_hdr_tag m) (framebuffer_hdr_tag + 16) 0.

(** [LVL5_PAGING] is 0. *)
Definition header (m : mem) : mem :=
  let m := store64 m stivale_hdr 0 in
  let m := store64 m (stivale_hdr + 8) (u64 (kernelStack + STACK_SIZE)) in
  let m := store64 m (stivale_hdr + 16) (Z.lor (Z.lor (Z.lor (Z.shiftl 1 1) (Z.shiftl 1 2)) (Z.shiftl 1 3)) (Z.shiftl 1 4)) in
  store64 m (stivale_hdr + 24) framebuffer_hdr_tag.

Definition image (m : mem) : mem := header (framebuffer_tag (smp_tag (terminal_tag m))).

Definition objects : list (Z * Z) :=
  [(terminal_hdr_tag, 32); (smp_hdr_tag, 24); (framebuffer_hdr_tag, 24); (stivale_hdr, 32)].

Definition apart (a b : Z * Z) : Prop := a.1 + a.2 <= b.1 \/ b.1 + b.2 <= a.1.

Lemma load64_eq m a v : 0 <= v < 2 ^ 64 -> load64 (store64 m a v) a = v.
Proof. apply (load_store_eq 8). Qed.

Lemma load64_ne m a v b : b + 8 <= a \/ a + 8 <= b -> load64 (store64 m a v) b = load64 m b.
Proof. intros H. by apply (load_store_ne 8). Qed.

(** The objects change nothing else. *)
Lemma tag_ne p id next m b : b + 8 <= p \/ p + 16 <= b -> load64 (hdr_tag p id next m) b = load64 m b.
Proof. intros H. unfold hdr_tag. by rewrite !load64_ne by lia. Qed.

Lemma smp_ne m b : b + 8 <= smp_hdr_tag \/ smp_hdr_tag + 24 <= b -> load64 (smp_tag m) b = load64 m b.
Proof. intros H. unfold smp_tag. rewrite load64_ne by lia. apply tag_ne. lia. Qed.

Lemma framebuffer_ne m b :
  b + 8 <= framebuffer_hdr_tag \/ framebuffer_hdr_tag + 24 <= b -> load64 (framebuffer_tag m) b = load64 m b.
Proof. intros H. unfold framebuffer_tag. rewrite load64_ne by lia. apply tag_ne. lia. Qed.

Lemma header_ne m b : b + 8 <= stivale_hdr \/ stivale_hdr + 32 <= b -> load64 (header m) b = load64 m b.
Proof. intros H. unfold header. by rewrite !load64_ne by lia. Qed.

(** What a tag says is read back from behind it. *)
Lemma tag_read p id next m :
  0 <= id < 2 ^ 64 -> 0 <= next < 2 ^ 64 ->
  load64 (hdr_tag p id next m) p = id /\ load64 (hdr_tag p id next m) (p + 8) = next.
Proof. intros Hi Hn. unfold hdr_tag. rewrite load64_ne, !load64_eq by lia. done. Qed.

(** The loader that reads the header is asked for a framebuffer, for the other
    processors and for a terminal, and gets the top of the kernel's stack and
    the flags 1 to 4. *)
Theorem header_asks m :
  Forall (fun o => 0 < o.1 < 2 ^ 64 - 32) objects -> ForallOrdPairs apart objects ->
  let m := image m in
  Boot.chain m (load64 m (stivale_hdr + 24))
    [(framebuffer_hdr_tag, FRAMEBUFFER_ID); (smp_hdr_tag, SMP_ID); (terminal_hdr_tag, TERMINAL_ID)] /\
  load64 m (stivale_hdr + 8) = u64 (kernelStack + STACK_SIZE) /\
  (forall i, 0 <= i < 64 -> Z.testbit (load64 m (stivale_hdr + 16)) i = bool_decide (1 <= i <= 4)).
Proof.
  intros Hr Ha. unfold objects in *.
  repeat match goal with H : Forall _ (_ :: _) |- _ => apply Forall_cons in H as [? H] end.
  repeat match goal with H : ForallOrdPairs _ (_ :: _) |- _ => inversion H; clear H; subst end.
  repeat match goal with H : Forall _ (_ :: _) |- _ => apply Forall_cons in H as [? H] end.
  unfold apart in *. cbn [fst snd] in *. cbv zeta.
  assert (Hid : 0 <= TERMINAL_ID < 2 ^ 64 /\ 0 <= SMP_ID < 2 ^ 64 /\ 0 <= FRAMEBUFFER_ID < 2 ^ 64) by done.
  destruct Hid as (Hi1 & Hi2 & Hi3).
  cbn [Boot.chain]. unfold Boot.identifier, Boot.next, image. split; [|split].
  - assert (E : load64 (header (framebuffer_tag (smp_tag (terminal_tag m)))) (stivale_hdr + 24) = framebuffer_hdr_tag)
      by (unfold header; by rewrite load64_eq by lia).
    rewrite E, !header_ne by lia. unfold framebuffer_tag at 1 2. rewrite !load64_ne by lia.
    destruct (tag_read framebuffer_hdr_tag FRAMEBUFFER_ID smp_hdr_tag (smp_tag (terminal_tag m))) as [-> ->]; [lia..|].
    rewrite !framebuffer_ne by lia. unfold smp_tag at 1 2. rewrite !load64_ne by lia.
    destruct (tag_read smp_hdr_tag SMP_ID terminal_hdr_tag (terminal_tag m)) as [-> ->]; [lia..|].
    rewrite !smp_ne by lia.
    unfold terminal_tag. rewrite !load64_ne by lia.
    destruct (tag_read terminal_hdr_tag TERMINAL_ID 0 m) as [-> ->]; [lia..|]. split_and!; done || lia.
  - unfold header. rewrite !load64_ne by lia. apply load64_eq, wrap_range. lia.
  - unfold header. rewrite load64_ne, load64_eq by done || lia. intros i Hi.
    assert (Hall : forallb (fun i => Bool.eqb (Z.testbit 30 (Z.of_nat i)) (bool_decide (1 <= Z.of_nat i <= 4))) (seq 0 64) = true)
      by (vm_compute; reflexivity).
    rewrite forallb_forall in Hall. specialize (Hall (Z.to_nat i)). rewrite Z2Nat.id in Hall by lia.
    apply Bool.eqb_prop, Hall, in_seq. lia.
Qed.

End Image.
End Header.

(** ** What the rest of the kernel reads of the tags *)

Module Handoff.
Import Kernel Main.

Section Tags.
Context (m : mem).

(** [stivale2_struct_tag_smp]: 40 bytes, then 32 a processor. *)
Definition bsp_lapic_id (p : Z) : Z := load32 m (p + 24).
Definition cpu_count (p : Z) : Z := load64 m (p + 32).
Definition lapic_id (p i : Z) : Z := load32 m (p + 40 + 32 * i + 4).

(** [stivale2_struct_tag_memmap]: 24 bytes, then 24 an entry. *)
Definition entries (p : Z) : Z := load64 m (p + 16).
Definition mmap_entry (p i : Z) : PMemory.mmap_entry :=
  let e := p + 24 + 24 * i in PMemory.Entry (load64 m e) (load64 m (e + 8)) (load32 m (e + 16)).

Definition rsdp_address (p : Z) : Z := load64 m (p + 16).

(** The elements of an array. *)
Definition elements {A} (f : Z -> A) (n : Z) : list A := f <$> seqZ 0 n.

Definition memmap (p : Z) : list PMemory.mmap_entry := elements (mmap_entry p) (entries p).
Definition lapic_ids (p : Z) : list Z := elements (lapic_id p) (cpu_count p).

(** The characters that [%s] prints. *)
Definition string_at (fuel : nat) (p : Z) : result (list Z) := n ← Str.strlen fuel m p; Ret (m <$> seqZ p n).

Fixpoint strings_at (fuel : nat) (ps : list Z) : result (list (list Z)) :=
  match ps with
  | [] => Ret []
  | p :: ps => x ← string_at fuel p; l ← strings_at fuel ps; Ret (x :: l)
  end.

(** [main] and the [init]s dereference the tags of the processors, the memory
    map and the ACPI root without a test. *)
Definition loader_of (fuel : nat) (tg : Boot.tags) (cmdline : Z) : result loader :=
  if (Boot.smp_tag tg =? 0) || (Boot.mmap_tag tg =? 0) || (Boot.rsdp_tag tg =? 0) then Fault else
  c ← string_at fuel cmdline;
  ms ← (if Boot.mod_tag tg =? 0 then Ret None else
        l ← strings_at fuel (elements (Boot.module_string (Boot.mod_tag tg)) (Boot.module_count m (Boot.mod_tag tg)));
        Ret (Some l));
  Ret (mkLoader (lapic_ids (Boot.smp_tag tg)) (bsp_lapic_id (Boot.smp_tag tg)) c ms (rsdp_address (Boot.rsdp_tag tg))).

Lemma string_at_run fuel p x :
  Str.is_str m p x -> Z.of_nat (length x) < 2 ^ 64 -> (length x < fuel)%nat -> string_at fuel p = Ret x.
Proof.
  intros Hs Hb Hf. unfold string_at. rewrite (Str.strlen_spec _ _ _ _ Hs Hb Hf). cbn [mbind result_bind]. f_equal.
  clear Hb Hf. revert p Hs. induction x as [|c x IH]; intros p Hs; [done|]. destruct Hs as (Hc & _ & Hs).
  cbn [length]. rewrite seqZ_cons by lia. rewrite fmap_cons, Hc. f_equal.
  rewrite <- (IH (p + 1) Hs) at 2. f_equal. f_equal; lia.
Qed.

Lemma strings_at_run fuel tag i l :
  Boot.module_strings m tag i l -> Forall (fun x => Z.of_nat (length x) < 2 ^ 64 /\ (length x < fuel)%nat) l ->
  strings_at fuel (Boot.module_string tag <$> seqZ i (Z.of_nat (length l))) = Ret l.
Proof.
  intros Hl Hf. revert i Hl. induction Hf as [|x l [Hx Hx'] _ IH]; intros i Hl; [done|]. destruct Hl as [Hs Hl].
  cbn [length]. rewrite seqZ_cons, fmap_cons by lia. cbn [strings_at].
  rewrite (string_at_run _ _ x) by done. cbn [mbind result_bind].
  replace (Z.succ i) with (i + 1) by lia. replace (Z.pred (Z.of_nat (S (length l)))) with (Z.of_nat (length l)) by lia.
  by rewrite (IH _ Hl).
Qed.

End Tags.

(** ** [_start] to the end *)

Section Entry.
Context (im : image) (d : Mmio.machine) (cpuid : Z -> option Cpu.leaf) (fuel : nat).
Context (other : Smp.core) (ticks : list Z) (order : list Smp.actor).
(** The addresses of [COM1_Handler], of the font and of ["nocom"]. *)
Context (COM1_Handler font nocom : Z).

Definition with_memmap (es : list PMemory.mmap_entry) (s : t) : t :=
  let f := frames s in
  with_frames (PMemory.mk (PMemory.memory f) (PMemory.bitmap f) (PMemory.isInit f) (PMemory.highPage f) (PMemory.last f)
    (PMemory.usedRam f) (PMemory.freeRam f) (PMemory.mmLock f) es) s.

(** [registerInterruptHandler(idt::IRQ4, COM1_Handler)] *)
Definition register_com1 (h : PortIO.history) (k : t * Ssfn.t) : result (PortIO.history * (t * Ssfn.t)) :=
  let '(s, x) := k in
  '(h, i) ← register d Idt.IRQ4 COM1_Handler (memory s) (acpi s) (apic s) h (idt s);
  Ret (h, (with_idt i s, x)).

(** [_start] on the kernel and the text renderer. *)
Definition boot (stivale : Z) (s : t) (x : Ssfn.t) : result (Boot.machine (t * Ssfn.t)) :=
  Boot.start (Mmio.ports d) fuel register_com1 (fun f '(s, x) => Ret (s, Ssfn.init f font x))
    nocom stivale (memory s) (serial s) (term s) (ports s) (s, x).

(** The state that [main] is called in. *)
Definition booted (mc : Boot.machine (t * Ssfn.t)) : t :=
  let s := (Boot.rest mc).1 in
  with_memmap (memmap (memory s) (Boot.mmap_tag (Boot.found mc)))
    (with_term (Boot.term mc) (with_serial (Boot.serial mc) (with_ports (Boot.ports mc) s))).

Definition entry (stivale : Z) (ess : list (list Keyboard.event)) (s : t) (x : Ssfn.t) : result (Shell.outcome * Heap.state) :=
  mc ← boot stivale s x;
  ld ← loader_of (memory s) fuel (Boot.found mc) (Boot.cmdline mc);
  main ld im d cpuid fuel other ticks order ess (booted mc).

(** The loader's structure in memory: a list of tags, the command line [c] and
    the strings [ms] of the modules, with fuel for all of them. *)
Record described (m : mem) (stivale : Z) (l : list (Z * Z)) (c : list Z) (ms : list (list Z)) : Prop := {
  de_chain : Boot.chain m (Boot.struct_tags m stivale) l /\ (length l < fuel)%nat;
  de_tags : let tg := Boot.tags_of l in
    Boot.smp_tag tg <> 0 /\ Boot.mmap_tag tg <> 0 /\ Boot.rsdp_tag tg <> 0 /\ Boot.frm_tag tg <> 0 /\
    Boot.term_tag tg <> 0 /\ Boot.mod_tag tg <> 0 /\ Boot.cmd_tag tg <> 0;
  de_cmdline : let p := Boot.cmdline_of m (Boot.cmd_tag (Boot.tags_of l)) in
    Str.is_str m p c /\ 0 < p /\ Z.of_nat (length c) < 2 ^ 64;
  de_nocom : Str.is_str m nocom (text "nocom") /\ ((length c + 1) * 6 < fuel)%nat;
  de_modules : let p := Boot.mod_tag (Boot.tags_of l) in
    Boot.module_strings m p 0 ms /\ Boot.module_count m p = Z.of_nat (length ms) /\
    Forall (fun x => Z.of_nat (length x) < 2 ^ 64 /\ (length x < fuel)%nat) ms;
}.

Definition loaded (m : mem) (l : list (Z * Z)) (c : list Z) (ms : list (list Z)) : loader :=
  let tg := Boot.tags_of l in
  mkLoader (lapic_ids m (Boot.smp_tag tg)) (bsp_lapic_id m (Boot.smp_tag tg)) c (Some ms) (rsdp_address m (Boot.rsdp_tag tg)).

Lemma loader_of_run m stivale l c ms :
  described m stivale l c ms ->
  loader_of m fuel (Boot.tags_of l) (Boot.cmdline_of m (Boot.cmd_tag (Boot.tags_of l))) = Ret (loaded m l c ms).
Proof.
  intros [_ (H1 & H2 & H3 & _ & _ & H6 & _) (Hc & _ & Hcb) [_ Hf] (Hm & Hn & Hfm)]. unfold loader_of.
  apply Z.eqb_neq in H1, H2, H3, H6. rewrite H1, H2, H3, H6. cbn [orb].
  rewrite (string_at_run _ _ _ c) by (done || lia). cbn [mbind result_bind].
  unfold elements. rewrite Hn, (strings_at_run _ _ _ _ _ Hm Hfm). reflexivity.
Qed.

(** [_start] returns with the serial port initialised unless the command line
    says ["nocom"], and the terminal as large as the loader says. *)
Lemma boot_run stivale l c ms s x :
  described (memory s) stivale l c ms ->
  Serial.isInit (serial s) = false -> Serial.serialLock (serial s) = false -> Apic.isInit (apic s) = false ->
  exists mc hs, boot stivale s x = Ret mc /\ Boot.found mc = Boot.tags_of l /\
    Boot.cmdline mc = Boot.cmdline_of (memory s) (Boot.cmd_tag (Boot.tags_of l)) /\
    Boot.term mc = Terminal.init (Boot.term_cols (memory s) (Boot.term_tag (Boot.tags_of l)))
      (Boot.term_rows (memory s) (Boot.term_tag (Boot.tags_of l))) (term s) /\
    Boot.serial mc = Serial.mk (bool_decide (Str.find_sub (text "nocom") c = None)) false /\
    (Boot.rest mc).1 = with_idt (Idt.with_handlers hs (idt s)) s.
Proof.
  intros [[Hch Hlen] (_ & _ & _ & H4 & H5 & _ & H7) (Hc & Hp & _) [Hno Hf] _] Hi Hl Ha. unfold boot, Boot.start.
  rewrite (Boot.find_tags_run _ _ _ _ Hch Hlen). cbn [mbind result_bind].
  apply Z.eqb_neq in H4, H5, H7. rewrite H7.
  rewrite (Str.strstr_run _ _ _ _ c (text "nocom")) by (done || (cbn; lia)). cbn [mbind result_bind].
  destruct (Str.find_sub (text "nocom") c) as [k|] eqn:E.
  - destruct (Z.eqb_spec (Boot.cmdline_of (memory s) (Boot.cmd_tag (Boot.tags_of l)) + Z.of_nat k) 0); [lia|].
    cbn [mbind result_bind]. rewrite H4. cbn [mbind result_bind]. rewrite H5.
    eexists _, (Idt.interrupt_handlers (idt s)). split; [reflexivity|]. cbn. split_and!; try done.
    + destruct (serial s). cbn in *. by subst.
    + destruct s as [? ? ? ? ? ? ? ? []]. reflexivity.
  - cbn [Z.eqb].
    assert (Hr : forall h, register_com1 h (s, x) = Ret (h, (with_idt (Idt.with_handlers
          (<[Z.to_nat Idt.IRQ4 := COM1_Handler]> (Idt.interrupt_handlers (idt s))) (idt s)) s, x))).
    { intros h. unfold register_com1, register, Idt.registerInterruptHandler. by rewrite Ha. }
    destruct (Serial.init_sends_no_colour (Mmio.ports d) fuel register_com1 (serial s) (ports s) (s, x) _ Hi Hl Hr) as (h' & -> & _).
    cbn [mbind result_bind]. rewrite H4. cbn [mbind result_bind]. rewrite H5.
    eexists _, _. split; [reflexivity|]. cbn. split_and!; try done. unfold Serial.with_init. by rewrite Hl.
Qed.

(** The part of [s] that [_start] and the greeting of [main] leave alone. *)
Record greeted (m : mem) (l : list (Z * Z)) (c : list Z) (s s0 : t) : Prop := {
  gr_frames : frames s0 = frames (with_memmap (memmap m (Boot.mmap_tag (Boot.tags_of l))) s);
  gr_serial : serial s0 = Serial.mk (bool_decide (Str.find_sub (text "nocom") c = None)) false;
  gr_term : exists es, term s0 = Terminal.append es
    (Terminal.init (Boot.term_cols m (Boot.term_tag (Boot.tags_of l))) (Boot.term_rows m (Boot.term_tag (Boot.tags_of l))) (term s));
  gr_idt : exists hs, idt s0 = Idt.with_handlers hs (idt s);
  gr_rest : heap s0 = heap s /\ vmm s0 = vmm s /\ kernel_pagemap s0 = kernel_pagemap s /\ gdt s0 = gdt s /\
    core s0 = core s /\ acpi s0 = acpi s /\ apic s0 = apic s /\ hpet s0 = hpet s /\ pci s0 = pci s /\
    sched s0 = sched s /\ smp s0 = smp s /\ cpus s0 = cpus s /\ kbd s0 = kbd s /\ mouse s0 = mouse s /\ vfs s0 = vfs s;
}.

Lemma greeted_ready ld m l c s s0 high size :
  greeted m l c s s0 -> core_ready ld im (with_memmap (memmap m (Boot.mmap_tag (Boot.tags_of l))) s) high size ->
  core_ready ld im s0 high size.
Proof.
  intros [Hf _ [es Ht] [hs Hi] (H1 & H2 & H3 & H4 & _)] [R1 R2 R3 R4 R5 R6 R7 R8 R9].
  split; rewrite ?Hf, ?Ht, ?Hi, ?H1, ?H2, ?H3, ?H4; done.
Qed.

(** C7: the whole program, from its entry.  Given the loader's structure in
    memory with every tag that the code dereferences, a memory map with room and
    a serial line that gets free if it is used, [_start] and [main] reach the
    sixth stage: the serial port is on unless the command line says ["nocom"],
    the terminal has the loader's size, and memory management, segments and
    interrupts are set up for the loader's processors as [core_started] says;
    what remains is to start the devices and run the shell. *)
Theorem entry_starts stivale l c ms ess s x high size
  (Hd : described (memory s) stivale l c ms)
  (Hs : Serial.isInit (serial s) = false /\ Serial.serialLock (serial s) = false /\ Apic.isInit (apic s) = false)
  (Hn : Str.find_sub (text "nocom") c = None -> forall h, Serial.within (Mmio.ports d) 0x20 fuel h = true)
  (Hr : core_ready (loaded (memory s) l c ms) im (with_memmap (memmap (memory s) (Boot.mmap_tag (Boot.tags_of l))) s) high size) :
  let ld := loaded (memory s) l c ms in
  exists s0 s' bs p n q k,
    entry stivale ess s x = (s2 ← start_devices ld im d cpuid fuel other ticks order s'; shell_run im d fuel ticks ess s2) /\
    greeted (memory s) l c s s0 /\ core_started ld im s0 s' bs p n q k.
Proof.
  destruct Hs as (Hi & Hl & Ha). cbv zeta.
  destruct (boot_run stivale l c ms s x Hd Hi Hl Ha) as (mc & hs & E & Hfound & Hcmd & Hterm & Hser & Hrest).
  unfold entry. rewrite E. cbn [mbind result_bind]. rewrite Hfound, Hcmd, (loader_of_run _ _ _ _ _ Hd). cbn [mbind result_bind].
  assert (Hp : can_print d fuel (booted mc)).
  { split; [|split]; unfold booted; cbn; rewrite ?Hterm, ?Hser; cbn; [apply Hr|done|]. intros H%bool_decide_eq_true_1. by apply Hn. }
  destruct (announce_tells (loaded (memory s) l c ms) d fuel ms eq_refl (booted mc) Hp) as (s0 & E0 & h & es & v & Hs0).
  assert (G : greeted (memory s) l c s s0).
  { subst s0. unfold booted. rewrite Hrest, Hfound, Hterm, Hser. split; [done|done|by exists es|by exists hs|done]. }
  destruct (core_starts _ im s0 high size (greeted_ready _ _ _ _ _ _ _ _ G Hr)) as (s' & bs & p & n & q & k & E1 & C).
  exists s0, s', bs, p, n, q, k. split; [|by split]. unfold main, start_all. rewrite E0. cbn [mbind result_bind].
  rewrite E1. reflexivity.
Qed.

End Entry.
(** ** A loader's structure *)

(** The [n] bytes of a number, the lowest first. *)
Fixpoint bytes (n : nat) (v : Z) : list Z :=
  match n with O => [] | S n => v mod 256 :: bytes n (v / 256) end.

(** Seven tags from 0x401000 on: two processors, three megabytes of memory, one
    module; the strings behind them. *)
Definition demo_structure : list (Z * list Z) :=
  [(0x400080, bytes 8 0x401000);
   (0x401000, bytes 8 Boot.SMP_ID ++ bytes 8 0x401100 ++ bytes 8 0 ++ bytes 8 0 ++ bytes 8 2 ++
              bytes 32 0 ++ bytes 4 1 ++ bytes 4 1 ++ bytes 24 0);
   (0x401100, bytes 8 Boot.MEMMAP_ID ++ bytes 8 0x401200 ++ bytes 8 2 ++
              bytes 8 0 ++ bytes 8 0x1000 ++ bytes 8 2 ++ bytes 8 0x1000 ++ bytes 8 0x300000 ++ bytes 8 1);
   (0x401200, bytes 8 Boot.RSDP_ID ++ bytes 8 0x401300 ++ bytes 8 0x7100);
   (0x401300, bytes 8 Boot.FRAMEBUFFER_ID ++ bytes 8 0x401400 ++ bytes 8 0xFD000000 ++
              bytes 2 1024 ++ bytes 2 768 ++ bytes 2 4096 ++ bytes 2 32);
   (0x401400, bytes 8 Boot.TERMINAL_ID ++ bytes 8 0x401500 ++ bytes 4 0 ++ bytes 2 80 ++ bytes 2 25);
   (0x401500, bytes 8 Boot.MODULES_ID ++ bytes 8 0x401600 ++ bytes 8 1 ++ bytes 16 0 ++ text "font" ++ [0]);
   (0x401600, bytes 8 Boot.CMDLINE_ID ++ bytes 8 0 ++ bytes 8 0x402000);
   (0x402000, text "quiet nocom" ++ [0]); (0x403000, text "nocom" ++ [0])].

Definition handed_over : mem := foldr (fun x m => bytes_at x.1 x.2 m) (fun _ => 0) demo_structure.

Definition demo_tags : list (Z * Z) :=
  [(0x401000, Boot.SMP_ID); (0x401100, Boot.MEMMAP_ID); (0x401200, Boot.RSDP_ID); (0x401300, Boot.FRAMEBUFFER_ID);
   (0x401400, Boot.TERMINAL_ID); (0x401500, Boot.MODULES_ID); (0x401600, Boot.CMDLINE_ID)].

Definition demo_before : t := with_memory handed_over demo_state.

Lemma handed_over_wf : mem_wf handed_over.
Proof.
  assert (H : Forall (fun x => Forall (fun v => 0 <= v < 256) x.2) demo_structure).
  { apply (bool_decide_eq_true_1 (Forall (fun x => Forall (fun v => 0 <= v < 256) x.2) demo_structure)).
    vm_compute. reflexivity. }
  unfold handed_over. induction H as [|x l Hx _ IH]; [by intros a|]. cbn [foldr]. by apply bytes_at_wf.
Qed.

Lemma demo_described : described 100 0x403000 handed_over 0x400000 demo_tags (text "quiet nocom") [text "font"].
Proof.
  split.
  - split; [vm_compute; repeat split; discriminate|cbn; lia].
  - vm_compute. repeat split; discriminate.
  - split; [vm_compute; repeat split; discriminate|]. split; [by vm_compute|by vm_compute].
  - split; [vm_compute; repeat split; discriminate|cbn; lia].
  - split; [vm_compute; repeat split; discriminate|]. split; [by vm_compute|]. repeat constructor; cbn; lia.
Qed.

Lemma demo_memmap : memmap handed_over 0x401100 = PMemory.memmap demo_frames.
Proof. vm_compute. reflexivity. Qed.

Lemma demo_loaded : loaded handed_over demo_tags (text "quiet nocom") [text "font"] =
  mkLoader [0; 1] 0 (text "quiet nocom") (Some [text "font"]) 0x7100.
Proof. vm_compute. reflexivity. Qed.

Lemma demo_before_ready : core_ready (loaded handed_over demo_tags (text "quiet nocom") [text "font"])
  (demo_image (fun _ => 0x4000)) (with_memmap (memmap handed_over 0x401100) demo_before) 0x301000 0x1000.
Proof. rewrite demo_memmap. apply (demo_ready _ handed_over handed_over_wf). rewrite demo_loaded. done. Qed.

(** What is left to do with the structure: the devices of two processors. *)
Lemma entry_starts_witness : exists s' bs,
  entry (demo_image (fun _ => 0x4000)) demo_devices (fun _ => None) 100 demo_core [] [] 0x3700 0x500000 0x403000
    0x400000 [] demo_before Ssfn.ssfn_demo =
    (s2 ← start_devices (mkLoader [0; 1] 0 (text "quiet nocom") (Some [text "font"]) 0x7100)
            (demo_image (fun _ => 0x4000)) demo_devices (fun _ => None) 100 demo_core [] [] s';
     shell_run (demo_image (fun _ => 0x4000)) demo_devices 100 [] [] s2) /\
  HeapBoot.sound (heap_state s') bs /\ Idt.IF (Smp.interrupts (core s')) = true.
Proof.
  destruct (entry_starts (demo_image (fun _ => 0x4000)) demo_devices (fun _ => None) 100 demo_core [] [] 0x3700 0x500000 0x403000
    0x400000 demo_tags (text "quiet nocom") [text "font"] [] demo_before Ssfn.ssfn_demo 0x301000 0x1000
    demo_described ltac:(done) ltac:(intros H; vm_compute in H; discriminate H) demo_before_ready)
    as (s0 & s' & bs & p & n & q & k & E & _ & C).
  exists s', bs. split; [|split; [apply C|apply C]]. rewrite <- demo_loaded. exact E.
Defined.

End Handoff.
